(** * geomdl.BSpline: B-spline curves and surfaces

    A shallow embedding of [geomdl/BSpline.py] (classes [Curve] and
    [Surface]) and of the parts of [geomdl.utilities] it calls.

    Conventions of the embedding.
    - In [Curve] and [Surface] a Python [float] is a rational number ([Q])
      and the arithmetic is exact: these modules have no rounding, no
      infinity and no [NaN].  The concrete inputs given to them are dyadic
      rationals with small numerators, on which binary64 arithmetic is
      exact as well.
    - In [Binary64] a Python [float] is a binary64 number ([float]) and
      every operation rounds as IEEE 754 does.  It holds the evaluation of
      a curve, the two derivative algorithms and the setters of [delta]:
      the code whose result depends on rounding or on [NaN].
    - A Python [int] is a [Z]; list subscripts follow Python (a negative
      subscript counts from the end, anything else out of range raises
      [IndexError]).
    - An exception is a value of [exn]; a computation that may raise lives in
      [result].  A method that mutates its object is a function from the
      object to an [outcome]: the result, the object as the call leaves it
      (also when it raises) and the warnings it issued. *)

From Stdlib Require Import ZArith QArith Qabs Qround Lia Lqa Bool Floats.
From stdpp Require Import base list.

Open Scope Z_scope.

(** ** Python primitives *)

Module Py.

Inductive exn : Set :=
| ValueError
| IndexError
| ZeroDivisionError
| UnboundLocalError
| TypeError.

Inductive result (A : Type) : Type :=
| Ok (a : A)
| Raise (e : exn).
Arguments Ok {A} a.
Arguments Raise {A} e.

Definition bind {A B} (m : result A) (f : A -> result B) : result B :=
  match m with
  | Ok a => f a
  | Raise e => Raise e
  end.

(** [warnings.warn]: which direction of which object could not take [r]
    more knots ("Cannot insert r number of knots ..."). *)
Inductive warning : Set :=
| CannotInsert (r : Z)
| CannotInsertU (r : Z)
| CannotInsertV (r : Z).

Record outcome (S A : Type) : Type := Outcome {
  res : result A;
  post : S;
  warned : list warning
}.
Arguments Outcome {S A} res post warned.
Arguments res {S A} o.
Arguments post {S A} o.
Arguments warned {S A} o.

Definition method (S A : Type) : Type := S -> outcome S A.

Definition ret {S A} (a : A) : method S A := fun s => Outcome (Ok a) s [].
Definition seq_ {S A B} (m : method S A) (f : A -> method S B) : method S B :=
  fun s =>
    let o := m s in
    match res o with
    | Ok a => let o' := f a (post o) in
              Outcome (res o') (post o') (warned o ++ warned o')
    | Raise e => Outcome (Raise e) (post o) (warned o)
    end.

Definition get {S} : method S S := fun s => Outcome (Ok s) s [].
Definition put {S} (s : S) : method S unit := fun _ => Outcome (Ok tt) s [].
Definition raise {S A} (e : exn) : method S A := fun s => Outcome (Raise e) s [].
Definition warn {S} (w : warning) : method S unit := fun s => Outcome (Ok tt) s [w].
Definition lift {S A} (r : result A) : method S A := fun s => Outcome r s [].
Definition pass {S} : method S unit := fun s => Outcome (Ok tt) s [].

(** [for x in l: body] with the loop-carried variables in [acc]. *)
Fixpoint for_ {A X} (l : list X) (body : X -> A -> result A) (acc : A) : result A :=
  match l with
  | [] => Ok acc
  | x :: l' => bind (body x acc) (for_ l' body)
  end.

(** [for x in l: body] where the body works on the object. *)
Fixpoint for_each {S X} (l : list X) (body : X -> method S unit) : method S unit :=
  match l with
  | [] => pass
  | x :: l' => seq_ (body x) (fun _ => for_each l' body)
  end.

(** [[f(x) for x in l]] *)
Fixpoint comprehension {X B} (f : X -> result B) (l : list X) : result (list B) :=
  match l with
  | [] => Ok []
  | x :: l' => bind (f x) (fun y => bind (comprehension f l') (fun ys => Ok (y :: ys)))
  end.

(** [range(a, b)] *)
Definition range (a b : Z) : list Z :=
  map (fun i => a + Z.of_nat i) (seq 0 (Z.to_nat (b - a))).

Definition len {A} (l : list A) : Z := Z.of_nat (length l).

(** The position a subscript [i] denotes in a list of length [n]. *)
Definition index (n : nat) (i : Z) : result nat :=
  if (0 <=? i) && (i <? Z.of_nat n) then Ok (Z.to_nat i)
  else if (- Z.of_nat n <=? i) && (i <? 0) then Ok (Z.to_nat (Z.of_nat n + i))
  else Raise IndexError.

(** [l[i]] *)
Definition getitem {A} (l : list A) (i : Z) : result A :=
  match index (length l) i with
  | Ok n => match l !! n with Some x => Ok x | None => Raise IndexError end
  | Raise e => Raise e
  end.

(** [l[i] = x] *)
Definition setitem {A} (l : list A) (i : Z) (x : A) : result (list A) :=
  match index (length l) i with
  | Ok n => Ok (<[n := x]> l)
  | Raise e => Raise e
  end.

(** [M[i][j]] and [M[i][j] = x] *)
Definition get2 {A} (M : list (list A)) (i j : Z) : result A :=
  bind (getitem M i) (fun row => getitem row j).

Definition set2 {A} (M : list (list A)) (i j : Z) (x : A) : result (list (list A)) :=
  bind (getitem M i) (fun row => bind (setitem row j x) (fun row => setitem M i row)).

(** [[x for _ in range(n)]] *)
Definition replicateZ {A} (n : Z) (x : A) : list A := replicate (Z.to_nat n) x.

(** [a / b] on floats *)
Definition fdiv (a b : Q) : result Q :=
  if Qeq_bool b 0 then Raise ZeroDivisionError else Ok (a / b)%Q.

(** Truth value of an optional float argument: [None] and [0.0] are false. *)
Definition truthy (x : option Q) : bool :=
  match x with
  | Some q => negb (Qeq_bool q 0)
  | None => false
  end.

(** Truth value of a list: empty is false. *)
Definition nonempty {A} (l : list A) : bool :=
  match l with [] => false | _ => true end.

End Py.
Import Py.

Notation "x <- e ;; k" := (Py.bind e (fun x => k))
  (at level 100, e at next level, right associativity).
Notation "e ;;; k" := (Py.bind e (fun _ => k))
  (at level 100, right associativity).
Notation "x <~ e ;; k" := (Py.seq_ e (fun x => k))
  (at level 100, e at next level, right associativity).
Notation "e ;;~ k" := (Py.seq_ e (fun _ => k))
  (at level 100, right associativity).

(** ** geomdl.utilities

    [BSpline.py] calls these functions of [geomdl.utilities]; the module is
    not part of the sources at hand.  The classes below take the module as a
    parameter [U]; [utils] further down is an instance written from the
    specification. *)

Module utilities.

Record t : Type := {
  check_uv : option Q -> option Q -> result unit;
  find_multiplicity : Q -> list Q -> result Z;
  find_span : Z -> list Q -> Z -> Q -> result Z;
  basis_functions : Z -> list Q -> Z -> Q -> result (list Q);
  basis_functions_all : Z -> list Q -> Z -> Q -> result (list (list Q));
  basis_functions_ders : Z -> list Q -> Z -> Q -> Z -> result (list (list Q));
  frange : Q -> Q -> Q -> list Q
}.

(** The two functions on knot vectors that the [knotvector] setters call. *)
Record knots : Type := {
  normalize_knot_vector : list Q -> result (list Q);
  check_knot_vector : Z -> list Q -> Z -> bool
}.

(** The two functions on vectors that the tangent and normal methods
    call. *)
Record vectors : Type := {
  vector_normalize : list Q -> result (list Q);
  vector_cross : list Q -> list Q -> result (list Q)
}.

End utilities.

(** ** The specification's model of geomdl.utilities *)

Module spec.

Definition in_unit (x : Q) : bool := Qle_bool 0 x && Qle_bool x 1.

(** Modelled from the spec: [utilities.check_uv] is missing.  Section 7,
    parameter-domain errors: "u or v outside [0,1] ... fail immediately at
    the evaluation call". *)
Definition check_uv (u v : option Q) : result unit :=
  match u with
  | Some x => if in_unit x then Ok tt else Raise ValueError
  | None => Ok tt
  end ;;;
  match v with
  | Some x => if in_unit x then Ok tt else Raise ValueError
  | None => Ok tt
  end.

(** Modelled from the spec: [utilities.find_multiplicity] is missing.
    Section 4.1: "count of occurrences of u within floating tolerance"; in
    exact arithmetic the tolerance is equality. *)
Definition find_multiplicity (u : Q) (values : list Q) : result Z :=
  Ok (len (filter (fun kv => Qeq_bool u kv = true) values)).

Definition knot (values : list Q) (k : Z) : option Q :=
  if 0 <=? k then values !! Z.to_nat k else None.

(** [values[k] <= u < values[k+1]] *)
Definition holds (values : list Q) (u : Q) (k : Z) : bool :=
  match knot values k, knot values (k + 1) with
  | Some a, Some b => Qle_bool a u && negb (Qle_bool b u)
  | _, _ => false
  end.

(** [values[k] < values[k+1]] *)
Definition nontrivial (values : list Q) (k : Z) : bool :=
  match knot values k, knot values (k + 1) with
  | Some a, Some b => negb (Qle_bool b a)
  | _, _ => false
  end.

(** Modelled from the spec: [utilities.check_knot_vector] is missing.
    Section 4.1, [is_valid]: "checks length and non-decreasing order"; the
    length is that of invariant 1, [n_ctrlpts + degree + 1]. *)
Fixpoint nondecreasing (values : list Q) : bool :=
  match values with
  | a :: (b :: _) as rest => Qle_bool a b && nondecreasing rest
  | _ => true
  end.

Definition check_knot_vector (degree : Z) (values : list Q) (n_ctrlpts : Z) : bool :=
  (len values =? n_ctrlpts + degree + 1) && nondecreasing values.

(** Modelled from the spec: [utilities.find_span] is missing.  Section 4.1:
    "returns index k such that values[k] <= u < values[k+1], using the
    convention that u == 1.0 maps to the span ending at the last non-trivial
    knot"; the search runs over the candidate span range
    [degree .. n_ctrlpts - 1], by a linear scan.  The specification does not
    say what happens when no candidate qualifies: [ValueError] here. *)
Definition find_span (degree : Z) (values : list Q) (n_ctrlpts : Z) (u : Q) : result Z :=
  let candidates := range degree n_ctrlpts in
  let found :=
    if Qeq_bool u 1
    then last (filter (fun k => nontrivial values k = true) candidates)
    else head (filter (fun k => holds values u k = true) candidates) in
  match found with
  | Some k => Ok k
  | None => Raise ValueError
  end.

(** Modelled from the spec: [utilities.basis_functions] is missing.
    Section 4.2: "Cox-de Boor recurrence (NURBS-book Algorithm A2.2)
    producing the degree+1 nonzero basis values at u, indexed so that
    values[i] pairs with control point span - degree + i". *)
Definition left (knot_vector : list Q) (span : Z) (u : Q) (j : Z) : result Q :=
  kv <- getitem knot_vector (span + 1 - j) ;; Ok (u - kv)%Q.

Definition right (knot_vector : list Q) (span : Z) (u : Q) (j : Z) : result Q :=
  kv <- getitem knot_vector (span + j) ;; Ok (kv - u)%Q.

Definition basis_step (knot_vector : list Q) (span : Z) (u : Q) (j r : Z)
    (acc : list Q * Q) : result (list Q * Q) :=
  let '(N, saved) := acc in
  Nr <- getitem N r ;;
  rt <- right knot_vector span u (r + 1) ;;
  lt <- left knot_vector span u (j - r) ;;
  temp <- fdiv Nr (rt + lt) ;;
  N' <- setitem N r (saved + rt * temp)%Q ;;
  Ok (N', (lt * temp)%Q).

Definition basis_row (knot_vector : list Q) (span : Z) (u : Q) (j : Z)
    (N : list Q) : result (list Q) :=
  acc <- for_ (range 0 j) (basis_step knot_vector span u j) (N, 0%Q) ;;
  setitem acc.1 j acc.2.

Definition basis_functions (degree : Z) (knot_vector : list Q) (span : Z) (u : Q)
    : result (list Q) :=
  for_ (range 1 (degree + 1)) (basis_row knot_vector span u)
       (1%Q :: replicateZ degree 0%Q).

(** Modelled from the spec: [utilities.basis_functions_all] is missing.
    Section 4.2: "full triangular table of all-degree basis values ...
    all_basis[j][degree] for varying j equals values()": entry [j][i] is
    the [j]-th basis value of degree [i]; the entries below the triangle
    are never written and stay at their initial value. *)
Definition basis_functions_all (degree : Z) (knot_vector : list Q) (span : Z) (u : Q)
    : result (list (list Q)) :=
  for_ (range 0 (degree + 1)) (fun i N =>
    bfuns <- basis_functions i knot_vector span u ;;
    for_ (range 0 (i + 1)) (fun k N =>
      b <- getitem bfuns k ;; set2 N k i b) N)
    (replicateZ (degree + 1) (replicateZ (degree + 1) 0%Q)).

(** Modelled from the spec: [utilities.basis_functions_ders] is missing.
    Section 4.2: "the standard triangular-table derivative algorithm
    (Algorithm A2.3), computing all nonzero basis function values and their
    derivatives up to max_order".  [ndu] holds the basis values (upper
    triangle) and the knot differences (lower triangle), [a] the two
    alternating rows of coefficients. *)
Definition ndu_step (knot_vector : list Q) (span : Z) (u : Q) (j r : Z)
    (acc : list (list Q) * Q) : result (list (list Q) * Q) :=
  let '(ndu, saved) := acc in
  rt <- right knot_vector span u (r + 1) ;;
  lt <- left knot_vector span u (j - r) ;;
  ndu <- set2 ndu j r (rt + lt)%Q ;;
  x <- get2 ndu r (j - 1) ;;
  y <- get2 ndu j r ;;
  temp <- fdiv x y ;;
  ndu <- set2 ndu r j (saved + rt * temp)%Q ;;
  Ok (ndu, (lt * temp)%Q).

Definition ndu_table (degree : Z) (knot_vector : list Q) (span : Z) (u : Q)
    : result (list (list Q)) :=
  ndu <- set2 (replicateZ (degree + 1) (replicateZ (degree + 1) 0%Q)) 0 0 1%Q ;;
  for_ (range 1 (degree + 1)) (fun j ndu =>
    acc <- for_ (range 0 j) (ndu_step knot_vector span u j) (ndu, 0%Q) ;;
    set2 acc.1 j j acc.2) ndu.

Record ders_state : Type := {
  a : list (list Q);
  ders : list (list Q);
  s1 : Z;
  s2 : Z
}.

Definition ders_step (degree : Z) (ndu : list (list Q)) (r k : Z) (st : ders_state)
    : result ders_state :=
  let '{| a := a; ders := ders; s1 := s1; s2 := s2 |} := st in
  let d := 0%Q in
  let rk := r - k in
  let pk := degree - k in
  ad <- (if r >=? k
         then x <- get2 a s1 0 ;; y <- get2 ndu (pk + 1) rk ;; q <- fdiv x y ;;
              a <- set2 a s2 0 q ;;
              x <- get2 a s2 0 ;; y <- get2 ndu rk pk ;;
              Ok (a, (x * y)%Q)
         else Ok (a, d)) ;;
  let j1 := if rk >=? -1 then 1 else - rk in
  let j2 := if r - 1 <=? pk then k - 1 else degree - r in
  ad <- for_ (range j1 (j2 + 1)) (fun j (ad : list (list Q) * Q) =>
          x <- get2 ad.1 s1 j ;; x' <- get2 ad.1 s1 (j - 1) ;;
          y <- get2 ndu (pk + 1) (rk + j) ;;
          q <- fdiv (x - x') y ;;
          a <- set2 ad.1 s2 j q ;;
          x <- get2 a s2 j ;; y <- get2 ndu (rk + j) pk ;;
          Ok (a, (ad.2 + x * y)%Q)) ad ;;
  ad <- (if r <=? pk
         then x <- get2 ad.1 s1 (k - 1) ;; y <- get2 ndu (pk + 1) r ;;
              q <- fdiv (- x) y ;;
              a <- set2 ad.1 s2 k q ;;
              x <- get2 a s2 k ;; y <- get2 ndu r pk ;;
              Ok (a, (ad.2 + x * y)%Q)
         else Ok ad) ;;
  ders <- set2 ders k r ad.2 ;;
  Ok {| a := ad.1; ders := ders; s1 := s2; s2 := s1 |}.

Definition basis_functions_ders (degree : Z) (knot_vector : list Q) (span : Z) (u : Q)
    (order : Z) : result (list (list Q)) :=
  ndu <- ndu_table degree knot_vector span u ;;
  let ders := replicateZ (order + 1) (replicateZ (degree + 1) 0%Q) in
  ders <- for_ (range 0 (degree + 1)) (fun j ders =>
            x <- get2 ndu j degree ;; set2 ders 0 j x) ders ;;
  let a := replicateZ 2 (replicateZ (degree + 1) 0%Q) in
  st <- for_ (range 0 (degree + 1)) (fun r (st : ders_state) =>
          a <- set2 (spec.a st) 0 0 1%Q ;;
          for_ (range 1 (order + 1)) (ders_step degree ndu r)
               {| a := a; ders := spec.ders st; s1 := 0; s2 := 1 |})
        {| a := a; ders := ders; s1 := 0; s2 := 1 |} ;;
  acc <- for_ (range 1 (order + 1)) (fun k (acc : list (list Q) * Q) =>
           ders <- for_ (range 0 (degree + 1)) (fun j ders =>
                     x <- get2 ders k j ;; set2 ders k j (x * acc.2)%Q) acc.1 ;;
           Ok (ders, (acc.2 * inject_Z (degree - k))%Q))
         (spec.ders st, inject_Z degree) ;;
  Ok acc.1.

(** Modelled from the spec: [utilities.frange] is missing.  Section 4.3:
    "parameter steps 0, delta, 2*delta, ... up to and including 1.0 (the
    step count is floor(1/delta)+1)". *)
Definition frange (start stop step : Q) : list Q :=
  if Qle_bool step 0 then []
  else map (fun i => start + inject_Z (Z.of_nat i) * step)%Q
           (seq 0 (Z.to_nat (Qfloor ((stop - start) / step)) + 1)).

End spec.

(** The instance of [geomdl.utilities] used for concrete runs. *)
Definition utils : utilities.t := {|
  utilities.check_uv := spec.check_uv;
  utilities.find_multiplicity := spec.find_multiplicity;
  utilities.find_span := spec.find_span;
  utilities.basis_functions := spec.basis_functions;
  utilities.basis_functions_all := spec.basis_functions_all;
  utilities.basis_functions_ders := spec.basis_functions_ders;
  utilities.frange := spec.frange
|}.

(** ** Knot insertion: what the three copies of Boehm's algorithm share

    The new control point array [Q] holds references.  A slot of [Q] is
    still [None] ([Unset]), or refers to a point of the old array ([Old],
    never written again), or to the list object bound to [R[i]] ([Aux i]):
    [Q[L] = R[0]] stores the object, not a copy, and a later
    [R[0][:] = ...] writes through it.  Each slot of [R] is bound once per
    row, by the [copy.deepcopy] that loads it, so the object is named by its
    slot. *)

Module A5.

Definition point : Type := list Q.

Inductive slot : Type :=
| Unset
| Old (p : point)
| Aux (i : nat).

(** The value of the expression [R[i]], as stored into a slot of [Q]. *)
Definition ref (R : list (option point)) (i : Z) : result slot :=
  n <- index (length R) i ;;
  match R !! n with
  | Some (Some _) => Ok (Aux n)
  | Some None => Ok Unset
  | None => Raise IndexError
  end.

(** [zip(x, y)] needs two lists. *)
Definition the_list (x : option point) : result point :=
  match x with
  | Some p => Ok p
  | None => Raise TypeError
  end.

(** What an array holds once the call is over.  The arrays of the model
    hold numbers and points, not [None]: where a slot is still [None] when
    the loops are over, Python stores the array as it is and returns, and
    fails with [TypeError] when the [None] is next used; the model raises
    [TypeError] here instead and stores nothing.  The two differ on such a
    call and on no other.  With [find_span] and [find_multiplicity] as
    specified the loops of [Curve.insert_knot] and of the u direction of
    [Surface.insert_knot] fill every slot, and so do those of the v
    direction when [L] is the one of its own insertion loop, that is when
    [r >= 1]; with [r = 0] and both [u] and [v] given the v direction runs
    with the [L] of the u direction and can leave slots unset. *)
Definition filled {A} (l : list (option A)) : result (list A) :=
  comprehension (fun x => match x with Some a => Ok a | None => Raise TypeError end) l.

Definition deref (R : list (option point)) (q : slot) : result point :=
  match q with
  | Unset => Raise TypeError
  | Old p => Ok p
  | Aux i => match R !! i with
             | Some (Some p) => Ok p
             | _ => Raise TypeError
             end
  end.

(** "Load new knot vector": [UQ] for the knot [x] inserted [r] times after
    position [k]. *)
Definition load_knot_vector (knot_vector : list Q) (k r : Z) (x : Q)
    : result (list (option Q)) :=
  let UQ : list (option Q) := replicateZ (len knot_vector + r) None in
  UQ <- for_ (range 0 (k + 1)) (fun i UQ =>
          y <- getitem knot_vector i ;; setitem UQ i (Some y)) UQ ;;
  UQ <- for_ (range 1 (r + 1)) (fun i UQ => setitem UQ (k + i) (Some x)) UQ ;;
  for_ (range (k + 1) (len knot_vector)) (fun i UQ =>
    y <- getitem knot_vector i ;; setitem UQ (i + r) (Some y)) UQ.

End A5.

(** ** class Curve *)

Module Curve.

Section WithUtilities.

Context (U : utilities.t).

Definition point : Type := list Q.

Record t : Type := {
  _degree : Z;
  _knot_vector : list Q;
  _control_points : list point;
  _delta : Q;
  _curve_points : list point;
  _dimension : Z
}.

(** [Curve.__init__] *)
Definition __init__ : t := {|
  _degree := 0;
  _knot_vector := [];
  _control_points := [];
  _delta := 1 # 10;
  _curve_points := [];
  _dimension := 3
|}.

Definition with_control_points (c : t) (cps : list point) : t := {|
  _degree := _degree c;
  _knot_vector := _knot_vector c;
  _control_points := cps;
  _delta := _delta c;
  _curve_points := _curve_points c;
  _dimension := _dimension c
|}.

Definition with_curve_points (c : t) (pts : list point) : t := {|
  _degree := _degree c;
  _knot_vector := _knot_vector c;
  _control_points := _control_points c;
  _delta := _delta c;
  _curve_points := pts;
  _dimension := _dimension c
|}.

Definition with_knot_vector (c : t) (kv : list Q) : t := {|
  _degree := _degree c;
  _knot_vector := kv;
  _control_points := _control_points c;
  _delta := _delta c;
  _curve_points := _curve_points c;
  _dimension := _dimension c
|}.

(** [_reset_ctrlpts]: [del self._control_points[:]] when the list is not
    empty. *)
Definition _reset_ctrlpts : method t unit := fun c =>
  if nonempty (_control_points c)
  then put (with_control_points c []) c
  else pass c.

(** [_reset_curve] *)
Definition _reset_curve : method t unit := fun c =>
  if nonempty (_curve_points c)
  then put (with_curve_points c []) c
  else pass c.

(** [_check_variables] *)
Definition _check_variables (c : t) : result unit :=
  let works := true in
  let works := if _degree c =? 0 then false else works in
  let works := if negb (nonempty (_control_points c)) then false else works in
  let works := if negb (nonempty (_knot_vector c)) then false else works in
  if negb works then Raise ValueError else Ok tt.

(** The setter of the [ctrlpts] property.  [float(c)] is the identity on
    the model's numbers. *)
Definition ctrlpts_setter (value : list (list Q)) : method t unit :=
  c <~ get ;;
  (if len value <? _degree c + 1 then raise ValueError else pass) ;;~
  _reset_curve ;;~
  _reset_ctrlpts ;;~
  for_each value (fun coord =>
    c <~ get ;;
    (if (len coord <? 0) || (len coord >? _dimension c)
     then raise ValueError else pass) ;;~
    let coord_float := coord in
    put (with_control_points c (_control_points c ++ [coord_float]))).

(** One step of the accumulation
    [[acc + (coef * x) for acc, x in zip(accs, xs)]]: [coef] is evaluated
    once per pair, so not at all when the zip is empty. *)
Definition axpy (coef : result Q) (accs xs : list Q) : result (list Q) :=
  comprehension (fun ax : Q * Q => b <- coef ;; Ok (ax.1 + b * ax.2)%Q) (zip accs xs).

(** [curvept(u, check_vars)], with [get_ctrlpts] at its default [False]. *)
Definition curvept (c : t) (u : Q) (check_vars : bool) : result point :=
  (if check_vars
   then _check_variables c ;;; utilities.check_uv U (Some u) None
   else Ok tt) ;;;
  span <- utilities.find_span U (_degree c) (_knot_vector c) (len (_control_points c)) u ;;
  basis <- utilities.basis_functions U (_degree c) (_knot_vector c) span u ;;
  let cpt := replicateZ (_dimension c) 0%Q in
  for_ (range 0 (_degree c + 1)) (fun i cpt =>
    ctrl_pt <- getitem (_control_points c) (span - _degree c + i) ;;
    axpy (getitem basis i) cpt ctrl_pt) cpt.

(** [evaluate] *)
Definition evaluate : method t unit :=
  c <~ get ;;
  lift (_check_variables c) ;;~
  _reset_curve ;;~
  for_each (utilities.frange U 0 1 (_delta c)) (fun u =>
    c <~ get ;;
    cpt <~ lift (curvept c u false) ;;
    put (with_curve_points c (_curve_points c ++ [cpt]))).

(** *** Derivatives

    The tables [CK] and [PK] start as lists of [[None, ..., None]]; an entry
    is a list of optional floats, and arithmetic on [None] raises
    [TypeError]. *)

Definition number (x : option Q) : result Q :=
  match x with
  | Some q => Ok q
  | None => Raise TypeError
  end.

(** [[acc + (coef * x) for acc, x in zip(accs, xs)]] on table entries. *)
Definition axpy_entry (coef : result Q) (accs xs : list (option Q))
    : result (list (option Q)) :=
  comprehension (fun ax : option Q * option Q =>
          b <- coef ;; x <- number ax.2 ;; a <- number ax.1 ;;
          Ok (Some (a + b * x)%Q)) (zip accs xs).

Definition zeros (c : t) : list (option Q) := replicateZ (_dimension c) (Some 0%Q).
Definition nones (c : t) : list (option Q) := replicateZ (_dimension c) None.

(** [CK = [[None ...] for y in range(order + 1)]] followed by
    [for k in range(degree + 1, order + 1): CK[k] = [0.0 ...]]. *)
Definition CK_init (c : t) (order : Z) : result (list (list (option Q))) :=
  for_ (range (_degree c + 1) (order + 1)) (fun k CK => setitem CK k (zeros c))
       (replicateZ (order + 1) (nones c)).

(** [derivatives2(u, order)], Algorithm A3.2 *)
Definition derivatives2 (c : t) (u : Q) (order : Z)
    : result (list (list (option Q))) :=
  _check_variables c ;;;
  (if negb (Qle_bool 0 u) || negb (Qle_bool u 1) then Raise ValueError else Ok tt) ;;;
  let du := Z.min (_degree c) order in
  CK <- CK_init c order ;;
  span <- utilities.find_span U (_degree c) (_knot_vector c) (len (_control_points c)) u ;;
  bfunsders <- utilities.basis_functions_ders U (_degree c) (_knot_vector c) span u du ;;
  for_ (range 0 (du + 1)) (fun k CK =>
    CK <- setitem CK k (zeros c) ;;
    for_ (range 0 (_degree c + 1)) (fun j CK =>
      CKk <- getitem CK k ;;
      ctrl_pt <- getitem (_control_points c) (span - _degree c + j) ;;
      new <- axpy_entry (row <- getitem bfunsders k ;; getitem row j)
                        CKk (map Some ctrl_pt) ;;
      setitem CK k new) CK) CK.

(** [derivatives_ctrlpts(order, r1, r2)], Algorithm A3.3 *)
Definition derivatives_ctrlpts (c : t) (order r1 r2 : Z)
    : result (list (list (list (option Q)))) :=
  let r := r2 - r1 in
  let PK := replicateZ (order + 1) (replicateZ (r + 1) (nones c)) in
  PK <- for_ (range 0 (r + 1)) (fun i PK =>
          cp <- getitem (_control_points c) (r1 + i) ;;
          PK0 <- getitem PK 0 ;;
          PK0 <- setitem PK0 i (map Some cp) ;;
          setitem PK 0 PK0) PK ;;
  for_ (range 1 (order + 1)) (fun k PK =>
    let tmp := _degree c - k + 1 in
    for_ (range 0 (r - k + 1)) (fun i PK =>
      prev <- getitem PK (k - 1) ;;
      elems1 <- getitem prev (i + 1) ;;
      elems2 <- getitem prev i ;;
      new <- comprehension (fun e : option Q * option Q =>
                     elem1 <- number e.1 ;;
                     elem2 <- number e.2 ;;
                     a <- getitem (_knot_vector c) (r1 + i + _degree c + 1) ;;
                     b <- getitem (_knot_vector c) (r1 + i + k) ;;
                     q <- fdiv (inject_Z tmp * (elem1 - elem2)) (a - b) ;;
                     Ok (Some q)) (zip elems1 elems2) ;;
      PKk <- getitem PK k ;;
      PKk <- setitem PKk i new ;;
      setitem PK k PKk) PK) PK.

(** [derivatives(u, order)], Algorithm A3.4 *)
Definition derivatives (c : t) (u : Q) (order : Z)
    : result (list (list (option Q))) :=
  _check_variables c ;;;
  utilities.check_uv U (Some u) None ;;;
  let du := Z.min (_degree c) order in
  CK <- CK_init c order ;;
  span <- utilities.find_span U (_degree c) (_knot_vector c) (len (_control_points c)) u ;;
  bfuns <- utilities.basis_functions_all U (_degree c) (_knot_vector c) span u ;;
  PK <- derivatives_ctrlpts c du (span - _degree c) span ;;
  for_ (range 0 (du + 1)) (fun k CK =>
    CK <- setitem CK k (zeros c) ;;
    for_ (range 0 (_degree c - k + 1)) (fun j CK =>
      CKk <- getitem CK k ;;
      PKk <- getitem PK k ;;
      drv_ctrlpt <- getitem PKk j ;;
      new <- axpy_entry (row <- getitem bfuns j ;; getitem row (_degree c - k))
                        CKk drv_ctrlpt ;;
      setitem CK k new) CK) CK.

(** *** Knot insertion *)

(** [[alpha * elem2 + (1.0 - alpha) * elem1 for elem1, elem2 in zip(Ri, Ri1)]] *)
Definition blend (alpha : Q) (Ri Ri1 : point) : point :=
  map (fun e : Q * Q => alpha * e.2 + (1 - alpha) * e.1)%Q (zip Ri Ri1).

(** Algorithm A5.1, lines 773-815 of [insert_knot]: the new knot vector and
    the new control points. *)
Definition A5_1 (c : t) (u : Q) (r s k : Z) : result (list Q * list point) :=
  let degree := _degree c in
  let knot_vector := _knot_vector c in
  let control_points := _control_points c in
  let mp := len knot_vector in
  let np := len control_points in
  let nq := np + r in
  let Q : list A5.slot := replicateZ nq A5.Unset in
  let R : list (option point) := replicateZ (degree + 1) None in
  (* Load new knot vector *)
  UQ <- A5.load_knot_vector knot_vector k r u ;;
  (* Save unaltered control points *)
  Q <- for_ (range 0 (k - degree + 1)) (fun i Q =>
         x <- getitem control_points i ;; setitem Q i (A5.Old x)) Q ;;
  Q <- for_ (range (k - s) np) (fun i Q =>
         x <- getitem control_points i ;; setitem Q (i + r) (A5.Old x)) Q ;;
  (* The algorithm uses R array to update control points *)
  R <- for_ (range 0 (degree - s + 1)) (fun i R =>
         x <- getitem control_points (k - degree + i) ;; setitem R i (Some x)) R ;;
  (* Insert the knot r times *)
  RQ <- for_ (range 1 (r + 1)) (fun j (RQ : list (option point) * list A5.slot) =>
          let L := k - degree + j in
          R <- for_ (range 0 (degree - j - s + 1)) (fun i R =>
                 a <- getitem knot_vector (L + i) ;;
                 b <- getitem knot_vector (i + k + 1) ;;
                 a' <- getitem knot_vector (L + i) ;;
                 alpha <- fdiv (u - a) (b - a') ;;
                 Ri <- getitem R i ;;
                 Ri1 <- getitem R (i + 1) ;;
                 elems1 <- A5.the_list Ri ;;
                 elems2 <- A5.the_list Ri1 ;;
                 setitem R i (Some (blend alpha elems1 elems2))) RQ.1 ;;
          q <- A5.ref R 0 ;;
          Q <- setitem RQ.2 L q ;;
          q <- A5.ref R (degree - j - s) ;;
          Q <- setitem Q (k + r - j - s) q ;;
          Ok (R, Q)) (R, Q) ;;
  let R := RQ.1 in
  (* Load remaining control points *)
  let L := k - degree + r in
  Q <- for_ (range (L + 1) (k - s)) (fun i Q =>
         q <- A5.ref R (i - L) ;; setitem Q i q) RQ.2 ;;
  UQ <- A5.filled UQ ;;
  Q <- comprehension (A5.deref R) Q ;;
  Ok (UQ, Q).

(** [insert_knot(u, r)]; [r] is an [int] by its type. *)
Definition insert_knot (u : Q) (r : Z) : method t unit :=
  c <~ get ;;
  lift (_check_variables c) ;;~
  lift (utilities.check_uv U (Some u) None) ;;~
  (if r <? 0 then raise ValueError else pass) ;;~
  s <~ lift (utilities.find_multiplicity U u (_knot_vector c)) ;;
  if r >? _degree c - s then warn (CannotInsert r)
  else
    k <~ lift (utilities.find_span U (_degree c) (_knot_vector c)
                 (len (_control_points c)) u) ;;
    new <~ lift (A5_1 c u r s k) ;;
    put (with_control_points (with_knot_vector c new.1) new.2) ;;~
    c <~ get ;;
    if nonempty (_curve_points c) then evaluate else pass.

(** *** The properties of a curve and its differential quantities *)

Context (K : utilities.knots) (V : utilities.vectors).

Definition with_degree (c : t) (degree : Z) : t := {|
  _degree := degree;
  _knot_vector := _knot_vector c;
  _control_points := _control_points c;
  _delta := _delta c;
  _curve_points := _curve_points c;
  _dimension := _dimension c
|}.

Definition with_delta (c : t) (delta : Q) : t := {|
  _degree := _degree c;
  _knot_vector := _knot_vector c;
  _control_points := _control_points c;
  _delta := delta;
  _curve_points := _curve_points c;
  _dimension := _dimension c
|}.

(** The getter of [order] *)
Definition order (c : t) : Z := _degree c + 1.

(** The setter of [degree] *)
Definition degree_setter (value : Z) : method t unit :=
  (if value <? 0 then raise ValueError else pass) ;;~
  _reset_curve ;;~
  c <~ get ;;
  put (with_degree c value).

(** The setter of [order]: [self.degree = value - 1] *)
Definition order_setter (value : Z) : method t unit := degree_setter (value - 1).

(** The getter of [ctrlpts]: the control points, as tuples. *)
Definition ctrlpts (c : t) : list point := _control_points c.

(** The getter of [knotvector] *)
Definition knotvector (c : t) : list Q := _knot_vector c.

(** The setter of [knotvector] *)
Definition knotvector_setter (value : list Q) : method t unit :=
  c <~ get ;;
  (if (_degree c =? 0) || (len (_control_points c) =? 0)
   then raise ValueError else pass) ;;~
  value_normalized <~ lift (utilities.normalize_knot_vector K value) ;;
  (if negb (utilities.check_knot_vector K (_degree c) value_normalized
              (len (_control_points c)))
   then raise ValueError else pass) ;;~
  _reset_curve ;;~
  c <~ get ;;
  put (with_knot_vector c value_normalized).

(** The setter of [delta], for a [value] that is a number.  ([NaN], which
    the test lets through, is in [Binary64.Curve.delta_setter].) *)
Definition delta_setter (value : Q) : method t unit :=
  (if Qle_bool value 0 || Qle_bool 1 value then raise ValueError else pass) ;;~
  _reset_curve ;;~
  c <~ get ;;
  put (with_delta c value).

(** The getter of [curvepts] *)
Definition curvepts : method t (list point) :=
  c <~ get ;;
  (if negb (nonempty (_curve_points c)) then evaluate else pass) ;;~
  c <~ get ;;
  ret (_curve_points c).

(** [utils.vector_normalize(der)] on an entry of the table [CK]. *)
Definition normalized (der : list (option Q)) : result (list (option Q)) :=
  v <- comprehension number der ;;
  w <- utilities.vector_normalize V v ;;
  Ok (map Some w).

(** [tangent(u, normalize)] *)
Definition tangent (c : t) (u : Q) (normalize : bool)
    : result (list (option Q) * list (option Q)) :=
  ders <- derivatives c u 1 ;;
  point <- getitem ders 0 ;;
  der_u <- getitem ders 1 ;;
  der_u <- (if normalize then normalized der_u else Ok der_u) ;;
  Ok (point, der_u).

(** [tangents(u_list, normalize)]; [u_list] is a list by its type. *)
Definition tangents (c : t) (u_list : list Q) (normalize : bool)
    : result (list (list (option Q) * list (option Q))) :=
  (if negb (nonempty u_list) then Raise ValueError else Ok tt) ;;;
  for_ u_list (fun u ret_list =>
    temp <- tangent c u normalize ;;
    Ok (ret_list ++ [temp])) [].

(** [normal(u, normalize)] *)
Definition normal (c : t) (u : Q) (normalize : bool)
    : result (list (option Q) * list (option Q)) :=
  ders <- derivatives c u 2 ;;
  point <- getitem ders 0 ;;
  der_u <- getitem ders 2 ;;
  der_u <- (if normalize then normalized der_u else Ok der_u) ;;
  Ok (point, der_u).

End WithUtilities.

End Curve.

(** ** class Curve2D *)

Module Curve2D.

(** [Curve2D.__init__]: the dimension is overridden. *)
Definition __init__ : Curve.t := {|
  Curve._degree := Curve._degree Curve.__init__;
  Curve._knot_vector := Curve._knot_vector Curve.__init__;
  Curve._control_points := Curve._control_points Curve.__init__;
  Curve._delta := Curve._delta Curve.__init__;
  Curve._curve_points := Curve._curve_points Curve.__init__;
  Curve._dimension := 2
|}.

End Curve2D.

(** ** class Surface *)

Module Surface.

Section WithUtilities.

Context (U : utilities.t).

Definition point : Type := list Q.

Record t : Type := {
  _degree_u : Z;
  _degree_v : Z;
  _knot_vector_u : list Q;
  _knot_vector_v : list Q;
  _control_points : list point;
  _control_points2D : list (list point);
  _control_points_size_u : Z;
  _control_points_size_v : Z;
  _delta : Q;
  _surface_points : list point;
  _dimension : Z
}.

(** [Surface.__init__] *)
Definition __init__ : t := {|
  _degree_u := 0;
  _degree_v := 0;
  _knot_vector_u := [];
  _knot_vector_v := [];
  _control_points := [];
  _control_points2D := [];
  _control_points_size_u := 0;
  _control_points_size_v := 0;
  _delta := 1 # 10;
  _surface_points := [];
  _dimension := 3
|}.

Definition with_surface_points (s : t) (pts : list point) : t := {|
  _degree_u := _degree_u s;
  _degree_v := _degree_v s;
  _knot_vector_u := _knot_vector_u s;
  _knot_vector_v := _knot_vector_v s;
  _control_points := _control_points s;
  _control_points2D := _control_points2D s;
  _control_points_size_u := _control_points_size_u s;
  _control_points_size_v := _control_points_size_v s;
  _delta := _delta s;
  _surface_points := pts;
  _dimension := _dimension s
|}.

(** The four attributes that hold the control points. *)
Definition with_ctrlpts (s : t) (cps : list point) (cps2D : list (list point))
    (size_u size_v : Z) : t := {|
  _degree_u := _degree_u s;
  _degree_v := _degree_v s;
  _knot_vector_u := _knot_vector_u s;
  _knot_vector_v := _knot_vector_v s;
  _control_points := cps;
  _control_points2D := cps2D;
  _control_points_size_u := size_u;
  _control_points_size_v := size_v;
  _delta := _delta s;
  _surface_points := _surface_points s;
  _dimension := _dimension s
|}.

Definition with_knot_vector_u (s : t) (kv : list Q) : t := {|
  _degree_u := _degree_u s;
  _degree_v := _degree_v s;
  _knot_vector_u := kv;
  _knot_vector_v := _knot_vector_v s;
  _control_points := _control_points s;
  _control_points2D := _control_points2D s;
  _control_points_size_u := _control_points_size_u s;
  _control_points_size_v := _control_points_size_v s;
  _delta := _delta s;
  _surface_points := _surface_points s;
  _dimension := _dimension s
|}.

Definition with_knot_vector_v (s : t) (kv : list Q) : t := {|
  _degree_u := _degree_u s;
  _degree_v := _degree_v s;
  _knot_vector_u := _knot_vector_u s;
  _knot_vector_v := kv;
  _control_points := _control_points s;
  _control_points2D := _control_points2D s;
  _control_points_size_u := _control_points_size_u s;
  _control_points_size_v := _control_points_size_v s;
  _delta := _delta s;
  _surface_points := _surface_points s;
  _dimension := _dimension s
|}.

(** [_reset_ctrlpts] *)
Definition _reset_ctrlpts : method t unit := fun s =>
  if nonempty (_control_points s)
  then put (with_ctrlpts s [] [] 0 0) s
  else pass s.

(** [_reset_surface] *)
Definition _reset_surface : method t unit := fun s =>
  if nonempty (_surface_points s)
  then put (with_surface_points s []) s
  else pass s.

(** [_check_variables] *)
Definition _check_variables (s : t) : result unit :=
  let works := true in
  let works := if (_degree_u s =? 0) || (_degree_v s =? 0) then false else works in
  let works := if negb (nonempty (_control_points s)) then false else works in
  let works := if negb (nonempty (_knot_vector_u s)) || negb (nonempty (_knot_vector_v s))
               then false else works in
  if negb works then Raise ValueError else Ok tt.

(** [set_ctrlpts(ctrlpts, size_u, size_v)].  [len(cpt) is not dimension]
    compares two small integers, which CPython shares: it is [!=]. *)
Definition set_ctrlpts (ctrlpts : list (list Q)) (size_u size_v : Z) : method t unit :=
  _reset_surface ;;~
  _reset_ctrlpts ;;~
  s <~ get ;;
  (if (_degree_u s =? 0) || (_degree_v s =? 0) then raise ValueError else pass) ;;~
  (if size_u <? _degree_u s + 1 then raise ValueError else pass) ;;~
  (if size_v <? _degree_v s + 1 then raise ValueError else pass) ;;~
  for_each ctrlpts (fun cpt =>
    if negb (len cpt =? _dimension s) then raise ValueError else pass) ;;~
  put (with_ctrlpts s ctrlpts (_control_points2D s) size_u size_v) ;;~
  for_each (range 0 size_u) (fun i =>
    ctrlpts_v <~ lift (for_ (range 0 size_v) (fun j ctrlpts_v =>
                   x <- getitem ctrlpts (j + i * size_v) ;;
                   Ok (ctrlpts_v ++ [x])) []) ;;
    s <~ get ;;
    put (with_ctrlpts s (_control_points s) (_control_points2D s ++ [ctrlpts_v])
                      (_control_points_size_u s) (_control_points_size_v s))).

(** [transpose()] *)
Definition transpose : method t unit :=
  s <~ get ;;
  let degree_u_new := _degree_v s in
  let degree_v_new := _degree_u s in
  let kv_u_new := _knot_vector_v s in
  let kv_v_new := _knot_vector_u s in
  ctrlpts2D_new <~ lift (for_ (range 0 (_control_points_size_v s)) (fun v ctrlpts2D_new =>
      ctrlpts_u <- for_ (range 0 (_control_points_size_u s)) (fun u ctrlpts_u =>
                     temp <- get2 (_control_points2D s) u v ;;
                     Ok (ctrlpts_u ++ [temp])) [] ;;
      Ok (ctrlpts2D_new ++ [ctrlpts_u])) []) ;;
  let ctrlpts_new_sizeU := _control_points_size_v s in
  let ctrlpts_new_sizeV := _control_points_size_u s in
  ctrlpts_new <~ lift (for_ (range 0 ctrlpts_new_sizeV) (fun v ctrlpts_new =>
      for_ (range 0 ctrlpts_new_sizeU) (fun u ctrlpts_new =>
        x <- get2 ctrlpts2D_new u v ;;
        Ok (ctrlpts_new ++ [x])) ctrlpts_new) []) ;;
  _reset_surface ;;~
  s <~ get ;;
  put {|
    _degree_u := degree_u_new;
    _degree_v := degree_v_new;
    _knot_vector_u := kv_u_new;
    _knot_vector_v := kv_v_new;
    _control_points := ctrlpts_new;
    _control_points2D := ctrlpts2D_new;
    _control_points_size_u := ctrlpts_new_sizeU;
    _control_points_size_v := ctrlpts_new_sizeV;
    _delta := _delta s;
    _surface_points := _surface_points s;
    _dimension := _dimension s
  |}.

(** [surfpt(u, v, check_vars)], with [get_ctrlpts] at its default [False]. *)
Definition surfpt (s : t) (u v : Q) (check_vars : bool) : result point :=
  (if check_vars
   then _check_variables s ;;; utilities.check_uv U (Some u) (Some v)
   else Ok tt) ;;;
  span_v <- utilities.find_span U (_degree_v s) (_knot_vector_v s)
              (_control_points_size_v s) v ;;
  basis_v <- utilities.basis_functions U (_degree_v s) (_knot_vector_v s) span_v v ;;
  span_u <- utilities.find_span U (_degree_u s) (_knot_vector_u s)
              (_control_points_size_u s) u ;;
  basis_u <- utilities.basis_functions U (_degree_u s) (_knot_vector_u s) span_u u ;;
  let idx_u := span_u - _degree_u s in
  let spt := replicateZ (_dimension s) 0%Q in
  for_ (range 0 (_degree_v s + 1)) (fun l spt =>
    let temp := replicateZ (_dimension s) 0%Q in
    let idx_v := span_v - _degree_v s + l in
    temp <- for_ (range 0 (_degree_u s + 1)) (fun k temp =>
              cp <- get2 (_control_points2D s) (idx_u + k) idx_v ;;
              Curve.axpy (getitem basis_u k) temp cp) temp ;;
    Curve.axpy (getitem basis_v l) spt temp) spt.

(** [evaluate()] *)
Definition evaluate : method t unit :=
  s <~ get ;;
  lift (_check_variables s) ;;~
  _reset_surface ;;~
  for_each (utilities.frange U 0 1 (_delta s)) (fun u =>
    for_each (utilities.frange U 0 1 (_delta s)) (fun v =>
      s <~ get ;;
      spt <~ lift (surfpt s u v false) ;;
      put (with_surface_points s (_surface_points s ++ [spt])))).

(** [derivatives(u, v, order)], Algorithm A3.6.  [SKL[k][l][:] = ...] and
    [temp[s][:] = ...] replace the contents of a list that no other name
    refers to. *)
Definition derivatives (s : t) (u v : Q) (order : Z) : result (list (list point)) :=
  _check_variables s ;;;
  utilities.check_uv U (Some u) (Some v) ;;;
  let du := Z.min (_degree_u s) order in
  let dv := Z.min (_degree_v s) order in
  let SKL := replicateZ (du + 1) (replicateZ (dv + 1) (replicateZ (_dimension s) 0%Q)) in
  span_u <- utilities.find_span U (_degree_u s) (_knot_vector_u s)
              (_control_points_size_u s) u ;;
  bfunsders_u <- utilities.basis_functions_ders U (_degree_u s) (_knot_vector_u s)
                   span_u u du ;;
  span_v <- utilities.find_span U (_degree_v s) (_knot_vector_v s)
              (_control_points_size_v s) v ;;
  bfunsders_v <- utilities.basis_functions_ders U (_degree_v s) (_knot_vector_v s)
                   span_v v dv ;;
  for_ (range 0 (du + 1)) (fun k SKL =>
    let temp : list point := replicateZ (_degree_v s + 1) [] in
    temp <- for_ (range 0 (_degree_v s + 1)) (fun s' temp =>
              temp <- setitem temp s' (replicateZ (_dimension s) 0%Q) ;;
              for_ (range 0 (_degree_u s + 1)) (fun r temp =>
                let cu := span_u - _degree_u s + r in
                let cv := span_v - _degree_v s + s' in
                temp_s <- getitem temp s' ;;
                cp <- get2 (_control_points2D s) cu cv ;;
                new <- Curve.axpy (get2 bfunsders_u k r) temp_s cp ;;
                setitem temp s' new) temp) temp ;;
    let dd := Z.min (order - k) dv in
    for_ (range 0 (dd + 1)) (fun l SKL =>
      for_ (range 0 (_degree_v s + 1)) (fun s' SKL =>
        elems <- get2 SKL k l ;;
        temp_s <- getitem temp s' ;;
        new <- Curve.axpy (get2 bfunsders_v l s') elems temp_s ;;
        set2 SKL k l new) SKL) SKL) SKL.

(** *** Knot insertion (Algorithm A5.3)

    The local variables of [insert_knot] that one branch may leave to the
    next: [can_insert_knot], and [k_u] and [L], which are unbound until a
    branch assigns them. *)

Record locals : Type := {
  can_insert_knot : bool;
  k_u : option Z;
  L : option Z
}.

Definition bound (x : option Z) : result Z :=
  match x with
  | Some z => Ok z
  | None => Raise UnboundLocalError
  end.

(** "Save the alphas": the table [alpha[i][j]], and [L] as the loop leaves
    it. *)
Definition save_alphas (knot_vector : list Q) (degree s_ k r : Z) (x : Q) (L : option Z)
    : result (list (list Q) * option Z) :=
  let alpha := replicateZ (degree - s_) (replicateZ (r + 1) 0%Q) in
  for_ (range 1 (r + 1)) (fun j (aL : list (list Q) * option Z) =>
    let L := k - degree + j in
    alpha <- for_ (range 0 (degree - j - s_ + 1)) (fun i alpha =>
               a <- getitem knot_vector (L + i) ;;
               b <- getitem knot_vector (i + k + 1) ;;
               a' <- getitem knot_vector (L + i) ;;
               q <- fdiv (x - a) (b - a') ;;
               set2 alpha i j q) aL.1 ;;
    Ok (alpha, Some L)) (alpha, L).

(** [R[i][:] = [alpha[i][j] * elem2 + (1.0 - alpha[i][j]) * elem1
                for elem1, elem2 in zip(R[i], R[i + 1])]] *)
Definition blend (alpha : list (list Q)) (i j : Z) (R : list (option point))
    : result (list (option point)) :=
  Ri <- getitem R i ;;
  Ri1 <- getitem R (i + 1) ;;
  elems1 <- A5.the_list Ri ;;
  elems2 <- A5.the_list Ri1 ;;
  new <- comprehension (fun e : Q * Q =>
           a <- get2 alpha i j ;;
           a' <- get2 alpha i j ;;
           Ok (a * e.2 + (1 - a') * e.1)%Q) (zip elems1 elems2) ;;
  setitem R i (Some new).

(** Once a row (or column) is done the objects bound to [R] are not written
    again: the next row rebinds the slots of [R] to fresh copies.  The
    references the row left in [Q] are replaced by what they refer to. *)
Definition settle (R : list (option point)) (q : A5.slot) : A5.slot :=
  match q with
  | A5.Aux i => match R !! i with
                | Some (Some p) => A5.Old p
                | _ => q
                end
  | _ => q
  end.

Definition rows : Type := list (list A5.slot) * list (option point) * option Z.

(** The body of "for row in range(0, mp)", u direction. *)
Definition row_u (s : t) (alpha : list (list Q)) (p s_u k_u r np : Z) (row : Z)
    (st : rows) : result rows :=
  let '(Q, R, L) := st in
  Q <- for_ (range 0 (k_u - p + 1)) (fun i Q =>
         x <- get2 (_control_points2D s) i row ;;
         set2 Q i row (A5.Old x)) Q ;;
  Q <- for_ (range (k_u - s_u) np) (fun i Q =>
         x <- get2 (_control_points2D s) i row ;;
         set2 Q (i + r) row (A5.Old x)) Q ;;
  (* Load auxiliary control points *)
  R <- for_ (range 0 (p - s_u + 1)) (fun i R =>
         x <- get2 (_control_points2D s) (k_u - p + i) row ;;
         setitem R i (Some x)) R ;;
  (* Insert the knot r times *)
  st <- for_ (range 1 (r + 1)) (fun j (st : rows) =>
          let '(Q, R, _) := st in
          let L := k_u - p + j in
          R <- for_ (range 0 (p - j - s_u + 1)) (fun i R => blend alpha i j R) R ;;
          x <- A5.ref R 0 ;;
          Q <- set2 Q L row x ;;
          x <- A5.ref R (p - j - s_u) ;;
          Q <- set2 Q (k_u + r - j - s_u) row x ;;
          Ok (Q, R, Some L)) (Q, R, L) ;;
  let '(Q, R, _) := st in
  (* Load the remaining control points *)
  let L := k_u - p + r in
  Q <- for_ (range (L + 1) (k_u - s_u)) (fun i Q =>
         x <- A5.ref R (i - L) ;;
         set2 Q i row x) Q ;;
  Ok (map (map (settle R)) Q, R, Some L).

(** The body of "for col in range(0, np)", v direction.  The auxiliary
    control points are read at [k_u - q + i], and [L] is not assigned after
    the insertion loop (the assignment is commented out). *)
Definition col_v (s : t) (alpha : list (list Q)) (q s_v k_v r mp : Z) (k_u : option Z)
    (col : Z) (st : rows) : result rows :=
  let '(Q, R, L) := st in
  Q <- for_ (range 0 (k_v - q + 1)) (fun i Q =>
         x <- get2 (_control_points2D s) col i ;;
         set2 Q col i (A5.Old x)) Q ;;
  Q <- for_ (range (k_v - s_v) mp) (fun i Q =>
         x <- get2 (_control_points2D s) col i ;;
         set2 Q col (i + r) (A5.Old x)) Q ;;
  (* Load auxiliary control points *)
  R <- for_ (range 0 (q - s_v + 1)) (fun i R =>
         column <- getitem (_control_points2D s) col ;;
         k_u <- bound k_u ;;
         x <- getitem column (k_u - q + i) ;;
         setitem R i (Some x)) R ;;
  (* Insert the knot r times *)
  st <- for_ (range 1 (r + 1)) (fun j (st : rows) =>
          let '(Q, R, _) := st in
          let L := k_v - q + j in
          R <- for_ (range 0 (q - j - s_v + 1)) (fun i R => blend alpha i j R) R ;;
          x <- A5.ref R 0 ;;
          Q <- set2 Q col L x ;;
          x <- A5.ref R (q - j - s_v) ;;
          Q <- set2 Q col (k_v + r - j - s_v) x ;;
          Ok (Q, R, Some L)) (Q, R, L) ;;
  let '(Q, R, L) := st in
  (* Load the remaining control points *)
  L' <- bound L ;;
  Q <- for_ (range (L' + 1) (k_v - s_v)) (fun i Q =>
         L' <- bound L ;;
         x <- A5.ref R (i - L') ;;
         set2 Q col i x) Q ;;
  Ok (map (map (settle R)) Q, R, L).

(** "Update 1D control points" *)
Definition flatten (cps2D : list (list point)) : list point := concat cps2D.

(** What the [if can_insert_knot:] block of the u direction computes: the
    new knot vector, the new grid, and [L].  It raises [TypeError] where
    the code would store an array with a [None] in it (see [A5.filled]). *)
Definition A5_3_u (s : t) (u : Q) (r s_u k_u : Z) (L : option Z)
    : result (list Q * list (list point) * option Z) :=
  let p := _degree_u s in
  let np := _control_points_size_u s in
  let mp := _control_points_size_v s in
  let Q : list (list A5.slot) :=
    replicateZ (_control_points_size_u s + r)
               (replicateZ (_control_points_size_v s) A5.Unset) in
  let R : list (option point) := replicateZ (p + 1) None in
  UQ <- A5.load_knot_vector (_knot_vector_u s) k_u r u ;;
  aL <- save_alphas (_knot_vector_u s) p s_u k_u r u L ;;
  st <- for_ (range 0 mp) (row_u s aL.1 p s_u k_u r np) (Q, R, aL.2) ;;
  let '(Q, _, L) := st in
  UQ <- A5.filled UQ ;;
  Q <- comprehension (comprehension (A5.deref [])) Q ;;
  Ok (UQ, Q, L).

(** The same for the v direction.  It raises [TypeError] where the code
    would store an array with a [None] in it and return (see [A5.filled]):
    with [find_span] and [find_multiplicity] as specified, only in a call
    with both [u] and [v] given and [r = 0]. *)
Definition A5_3_v (s : t) (v : Q) (r s_v k_v : Z) (k_u L : option Z)
    : result (list Q * list (list point) * option Z) :=
  let q := _degree_v s in
  let np := _control_points_size_u s in
  let mp := _control_points_size_v s in
  let Q : list (list A5.slot) :=
    replicateZ (_control_points_size_u s)
               (replicateZ (_control_points_size_v s + r) A5.Unset) in
  let R : list (option point) := replicateZ (q + 1) None in
  VQ <- A5.load_knot_vector (_knot_vector_v s) k_v r v ;;
  aL <- save_alphas (_knot_vector_v s) q s_v k_v r v L ;;
  st <- for_ (range 0 np) (col_v s aL.1 q s_v k_v r mp k_u) (Q, R, aL.2) ;;
  let '(Q, _, L) := st in
  VQ <- A5.filled VQ ;;
  Q <- comprehension (comprehension (A5.deref [])) Q ;;
  Ok (VQ, Q, L).

(** The [if u:] block *)
Definition insert_u (u : Q) (r : Z) (env : locals) : method t locals :=
  s <~ get ;;
  let p := _degree_u s in
  s_u <~ lift (utilities.find_multiplicity U u (_knot_vector_u s)) ;;
  env <~ (if r >? p - s_u
          then warn (CannotInsertU r) ;;~
               ret {| can_insert_knot := false; k_u := k_u env; L := L env |}
          else ret env) ;;
  if can_insert_knot env then
    k <~ lift (utilities.find_span U (_degree_u s) (_knot_vector_u s)
                 (_control_points_size_u s) u) ;;
    let env := {| can_insert_knot := can_insert_knot env; k_u := Some k; L := L env |} in
    new <~ lift (A5_3_u s u r s_u k (L env)) ;;
    let '(UQ, Q, L) := new in
    put (with_ctrlpts (with_knot_vector_u s UQ) (flatten Q) Q
                      (_control_points_size_u s + r) (_control_points_size_v s)) ;;~
    ret {| can_insert_knot := can_insert_knot env; k_u := k_u env; L := L |}
  else ret env.

(** The [if v:] block *)
Definition insert_v (v : Q) (r : Z) (env : locals) : method t locals :=
  s <~ get ;;
  let q := _degree_v s in
  s_v <~ lift (utilities.find_multiplicity U v (_knot_vector_v s)) ;;
  env <~ (if r >? q - s_v
          then warn (CannotInsertV r) ;;~
               ret {| can_insert_knot := false; k_u := k_u env; L := L env |}
          else ret env) ;;
  if can_insert_knot env then
    k_v <~ lift (utilities.find_span U (_degree_v s) (_knot_vector_v s)
                   (_control_points_size_v s) v) ;;
    new <~ lift (A5_3_v s v r s_v k_v (k_u env) (L env)) ;;
    let '(VQ, Q, L) := new in
    put (with_ctrlpts (with_knot_vector_v s VQ) (flatten Q) Q
                      (_control_points_size_u s) (_control_points_size_v s + r)) ;;~
    ret {| can_insert_knot := can_insert_knot env; k_u := k_u env; L := L |}
  else ret env.

(** [insert_knot(u=None, v=None, r=1)]; [r] is an [int] by its type. *)
Definition insert_knot (u v : option Q) (r : Z) : method t unit :=
  let env := {| can_insert_knot := true; k_u := None; L := None |} in
  s <~ get ;;
  lift (_check_variables s) ;;~
  (if truthy u || truthy v then lift (utilities.check_uv U u v) else pass) ;;~
  (if r <? 0 then raise ValueError else pass) ;;~
  env <~ match u with
         | Some x => if truthy u then insert_u x r env else ret env
         | None => ret env
         end ;;
  env <~ match v with
         | Some x => if truthy v then insert_v x r env else ret env
         | None => ret env
         end ;;
  s <~ get ;;
  if nonempty (_surface_points s) then evaluate else pass.

(** *** The properties of a surface and its tangents *)

Context (K : utilities.knots) (V : utilities.vectors).

Definition with_degree_u (s : t) (degree : Z) : t := {|
  _degree_u := degree;
  _degree_v := _degree_v s;
  _knot_vector_u := _knot_vector_u s;
  _knot_vector_v := _knot_vector_v s;
  _control_points := _control_points s;
  _control_points2D := _control_points2D s;
  _control_points_size_u := _control_points_size_u s;
  _control_points_size_v := _control_points_size_v s;
  _delta := _delta s;
  _surface_points := _surface_points s;
  _dimension := _dimension s
|}.

Definition with_degree_v (s : t) (degree : Z) : t := {|
  _degree_u := _degree_u s;
  _degree_v := degree;
  _knot_vector_u := _knot_vector_u s;
  _knot_vector_v := _knot_vector_v s;
  _control_points := _control_points s;
  _control_points2D := _control_points2D s;
  _control_points_size_u := _control_points_size_u s;
  _control_points_size_v := _control_points_size_v s;
  _delta := _delta s;
  _surface_points := _surface_points s;
  _dimension := _dimension s
|}.

Definition with_delta (s : t) (delta : Q) : t := {|
  _degree_u := _degree_u s;
  _degree_v := _degree_v s;
  _knot_vector_u := _knot_vector_u s;
  _knot_vector_v := _knot_vector_v s;
  _control_points := _control_points s;
  _control_points2D := _control_points2D s;
  _control_points_size_u := _control_points_size_u s;
  _control_points_size_v := _control_points_size_v s;
  _delta := delta;
  _surface_points := _surface_points s;
  _dimension := _dimension s
|}.

(** The getters of [order_u] and [order_v] *)
Definition order_u (s : t) : Z := _degree_u s + 1.
Definition order_v (s : t) : Z := _degree_v s + 1.

(** The setters of [degree_u] and [degree_v] *)
Definition degree_u_setter (value : Z) : method t unit :=
  (if value <? 0 then raise ValueError else pass) ;;~
  _reset_surface ;;~
  s <~ get ;;
  put (with_degree_u s value).

Definition degree_v_setter (value : Z) : method t unit :=
  (if value <? 0 then raise ValueError else pass) ;;~
  _reset_surface ;;~
  s <~ get ;;
  put (with_degree_v s value).

(** The setters of [order_u] and [order_v] *)
Definition order_u_setter (value : Z) : method t unit := degree_u_setter (value - 1).
Definition order_v_setter (value : Z) : method t unit := degree_v_setter (value - 1).

(** The getters of [ctrlpts] (as tuples) and [ctrlpts2d] *)
Definition ctrlpts (s : t) : list point := _control_points s.
Definition ctrlpts2d (s : t) : list (list point) := _control_points2D s.

(** The setters of [knotvector_u] and [knotvector_v] *)
Definition knotvector_u_setter (value : list Q) : method t unit :=
  s <~ get ;;
  (if (_degree_u s =? 0) || (_control_points_size_u s =? 0)
   then raise ValueError else pass) ;;~
  value_normalized <~ lift (utilities.normalize_knot_vector K value) ;;
  (if negb (utilities.check_knot_vector K (_degree_u s) value_normalized
              (_control_points_size_u s))
   then raise ValueError else pass) ;;~
  _reset_surface ;;~
  s <~ get ;;
  put (with_knot_vector_u s value_normalized).

Definition knotvector_v_setter (value : list Q) : method t unit :=
  s <~ get ;;
  (if (_degree_v s =? 0) || (_control_points_size_v s =? 0)
   then raise ValueError else pass) ;;~
  value_normalized <~ lift (utilities.normalize_knot_vector K value) ;;
  (if negb (utilities.check_knot_vector K (_degree_v s) value_normalized
              (_control_points_size_v s))
   then raise ValueError else pass) ;;~
  _reset_surface ;;~
  s <~ get ;;
  put (with_knot_vector_v s value_normalized).

(** The setter of [delta], for a [value] that is a number.  ([NaN], which
    the test lets through, is in [Binary64.Surface.delta_setter].) *)
Definition delta_setter (value : Q) : method t unit :=
  (if Qle_bool value 0 || Qle_bool 1 value then raise ValueError else pass) ;;~
  _reset_surface ;;~
  s <~ get ;;
  put (with_delta s value).

(** The getter of [surfpts] *)
Definition surfpts : method t (list point) :=
  s <~ get ;;
  (if negb (nonempty (_surface_points s)) then evaluate else pass) ;;~
  s <~ get ;;
  ret (_surface_points s).

(** [tangent(u, v, normalize)] *)
Definition tangent (s : t) (u v : Q) (normalize : bool) : result (point * point * point) :=
  skl <- derivatives s u v 1 ;;
  point <- get2 skl 0 0 ;;
  der_u <- get2 skl 1 0 ;;
  der_v <- get2 skl 0 1 ;;
  ders <- (if normalize
           then der_u <- utilities.vector_normalize V der_u ;;
                der_v <- utilities.vector_normalize V der_v ;;
                Ok (der_u, der_v)
           else Ok (der_u, der_v)) ;;
  Ok (point, ders.1, ders.2).

End WithUtilities.

End Surface.

(** ** Objects used in the examples *)

Module Examples.

(** Results agree "within 1e-9". *)
Definition tol : Q := 1 # 1000000000.

Definition close (p p' : list Q) : bool :=
  (length p =? length p')%nat
  && forallb (fun ab : Q * Q => Qle_bool (Qabs (ab.1 - ab.2)) tol) (zip p p').

Definition agree (r r' : result (list Q)) : bool :=
  match r, r' with
  | Ok p, Ok p' => close p p'
  | _, _ => false
  end.

(** The curve of the specification's concrete scenario: degree 2, knot
    vector [0,0,0,0.5,1,1,1], control points (0,0),(1,2),(3,2),(4,0). *)
Definition curve : Curve.t := {|
  Curve._degree := 2;
  Curve._knot_vector := [0; 0; 0; 1 # 2; 1; 1; 1]%Q;
  Curve._control_points := [[0; 0]; [1; 2]; [3; 2]; [4; 0]]%Q;
  Curve._delta := 1 # 4;
  Curve._curve_points := [];
  Curve._dimension := 2
|}.

(** A surface with its degrees set and nothing else. *)
Definition blank (degree_u degree_v : Z) : Surface.t := {|
  Surface._degree_u := degree_u;
  Surface._degree_v := degree_v;
  Surface._knot_vector_u := [];
  Surface._knot_vector_v := [];
  Surface._control_points := [];
  Surface._control_points2D := [];
  Surface._control_points_size_u := 0;
  Surface._control_points_size_v := 0;
  Surface._delta := 1 # 2;
  Surface._surface_points := [];
  Surface._dimension := 3
|}.

(** The surface left by [set_ctrlpts(ctrlpts, size_u, size_v)] on a blank
    surface, with its knot vectors put in place. *)
Definition surface (degree_u degree_v : Z) (kv_u kv_v : list Q)
    (ctrlpts : list (list Q)) (size_u size_v : Z) : Surface.t :=
  let s := post (Surface.set_ctrlpts ctrlpts size_u size_v (blank degree_u degree_v)) in
  Surface.with_knot_vector_v (Surface.with_knot_vector_u s kv_u) kv_v.

(** Degree 1 x 1, a grid of 2 x 3 control points. *)
Definition grid23 : Surface.t :=
  surface 1 1 [0; 0; 1; 1]%Q [0; 0; 1 # 2; 1; 1]%Q
    [[0; 0; 0]; [0; 1; 1]; [0; 2; 0];
     [1; 0; 0]; [1; 1; 4]; [1; 2; 0]]%Q 2 3.

(** Degree 1 x 1, a grid of 3 x 2 control points; 0.5 is a knot of the u
    direction already. *)
Definition grid32 : Surface.t :=
  surface 1 1 [0; 0; 1 # 2; 1; 1]%Q [0; 0; 1; 1]%Q
    [[0; 0; 0]; [0; 1; 1];
     [1; 0; 0]; [1; 1; 4];
     [2; 0; 0]; [2; 1; 0]]%Q 3 2.

(** Degree 2 x 1, a grid of 3 x 2 control points. *)
Definition arch : Surface.t :=
  surface 2 1 [0; 0; 0; 1; 1; 1]%Q [0; 0; 1; 1]%Q
    [[0; 0; 0]; [0; 1; 0];
     [1; 0; 2]; [1; 1; 2];
     [2; 0; 0]; [2; 1; 0]]%Q 3 2.

(** The same curve with all its control points at (3, 1). *)
Definition dot : Curve.t :=
  Curve.with_control_points curve [[3; 1]; [3; 1]; [3; 1]; [3; 1]]%Q.

(** The 3 x 2 grid after [evaluate()]. *)
Definition grid32_evaluated : Surface.t := post (Surface.evaluate utils grid32).

End Examples.

(** ** The numerical code in binary64

    The methods whose results depend on rounding, with Python's [float] as
    it is: IEEE 754 binary64, every operation rounded to nearest.  [NaN]
    compares false with everything, and a division by [0.0] or [-0.0]
    raises [ZeroDivisionError].  The definitions follow those of [spec],
    [Curve] and [Surface] above, operation by operation. *)

Module Binary64.

(** [1e-9], as Python reads the literal: the nearest double, which is not
    below it. *)
Definition tol : float := 0x1.12e0be826d695p-30.

(** [float(i)] of a small [int] *)
Definition of_int (i : Z) : float :=
  if i <? 0 then (- PrimFloat.of_uint63 (Uint63.of_Z (- i)))%float
  else PrimFloat.of_uint63 (Uint63.of_Z i).

(** [a / b] on floats *)
Definition fdiv (a b : float) : result float :=
  if PrimFloat.eqb b 0 then Raise ZeroDivisionError else Ok (a / b)%float.

(** *** geomdl.utilities, from the specification *)

Module spec.

(** [0.0 <= x <= 1.0] *)
Definition in_unit (x : float) : bool := PrimFloat.leb 0 x && PrimFloat.leb x 1.

(** Modelled from the spec: [utilities.check_uv] is missing.  Section 7,
    parameter-domain errors: "u or v outside [0,1] ... fail immediately at
    the evaluation call". *)
Definition check_uv (u v : option float) : result unit :=
  match u with
  | Some x => if in_unit x then Ok tt else Raise ValueError
  | None => Ok tt
  end ;;;
  match v with
  | Some x => if in_unit x then Ok tt else Raise ValueError
  | None => Ok tt
  end.

Definition knot (values : list float) (k : Z) : option float :=
  if 0 <=? k then values !! Z.to_nat k else None.

(** [values[k] <= u < values[k+1]] *)
Definition holds (values : list float) (u : float) (k : Z) : bool :=
  match knot values k, knot values (k + 1) with
  | Some a, Some b => PrimFloat.leb a u && PrimFloat.ltb u b
  | _, _ => false
  end.

(** [values[k] < values[k+1]] *)
Definition nontrivial (values : list float) (k : Z) : bool :=
  match knot values k, knot values (k + 1) with
  | Some a, Some b => PrimFloat.ltb a b
  | _, _ => false
  end.

(** Modelled from the spec: [utilities.find_span] is missing.  Section 4.1:
    "returns index k such that values[k] <= u < values[k+1], using the
    convention that u == 1.0 maps to the span ending at the last non-trivial
    knot"; the search runs over the candidate span range
    [degree .. n_ctrlpts - 1], by a linear scan, and raises [ValueError]
    when no candidate qualifies. *)
Definition find_span (degree : Z) (values : list float) (n_ctrlpts : Z) (u : float)
    : result Z :=
  let candidates := range degree n_ctrlpts in
  let found :=
    if PrimFloat.eqb u 1
    then last (filter (fun k => nontrivial values k = true) candidates)
    else head (filter (fun k => holds values u k = true) candidates) in
  match found with
  | Some k => Ok k
  | None => Raise ValueError
  end.

(** Modelled from the spec: [utilities.basis_functions] is missing.
    Section 4.2: "Cox-de Boor recurrence (NURBS-book Algorithm A2.2)
    producing the degree+1 nonzero basis values at u, indexed so that
    values[i] pairs with control point span - degree + i".  The operations
    are those of A2.2, in its order:
    [temp = N[r] / (right[r+1] + left[j-r])],
    [N[r] = saved + right[r+1] * temp], [saved = left[j-r] * temp]. *)
Definition left (knot_vector : list float) (span : Z) (u : float) (j : Z) : result float :=
  kv <- getitem knot_vector (span + 1 - j) ;; Ok (u - kv)%float.

Definition right (knot_vector : list float) (span : Z) (u : float) (j : Z) : result float :=
  kv <- getitem knot_vector (span + j) ;; Ok (kv - u)%float.

Definition basis_step (knot_vector : list float) (span : Z) (u : float) (j r : Z)
    (acc : list float * float) : result (list float * float) :=
  let '(N, saved) := acc in
  Nr <- getitem N r ;;
  rt <- right knot_vector span u (r + 1) ;;
  lt <- left knot_vector span u (j - r) ;;
  temp <- fdiv Nr (rt + lt) ;;
  N' <- setitem N r (saved + rt * temp)%float ;;
  Ok (N', (lt * temp)%float).

Definition basis_row (knot_vector : list float) (span : Z) (u : float) (j : Z)
    (N : list float) : result (list float) :=
  acc <- for_ (range 0 j) (basis_step knot_vector span u j) (N, 0%float) ;;
  setitem acc.1 j acc.2.

Definition basis_functions (degree : Z) (knot_vector : list float) (span : Z) (u : float)
    : result (list float) :=
  for_ (range 1 (degree + 1)) (basis_row knot_vector span u)
       (1%float :: replicateZ degree 0%float).

(** Modelled from the spec: [utilities.basis_functions_all] is missing.
    Section 4.2: "full triangular table of all-degree basis values ...
    all_basis[j][degree] for varying j equals values()": entry [j][i] is
    the [j]-th basis value of degree [i]. *)
Definition basis_functions_all (degree : Z) (knot_vector : list float) (span : Z)
    (u : float) : result (list (list float)) :=
  for_ (range 0 (degree + 1)) (fun i N =>
    bfuns <- basis_functions i knot_vector span u ;;
    for_ (range 0 (i + 1)) (fun k N =>
      b <- getitem bfuns k ;; set2 N k i b) N)
    (replicateZ (degree + 1) (replicateZ (degree + 1) 0%float)).

(** Modelled from the spec: [utilities.basis_functions_ders] is missing.
    Section 4.2: "the standard triangular-table derivative algorithm
    (Algorithm A2.3), computing all nonzero basis function values and their
    derivatives up to max_order", with the operations of A2.3 in its
    order. *)
Definition ndu_step (knot_vector : list float) (span : Z) (u : float) (j r : Z)
    (acc : list (list float) * float) : result (list (list float) * float) :=
  let '(ndu, saved) := acc in
  rt <- right knot_vector span u (r + 1) ;;
  lt <- left knot_vector span u (j - r) ;;
  ndu <- set2 ndu j r (rt + lt)%float ;;
  x <- get2 ndu r (j - 1) ;;
  y <- get2 ndu j r ;;
  temp <- fdiv x y ;;
  ndu <- set2 ndu r j (saved + rt * temp)%float ;;
  Ok (ndu, (lt * temp)%float).

Definition ndu_table (degree : Z) (knot_vector : list float) (span : Z) (u : float)
    : result (list (list float)) :=
  ndu <- set2 (replicateZ (degree + 1) (replicateZ (degree + 1) 0%float)) 0 0 1%float ;;
  for_ (range 1 (degree + 1)) (fun j ndu =>
    acc <- for_ (range 0 j) (ndu_step knot_vector span u j) (ndu, 0%float) ;;
    set2 acc.1 j j acc.2) ndu.

Record ders_state : Type := {
  a : list (list float);
  ders : list (list float);
  s1 : Z;
  s2 : Z
}.

Definition ders_step (degree : Z) (ndu : list (list float)) (r k : Z) (st : ders_state)
    : result ders_state :=
  let '{| a := a; ders := ders; s1 := s1; s2 := s2 |} := st in
  let d := 0%float in
  let rk := r - k in
  let pk := degree - k in
  ad <- (if r >=? k
         then x <- get2 a s1 0 ;; y <- get2 ndu (pk + 1) rk ;; q <- fdiv x y ;;
              a <- set2 a s2 0 q ;;
              x <- get2 a s2 0 ;; y <- get2 ndu rk pk ;;
              Ok (a, (x * y)%float)
         else Ok (a, d)) ;;
  let j1 := if rk >=? -1 then 1 else - rk in
  let j2 := if r - 1 <=? pk then k - 1 else degree - r in
  ad <- for_ (range j1 (j2 + 1)) (fun j (ad : list (list float) * float) =>
          x <- get2 ad.1 s1 j ;; x' <- get2 ad.1 s1 (j - 1) ;;
          y <- get2 ndu (pk + 1) (rk + j) ;;
          q <- fdiv (x - x') y ;;
          a <- set2 ad.1 s2 j q ;;
          x <- get2 a s2 j ;; y <- get2 ndu (rk + j) pk ;;
          Ok (a, (ad.2 + x * y)%float)) ad ;;
  ad <- (if r <=? pk
         then x <- get2 ad.1 s1 (k - 1) ;; y <- get2 ndu (pk + 1) r ;;
              q <- fdiv (- x) y ;;
              a <- set2 ad.1 s2 k q ;;
              x <- get2 a s2 k ;; y <- get2 ndu r pk ;;
              Ok (a, (ad.2 + x * y)%float)
         else Ok ad) ;;
  ders <- set2 ders k r ad.2 ;;
  Ok {| a := ad.1; ders := ders; s1 := s2; s2 := s1 |}.

Definition basis_functions_ders (degree : Z) (knot_vector : list float) (span : Z)
    (u : float) (order : Z) : result (list (list float)) :=
  ndu <- ndu_table degree knot_vector span u ;;
  let ders := replicateZ (order + 1) (replicateZ (degree + 1) 0%float) in
  ders <- for_ (range 0 (degree + 1)) (fun j ders =>
            x <- get2 ndu j degree ;; set2 ders 0 j x) ders ;;
  let a := replicateZ 2 (replicateZ (degree + 1) 0%float) in
  st <- for_ (range 0 (degree + 1)) (fun r (st : ders_state) =>
          a <- set2 (spec.a st) 0 0 1%float ;;
          for_ (range 1 (order + 1)) (ders_step degree ndu r)
               {| a := a; ders := spec.ders st; s1 := 0; s2 := 1 |})
        {| a := a; ders := ders; s1 := 0; s2 := 1 |} ;;
  acc <- for_ (range 1 (order + 1)) (fun k (acc : list (list float) * Z) =>
           ders <- for_ (range 0 (degree + 1)) (fun j ders =>
                     x <- get2 ders k j ;; set2 ders k j (x * of_int acc.2)%float) acc.1 ;;
           Ok (ders, acc.2 * (degree - k)))
         (spec.ders st, degree) ;;
  Ok acc.1.

End spec.

(** *** class Curve *)

Module Curve.

Definition point : Type := list float.

Record t : Type := {
  _degree : Z;
  _knot_vector : list float;
  _control_points : list point;
  _delta : float;
  _curve_points : list point;
  _dimension : Z
}.

Definition with_curve_points (c : t) (pts : list point) : t := {|
  _degree := _degree c;
  _knot_vector := _knot_vector c;
  _control_points := _control_points c;
  _delta := _delta c;
  _curve_points := pts;
  _dimension := _dimension c
|}.

Definition with_delta (c : t) (delta : float) : t := {|
  _degree := _degree c;
  _knot_vector := _knot_vector c;
  _control_points := _control_points c;
  _delta := delta;
  _curve_points := _curve_points c;
  _dimension := _dimension c
|}.

(** [_reset_curve] *)
Definition _reset_curve : method t unit := fun c =>
  if nonempty (_curve_points c)
  then put (with_curve_points c []) c
  else pass c.

(** [_check_variables] *)
Definition _check_variables (c : t) : result unit :=
  let works := true in
  let works := if _degree c =? 0 then false else works in
  let works := if negb (nonempty (_control_points c)) then false else works in
  let works := if negb (nonempty (_knot_vector c)) then false else works in
  if negb works then Raise ValueError else Ok tt.

(** The setter of [delta]: [float(value) <= 0 or float(value) >= 1] is false
    of [NaN], which is stored. *)
Definition delta_setter (value : float) : method t unit :=
  (if PrimFloat.leb value 0 || PrimFloat.leb 1 value then raise ValueError else pass) ;;~
  _reset_curve ;;~
  c <~ get ;;
  put (with_delta c value).

(** [[acc + (coef * x) for acc, x in zip(accs, xs)]] *)
Definition axpy (coef : result float) (accs xs : list float) : result (list float) :=
  comprehension (fun ax : float * float => b <- coef ;; Ok (ax.1 + b * ax.2)%float)
    (zip accs xs).

(** [curvept(u, check_vars)], with [get_ctrlpts] at its default [False]. *)
Definition curvept (c : t) (u : float) (check_vars : bool) : result point :=
  (if check_vars
   then _check_variables c ;;; spec.check_uv (Some u) None
   else Ok tt) ;;;
  span <- spec.find_span (_degree c) (_knot_vector c) (len (_control_points c)) u ;;
  basis <- spec.basis_functions (_degree c) (_knot_vector c) span u ;;
  let cpt := replicateZ (_dimension c) 0%float in
  for_ (range 0 (_degree c + 1)) (fun i cpt =>
    ctrl_pt <- getitem (_control_points c) (span - _degree c + i) ;;
    axpy (getitem basis i) cpt ctrl_pt) cpt.

Definition number (x : option float) : result float :=
  match x with
  | Some q => Ok q
  | None => Raise TypeError
  end.

(** [[acc + (coef * x) for acc, x in zip(accs, xs)]] on table entries. *)
Definition axpy_entry (coef : result float) (accs xs : list (option float))
    : result (list (option float)) :=
  comprehension (fun ax : option float * option float =>
          b <- coef ;; x <- number ax.2 ;; a <- number ax.1 ;;
          Ok (Some (a + b * x)%float)) (zip accs xs).

Definition zeros (c : t) : list (option float) := replicateZ (_dimension c) (Some 0%float).
Definition nones (c : t) : list (option float) := replicateZ (_dimension c) None.

(** [CK = [[None ...] for y in range(order + 1)]] followed by
    [for k in range(degree + 1, order + 1): CK[k] = [0.0 ...]]. *)
Definition CK_init (c : t) (order : Z) : result (list (list (option float))) :=
  for_ (range (_degree c + 1) (order + 1)) (fun k CK => setitem CK k (zeros c))
       (replicateZ (order + 1) (nones c)).

(** [derivatives2(u, order)], Algorithm A3.2 *)
Definition derivatives2 (c : t) (u : float) (order : Z)
    : result (list (list (option float))) :=
  _check_variables c ;;;
  (if PrimFloat.ltb u 0 || PrimFloat.ltb 1 u then Raise ValueError else Ok tt) ;;;
  let du := Z.min (_degree c) order in
  CK <- CK_init c order ;;
  span <- spec.find_span (_degree c) (_knot_vector c) (len (_control_points c)) u ;;
  bfunsders <- spec.basis_functions_ders (_degree c) (_knot_vector c) span u du ;;
  for_ (range 0 (du + 1)) (fun k CK =>
    CK <- setitem CK k (zeros c) ;;
    for_ (range 0 (_degree c + 1)) (fun j CK =>
      CKk <- getitem CK k ;;
      ctrl_pt <- getitem (_control_points c) (span - _degree c + j) ;;
      new <- axpy_entry (row <- getitem bfunsders k ;; getitem row j)
                        CKk (map Some ctrl_pt) ;;
      setitem CK k new) CK) CK.

(** [derivatives_ctrlpts(order, r1, r2)], Algorithm A3.3 *)
Definition derivatives_ctrlpts (c : t) (order r1 r2 : Z)
    : result (list (list (list (option float)))) :=
  let r := r2 - r1 in
  let PK := replicateZ (order + 1) (replicateZ (r + 1) (nones c)) in
  PK <- for_ (range 0 (r + 1)) (fun i PK =>
          cp <- getitem (_control_points c) (r1 + i) ;;
          PK0 <- getitem PK 0 ;;
          PK0 <- setitem PK0 i (map Some cp) ;;
          setitem PK 0 PK0) PK ;;
  for_ (range 1 (order + 1)) (fun k PK =>
    let tmp := _degree c - k + 1 in
    for_ (range 0 (r - k + 1)) (fun i PK =>
      prev <- getitem PK (k - 1) ;;
      elems1 <- getitem prev (i + 1) ;;
      elems2 <- getitem prev i ;;
      new <- comprehension (fun e : option float * option float =>
                     elem1 <- number e.1 ;;
                     elem2 <- number e.2 ;;
                     a <- getitem (_knot_vector c) (r1 + i + _degree c + 1) ;;
                     b <- getitem (_knot_vector c) (r1 + i + k) ;;
                     q <- fdiv (of_int tmp * (elem1 - elem2)) (a - b) ;;
                     Ok (Some q)) (zip elems1 elems2) ;;
      PKk <- getitem PK k ;;
      PKk <- setitem PKk i new ;;
      setitem PK k PKk) PK) PK.

(** [derivatives(u, order)], Algorithm A3.4 *)
Definition derivatives (c : t) (u : float) (order : Z)
    : result (list (list (option float))) :=
  _check_variables c ;;;
  spec.check_uv (Some u) None ;;;
  let du := Z.min (_degree c) order in
  CK <- CK_init c order ;;
  span <- spec.find_span (_degree c) (_knot_vector c) (len (_control_points c)) u ;;
  bfuns <- spec.basis_functions_all (_degree c) (_knot_vector c) span u ;;
  PK <- derivatives_ctrlpts c du (span - _degree c) span ;;
  for_ (range 0 (du + 1)) (fun k CK =>
    CK <- setitem CK k (zeros c) ;;
    for_ (range 0 (_degree c - k + 1)) (fun j CK =>
      CKk <- getitem CK k ;;
      PKk <- getitem PK k ;;
      drv_ctrlpt <- getitem PKk j ;;
      new <- axpy_entry (row <- getitem bfuns j ;; getitem row (_degree c - k))
                        CKk drv_ctrlpt ;;
      setitem CK k new) CK) CK.

(** A curve of [dimension] 1, not evaluated yet. *)
Definition scalar (degree : Z) (knot_vector : list float) (control_points : list float)
    : t := {|
  _degree := degree;
  _knot_vector := knot_vector;
  _control_points := map (fun x => [x]) control_points;
  _delta := 0.25;
  _curve_points := [];
  _dimension := 1
|}.

(** The curve of the specification's concrete scenario. *)
Definition scenario : t := {|
  _degree := 2;
  _knot_vector := [0; 0; 0; 0.5; 1; 1; 1]%float;
  _control_points := [[0; 0]; [1; 2]; [3; 2]; [4; 0]]%float;
  _delta := 0.25;
  _curve_points := [];
  _dimension := 2
|}.

End Curve.

(** *** class Surface: the [delta] property *)

Module Surface.

Definition point : Type := list float.

Record t : Type := {
  _degree_u : Z;
  _degree_v : Z;
  _knot_vector_u : list float;
  _knot_vector_v : list float;
  _control_points : list point;
  _control_points2D : list (list point);
  _control_points_size_u : Z;
  _control_points_size_v : Z;
  _delta : float;
  _surface_points : list point;
  _dimension : Z
}.

Definition with_surface_points (s : t) (pts : list point) : t := {|
  _degree_u := _degree_u s;
  _degree_v := _degree_v s;
  _knot_vector_u := _knot_vector_u s;
  _knot_vector_v := _knot_vector_v s;
  _control_points := _control_points s;
  _control_points2D := _control_points2D s;
  _control_points_size_u := _control_points_size_u s;
  _control_points_size_v := _control_points_size_v s;
  _delta := _delta s;
  _surface_points := pts;
  _dimension := _dimension s
|}.

Definition with_delta (s : t) (delta : float) : t := {|
  _degree_u := _degree_u s;
  _degree_v := _degree_v s;
  _knot_vector_u := _knot_vector_u s;
  _knot_vector_v := _knot_vector_v s;
  _control_points := _control_points s;
  _control_points2D := _control_points2D s;
  _control_points_size_u := _control_points_size_u s;
  _control_points_size_v := _control_points_size_v s;
  _delta := delta;
  _surface_points := _surface_points s;
  _dimension := _dimension s
|}.

(** [_reset_surface] *)
Definition _reset_surface : method t unit := fun s =>
  if nonempty (_surface_points s)
  then put (with_surface_points s []) s
  else pass s.

(** The setter of [delta]: [float(value) <= 0 or float(value) >= 1] is false
    of [NaN], which is stored. *)
Definition delta_setter (value : float) : method t unit :=
  (if PrimFloat.leb value 0 || PrimFloat.leb 1 value then raise ValueError else pass) ;;~
  _reset_surface ;;~
  s <~ get ;;
  put (with_delta s value).

End Surface.

End Binary64.

(** ** Validation of control points *)

Module Validation.

(** The surface after [_reset_surface()] and [_reset_ctrlpts()]. *)
Definition cleared (s : Surface.t) : Surface.t :=
  post (Surface._reset_ctrlpts (post (Surface._reset_surface s))).

(** The input of [set_ctrlpts] that one of its checks rejects. *)
Definition invalid (s : Surface.t) (ctrlpts : list (list Q)) (size_u size_v : Z) : Prop :=
  Surface._degree_u s = 0 \/ Surface._degree_v s = 0
  \/ size_u < Surface._degree_u s + 1
  \/ size_v < Surface._degree_v s + 1
  \/ Exists (fun cpt => len cpt <> Surface._dimension s) ctrlpts.

(** The cached surface points are those of the surface: there are none, or
    [evaluate()] has left the surface as it is. *)
Definition cache_valid (U : utilities.t) (s : Surface.t) : Prop :=
  Surface._surface_points s = []
  \/ exists s0, Surface.evaluate U s0 = Outcome (Ok tt) s [].

(** The sum of a list of floats. *)
Definition total (l : list Q) : Q := fold_right Qplus 0%Q l.

(** Two points are the same, coordinate by coordinate. *)
Definition same (p p' : list Q) : Prop := Forall2 Qeq p p'.

(** A curve all of whose control points are the point [P]. *)
Definition constant_curve (c : Curve.t) (P : list Q) : Prop :=
  len P = Curve._dimension c
  /\ Forall (fun cp => cp = P) (Curve._control_points c).

(** The parameter [u] lies in [0,1] and in the domain of the knot vector,
    which is not a single point:
    [values[degree] <= u < values[n_ctrlpts]], or [u] is 1.0, which
    [find_span] maps to the last span of positive width.  The knot vector
    need not be clamped. *)
Definition in_domain (degree : Z) (values : list Q) (n_ctrlpts : Z) (u : Q) : bool :=
  match spec.knot values degree, spec.knot values n_ctrlpts with
  | Some a, Some b =>
      Qle_bool 0 u && Qle_bool a u && Qle_bool u 1
      && (negb (Qle_bool b u) || Qeq_bool u 1) && negb (Qle_bool b a)
  | _, _ => false
  end.

(** Modelled from the spec: the glossary's clamped knot vector, "first/last
    knot repeated degree+1 times", for a normalized vector: the first
    [degree + 1] knots are 0 and the next is greater, the last [degree + 1]
    knots are 1 and the one before is smaller. *)
Definition knot_is (values : list Q) (x : Q) (k : Z) : bool :=
  match spec.knot values k with
  | Some a => Qeq_bool a x
  | None => false
  end.

Definition clamped (degree : Z) (values : list Q) (n_ctrlpts : Z) : bool :=
  forallb (knot_is values 0) (range 0 (degree + 1))
  && spec.nontrivial values degree
  && spec.nontrivial values (n_ctrlpts - 1)
  && forallb (knot_is values 1) (range n_ctrlpts (n_ctrlpts + degree + 1)).

(** Every control point has [dimension] coordinates (invariant 3). *)
Definition dimensioned (c : Curve.t) : Prop :=
  Forall (fun cp => len cp = Curve._dimension c) (Curve._control_points c).

(** [N] is 1 at position [m] and 0 elsewhere. *)
Definition unit_vector (m : Z) (N : list Q) : Prop :=
  forall i x, N !! i = Some x -> (x == if Z.of_nat i =? m then 1 else 0)%Q.

(** A table of at least [rows] rows of at least [cols] entries each. *)
Definition table {A} (rows cols : Z) (t : list (list A)) : bool :=
  (rows <=? len t) && forallb (fun row : list A => cols <=? len row) t.

(** The curve can be evaluated at [u], in the span [span]: the checks of
    the method pass, [find_span] returns [span], a span of positive width
    of a non-decreasing knot vector with [degree] knots after it and
    [degree + 1] control points up to it. *)
Definition evaluable (U : utilities.t) (c : Curve.t) (u : Q) (span : Z) : Prop :=
  Curve._check_variables c = Ok tt
  /\ utilities.check_uv U (Some u) None = Ok tt
  /\ spec.in_unit u = true
  /\ 0 <= Curve._degree c
  /\ utilities.find_span U (Curve._degree c) (Curve._knot_vector c)
       (len (Curve._control_points c)) u = Ok span
  /\ Curve._degree c <= span < len (Curve._control_points c)
  /\ span + Curve._degree c < len (Curve._knot_vector c)
  /\ spec.nondecreasing (Curve._knot_vector c) = true
  /\ spec.nontrivial (Curve._knot_vector c) span = true.

(** The two tables of basis values have their shape. *)
Definition tabulated (U : utilities.t) (c : Curve.t) (u : Q) (span : Z) : Prop :=
  (exists bfunsders,
     utilities.basis_functions_ders U (Curve._degree c) (Curve._knot_vector c) span u
       (Curve._degree c) = Ok bfunsders
     /\ table (Curve._degree c + 1) (Curve._degree c + 1) bfunsders = true)
  /\ (exists bfuns,
     utilities.basis_functions_all U (Curve._degree c) (Curve._knot_vector c) span u
       = Ok bfuns
     /\ table (Curve._degree c + 1) (Curve._degree c + 1) bfuns = true).

(** [CK] has [order + 1] entries, those above the degree are [[0.0, ...]]. *)
Definition zero_above_degree (c : Curve.t) (order : Z) (CK : list (list (option Q))) : Prop :=
  len CK = order + 1
  /\ forall k, Curve._degree c < k <= order -> CK !! Z.to_nat k = Some (Curve.zeros c).

(** An entry of a table of points that holds floats only. *)
Definition floats (entry : list (option Q)) : Prop := Forall is_Some entry.

(** [PK] has [rows] rows of [cols] entries. *)
Definition PK_shape (rows cols : Z) (PK : list (list (list (option Q)))) : Prop :=
  len PK = rows /\ Forall (fun row => len row = cols) PK.

(** The entry [PK[k][i]] is there and holds floats. *)
Definition PK_ready (PK : list (list (list (option Q)))) (k i : Z) : Prop :=
  exists row entry,
    PK !! Z.to_nat k = Some row /\ row !! Z.to_nat i = Some entry /\ floats entry.

(** The state of the loops of A2.3 over [a] and [ders]: the two tables have
    their shape and [s1], [s2] name the two rows of [a]. *)
Definition ders_ready (degree order : Z) (st : spec.ders_state) : Prop :=
  table 2 (degree + 1) (spec.a st) = true
  /\ table (order + 1) (degree + 1) (spec.ders st) = true
  /\ ((spec.s1 st = 0 /\ spec.s2 st = 1) \/ (spec.s1 st = 1 /\ spec.s2 st = 0)).

(** *** Reference values for the two derivative algorithms *)

(** The sum of [f i] for [a <= i < b]. *)
Definition sigma (a b : Z) (f : Z -> Q) : Q :=
  fold_right (fun i s => (f i + s)%Q) 0%Q (range a b).

(** Coordinate [d] of a point, 0.0 where there is none. *)
Definition coord (v : list Q) (d : nat) : Q := default 0%Q (v !! d).

Section Reference.

Variables (degree : Z) (knot_vector : list Q) (span : Z) (u : Q).

(** [knot_vector[i]], [right[j]] and [left[j]] of A2.2, and the knot
    difference [right[r+1] + left[j-r]] that A2.3 stores in [ndu[j][r]]. *)
Definition K (i : Z) : Q := default 0%Q (spec.knot knot_vector i).
Definition Rt (j : Z) : Q := (K (span + j) - u)%Q.
Definition Lt (j : Z) : Q := (u - K (span + 1 - j))%Q.
Definition D (j r : Z) : Q := (Rt (r + 1) + Lt (j - r))%Q.

(** The Cox-de Boor recurrence: basis function [r] of degree [j] of the
    span, [0 <= r <= j]. *)
Fixpoint Nref (j : nat) (r : Z) : Q :=
  match j with
  | O => if r =? 0 then 1%Q else 0%Q
  | S j' =>
      ((if (0 <? r) && (r <=? Z.of_nat j)
        then Lt (Z.of_nat j - r + 1) * (Nref j' (r - 1) / D (Z.of_nat j) (r - 1))
        else 0)
       + (if (0 <=? r) && (r <? Z.of_nat j)
          then Rt (r + 1) * (Nref j' r / D (Z.of_nat j) r)
          else 0))%Q
  end.

(** The coefficients [a_{k,j}] of the [k]-th derivative of basis function
    [r] of degree [degree] (equation 2.10 of the NURBS book); 0 outside
    [0 <= j <= k]. *)
Fixpoint Aref (k : nat) (r j : Z) : Q :=
  match k with
  | O => if j =? 0 then 1%Q else 0%Q
  | S k' => ((Aref k' r j - Aref k' r (j - 1))
             / D (degree - Z.of_nat k') (r - Z.of_nat k + j))%Q
  end.

(** [degree * (degree - 1) * ... * (degree - k + 1)] *)
Fixpoint Fk (k : nat) : Q :=
  match k with
  | O => 1%Q
  | S k' => (Fk k' * inject_Z (degree - Z.of_nat k'))%Q
  end.

(** The [k]-th derivative of basis function [r] of degree [degree] is a
    combination of the basis functions of degree [degree - k]: its terms,
    their sum, and the sum with its factor. *)
Definition Gref (k r i : Z) : Q :=
  (Aref (Z.to_nat k) r (i - r + k) * Nref (Z.to_nat (degree - k)) i)%Q.

Definition Sref (k r : Z) : Q := sigma 0 (degree - k + 1) (Gref k r).

Definition Dref (k r : Z) : Q := (Fk (Z.to_nat k) * Sref k r)%Q.

End Reference.

(** The table [M] holds the value [x] at [i], [j]. *)
Definition cell (M : list (list Q)) (i j : Z) (x : Q) : Prop :=
  exists y, get2 M i j = Ok y /\ (y == x)%Q.

(** The table [ndu] of A2.3, filled up to row and column [j], and in row
    and column [j] up to [r]: knot differences in the lower triangle, basis
    values in the upper one. *)
Definition ndu_filled (knot_vector : list Q) (span : Z) (u : Q)
    (ndu : list (list Q)) (j r : Z) : Prop :=
  forall j' r', 0 <= r' -> j' < j \/ (j' = j /\ r' < r) ->
    (r' < j' -> cell ndu j' r' (D knot_vector span u j' r'))
    /\ (r' <= j' -> cell ndu r' j' (Nref knot_vector span u (Z.to_nat j') r')).

(** Row [s] of the table [a] of A2.3 holds the coefficients of round [k]
    for basis function [r] in its columns before [j], where the basis
    function they multiply is one of the span. *)
Definition a_row (degree : Z) (knot_vector : list Q) (span : Z) (u : Q)
    (a : list (list Q)) (s k r j : Z) : Prop :=
  forall j', 0 <= j' < j -> 0 <= r - k + j' <= degree - k ->
    cell a s j' (Aref degree knot_vector span u (Z.to_nat k) r j').

(** The state of round [k] of A2.3 for basis function [r], before column
    [j]: row [s1] holds the coefficients of round [k - 1], row [s2] those of
    round [k] so far, and [d] the sum of the terms so far. *)
Definition ders_round (degree : Z) (knot_vector : list Q) (span : Z) (u : Q)
    (s1 s2 k r j : Z) (ad : list (list Q) * Q) : Prop :=
  table 2 (degree + 1) ad.1 = true
  /\ a_row degree knot_vector span u ad.1 s1 (k - 1) r k
  /\ a_row degree knot_vector span u ad.1 s2 k r j
  /\ (ad.2 == sigma 0 (r - k + j) (Gref degree knot_vector span u k r))%Q.

(** Coordinate [d] of control point [r] of the window of the span. *)
Definition Pref (c : Curve.t) (span r : Z) (d : nat) : Q :=
  coord (default [] (Curve._control_points c !! Z.to_nat (span - Curve._degree c + r))) d.

(** Coordinate [d] of control point [i] of the [k]-th derivative curve. *)
Definition PKref (c : Curve.t) (u : Q) (span k i : Z) (d : nat) : Q :=
  (Fk (Curve._degree c) (Z.to_nat k)
   * sigma 0 (Curve._degree c + 1)
       (fun r => Aref (Curve._degree c) (Curve._knot_vector c) span u (Z.to_nat k) r (i - r + k)
                 * Pref c span r d))%Q.

(** An entry of a table of points holds [dimension] floats, the values of
    [f]. *)
Definition is_point (c : Curve.t) (entry : list (option Q)) (f : nat -> Q) : Prop :=
  exists w, entry = map Some w
            /\ len w = Curve._dimension c
            /\ forall d, (d < length w)%nat -> (coord w d == f d)%Q.

(** The entry [PK[k][i]] is there and has the property [P k i]. *)
Definition PK_at (P : Z -> Z -> list (option Q) -> Prop)
    (PK : list (list (list (option Q)))) (k i : Z) : Prop :=
  exists row entry,
    PK !! Z.to_nat k = Some row /\ row !! Z.to_nat i = Some entry /\ P k i entry.

(** A point of [dim] floats, the values of [f]. *)
Definition is_vec (dim : Z) (w : list Q) (f : nat -> Q) : Prop :=
  len w = dim /\ forall d, (d < length w)%nat -> (coord w d == f d)%Q.

(** *** Surfaces: the curves of control points in the two directions *)

(** The control points of a surface form a grid of [size_u] rows of
    [size_v] points of [dimension] coordinates. *)
Definition gridded (s : Surface.t) : Prop :=
  len (Surface._control_points2D s) = Surface._control_points_size_u s
  /\ Forall (fun row => len row = Surface._control_points_size_v s
                        /\ Forall (fun p : list Q => len p = Surface._dimension s) row)
       (Surface._control_points2D s).

(** The curve in the u direction through column [j] of the control points. *)
Definition u_curve (s : Surface.t) (j : Z) : Curve.t := {|
  Curve._degree := Surface._degree_u s;
  Curve._knot_vector := Surface._knot_vector_u s;
  Curve._control_points :=
    map (fun row : list (list Q) => default [] (row !! Z.to_nat j)) (Surface._control_points2D s);
  Curve._delta := Surface._delta s;
  Curve._curve_points := [];
  Curve._dimension := Surface._dimension s
|}.

(** The curve in the v direction with the control points [Qs]. *)
Definition v_curve (s : Surface.t) (Qs : list (list Q)) : Curve.t := {|
  Curve._degree := Surface._degree_v s;
  Curve._knot_vector := Surface._knot_vector_v s;
  Curve._control_points := Qs;
  Curve._delta := Surface._delta s;
  Curve._curve_points := [];
  Curve._dimension := Surface._dimension s
|}.

(** The derivative of a surface, [k] times in u and [l] times in v, as
    the derivative control points give it direction by direction: [Qs]
    holds the [k]-th derivatives at [u] of the curves through the columns
    of control points, by [Curve.derivatives] (Algorithm A3.4), and [w] is
    the [l]-th derivative at [v], by the same method, of the curve in the v
    direction with the control points [Qs]. *)
Definition reconstructed (U : utilities.t) (s : Surface.t) (u v : Q) (order k l : Z)
    (w : list Q) : Prop :=
  exists Qs CK,
    len Qs = Surface._control_points_size_v s
    /\ (forall j, 0 <= j < Surface._control_points_size_v s ->
          exists CKj q, Curve.derivatives U (u_curve s j) u order = Ok CKj
                        /\ CKj !! Z.to_nat k = Some (map Some q)
                        /\ Qs !! Z.to_nat j = Some q)
    /\ Curve.derivatives U (v_curve s Qs) v order = Ok CK
    /\ CK !! Z.to_nat l = Some (map Some w).

(** Coordinate [d] of the control point in row [i], column [j] of the grid. *)
Definition Sgrid (s : Surface.t) (i j : Z) (d : nat) : Q :=
  coord (default [] (default [] (Surface._control_points2D s !! Z.to_nat i) !! Z.to_nat j)) d.

(** Coordinate [d] of the derivative [k] times in u and [l] times in v:
    the derivatives of the basis functions of the two directions against
    the control points of the window of the two spans. *)
Definition SKLref (s : Surface.t) (u v : Q) (span_u span_v k l : Z) (d : nat) : Q :=
  sigma 0 (Surface._degree_v s + 1) (fun t =>
    Dref (Surface._degree_v s) (Surface._knot_vector_v s) span_v v l t
    * sigma 0 (Surface._degree_u s + 1) (fun r =>
        Dref (Surface._degree_u s) (Surface._knot_vector_u s) span_u u k r
        * Sgrid s (span_u - Surface._degree_u s + r) (span_v - Surface._degree_v s + t) d))%Q.

(** The surface can be evaluated at [(u, v)], in the spans [span_u] and
    [span_v]: what [evaluable] says of a curve, in the two directions. *)
Definition evaluable2 (U : utilities.t) (s : Surface.t) (u v : Q) (span_u span_v : Z) : Prop :=
  Surface._check_variables s = Ok tt
  /\ utilities.check_uv U (Some u) (Some v) = Ok tt
  /\ gridded s
  /\ (0 <= Surface._degree_u s
      /\ utilities.find_span U (Surface._degree_u s) (Surface._knot_vector_u s)
           (Surface._control_points_size_u s) u = Ok span_u
      /\ Surface._degree_u s <= span_u < Surface._control_points_size_u s
      /\ span_u + Surface._degree_u s < len (Surface._knot_vector_u s)
      /\ spec.nondecreasing (Surface._knot_vector_u s) = true
      /\ spec.nontrivial (Surface._knot_vector_u s) span_u = true)
  /\ (0 <= Surface._degree_v s
      /\ utilities.find_span U (Surface._degree_v s) (Surface._knot_vector_v s)
           (Surface._control_points_size_v s) v = Ok span_v
      /\ Surface._degree_v s <= span_v < Surface._control_points_size_v s
      /\ span_v + Surface._degree_v s < len (Surface._knot_vector_v s)
      /\ spec.nondecreasing (Surface._knot_vector_v s) = true
      /\ spec.nontrivial (Surface._knot_vector_v s) span_v = true).

(** Entry [SKL[k][l]] of the table of A3.6 holds the sum of the first
    [P k l] of the terms it receives. *)
Definition SKL_progress (s : Surface.t) (u v : Q) (span_u span_v : Z) (order : Z)
    (P : Z -> Z -> Z) (SKL : list (list (list Q))) : Prop :=
  forall k l,
    0 <= k <= Z.min (Surface._degree_u s) order ->
    0 <= l <= Z.min (Surface._degree_v s) order ->
    exists w, get2 SKL k l = Ok w
      /\ is_vec (Surface._dimension s) w (fun d =>
           sigma 0 (P k l) (fun t =>
             Dref (Surface._degree_v s) (Surface._knot_vector_v s) span_v v l t
             * sigma 0 (Surface._degree_u s + 1) (fun r =>
                 Dref (Surface._degree_u s) (Surface._knot_vector_u s) span_u u k r
                 * Sgrid s (span_u - Surface._degree_u s + r)
                     (span_v - Surface._degree_v s + t) d))%Q).

(** The number of terms that entry [SKL[k][l]] has received when A3.6
    returns: all [degree_v + 1] of them when [l <= min(order - k, dv)], none
    otherwise. *)
Definition SKL_terms (s : Surface.t) (order : Z) (k l : Z) : Z :=
  if l <=? Z.min (order - k) (Z.min (Surface._degree_v s) order)
  then Surface._degree_v s + 1 else 0.

(** A curve and a parameter that the claims on evaluation quantify over: a
    degree of at least 1, at least [degree + 1] control points of
    [dimension] coordinates each, a knot vector that [check_knot_vector]
    accepts, and [u] in [0,1] and in the domain of the knot vector. *)
Definition valid_curve (c : Curve.t) (u : Q) : Prop :=
  1 <= Curve._degree c
  /\ Curve._degree c + 1 <= len (Curve._control_points c)
  /\ spec.check_knot_vector (Curve._degree c) (Curve._knot_vector c)
       (len (Curve._control_points c)) = true
  /\ in_domain (Curve._degree c) (Curve._knot_vector c)
       (len (Curve._control_points c)) u = true
  /\ dimensioned c.

(** The same for a surface and a pair of parameters. *)
Definition valid_surface (s : Surface.t) (u v : Q) : Prop :=
  (1 <= Surface._degree_u s /\ 1 <= Surface._degree_v s)
  /\ (Surface._degree_u s + 1 <= Surface._control_points_size_u s
      /\ Surface._degree_v s + 1 <= Surface._control_points_size_v s)
  /\ nonempty (Surface._control_points s) = true
  /\ gridded s
  /\ (spec.check_knot_vector (Surface._degree_u s) (Surface._knot_vector_u s)
        (Surface._control_points_size_u s) = true
      /\ spec.check_knot_vector (Surface._degree_v s) (Surface._knot_vector_v s)
           (Surface._control_points_size_v s) = true)
  /\ (in_domain (Surface._degree_u s) (Surface._knot_vector_u s)
        (Surface._control_points_size_u s) u = true
      /\ in_domain (Surface._degree_v s) (Surface._knot_vector_v s)
           (Surface._control_points_size_v s) v = true).

(** *** Grids of control points *)

(** Row [i] of the grid that [set_ctrlpts] builds from the flat list. *)
Definition grid_row (ctrlpts : list (list Q)) (size_v i : Z) : list (list Q) :=
  take (Z.to_nat size_v) (drop (Z.to_nat (i * size_v)) ctrlpts).

(** Column [v] of a grid, and the grid of the columns. *)
Definition column (G : list (list (list Q))) (v : Z) : list (list Q) :=
  map (fun row : list (list Q) => default [] (row !! Z.to_nat v)) G.

Definition transposed (G : list (list (list Q))) (size_v : Z) : list (list (list Q)) :=
  map (column G) (range 0 size_v).

(** The shape of a grid: [rows] rows of [cols] points. *)
Definition shaped (rows cols : Z) (G : list (list (list Q))) : Prop :=
  len G = rows /\ Forall (fun row => len row = cols) G.

(** The lengths of the rows of a table. *)
Definition widths {A} (M : list (list A)) : list nat := map length M.

(** The surface that [transpose()] leaves. *)
Definition flipped (s : Surface.t) : Surface.t := {|
  Surface._degree_u := Surface._degree_v s;
  Surface._degree_v := Surface._degree_u s;
  Surface._knot_vector_u := Surface._knot_vector_v s;
  Surface._knot_vector_v := Surface._knot_vector_u s;
  Surface._control_points := concat (Surface._control_points2D s);
  Surface._control_points2D :=
    transposed (Surface._control_points2D s) (Surface._control_points_size_v s);
  Surface._control_points_size_u := Surface._control_points_size_v s;
  Surface._control_points_size_v := Surface._control_points_size_u s;
  Surface._delta := Surface._delta s;
  Surface._surface_points := [];
  Surface._dimension := Surface._dimension s
|}.

(** The two views of the control points are in step: the flat list is the
    grid, row by row, and the grid has [size_u] rows of [size_v] points. *)
Definition in_step (s : Surface.t) : Prop :=
  Surface._control_points s = concat (Surface._control_points2D s)
  /\ shaped (Surface._control_points_size_u s) (Surface._control_points_size_v s)
       (Surface._control_points2D s)
  /\ 0 <= Surface._control_points_size_v s.

(** The setters of a surface but [set_ctrlpts]. *)
Inductive surface_setter (K : utilities.knots) : method Surface.t unit -> Prop :=
| set_degree_u value : surface_setter K (Surface.degree_u_setter value)
| set_degree_v value : surface_setter K (Surface.degree_v_setter value)
| set_order_u value : surface_setter K (Surface.order_u_setter value)
| set_order_v value : surface_setter K (Surface.order_v_setter value)
| set_delta value : surface_setter K (Surface.delta_setter value)
| set_knotvector_u value : surface_setter K (Surface.knotvector_u_setter K value)
| set_knotvector_v value : surface_setter K (Surface.knotvector_v_setter K value).

(** *** Knot insertion on a curve (Algorithm A5.1) *)

(** The knot vector with [x] inserted [r] times after position [k]. *)
Definition inserted_knots (knot_vector : list Q) (k r : Z) (x : Q) : list Q :=
  take (Z.to_nat (k + 1)) knot_vector ++ replicate (Z.to_nat r) x
  ++ drop (Z.to_nat (k + 1)) knot_vector.

(** The ratio [alpha] of round [j] for the auxiliary point [R[i]]. *)
Definition alpha_ref (c : Curve.t) (u : Q) (k j i : Z) : Q :=
  let L := k - Curve._degree c + j in
  ((u - K (Curve._knot_vector c) (L + i))
   / (K (Curve._knot_vector c) (i + k + 1) - K (Curve._knot_vector c) (L + i)))%Q.

(** The auxiliary point [R[i]] after [j] rounds of "insert the knot r
    times": round [j] blends the points [0 .. degree - j - s] with their
    right neighbours. *)
Fixpoint Rref (c : Curve.t) (u : Q) (s k : Z) (j : nat) (i : Z) : list Q :=
  match j with
  | O => default [] (Curve._control_points c !! Z.to_nat (k - Curve._degree c + i))
  | S j' =>
      if i <=? Curve._degree c - Z.of_nat (S j') - s
      then Curve.blend (alpha_ref c u k (Z.of_nat (S j')) i)
             (Rref c u s k j' i) (Rref c u s k j' (i + 1))
      else Rref c u s k j' i
  end.

(** What slot [m] of the new array [Q] refers to when A5.1 is done: an old
    control point, or the object bound to a slot of [R].  The slots
    [k - degree + 1 .. k - degree + r] all refer to the one object
    [R[0]]. *)
Definition slot_ref (c : Curve.t) (r s k m : Z) : A5.slot :=
  let L := k - Curve._degree c + r in
  if m <=? k - Curve._degree c
  then A5.Old (default [] (Curve._control_points c !! Z.to_nat m))
  else if m <? L then A5.Aux 0
  else if m <? k + r - s then A5.Aux (Z.to_nat (m - L))
  else A5.Old (default [] (Curve._control_points c !! Z.to_nat (m - r))).

(** Control point [m] of the curve that [insert_knot(u, r)] leaves. *)
Definition inserted_point (c : Curve.t) (u : Q) (r s k m : Z) : list Q :=
  let L := k - Curve._degree c + r in
  if m <=? k - Curve._degree c
  then default [] (Curve._control_points c !! Z.to_nat m)
  else if m <? L then Rref c u s k (Z.to_nat r) 0
  else if m <? k + r - s then Rref c u s k (Z.to_nat r) (m - L)
  else default [] (Curve._control_points c !! Z.to_nat (m - r)).

Definition inserted (c : Curve.t) (u : Q) (r s k : Z) : list (list Q) :=
  map (inserted_point c u r s k) (range 0 (len (Curve._control_points c) + r)).

(** The auxiliary points are loaded and hold the values of round [j]. *)
Definition loaded (c : Curve.t) (u : Q) (s k j : Z) (R : list (option A5.point)) : Prop :=
  len R = Curve._degree c + 1
  /\ forall i, 0 <= i <= Curve._degree c - s ->
       R !! Z.to_nat i = Some (Some (Rref c u s k (Z.to_nat j) i)).

(** The array [Q] has its length and holds, in the slots [S], what they
    are to hold in the end. *)
Definition slots (c : Curve.t) (r s k : Z) (S : Z -> Prop) (Q : list A5.slot) : Prop :=
  len Q = len (Curve._control_points c) + r
  /\ forall m, 0 <= m -> S m -> Q !! Z.to_nat m = Some (slot_ref c r s k m).

(** *** The cache of evaluated points *)

(** The cached points of a curve are not stale: there are none, or they are
    the points of the curve as it is, at the parameters of [evaluate]. *)
Definition fresh (U : utilities.t) (c : Curve.t) : Prop :=
  Curve._curve_points c = []
  \/ comprehension (fun u => Curve.curvept U c u false)
       (utilities.frange U 0 1 (Curve._delta c)) = Ok (Curve._curve_points c).

(** The same for a surface, whose points [evaluate] stores row by row. *)
Definition fresh2 (U : utilities.t) (s : Surface.t) : Prop :=
  Surface._surface_points s = []
  \/ exists rows,
       comprehension (fun u =>
         comprehension (fun v => Surface.surfpt U s u v false)
           (utilities.frange U 0 1 (Surface._delta s)))
         (utilities.frange U 0 1 (Surface._delta s)) = Ok rows
       /\ Surface._surface_points s = concat rows.

(** The methods that change a curve. *)
Inductive curve_method (U : utilities.t) (K : utilities.knots)
    : method Curve.t unit -> Prop :=
| call_degree_setter value : curve_method U K (Curve.degree_setter value)
| call_order_setter value : curve_method U K (Curve.order_setter value)
| call_ctrlpts_setter value : curve_method U K (Curve.ctrlpts_setter value)
| call_knotvector_setter value : curve_method U K (Curve.knotvector_setter K value)
| call_delta_setter value : curve_method U K (Curve.delta_setter value)
| call_evaluate : curve_method U K (Curve.evaluate U)
| call_insert_knot u r : curve_method U K (Curve.insert_knot U u r).

(** A call of [insert_knot] on a surface that both directions run with
    their own [L]: [r >= 1], or at most one of [u] and [v] given.  (With
    both given and [r = 0] the v direction runs with the [L] of the u
    direction and can store a grid with a [None] in it, which the grids of
    the model cannot hold; see [A5.filled].) *)
Definition own_L (u v : option Q) (r : Z) : Prop :=
  1 <= r \/ truthy u = false \/ truthy v = false.

(** The methods that change a surface; of [insert_knot], the calls
    [own_L]. *)
Inductive surface_method (U : utilities.t) (K : utilities.knots)
    : method Surface.t unit -> Prop :=
| call_setter m : surface_setter K m -> surface_method U K m
| call_set_ctrlpts ctrlpts size_u size_v :
    surface_method U K (Surface.set_ctrlpts ctrlpts size_u size_v)
| call_transpose : surface_method U K Surface.transpose
| call_surface_evaluate : surface_method U K (Surface.evaluate U)
| call_surface_insert_knot u v r :
    own_L u v r -> surface_method U K (Surface.insert_knot U u v r).

(** *** The order of a knot vector *)

(** The knots are in non-decreasing order. *)
Definition ordered (l : list Q) : Prop :=
  forall (i j : nat) x y, (i <= j)%nat -> l !! i = Some x -> l !! j = Some y -> (x <= y)%Q.

(** *** The sizes of a surface *)

(** The surface [s'] has [ru] more rows of control points and knots in the
    u direction than [s], [rv] more columns and knots in the v direction,
    and its degrees. *)
Definition extended (ru rv : Z) (s s' : Surface.t) : Prop :=
  Surface._control_points_size_u s' = Surface._control_points_size_u s + ru
  /\ Surface._control_points_size_v s' = Surface._control_points_size_v s + rv
  /\ len (Surface._knot_vector_u s') = len (Surface._knot_vector_u s) + ru
  /\ len (Surface._knot_vector_v s') = len (Surface._knot_vector_v s) + rv
  /\ Surface._degree_u s' = Surface._degree_u s
  /\ Surface._degree_v s' = Surface._degree_v s.

(** *** Loop invariants *)

(** What the inner loop has written so far plus [saved] is what it has
    consumed. *)
Definition row_invariant (j : Z) (N : list Q) (r : Z) (acc : list Q * Q) : Prop :=
  length acc.1 = length N
  /\ drop (Z.to_nat r) acc.1 = drop (Z.to_nat r) N
  /\ (total (take (Z.to_nat r) acc.1) + acc.2 == total (take (Z.to_nat r) N))%Q.

(** The weighted sum of [curvept] when every control point is [P]: after
    [i] rounds each coordinate is the sum of the first [i] basis values
    times the coordinate of [P]. *)
Definition partial_point (N P : list Q) (i : Z) (cpt : list Q) : Prop :=
  length cpt = length P
  /\ forall d c x, cpt !! d = Some c -> P !! d = Some x ->
       (c == total (take (Z.to_nat i) N) * x)%Q.

End Validation.
Import Validation.

(** Case analysis on the comparisons of the goal. *)
Ltac case_bools :=
  repeat match goal with
         | |- context [Z.eqb ?a ?b] => destruct (Z.eqb_spec a b)
         | |- context [Z.ltb ?a ?b] => destruct (Z.ltb_spec a b)
         | |- context [Z.leb ?a ?b] => destruct (Z.leb_spec a b)
         end.

(** * Properties *)

(** ** The method monad *)

Lemma seq_Ok {S A B} (m : method S A) (f : A -> method S B) s a s' w :
  m s = Outcome (Ok a) s' w ->
  seq_ m f s = Outcome (res (f a s')) (post (f a s')) (w ++ warned (f a s')).
Proof. intros H. unfold seq_. rewrite H. reflexivity. Qed.

Lemma seq_Raise {S A B} (m : method S A) (f : A -> method S B) s e s' w :
  m s = Outcome (Raise e) s' w ->
  seq_ m f s = Outcome (Raise e) s' w.
Proof. intros H. unfold seq_. rewrite H. reflexivity. Qed.

Lemma outcome_eta {S A} (o : outcome S A) : Outcome (res o) (post o) (warned o) = o.
Proof. destruct o; reflexivity. Qed.

Lemma seq_get {S B} (f : S -> method S B) s : seq_ get f s = f s s.
Proof. unfold seq_, get; simpl. apply outcome_eta. Qed.

Lemma seq_put {S B} (f : unit -> method S B) s s' : seq_ (put s') f s = f tt s'.
Proof. unfold seq_, put; simpl. apply outcome_eta. Qed.

Lemma seq_pass {S B} (f : unit -> method S B) s : seq_ pass f s = f tt s.
Proof. unfold seq_, pass; simpl. apply outcome_eta. Qed.

Lemma seq_ret {S A B} (a : A) (f : A -> method S B) s : seq_ (ret a) f s = f a s.
Proof. unfold seq_, ret; simpl. apply outcome_eta. Qed.

Lemma seq_raise {S A B} (e : exn) (f : A -> method S B) s :
  seq_ (raise e) f s = Outcome (Raise e) s [].
Proof. reflexivity. Qed.

Lemma seq_lift_Ok {S A B} (a : A) (f : A -> method S B) s :
  seq_ (lift (Ok a)) f s = f a s.
Proof. unfold seq_, lift; simpl. apply outcome_eta. Qed.

Lemma seq_lift_Raise {S A B} (e : exn) (f : A -> method S B) s :
  seq_ (lift (Raise e)) f s = Outcome (Raise e) s [].
Proof. reflexivity. Qed.

Lemma seq_warn {S B} (w : warning) (f : unit -> method S B) s :
  seq_ (warn w) f s = Outcome (res (f tt s)) (post (f tt s)) (w :: warned (f tt s)).
Proof. reflexivity. Qed.

(** [if b: raise e] followed by the rest of the method. *)
Lemma seq_guard {S B} (b : bool) (e : exn) (f : unit -> method S B) s :
  seq_ (if b then raise e else pass) f s
  = if b then Outcome (Raise e) s [] else f tt s.
Proof. destruct b; [reflexivity | apply seq_pass]. Qed.

(** ** Loops and subscripts *)

Lemma bind_Ok_inv {A B} (m : result A) (f : A -> result B) (b : B) :
  Py.bind m f = Ok b -> exists a, m = Ok a /\ f a = Ok b.
Proof. destruct m as [a|e]; simpl; [eauto | discriminate]. Qed.

Lemma range_nil (a b : Z) : b <= a -> range a b = [].
Proof.
  intros H. unfold range. replace (Z.to_nat (b - a)) with 0%nat by lia. reflexivity.
Qed.

Lemma range_cons (a b : Z) : a < b -> range a b = a :: range (a + 1) b.
Proof.
  intros H. unfold range.
  replace (Z.to_nat (b - a)) with (S (Z.to_nat (b - (a + 1)))) by lia.
  simpl. f_equal; [lia|].
  rewrite <- seq_shift, map_map. apply map_ext. intros n. lia.
Qed.

(** The rule of the [for] loop over a range, when every round succeeds. *)
Lemma for_range_total {A} (P : Z -> A -> Prop) (body : Z -> A -> result A) (a b : Z) :
  a <= b ->
  (forall i acc, a <= i < b -> P i acc -> exists acc', body i acc = Ok acc' /\ P (i + 1) acc') ->
  forall acc, P a acc -> exists acc', for_ (range a b) body acc = Ok acc' /\ P b acc'.
Proof.
  intros Hab. remember (Z.to_nat (b - a)) as n eqn:Hn.
  revert a Hab Hn. induction n as [|n IH]; intros a Hab Hn Hbody acc Hacc.
  - assert (a = b) by lia. subst. rewrite range_nil by lia. simpl. eauto.
  - rewrite range_cons by lia. simpl.
    destruct (Hbody a acc) as (acc1 & E1 & H1); [lia | exact Hacc |].
    rewrite E1. simpl.
    apply IH; [lia | lia | | exact H1].
    intros i acc2 Hi. apply Hbody. lia.
Qed.

(** The same rule for a loop that is known to have run to its end. *)
Lemma for_range_partial {A} (P : Z -> A -> Prop) (body : Z -> A -> result A) (a b : Z) :
  a <= b ->
  (forall i acc acc', a <= i < b -> P i acc -> body i acc = Ok acc' -> P (i + 1) acc') ->
  forall acc acc', P a acc -> for_ (range a b) body acc = Ok acc' -> P b acc'.
Proof.
  intros Hab. remember (Z.to_nat (b - a)) as n eqn:Hn.
  revert a Hab Hn. induction n as [|n IH]; intros a Hab Hn Hbody acc acc' Hacc Hrun.
  - assert (a = b) by lia. subst. rewrite range_nil in Hrun by lia.
    simpl in Hrun. congruence.
  - rewrite range_cons in Hrun by lia. simpl in Hrun.
    apply bind_Ok_inv in Hrun as (acc1 & E1 & Hrun).
    apply (IH (a + 1)) with (acc := acc1); [lia | lia | | | exact Hrun].
    + intros i acc2 acc3 Hi. apply Hbody. lia.
    + apply (Hbody a acc acc1); [lia | exact Hacc | exact E1].
Qed.

Lemma index_nonneg (n : nat) (i : Z) :
  0 <= i < Z.of_nat n -> index n i = Ok (Z.to_nat i).
Proof.
  intros H. unfold index.
  destruct (0 <=? i) eqn:E1; [|apply Z.leb_gt in E1; lia].
  destruct (i <? Z.of_nat n) eqn:E2; [reflexivity | apply Z.ltb_ge in E2; lia].
Qed.

Lemma index_nonneg_inv (n : nat) (i : Z) (k : nat) :
  index n i = Ok k -> 0 <= i -> k = Z.to_nat i /\ i < Z.of_nat n.
Proof.
  unfold index. intros H Hi.
  destruct (0 <=? i) eqn:E1; [|apply Z.leb_gt in E1; lia].
  destruct (i <? Z.of_nat n) eqn:E2; simpl in H.
  - apply Z.ltb_lt in E2. inversion H. auto.
  - destruct (- Z.of_nat n <=? i) eqn:E3; simpl in H.
    + destruct (i <? 0) eqn:E4; [apply Z.ltb_lt in E4; lia | discriminate].
    + discriminate.
Qed.

Lemma getitem_Ok {A} (l : list A) (i : Z) (x : A) :
  0 <= i -> l !! Z.to_nat i = Some x -> getitem l i = Ok x.
Proof.
  intros Hi Hx. unfold getitem.
  rewrite index_nonneg.
  - rewrite Hx. reflexivity.
  - apply lookup_lt_Some in Hx. lia.
Qed.

Lemma getitem_Ok_inv {A} (l : list A) (i : Z) (x : A) :
  getitem l i = Ok x -> 0 <= i -> l !! Z.to_nat i = Some x.
Proof.
  unfold getitem. intros H Hi.
  destruct (index (length l) i) as [k|e] eqn:E; [|discriminate].
  apply index_nonneg_inv in E as [-> _]; [|exact Hi].
  destruct (l !! Z.to_nat i); [congruence | discriminate].
Qed.

Lemma setitem_Ok {A} (l : list A) (i : Z) (x : A) :
  0 <= i < len l -> setitem l i x = Ok (<[Z.to_nat i := x]> l).
Proof. intros H. unfold setitem. rewrite index_nonneg by exact H. reflexivity. Qed.

Lemma setitem_Ok_inv {A} (l l' : list A) (i : Z) (x : A) :
  setitem l i x = Ok l' -> 0 <= i -> i < len l /\ l' = <[Z.to_nat i := x]> l.
Proof.
  unfold setitem. intros H Hi.
  destruct (index (length l) i) as [k|e] eqn:E; [|discriminate].
  apply index_nonneg_inv in E as [-> Hlt]; [|exact Hi].
  inversion H. auto.
Qed.

Lemma len_replicateZ {A} (n : Z) (x : A) : 0 <= n -> len (replicateZ n x) = n.
Proof. intros H. unfold len, replicateZ. rewrite length_replicate. lia. Qed.

Lemma lookup_replicateZ {A} (n i : Z) (x : A) :
  0 <= i < n -> replicateZ n x !! Z.to_nat i = Some x.
Proof. intros H. unfold replicateZ. apply lookup_replicate. split; [reflexivity | lia]. Qed.

(** ** Curve.insert_knot: a rejected insertion *)

(** C4.  A call [insert_knot(u, r)] on a curve that passes
    [_check_variables], with [u] accepted by [check_uv], [r >= 0] and
    [r > degree - s] where [s] is the multiplicity of [u], returns without
    raising, issues the warning, and leaves the curve (knot vector, control
    points, cached curve points and all) as it was. *)
Theorem insert_knot_rejected_is_noop (U : utilities.t) (c : Curve.t) (u : Q) (r s : Z) :
  Curve._check_variables c = Ok tt ->
  utilities.check_uv U (Some u) None = Ok tt ->
  0 <= r ->
  utilities.find_multiplicity U u (Curve._knot_vector c) = Ok s ->
  r > Curve._degree c - s ->
  Curve.insert_knot U u r c = Outcome (Ok tt) c [CannotInsert r].
Proof.
  intros Hvars Huv Hr Hs Hrej.
  unfold Curve.insert_knot.
  rewrite seq_get, Hvars, seq_lift_Ok, Huv, seq_lift_Ok, seq_guard.
  destruct (r <? 0) eqn:E; [apply Z.ltb_lt in E; lia|].
  rewrite Hs, seq_lift_Ok.
  destruct (r >? Curve._degree c - s) eqn:E'; [reflexivity|].
  rewrite Z.gtb_ltb in E'. apply Z.ltb_ge in E'. lia.
Qed.

Lemma insert_knot_rejected_is_noop_witness :
  Curve.insert_knot utils (1 # 2) 2 Examples.curve
  = Outcome (Ok tt) Examples.curve [CannotInsert 2].
Proof.
  apply (insert_knot_rejected_is_noop utils Examples.curve (1 # 2) 2 1);
    [reflexivity | reflexivity | lia | reflexivity | reflexivity].
Defined.

(** ** The control-point mutators when validation fails *)

Lemma reset_curve_eq (c : Curve.t) :
  Curve._reset_curve c = Outcome (Ok tt) (Curve.with_curve_points c []) [].
Proof. destruct c as [d kv cps dl pts dim]; destruct pts; reflexivity. Qed.

Lemma reset_ctrlpts_eq (c : Curve.t) :
  Curve._reset_ctrlpts c = Outcome (Ok tt) (Curve.with_control_points c []) [].
Proof. destruct c as [d kv cps dl pts dim]; destruct cps; reflexivity. Qed.

(** The loop of the [ctrlpts] setter stops at the first point that has more
    coordinates than the dimension, with the points before it stored. *)
Lemma ctrlpts_loop_stops (good : list (list Q)) (bad : list Q) (rest : list (list Q))
    (c : Curve.t) :
  Forall (fun coord => len coord <= Curve._dimension c) good ->
  Curve._dimension c < len bad ->
  for_each (good ++ bad :: rest) (fun coord =>
    c <~ get ;;
    (if (len coord <? 0) || (len coord >? Curve._dimension c)
     then raise ValueError else pass) ;;~
    put (Curve.with_control_points c (Curve._control_points c ++ [coord]))) c
  = Outcome (Raise ValueError)
            (Curve.with_control_points c (Curve._control_points c ++ good)) [].
Proof.
  intros Hgood Hbad. revert c Hgood Hbad.
  induction good as [|g good IH]; intros c Hgood Hbad; simpl.
  - rewrite seq_Raise with (e := ValueError) (s' := c) (w := []).
    + rewrite app_nil_r. destruct c; reflexivity.
    + rewrite seq_get, seq_guard.
      assert (E : (len bad <? 0) || (len bad >? Curve._dimension c) = true).
      { apply orb_true_iff; right. rewrite Z.gtb_ltb. apply Z.ltb_lt. lia. }
      rewrite E. reflexivity.
  - inversion Hgood as [|? ? Hg Hgood']; subst.
    rewrite seq_Ok with (a := tt)
      (s' := Curve.with_control_points c (Curve._control_points c ++ [g])) (w := []).
    + rewrite IH; [| exact Hgood' | exact Hbad]. simpl.
      rewrite <- app_assoc. reflexivity.
    + rewrite seq_get, seq_guard.
      assert (E : (len g <? 0) || (len g >? Curve._dimension c) = false).
      { apply orb_false_iff; split.
        - apply Z.ltb_ge. unfold len. lia.
        - rewrite Z.gtb_ltb. apply Z.ltb_ge. lia. }
      rewrite E. reflexivity.
Qed.

Lemma reset_surface_eq (s : Surface.t) :
  Surface._reset_surface s = Outcome (Ok tt) (Surface.with_surface_points s []) [].
Proof.
  destruct s as [? ? ? ? ? ? ? ? ? pts ?]. unfold Surface._reset_surface; simpl.
  destruct pts; reflexivity.
Qed.

Lemma reset_ctrlpts_surface (s : Surface.t) :
  Surface._reset_ctrlpts s = Outcome (Ok tt) (post (Surface._reset_ctrlpts s)) [].
Proof. unfold Surface._reset_ctrlpts. destruct (nonempty _); reflexivity. Qed.

Lemma cleared_degrees (s : Surface.t) :
  Surface._degree_u (cleared s) = Surface._degree_u s
  /\ Surface._degree_v (cleared s) = Surface._degree_v s
  /\ Surface._dimension (cleared s) = Surface._dimension s.
Proof.
  unfold cleared, Surface._reset_ctrlpts, Surface._reset_surface.
  destruct (nonempty (Surface._surface_points s)); simpl;
    destruct (nonempty (Surface._control_points s)); simpl; auto.
Qed.

(** The dimension check of [set_ctrlpts] does not touch the surface. *)
Lemma dimension_check (ctrlpts : list (list Q)) (dim : Z) (s : Surface.t) :
  for_each ctrlpts (fun cpt =>
    if negb (len cpt =? dim) then raise ValueError else pass) s
  = Outcome (if forallb (fun cpt => len cpt =? dim) ctrlpts
             then Ok tt else Raise ValueError) s [].
Proof.
  induction ctrlpts as [|cpt ctrlpts IH]; simpl; [reflexivity|].
  rewrite seq_guard. destruct (len cpt =? dim); simpl; [|reflexivity].
  apply IH.
Qed.

Lemma set_ctrlpts_invalid (s : Surface.t) ctrlpts size_u size_v :
  invalid s ctrlpts size_u size_v ->
  Surface.set_ctrlpts ctrlpts size_u size_v s = Outcome (Raise ValueError) (cleared s) [].
Proof.
  intros Hinv. unfold Surface.set_ctrlpts.
  rewrite seq_Ok with (a := tt) (s' := Surface.with_surface_points s []) (w := [])
    by apply reset_surface_eq.
  assert (Hc : post (Surface._reset_ctrlpts (Surface.with_surface_points s [])) = cleared s).
  { unfold cleared. rewrite reset_surface_eq. reflexivity. }
  rewrite seq_Ok with (a := tt) (s' := cleared s) (w := [])
    by (rewrite reset_ctrlpts_surface, Hc; reflexivity).
  destruct (cleared_degrees s) as (Hu & Hv & Hd).
  rewrite seq_get, seq_guard, Hu, Hv, Hd.
  destruct ((Surface._degree_u s =? 0) || (Surface._degree_v s =? 0)) eqn:E0;
    [reflexivity|].
  apply orb_false_iff in E0 as [E0u E0v].
  apply Z.eqb_neq in E0u, E0v.
  rewrite seq_guard.
  destruct (size_u <? Surface._degree_u s + 1) eqn:E1; [reflexivity|].
  rewrite seq_guard.
  destruct (size_v <? Surface._degree_v s + 1) eqn:E2; [reflexivity|].
  apply Z.ltb_ge in E1, E2.
  rewrite seq_Raise with (e := ValueError) (s' := cleared s) (w := []); [reflexivity|].
  rewrite dimension_check.
  destruct (forallb _ ctrlpts) eqn:E3; [|reflexivity].
  exfalso. destruct Hinv as [H|[H|[H|[H|H]]]]; try lia.
  rewrite forallb_forall in E3. apply Exists_exists in H as (cpt & Hin & Hne).
  apply list_elem_of_In in Hin.
  specialize (E3 cpt Hin). apply Z.eqb_eq in E3. contradiction.
Qed.

(** X29.  What a rejected call of a control-point mutator leaves.  A
    rejected input makes the mutator raise [ValueError].  The [ctrlpts]
    setter of a curve leaves the curve as it was when it rejects a list of
    fewer than [degree + 1] points; when it rejects a point with more
    coordinates than the dimension, the cached curve points are cleared and
    the stored control points are the points that precede the rejected one.
    [Surface.set_ctrlpts] leaves the surface as its two resets leave it:
    the cached surface points cleared, and the control points, the 2D grid
    and both sizes cleared when control points were stored. *)
Theorem rejected_ctrlpts_state :
  (forall (c : Curve.t) (value : list (list Q)),
     len value < Curve._degree c + 1 ->
     Curve.ctrlpts_setter value c = Outcome (Raise ValueError) c [])
  /\ (forall (c : Curve.t) (good : list (list Q)) (bad : list Q) (rest : list (list Q)),
     Curve._degree c + 1 <= len (good ++ bad :: rest) ->
     Forall (fun coord => len coord <= Curve._dimension c) good ->
     Curve._dimension c < len bad ->
     Curve.ctrlpts_setter (good ++ bad :: rest) c
     = Outcome (Raise ValueError)
               (Curve.with_control_points (Curve.with_curve_points c []) good) [])
  /\ (forall (s : Surface.t) (ctrlpts : list (list Q)) (size_u size_v : Z),
     invalid s ctrlpts size_u size_v ->
     Surface.set_ctrlpts ctrlpts size_u size_v s = Outcome (Raise ValueError) (cleared s) []
     /\ Surface._surface_points (cleared s) = []
     /\ (Surface._control_points s <> [] ->
         Surface._control_points (cleared s) = []
         /\ Surface._control_points2D (cleared s) = []
         /\ Surface._control_points_size_u (cleared s) = 0
         /\ Surface._control_points_size_v (cleared s) = 0)).
Proof.
  split; [|split].
  - intros c value Hlen. unfold Curve.ctrlpts_setter.
    rewrite seq_get, seq_guard.
    apply Z.ltb_lt in Hlen. rewrite Hlen. reflexivity.
  - intros c good bad rest Hlen Hgood Hbad. unfold Curve.ctrlpts_setter.
    rewrite seq_get, seq_guard.
    apply Z.ltb_ge in Hlen. rewrite Hlen.
    rewrite seq_Ok with (a := tt) (s' := Curve.with_curve_points c []) (w := [])
      by apply reset_curve_eq.
    rewrite seq_Ok with (a := tt)
      (s' := Curve.with_control_points (Curve.with_curve_points c []) []) (w := [])
      by apply reset_ctrlpts_eq.
    rewrite ctrlpts_loop_stops; [reflexivity | exact Hgood | exact Hbad].
  - intros s ctrlpts size_u size_v Hinv. split; [|split].
    + apply set_ctrlpts_invalid, Hinv.
    + unfold cleared, Surface._reset_ctrlpts. rewrite reset_surface_eq. simpl.
      destruct (nonempty (Surface._control_points s)); reflexivity.
    + intros Hne. unfold cleared, Surface._reset_ctrlpts.
      rewrite reset_surface_eq. simpl.
      destruct (Surface._control_points s); [contradiction|]. simpl. auto.
Qed.

Lemma rejected_ctrlpts_state_witness :
  Curve.ctrlpts_setter [[0; 0]]%Q Examples.curve
    = Outcome (Raise ValueError) Examples.curve []
  /\ Curve.ctrlpts_setter ([[5; 5]; [6; 6]] ++ [7; 7; 7] :: [])%Q Examples.curve
    = Outcome (Raise ValueError)
        (Curve.with_control_points (Curve.with_curve_points Examples.curve [])
           [[5; 5]; [6; 6]]%Q) []
  /\ Surface._control_points
       (post (Surface.set_ctrlpts [[0; 0]]%Q 3 2 Examples.grid32)) = [].
Proof.
  destruct rejected_ctrlpts_state as (H1 & H2 & H3).
  split; [|split].
  - apply H1. vm_compute. reflexivity.
  - apply H2.
    + vm_compute. discriminate.
    + repeat constructor; vm_compute; discriminate.
    + vm_compute. reflexivity.
  - destruct (H3 Examples.grid32 [[0; 0]]%Q 3 2) as (E & _ & Hc).
    + right; right; right; right. constructor. vm_compute. discriminate.
    + rewrite E. simpl. apply Hc. vm_compute. discriminate.
Defined.

(** C5 fails: a rejected call of either mutator leaves other control points
    than it found.  [set_ctrlpts] with a point of two coordinates on the
    3 x 2 grid of dimension 3 raises [ValueError] and leaves no control
    points, no grid and the sizes 0.  The [ctrlpts] setter with the points
    (5,5), (6,6), (7,7,7) on the curve of degree 2 and dimension 2 raises
    [ValueError] at the third point and leaves the curve with the two
    points before it: fewer than [degree + 1], on a curve that still passes
    [_check_variables]. *)
Lemma rejected_ctrlpts_not_atomic :
  (let o := Surface.set_ctrlpts [[0; 0]]%Q 3 2 Examples.grid32 in
   res o = Raise ValueError
   /\ Surface._control_points (post o) <> Surface._control_points Examples.grid32
   /\ Surface._control_points2D (post o) <> Surface._control_points2D Examples.grid32
   /\ Surface._control_points_size_u (post o)
      <> Surface._control_points_size_u Examples.grid32
   /\ Surface._control_points (post o) = []
   /\ Surface._control_points2D (post o) = []
   /\ Surface._control_points_size_u (post o) = 0
   /\ Surface._control_points_size_v (post o) = 0)
  /\ (let o := Curve.ctrlpts_setter [[5; 5]; [6; 6]; [7; 7; 7]]%Q Examples.curve in
      res o = Raise ValueError
      /\ Curve._control_points (post o) <> Curve._control_points Examples.curve
      /\ Curve._control_points (post o) = [[5; 5]; [6; 6]]%Q
      /\ len (Curve._control_points (post o)) < Curve._degree (post o) + 1
      /\ Curve._check_variables (post o) = Ok tt).
Proof.
  split; cbv zeta.
  - vm_compute. repeat split; discriminate.
  - vm_compute. repeat split; discriminate.
Qed.

(** ** Surface.insert_knot with both directions: a rejected u insertion *)

(** C3, at the failing input.  On the 3 x 2 grid of degree 1 x 1, 0.5 is a
    knot of the u direction and not of the v direction: one insertion of
    v = 0.5 fits ([r <= degree_v - s_v] with [s_v = 0]).  The call
    [insert_knot(u=0.5, v=0.5, r=1)] warns about the u direction only,
    returns, and has inserted nothing: [can_insert_knot], set to [False] by
    the u direction, guards the v direction too. *)
Theorem rejected_u_blocks_v :
  let s := Examples.grid32 in
  utilities.find_multiplicity utils (1 # 2) (Surface._knot_vector_v s) = Ok 0
  /\ 1 <= Surface._degree_v s - 0
  /\ Surface.insert_knot utils (Some (1 # 2)) (Some (1 # 2)) 1 s
     = Outcome (Ok tt) s [CannotInsertU 1].
Proof. cbv zeta. split; [|split]; [reflexivity | vm_compute; discriminate | reflexivity]. Qed.

(** ** Surface.transpose *)

(** C2, at the failing input.  On the 2 x 3 grid, [transpose()] swaps the
    degrees, the knot vectors and the sizes, transposes the 2D grid and
    leaves the cached points empty, but the flattened list is the one it
    was before the call: [ctrlpts[1]] is the old [ctrlpts2d[0][1]], whereas
    the new [ctrlpts2d[0][1]] is the old [ctrlpts2d[1][0]]. *)
Theorem transpose_breaks_flattened_order :
  let s := Examples.grid23 in
  let o := Surface.transpose s in
  let s' := post o in
  res o = Ok tt
  /\ Surface._degree_u s' = Surface._degree_v s
  /\ Surface._degree_v s' = Surface._degree_u s
  /\ Surface._knot_vector_u s' = Surface._knot_vector_v s
  /\ Surface._knot_vector_v s' = Surface._knot_vector_u s
  /\ Surface._control_points_size_u s' = 3 /\ Surface._control_points_size_v s' = 2
  /\ Surface._control_points2D s
     = [[[0; 0; 0]; [0; 1; 1]; [0; 2; 0]];
        [[1; 0; 0]; [1; 1; 4]; [1; 2; 0]]]%Q
  /\ Surface._control_points2D s'
     = [[[0; 0; 0]; [1; 0; 0]];
        [[0; 1; 1]; [1; 1; 4]];
        [[0; 2; 0]; [1; 2; 0]]]%Q
  /\ Surface._surface_points s' = []
  /\ Surface._control_points s' = Surface._control_points s
  /\ getitem (Surface._control_points s') (1 + 0 * Surface._control_points_size_v s')
     = Ok [0; 1; 1]%Q
  /\ get2 (Surface._control_points2D s') 0 1 = Ok [1; 0; 0]%Q.
Proof.
  cbv zeta. repeat split; reflexivity.
Qed.

(** ** Surface.insert_knot: does the surface keep its shape? *)

(** C1, at the failing inputs.
    - [insert_knot(v=0.75, r=1)] on the 2 x 3 grid raises
      [UnboundLocalError] ([k_u] is read and was never assigned) and inserts
      nothing.
    - [insert_knot(u=0.5, v=0.75, r=1)] on the same grid returns, with the
      v span 2 and [k_u = 1]: the point at (0.5, 0.75) was (0.5, 1.5, 1.25)
      and is (0.5, 0.5, 1.25).
    - [insert_knot(u=0.5, r=2)] on the surface of degree 2 x 1 returns: the
      point at (0.25, 0.5) was (0.5, 0.5, 0.75) and is (0.75, 0.5, 0.75);
      the two new rows of control points are one list object. *)
Theorem insert_knot_moves_surface :
  (let s := Examples.grid23 in
   Surface.insert_knot utils None (Some (3 # 4)) 1 s
   = Outcome (Raise UnboundLocalError) s [])
  /\ (let s := Examples.grid23 in
      let o := Surface.insert_knot utils (Some (1 # 2)) (Some (3 # 4)) 1 s in
      res o = Ok tt
      /\ utilities.find_multiplicity utils (3 # 4) (Surface._knot_vector_v s) = Ok 0
      /\ Examples.agree (Surface.surfpt utils s (1 # 2) (3 # 4) true)
                        (Ok [1 # 2; 3 # 2; 5 # 4]%Q) = true
      /\ Examples.agree (Surface.surfpt utils (post o) (1 # 2) (3 # 4) true)
                        (Ok [1 # 2; 1 # 2; 5 # 4]%Q) = true
      /\ Examples.agree (Surface.surfpt utils s (1 # 2) (3 # 4) true)
                        (Surface.surfpt utils (post o) (1 # 2) (3 # 4) true) = false)
  /\ (let s := Examples.arch in
      let o := Surface.insert_knot utils (Some (1 # 2)) None 2 s in
      res o = Ok tt
      /\ utilities.find_multiplicity utils (1 # 2) (Surface._knot_vector_u s) = Ok 0
      /\ Examples.agree (Surface.surfpt utils s (1 # 4) (1 # 2) true)
                        (Ok [1 # 2; 1 # 2; 3 # 4]%Q) = true
      /\ Examples.agree (Surface.surfpt utils (post o) (1 # 4) (1 # 2) true)
                        (Ok [3 # 4; 1 # 2; 3 # 4]%Q) = true
      /\ Examples.agree (Surface.surfpt utils s (1 # 4) (1 # 2) true)
                        (Surface.surfpt utils (post o) (1 # 4) (1 # 2) true) = false).
Proof.
  cbv zeta. split; [|split].
  - vm_compute. reflexivity.
  - repeat split; vm_compute; reflexivity.
  - repeat split; vm_compute; reflexivity.
Qed.

(** ** Surface.insert_knot: which directions are processed *)

(** A loop keeps what each of its rounds keeps. *)
Lemma for_each_invariant {S X} (P : S -> Prop) (body : X -> method S unit) (l : list X) :
  (forall x s, P s -> P (post (body x s))) ->
  forall s, P s -> P (post (for_each l body s)).
Proof.
  intros Hbody. induction l as [|x l IH]; intros s Hs; simpl; [exact Hs|].
  unfold seq_. specialize (Hbody x s Hs).
  destruct (res (body x s)); simpl; [apply IH|]; exact Hbody.
Qed.

(** [evaluate()] writes the cached points and nothing else. *)
Lemma evaluate_writes_cache (U : utilities.t) (s : Surface.t) :
  exists pts, post (Surface.evaluate U s) = Surface.with_surface_points s pts.
Proof.
  unfold Surface.evaluate. rewrite seq_get.
  destruct (Surface._check_variables s).
  2:{ rewrite seq_lift_Raise. exists (Surface._surface_points s). destruct s; reflexivity. }
  rewrite seq_lift_Ok.
  rewrite seq_Ok with (a := tt) (s' := Surface.with_surface_points s []) (w := [])
    by apply reset_surface_eq.
  cbn [post].
  apply (for_each_invariant (fun s' => exists pts, s' = Surface.with_surface_points s pts)).
  - intros u s1 H1. apply for_each_invariant; [|exact H1].
    intros v s2 (pts & ->). rewrite seq_get.
    destruct (Surface.surfpt U _ u v false) as [spt|e].
    + rewrite seq_lift_Ok. cbn. eexists. reflexivity.
    + rewrite seq_lift_Raise. cbn. eexists. reflexivity.
  - exists []. reflexivity.
Qed.

(** [evaluate()] does not read the cached points. *)
Lemma evaluate_ignores_cache (U : utilities.t) (s : Surface.t) (pts : list Surface.point) :
  Surface._check_variables s = Ok tt ->
  Surface.evaluate U (Surface.with_surface_points s pts) = Surface.evaluate U s.
Proof.
  intros Hvars. unfold Surface.evaluate. rewrite !seq_get.
  cbn [Surface._delta Surface.with_surface_points].
  change (Surface._check_variables (Surface.with_surface_points s pts))
    with (Surface._check_variables s).
  rewrite Hvars, !seq_lift_Ok.
  rewrite seq_Ok with (s := Surface.with_surface_points s pts) (a := tt)
    (s' := Surface.with_surface_points s []) (w := [])
    by apply (reset_surface_eq (Surface.with_surface_points s pts)).
  rewrite seq_Ok with (s := s) (a := tt) (s' := Surface.with_surface_points s []) (w := [])
    by apply reset_surface_eq.
  reflexivity.
Qed.

(** Evaluating an evaluated surface again gives the same surface. *)
Lemma evaluate_idempotent (U : utilities.t) (s0 s : Surface.t) :
  Surface.evaluate U s0 = Outcome (Ok tt) s [] ->
  Surface.evaluate U s = Outcome (Ok tt) s [].
Proof.
  intros H.
  assert (Hvars : Surface._check_variables s0 = Ok tt).
  { unfold Surface.evaluate in H. rewrite seq_get in H.
    destruct (Surface._check_variables s0) as [[]|e]; [reflexivity|].
    rewrite seq_lift_Raise in H. discriminate. }
  destruct (evaluate_writes_cache U s0) as (pts & Hpts).
  rewrite H in Hpts. cbn in Hpts. subst s.
  rewrite evaluate_ignores_cache by exact Hvars. exact H.
Qed.

(** C10.  [insert_knot] tests its arguments [u] and [v] for truth, and
    [None] and [0.0] are both false.
    - With [u = 0.0] the call does what it does with [u] left out, provided
      [check_uv] treats the two alike (it is called on both arguments when
      [v] is true); likewise for [v].
    - When neither argument is true, [check_uv], [find_multiplicity] and
      [find_span] are not consulted: on a surface that passes
      [_check_variables], with [r >= 0], the call returns without a warning
      and leaves the surface as it was. *)
Theorem insert_knot_selects_by_truth (U : utilities.t) (s : Surface.t) (r : Z) :
  (forall u v, truthy u = false ->
     utilities.check_uv U u v = utilities.check_uv U None v ->
     Surface.insert_knot U u v r s = Surface.insert_knot U None v r s)
  /\ (forall u v, truthy v = false ->
     utilities.check_uv U u v = utilities.check_uv U u None ->
     Surface.insert_knot U u v r s = Surface.insert_knot U u None r s)
  /\ (forall u v, truthy u = false -> truthy v = false ->
     Surface._check_variables s = Ok tt ->
     0 <= r ->
     cache_valid U s ->
     Surface.insert_knot U u v r s = Outcome (Ok tt) s []).
Proof.
  split; [|split].
  - intros u v Hu Huv. unfold Surface.insert_knot.
    rewrite Hu, Huv. destruct u; reflexivity.
  - intros u v Hv Huv. unfold Surface.insert_knot.
    rewrite Hv, Huv. destruct v; reflexivity.
  - intros u v Hu Hv Hvars Hr Hcache. unfold Surface.insert_knot.
    rewrite Hu, Hv, seq_get, Hvars, seq_lift_Ok. cbn [orb].
    rewrite seq_pass, seq_guard.
    destruct (r <? 0) eqn:E; [apply Z.ltb_lt in E; lia|].
    assert (Eu : match u with
                 | Some x => if false then Surface.insert_u U x r
                      {| Surface.can_insert_knot := true; Surface.k_u := None;
                         Surface.L := None |}
                             else ret {| Surface.can_insert_knot := true;
                                         Surface.k_u := None; Surface.L := None |}
                 | None => ret {| Surface.can_insert_knot := true;
                                  Surface.k_u := None; Surface.L := None |}
                 end = ret {| Surface.can_insert_knot := true;
                              Surface.k_u := None; Surface.L := None |})
      by (destruct u; reflexivity).
    rewrite Eu, seq_ret.
    assert (Ev : match v with
                 | Some x => if false then Surface.insert_v U x r
                      {| Surface.can_insert_knot := true; Surface.k_u := None;
                         Surface.L := None |}
                             else ret {| Surface.can_insert_knot := true;
                                         Surface.k_u := None; Surface.L := None |}
                 | None => ret {| Surface.can_insert_knot := true;
                                  Surface.k_u := None; Surface.L := None |}
                 end = ret {| Surface.can_insert_knot := true;
                              Surface.k_u := None; Surface.L := None |})
      by (destruct v; reflexivity).
    rewrite Ev, seq_ret, seq_get.
    destruct Hcache as [Hnil | (s0 & Hs0)].
    + rewrite Hnil. reflexivity.
    + destruct (nonempty (Surface._surface_points s)); [|reflexivity].
      apply (evaluate_idempotent U s0 s Hs0).
Qed.

Lemma insert_knot_selects_by_truth_witness :
  Surface.insert_knot utils (Some 0%Q) (Some (1 # 2)) 1 Examples.grid32
    = Surface.insert_knot utils None (Some (1 # 2)) 1 Examples.grid32
  /\ Surface.insert_knot utils (Some (1 # 4)) (Some 0%Q) 1 Examples.grid32
    = Surface.insert_knot utils (Some (1 # 4)) None 1 Examples.grid32
  /\ Surface.insert_knot utils (Some 0%Q) (Some 0%Q) 1 Examples.grid32_evaluated
    = Outcome (Ok tt) Examples.grid32_evaluated [].
Proof.
  split; [|split].
  - apply (insert_knot_selects_by_truth utils Examples.grid32 1); reflexivity.
  - apply (insert_knot_selects_by_truth utils Examples.grid32 1); reflexivity.
  - apply (insert_knot_selects_by_truth utils Examples.grid32_evaluated 1).
    + reflexivity.
    + reflexivity.
    + vm_compute. reflexivity.
    + lia.
    + right. exists Examples.grid32. vm_compute. reflexivity.
Defined.

(** ** Basis functions: partition of unity *)

Lemma nondecreasing_cons (a : Q) (l : list Q) :
  spec.nondecreasing (a :: l) = true ->
  spec.nondecreasing l = true /\ (forall y, head l = Some y -> (a <= y)%Q).
Proof.
  destruct l as [|b l]; simpl; intros H.
  - split; [reflexivity | discriminate].
  - apply andb_true_iff in H as [H1 H2]. split; [exact H2|].
    intros y [= <-]. apply Qle_bool_iff, H1.
Qed.

Lemma nondecreasing_lookup (l : list Q) :
  spec.nondecreasing l = true ->
  forall (i j : nat) x y, (i <= j)%nat -> l !! i = Some x -> l !! j = Some y -> (x <= y)%Q.
Proof.
  induction l as [|a l IH]; intros Hs i j x y Hij Hi Hj.
  - discriminate.
  - apply nondecreasing_cons in Hs as [Hs Hhd].
    destruct i as [|i], j as [|j]; simpl in Hi, Hj.
    + inversion Hi; inversion Hj; subst. apply Qle_refl.
    + inversion Hi; subst.
      destruct l as [|b l]; [discriminate|].
      apply Qle_trans with b; [apply Hhd; reflexivity|].
      apply (IH Hs 0%nat j b y); [lia | reflexivity | exact Hj].
    + lia.
    + apply (IH Hs i j x y); [lia | exact Hi | exact Hj].
Qed.

Lemma total_app (l1 l2 : list Q) : (total (l1 ++ l2) == total l1 + total l2)%Q.
Proof.
  induction l1 as [|x l1 IH]; simpl.
  - ring.
  - rewrite IH. ring.
Qed.

Lemma total_take_S (l : list Q) (n : nat) (x : Q) :
  l !! n = Some x -> (total (take (S n) l) == total (take n l) + x)%Q.
Proof.
  intros H. rewrite (take_S_r l n x H), total_app. simpl. ring.
Qed.

Lemma fdiv_Ok (a b : Q) : ~ (b == 0)%Q -> fdiv a b = Ok (a / b)%Q.
Proof.
  intros H. unfold fdiv. destruct (Qeq_bool b 0) eqn:E; [|reflexivity].
  apply Qeq_bool_iff in E. contradiction.
Qed.

Section BasisFunctions.

Variables (degree : Z) (knot_vector : list Q) (span : Z) (u : Q).

Hypothesis degree_nonneg : 0 <= degree.
Hypothesis span_low : degree <= span.
Hypothesis span_high : span + degree < len knot_vector.
Hypothesis sorted : spec.nondecreasing knot_vector = true.
Hypothesis span_nontrivial : spec.nontrivial knot_vector span = true.

Lemma knot_exists (i : Z) :
  0 <= i < len knot_vector -> exists x, knot_vector !! Z.to_nat i = Some x.
Proof using Type.
  intros H. apply lookup_lt_is_Some. unfold len in H. lia.
Qed.

Lemma right_Ok (j : Z) :
  1 <= j <= degree ->
  exists x, knot_vector !! Z.to_nat (span + j) = Some x
            /\ spec.right knot_vector span u j = Ok (x - u)%Q.
Proof using degree_nonneg span_low span_high.
  intros Hj. destruct (knot_exists (span + j)) as (x & Hx); [lia|].
  exists x. split; [exact Hx|].
  unfold spec.right. rewrite (getitem_Ok _ _ x); [reflexivity | lia | exact Hx].
Qed.

Lemma left_Ok (j : Z) :
  1 <= j <= degree ->
  exists x, knot_vector !! Z.to_nat (span + 1 - j) = Some x
            /\ spec.left knot_vector span u j = Ok (u - x)%Q.
Proof using degree_nonneg span_low span_high.
  intros Hj. destruct (knot_exists (span + 1 - j)) as (x & Hx); [lia|].
  exists x. split; [exact Hx|].
  unfold spec.left. rewrite (getitem_Ok _ _ x); [reflexivity | lia | exact Hx].
Qed.

(** The knots on the two sides of a span of positive width differ. *)
Lemma knots_apart (a b : Z) (x y : Q) :
  0 <= a <= span -> span < b ->
  knot_vector !! Z.to_nat a = Some x ->
  knot_vector !! Z.to_nat b = Some y ->
  (x < y)%Q.
Proof using sorted span_nontrivial span_low degree_nonneg.
  intros Ha Hb Hx Hy.
  unfold spec.nontrivial, spec.knot in span_nontrivial.
  destruct (0 <=? span) eqn:E0; [|discriminate].
  destruct (knot_vector !! Z.to_nat span) as [lo|] eqn:Elo; [|discriminate].
  destruct (0 <=? span + 1) eqn:E1; [|discriminate].
  destruct (knot_vector !! Z.to_nat (span + 1)) as [hi|] eqn:Ehi; [|discriminate].
  apply negb_true_iff in span_nontrivial.
  assert (Hlt : (lo < hi)%Q).
  { apply Qnot_le_lt. intros Hle. apply Qle_bool_iff in Hle. congruence. }
  apply Qle_lt_trans with lo.
  - apply (nondecreasing_lookup _ sorted (Z.to_nat a) (Z.to_nat span));
      [lia | exact Hx | exact Elo].
  - apply Qlt_le_trans with hi; [exact Hlt|].
    apply (nondecreasing_lookup _ sorted (Z.to_nat (span + 1)) (Z.to_nat b));
      [lia | exact Ehi | exact Hy].
Qed.

(** One round of the inner loop of A2.2, with the two knots it reads. *)
Lemma basis_step_Ok (j r : Z) (N : list Q) (saved Nr : Q) :
  1 <= j <= degree -> 0 <= r < j -> N !! Z.to_nat r = Some Nr ->
  exists x y,
    knot_vector !! Z.to_nat (span + (r + 1)) = Some x
    /\ knot_vector !! Z.to_nat (span + 1 - (j - r)) = Some y
    /\ (y < x)%Q
    /\ spec.basis_step knot_vector span u j r (N, saved)
       = Ok (<[Z.to_nat r := (saved + (x - u) * (Nr / ((x - u) + (u - y))))%Q]> N,
             ((u - y) * (Nr / ((x - u) + (u - y))))%Q).
Proof using All.
  intros Hj Hr HNr.
  destruct (right_Ok (r + 1)) as (x & Hx & Eright); [lia|].
  destruct (left_Ok (j - r)) as (y & Hy & Eleft); [lia|].
  assert (Hxy : (y < x)%Q).
  { apply (knots_apart (span + 1 - (j - r)) (span + (r + 1))); [lia | lia | exact Hy | exact Hx]. }
  exists x, y. split; [exact Hx|]. split; [exact Hy|]. split; [exact Hxy|].
  assert (Hden : ~ ((x - u) + (u - y) == 0)%Q) by lra.
  unfold spec.basis_step.
  rewrite (getitem_Ok _ _ Nr) by (lia || exact HNr). simpl.
  rewrite Eright. simpl. rewrite Eleft. simpl.
  rewrite fdiv_Ok by exact Hden. simpl.
  rewrite setitem_Ok; [reflexivity|].
  apply lookup_lt_Some in HNr. unfold len. lia.
Qed.

Lemma basis_step_sum (j r : Z) (N : list Q) (acc : list Q * Q) :
  1 <= j <= degree -> 0 <= r < j -> len N = degree + 1 ->
  row_invariant j N r acc ->
  exists acc', spec.basis_step knot_vector span u j r acc = Ok acc'
               /\ row_invariant j N (r + 1) acc'.
Proof using All.
  intros Hj Hr HN (Hlen & Hdrop & Hsum). destruct acc as [N' saved].
  cbn [fst snd] in *.
  assert (HlenZ : len N' = degree + 1) by (unfold len in *; lia).
  destruct (lookup_lt_is_Some_2 N' (Z.to_nat r)) as (Nr & HNr);
    [unfold len in *; lia|].
  destruct (basis_step_Ok j r N' saved Nr Hj Hr HNr) as (x & y & Hx & Hy & Hxy & E).
  assert (Hden : ~ ((x - u) + (u - y) == 0)%Q) by lra.
  rewrite E. eexists. split; [reflexivity|]. unfold row_invariant; simpl.
  replace (Z.to_nat (r + 1)) with (S (Z.to_nat r)) by lia.
  split; [|split].
  - rewrite length_insert. exact Hlen.
  - rewrite drop_insert_lt by lia.
    replace (S (Z.to_nat r)) with (Z.to_nat r + 1)%nat by lia.
    rewrite <- !drop_drop, Hdrop. reflexivity.
  - assert (HNr0 : N !! Z.to_nat r = Some Nr).
    { rewrite <- (Nat.add_0_r (Z.to_nat r)), <- lookup_drop, <- Hdrop, lookup_drop,
        Nat.add_0_r. exact HNr. }
    pose proof (total_take_S N _ Nr HNr0) as H1.
    assert (Hr' : (Z.to_nat r < length N')%nat) by (unfold len in *; lia).
    pose proof (total_take_S _ _ _
                  (list_lookup_insert_eq N' (Z.to_nat r)
                     (saved + (x - u) * (Nr / ((x - u) + (u - y))))%Q Hr')) as H2.
    rewrite (take_insert_ge N' (Z.to_nat r) (Z.to_nat r)) in H2 by lia.
    assert (HT : ((x - u) * (Nr / ((x - u) + (u - y))) + (u - y) * (Nr / ((x - u) + (u - y)))
                  == Nr)%Q) by (field; exact Hden).
    lra.
Qed.

(** A row of A2.2 keeps the sum of the values. *)
Lemma basis_row_sum (j : Z) (N : list Q) :
  1 <= j <= degree -> len N = degree + 1 ->
  exists N', spec.basis_row knot_vector span u j N = Ok N'
             /\ len N' = degree + 1
             /\ (total (take (Z.to_nat (j + 1)) N') == total (take (Z.to_nat j) N))%Q.
Proof using All.
  intros Hj HN. unfold spec.basis_row.
  destruct (for_range_total (row_invariant j N)
              (spec.basis_step knot_vector span u j) 0 j) with (acc := (N, 0%Q))
    as (acc & Eacc & Hlen & Hdrop & Hsum).
  - lia.
  - intros r acc Hr Hinv. apply basis_step_sum; [lia | lia | exact HN | exact Hinv].
  - unfold row_invariant; simpl. split; [reflexivity|]. split; [reflexivity|]. ring.
  - rewrite Eacc. simpl.
    rewrite setitem_Ok by (unfold len in *; lia).
    eexists. split; [reflexivity|]. split.
    + unfold len in *. rewrite length_insert. lia.
    + replace (Z.to_nat (j + 1)) with (S (Z.to_nat j)) by lia.
      assert (Hj' : (Z.to_nat j < length acc.1)%nat) by (unfold len in *; lia).
      pose proof (total_take_S _ _ _
                    (list_lookup_insert_eq acc.1 (Z.to_nat j) acc.2 Hj')) as H2.
      rewrite (take_insert_ge acc.1 (Z.to_nat j) (Z.to_nat j)) in H2 by lia. lra.
Qed.

(** Partition of unity for A2.2. *)
Lemma basis_functions_sum :
  exists N, spec.basis_functions degree knot_vector span u = Ok N
            /\ len N = degree + 1
            /\ (total N == 1)%Q.
Proof using All.
  unfold spec.basis_functions.
  destruct (for_range_total
              (fun j N => len N = degree + 1 /\ (total (take (Z.to_nat j) N) == 1)%Q)
              (spec.basis_row knot_vector span u) 1 (degree + 1))
    with (acc := 1%Q :: replicateZ degree 0%Q) as (N & EN & HN & Hsum).
  - lia.
  - intros j N Hj (HN & Hsum).
    destruct (basis_row_sum j N) as (N' & E & HN' & Hsum'); [lia | exact HN |].
    exists N'. split; [exact E|]. split; [exact HN'|]. lra.
  - split.
    + unfold len. simpl. unfold replicateZ. rewrite length_replicate. lia.
    + simpl. ring.
  - exists N. split; [exact EN|]. split; [exact HN|].
    rewrite take_ge in Hsum; [exact Hsum|]. unfold len in HN. lia.
Qed.

End BasisFunctions.

(** ** The span search *)

Lemma elem_of_range (a b k : Z) : k ∈ range a b <-> a <= k < b.
Proof.
  unfold range. rewrite list_elem_of_In, in_map_iff. split.
  - intros (i & <- & Hi). apply in_seq in Hi. lia.
  - intros H. exists (Z.to_nat (k - a)). split; [lia|]. apply in_seq. lia.
Qed.

Lemma holds_nontrivial (values : list Q) (u : Q) (k : Z) :
  spec.holds values u k = true -> spec.nontrivial values k = true.
Proof.
  unfold spec.holds, spec.nontrivial.
  destruct (spec.knot values k) as [a|]; [|discriminate].
  destruct (spec.knot values (k + 1)) as [b|]; [|discriminate].
  intros H. apply andb_true_iff in H as [H1 H2].
  apply negb_true_iff in H2. apply negb_true_iff.
  apply Qle_bool_iff in H1.
  destruct (Qle_bool b a) eqn:E; [|reflexivity].
  apply Qle_bool_iff in E.
  assert (Hbu : (b <= u)%Q) by lra.
  apply Qle_bool_iff in Hbu. congruence.
Qed.

(** A span that [find_span] returns is a candidate of positive width. *)
Lemma find_span_Ok_inv (degree : Z) (values : list Q) (n : Z) (u : Q) (k : Z) :
  spec.find_span degree values n u = Ok k ->
  degree <= k < n /\ spec.nontrivial values k = true.
Proof.
  unfold spec.find_span. destruct (Qeq_bool u 1).
  - destruct (last _) as [k'|] eqn:E; [|discriminate].
    intros [= <-]. apply last_Some_elem_of, list_elem_of_filter in E as [H1 H2].
    apply elem_of_range in H2. auto.
  - destruct (head _) as [k'|] eqn:E; [|discriminate].
    intros [= <-]. apply head_Some_elem_of, list_elem_of_filter in E as [H1 H2].
    apply elem_of_range in H2. split; [exact H2|]. apply (holds_nontrivial _ u), H1.
Qed.

Lemma knot_lookup (values : list Q) (k : Z) :
  0 <= k < len values -> exists x, spec.knot values k = Some x.
Proof.
  intros H. unfold spec.knot.
  destruct (0 <=? k) eqn:E; [|apply Z.leb_gt in E; lia].
  apply lookup_lt_is_Some. unfold len in H. lia.
Qed.

(** Between a knot that is at most [u] and a later knot that is greater
    there is a span that holds [u]. *)
Lemma span_exists (values : list Q) (u : Q) (d : nat) :
  forall a b x y, b = a + Z.of_nat d -> 0 <= a -> b < len values ->
    spec.knot values a = Some x -> spec.knot values b = Some y ->
    (x <= u)%Q -> (u < y)%Q ->
    exists k, a <= k < b /\ spec.holds values u k = true.
Proof.
  induction d as [|d IH]; intros a b x y Hb Ha Hlen Hx Hy Hxu Huy.
  - replace b with a in * by lia. rewrite Hx in Hy. inversion Hy; subst. lra.
  - destruct (knot_lookup values (a + 1)) as (z & Hz); [lia|].
    destruct (Qlt_le_dec u z) as [Huz | Hzu].
    + exists a. split; [lia|]. unfold spec.holds. rewrite Hx, Hz.
      apply andb_true_iff. split; [apply Qle_bool_iff; exact Hxu|].
      apply negb_true_iff. destruct (Qle_bool z u) eqn:E; [|reflexivity].
      apply Qle_bool_iff in E. lra.
    + destruct (IH (a + 1) b z y) as (k & Hk & Hh); try assumption; try lia.
      exists k. split; [lia | exact Hh].
Qed.

(** Between two knots that differ there is a span of positive width. *)
Lemma nontrivial_exists (values : list Q) (d : nat) :
  forall a b x y, b = a + Z.of_nat d -> 0 <= a -> b < len values ->
    spec.knot values a = Some x -> spec.knot values b = Some y ->
    (x < y)%Q ->
    exists k, a <= k < b /\ spec.nontrivial values k = true.
Proof.
  induction d as [|d IH]; intros a b x y Hb Ha Hlen Hx Hy Hxy.
  - replace b with a in * by lia. rewrite Hx in Hy. inversion Hy; subst. lra.
  - destruct (knot_lookup values (a + 1)) as (z & Hz); [lia|].
    destruct (Qlt_le_dec x z) as [Hxz | Hzx].
    + exists a. split; [lia|]. unfold spec.nontrivial. rewrite Hx, Hz.
      apply negb_true_iff. destruct (Qle_bool z x) eqn:E; [|reflexivity].
      apply Qle_bool_iff in E. lra.
    + destruct (IH (a + 1) b z y) as (k & Hk & Hh); try assumption; try lia; [lra|].
      exists k. split; [lia | exact Hh].
Qed.

(** On its domain [find_span] finds a span. *)
Lemma find_span_total (degree : Z) (values : list Q) (n : Z) (u : Q) :
  0 <= degree -> degree <= n -> n < len values ->
  in_domain degree values n u = true ->
  exists k, spec.find_span degree values n u = Ok k.
Proof.
  intros Hd Hn Hlen Hdom. unfold in_domain in Hdom.
  destruct (spec.knot values degree) as [a|] eqn:Ea; [|discriminate].
  destruct (spec.knot values n) as [b|] eqn:Eb; [|discriminate].
  repeat (apply andb_true_iff in Hdom as [Hdom ?]).
  apply Qle_bool_iff in Hdom. 
  match goal with H : Qle_bool a u = true |- _ => apply Qle_bool_iff in H end.
  match goal with H : Qle_bool u 1 = true |- _ => apply Qle_bool_iff in H end.
  match goal with H : negb (Qle_bool b u) || Qeq_bool u 1 = true |- _ =>
    rename H into Hub end.
  match goal with H : negb (Qle_bool b a) = true |- _ =>
    apply negb_true_iff in H; rename H into Hab end.
  assert (Ha : (a < b)%Q).
  { apply Qnot_le_lt. intros Hle. apply Qle_bool_iff in Hle. congruence. }
  unfold spec.find_span. destruct (Qeq_bool u 1) eqn:Eu.
  - destruct (nontrivial_exists values (Z.to_nat (n - degree)) degree n a b)
      as (k & Hk & Hnt); try assumption; try lia.
    destruct (last _) as [k'|] eqn:E; [eauto|].
    apply last_None in E.
    exfalso. apply (filter_nil_not_elem_of _ _ k E Hnt). apply elem_of_range. exact Hk.
  - rewrite orb_false_r in Hub. apply negb_true_iff in Hub.
    assert (Hu1 : (u < b)%Q).
    { apply Qnot_le_lt. intros Hle. apply Qle_bool_iff in Hle. congruence. }
    destruct (span_exists values u (Z.to_nat (n - degree)) degree n a b)
      as (k & Hk & Hh); try assumption; try lia.
    destruct (head _) as [k'|] eqn:E; [eauto|].
    apply head_None in E.
    exfalso. apply (filter_nil_not_elem_of _ _ k E Hh). apply elem_of_range. exact Hk.
Qed.

(** ** Curve.curvept on a curve of equal control points *)

Lemma comprehension_map {X B} (f : X -> result B) (g : X -> B) (l : list X) :
  (forall x, f x = Ok (g x)) -> comprehension f l = Ok (map g l).
Proof.
  intros H. induction l as [|x l IH]; simpl; [reflexivity|].
  rewrite H, IH. reflexivity.
Qed.

Lemma lookup_map {A B} (f : A -> B) (l : list A) (i : nat) :
  map f l !! i = option_map f (l !! i).
Proof.
  revert i. induction l as [|x l IH]; intros [|i]; simpl; try reflexivity. apply IH.
Qed.

Lemma axpy_Ok (b : Q) (accs xs : list Q) :
  Curve.axpy (Ok b) accs xs
  = Ok (map (fun ax : Q * Q => (ax.1 + b * ax.2)%Q) (zip accs xs)).
Proof. unfold Curve.axpy. apply comprehension_map. reflexivity. Qed.

Lemma check_knot_vector_true (degree : Z) (values : list Q) (n : Z) :
  spec.check_knot_vector degree values n = true ->
  len values = n + degree + 1 /\ spec.nondecreasing values = true.
Proof.
  unfold spec.check_knot_vector. intros H. apply andb_true_iff in H as [H1 H2].
  apply Z.eqb_eq in H1. auto.
Qed.

(** The basis values at a span that [find_span] found sum to 1. *)
Lemma basis_sum_at_found_span (degree : Z) (values : list Q) (n : Z) (u : Q) (span : Z) :
  0 <= degree ->
  spec.check_knot_vector degree values n = true ->
  spec.find_span degree values n u = Ok span ->
  exists N, spec.basis_functions degree values span u = Ok N
            /\ len N = degree + 1
            /\ (total N == 1)%Q.
Proof.
  intros Hd Hkv Hspan.
  apply check_knot_vector_true in Hkv as [Hlen Hsorted].
  apply find_span_Ok_inv in Hspan as [Hk Hnt].
  apply basis_functions_sum; try assumption; lia.
Qed.

Lemma curvept_loop_constant (c : Curve.t) (P N : list Q) (span : Z) :
  constant_curve c P ->
  0 <= Curve._degree c <= span ->
  span < len (Curve._control_points c) ->
  len N = Curve._degree c + 1 ->
  exists cpt,
    for_ (range 0 (Curve._degree c + 1)) (fun i cpt =>
      ctrl_pt <- getitem (Curve._control_points c) (span - Curve._degree c + i) ;;
      Curve.axpy (getitem N i) cpt ctrl_pt) (replicateZ (Curve._dimension c) 0%Q)
    = Ok cpt
    /\ partial_point N P (Curve._degree c + 1) cpt.
Proof.
  intros [HP Hall] Hspan Hn HN.
  apply (for_range_total (partial_point N P)); [lia | |].
  - intros i cpt Hi [Hlen Hval].
    destruct (lookup_lt_is_Some_2 (Curve._control_points c)
                (Z.to_nat (span - Curve._degree c + i))) as (cp & Hcp);
      [unfold len in *; lia|].
    assert (cp = P) as ->.
    { rewrite Forall_forall in Hall. apply Hall.
      eapply list_elem_of_lookup_2. exact Hcp. }
    destruct (lookup_lt_is_Some_2 N (Z.to_nat i)) as (b & Hb); [unfold len in *; lia|].
    rewrite (getitem_Ok _ _ P) by (lia || exact Hcp). simpl.
    rewrite (getitem_Ok _ _ b) by (lia || exact Hb).
    rewrite axpy_Ok. eexists. split; [reflexivity|].
    split.
    + rewrite length_map, length_zip. lia.
    + intros d c' x Hc' Hx.
      rewrite lookup_map in Hc'.
      destruct (zip cpt P !! d) as [[c1 x1]|] eqn:Ez; [|discriminate].
      apply lookup_zip_Some in Ez as [Hc1 Hx1].
      simpl in Hc'. inversion Hc'; subst c'.
      assert (x1 = x) as -> by congruence.
      pose proof (Hval d c1 x Hc1 Hx) as E.
      replace (Z.to_nat (i + 1)) with (S (Z.to_nat i)) by lia.
      pose proof (total_take_S N _ b Hb) as ES.
      rewrite E, ES. ring.
  - split.
    + unfold replicateZ, len in *. rewrite length_replicate. lia.
    + intros d c' x Hc' Hx. unfold replicateZ in Hc'.
      apply lookup_replicate in Hc' as [-> _]. simpl. ring.
Qed.

Lemma same_of_equal (cpt P : list Q) :
  length cpt = length P ->
  (forall d c x, cpt !! d = Some c -> P !! d = Some x -> (c == x)%Q) ->
  same cpt P.
Proof.
  intros Hlen H. unfold same. apply Forall2_same_length_lookup. split; [exact Hlen|].
  exact H.
Qed.

(** C7, in exact arithmetic, and in binary64 on the scenario.  In exact
    arithmetic, for a curve of degree at least 1 with at least
    [degree + 1] control points, a knot vector that [check_knot_vector]
    accepts, clamped or not, and a parameter [u] of [0,1] in the domain of
    the knot vector: [find_span] finds a span, [basis_functions] returns
    [degree + 1] values at it, and these sum to 1; and when all control
    points are the point [P], [curvept(u)] is [P].  In binary64, for
    degree 2 and the knot vector [0,0,0,0.5,1,1,1] at [u = 0.25]: the
    span is 2, the basis values are 0.25, 0.625 and 0.125, their sum is
    1.0, and the curve with four control points 3.0 evaluates to 3.0. *)
Theorem partition_of_unity :
  (forall (c : Curve.t) (u : Q),
     1 <= Curve._degree c ->
     Curve._degree c + 1 <= len (Curve._control_points c) ->
     spec.check_knot_vector (Curve._degree c) (Curve._knot_vector c)
       (len (Curve._control_points c)) = true ->
     in_domain (Curve._degree c) (Curve._knot_vector c)
       (len (Curve._control_points c)) u = true ->
     exists span N,
       spec.find_span (Curve._degree c) (Curve._knot_vector c)
         (len (Curve._control_points c)) u = Ok span
       /\ spec.basis_functions (Curve._degree c) (Curve._knot_vector c) span u = Ok N
       /\ len N = Curve._degree c + 1
       /\ (total N == 1)%Q
       /\ forall P, constant_curve c P ->
            exists pt, Curve.curvept utils c u true = Ok pt /\ same pt P)
  /\ (Binary64.spec.find_span 2 [0; 0; 0; 0.5; 1; 1; 1]%float 4 0.25 = Ok 2
      /\ Binary64.spec.basis_functions 2 [0; 0; 0; 0.5; 1; 1; 1]%float 2 0.25
         = Ok [0.25; 0.625; 0.125]%float
      /\ (0.25 + 0.625 + 0.125 = 1)%float
      /\ Binary64.Curve.curvept
           (Binary64.Curve.scalar 2 [0; 0; 0; 0.5; 1; 1; 1]%float [3; 3; 3; 3]%float)
           0.25 true
         = Ok [3%float]).
Proof.
  split; [|repeat split; vm_compute; reflexivity].
  intros c u Hdeg Hn Hkv Hdom.
  pose proof (check_knot_vector_true _ _ _ Hkv) as [Hlen Hsorted].
  destruct (find_span_total (Curve._degree c) (Curve._knot_vector c)
              (len (Curve._control_points c)) u) as (span & Hspan);
    [lia | lia | lia | exact Hdom |].
  assert (Hdeg0 : 0 <= Curve._degree c) by lia.
  destruct (basis_sum_at_found_span _ _ _ _ _ Hdeg0 Hkv Hspan) as (N & HN & HlenN & Hsum).
  exists span, N. split; [exact Hspan|]. split; [exact HN|]. split; [exact HlenN|].
  split.
  { exact Hsum. }
  intros P HP.
  pose proof (find_span_Ok_inv _ _ _ _ _ Hspan) as [Hk _].
  destruct (curvept_loop_constant c P N span HP) as (cpt & Hloop & Hlencpt & Hval);
    [lia | lia | exact HlenN |].
  exists cpt. split.
  - unfold Curve.curvept.
    assert (Hvars : Curve._check_variables c = Ok tt).
    { unfold Curve._check_variables.
      destruct (Curve._degree c =? 0) eqn:E0; [apply Z.eqb_eq in E0; lia|].
      destruct (Curve._control_points c) eqn:Ecp; [unfold len in Hn; simpl in Hn; lia|].
      destruct (Curve._knot_vector c) eqn:Ekv; [unfold len in Hlen; simpl in Hlen; lia|].
      reflexivity. }
    rewrite Hvars. simpl.
    assert (Huv : spec.check_uv (Some u) None = Ok tt).
    { unfold spec.check_uv, spec.in_unit. unfold in_domain in Hdom.
      destruct (spec.knot _ _); [|discriminate].
      destruct (spec.knot _ _); [|discriminate].
      repeat (apply andb_true_iff in Hdom as [Hdom ?]).
      rewrite Hdom.
      match goal with H : Qle_bool u 1 = true |- _ => rewrite H end.
      reflexivity. }
    rewrite Huv. simpl. rewrite Hspan. simpl. rewrite HN. simpl. exact Hloop.
  - apply same_of_equal; [exact Hlencpt|].
    intros d c' x Hc' Hx. rewrite (Hval d c' x Hc' Hx).
    rewrite take_ge by (unfold len in HlenN; lia).
    rewrite Hsum. ring.
Qed.

Lemma partition_of_unity_witness :
  exists span N,
    spec.find_span 2 (Curve._knot_vector Examples.dot) 4 (1 # 4) = Ok span
    /\ spec.basis_functions 2 (Curve._knot_vector Examples.dot) span (1 # 4) = Ok N
    /\ len N = 3
    /\ (total N == 1)%Q
    /\ forall P, constant_curve Examples.dot P ->
         exists pt, Curve.curvept utils Examples.dot (1 # 4) true = Ok pt /\ same pt P.
Proof.
  apply (proj1 partition_of_unity Examples.dot (1 # 4));
    [vm_compute; discriminate | vm_compute; discriminate | reflexivity | reflexivity].
Defined.

(** C7, as it is stated, fails in binary64: the result is the exact one up
    to rounding only, and the rounding error grows with the coordinates.
    On the curve of degree 2 with the knot vector [0,0,0,0.25,0.5,1,1,1]
    and five control points equal to [1e9], [find_span] finds the span 4
    at [u = 0.75], the three basis values are 0.16666666666666666,
    0.58333333333333326 and 0.25, and [curvept(0.75)] is
    999999999.99999988: off by 1.19e-7, more than 1e-9. *)
Lemma partition_of_unity_binary64 :
  let c := Binary64.Curve.scalar 2 [0; 0; 0; 0.25; 0.5; 1; 1; 1]%float
             [1e9; 1e9; 1e9; 1e9; 1e9]%float in
  Binary64.spec.find_span 2 (Binary64.Curve._knot_vector c) 5 0.75 = Ok 4
  /\ Binary64.spec.basis_functions 2 (Binary64.Curve._knot_vector c) 4 0.75
     = Ok [0x1.5555555555555p-3; 0x1.2aaaaaaaaaaaap-1; 0.25]%float
  /\ Binary64.Curve.curvept c 0.75 true = Ok [0x1.dcd64ffffffffp+29%float]
  /\ PrimFloat.ltb Binary64.tol (PrimFloat.abs (0x1.dcd64ffffffffp+29 - 1e9)) = true.
Proof. cbv zeta. repeat split; vm_compute; reflexivity. Qed.

(** ** Clamped knot vectors: the basis values at the two ends *)

Lemma knot_is_true (values : list Q) (x : Q) (k : Z) :
  knot_is values x k = true ->
  exists a, values !! Z.to_nat k = Some a /\ (a == x)%Q.
Proof.
  unfold knot_is, spec.knot. destruct (0 <=? k); [|discriminate].
  destruct (values !! Z.to_nat k) as [a|]; [|discriminate].
  intros H. apply Qeq_bool_iff in H. eauto.
Qed.

Lemma clamped_inv (degree : Z) (values : list Q) (n : Z) :
  clamped degree values n = true ->
  (forall k, 0 <= k <= degree -> exists a, values !! Z.to_nat k = Some a /\ (a == 0)%Q)
  /\ spec.nontrivial values degree = true
  /\ spec.nontrivial values (n - 1) = true
  /\ (forall k, n <= k <= n + degree -> exists a, values !! Z.to_nat k = Some a /\ (a == 1)%Q).
Proof.
  unfold clamped. intros H.
  apply andb_true_iff in H as [H H4]. apply andb_true_iff in H as [H H3].
  apply andb_true_iff in H as [H1 H2].
  rewrite forallb_forall in H1, H4.
  split; [|split; [exact H2 | split; [exact H3|]]].
  - intros k Hk. apply knot_is_true, H1, list_elem_of_In, elem_of_range. lia.
  - intros k Hk. apply knot_is_true, H4, list_elem_of_In, elem_of_range. lia.
Qed.

Lemma unit_vector_insert (m : Z) (N : list Q) (r : nat) (v : Q) :
  unit_vector m N ->
  (v == if Z.of_nat r =? m then 1 else 0)%Q ->
  unit_vector m (<[r := v]> N).
Proof.
  intros HN Hv i x Hx. destruct (decide (r = i)) as [<-|Hne].
  - apply list_lookup_insert_Some in Hx as [(_ & <- & _) | (? & _)]; [exact Hv | congruence].
  - rewrite list_lookup_insert_ne in Hx by exact Hne. apply HN, Hx.
Qed.

Section Clamped.

Variables (degree : Z) (knot_vector : list Q) (n : Z).

Hypothesis degree_pos : 1 <= degree.
Hypothesis enough : degree + 1 <= n.
Hypothesis valid : spec.check_knot_vector degree knot_vector n = true.
Hypothesis ends : clamped degree knot_vector n = true.

(** At [u = 0.0], in the span [degree], the rows of A2.2 keep
    [1, 0, ..., 0]. *)
Lemma basis_functions_at_0 :
  exists N, spec.basis_functions degree knot_vector degree 0 = Ok N
            /\ len N = degree + 1
            /\ unit_vector 0 N.
Proof using All.
  destruct (check_knot_vector_true _ _ _ valid) as [Hlen Hsorted].
  destruct (clamped_inv _ _ _ ends) as (Hzero & Hnt & _ & _).
  assert (Hd0 : 0 <= degree) by lia.
  assert (Hlo : degree <= degree) by lia.
  assert (Hhi : degree + degree < len knot_vector) by lia.
  unfold spec.basis_functions.
  apply (for_range_total (fun _ N => len N = degree + 1 /\ unit_vector 0 N)); [lia | |].
  - intros j N Hj [HN Hunit]. unfold spec.basis_row.
    destruct (for_range_total
                (fun (_ : Z) (acc : list Q * Q) =>
                   len acc.1 = degree + 1 /\ unit_vector 0 acc.1 /\ (acc.2 == 0)%Q)
                (spec.basis_step knot_vector degree 0 j) 0 j) with (acc := (N, 0%Q))
      as (acc & Eacc & Hlen' & Hunit' & Hsaved).
    + lia.
    + intros r [N' saved] Hr (HN' & Hunit' & Hsaved). cbn [fst snd] in *.
      destruct (lookup_lt_is_Some_2 N' (Z.to_nat r)) as (Nr & HNr); [unfold len in *; lia|].
      destruct (basis_step_Ok degree knot_vector degree 0 Hd0 Hlo Hhi Hsorted Hnt
                  j r N' saved Nr) as (x & y & Hx & Hy & Hxy & E); [lia | lia | exact HNr |].
      destruct (Hzero (degree + 1 - (j - r))) as (y' & Hy' & Hy0); [lia|].
      assert (y' = y) as -> by congruence.
      rewrite E. eexists. split; [reflexivity|]. cbn [fst snd].
      set (T := (Nr / (x - 0 + (0 - y)))%Q).
      assert (HT : ((x - 0 + (0 - y)) * T == Nr)%Q) by (unfold T; field; lra).
      assert (HyT : (y * T == 0)%Q) by (rewrite Hy0; ring).
      split; [|split].
      * unfold len in *. rewrite length_insert. exact HN'.
      * apply unit_vector_insert; [exact Hunit'|].
        pose proof (Hunit' _ _ HNr) as ENr.
        destruct (Z.of_nat (Z.to_nat r) =? 0); lra.
      * lra.
    + cbn [fst snd]. split; [exact HN|]. split; [exact Hunit | reflexivity].
    + rewrite Eacc. simpl. rewrite setitem_Ok by lia.
      eexists. split; [reflexivity|]. split.
      * unfold len in *. rewrite length_insert. exact Hlen'.
      * apply unit_vector_insert; [exact Hunit'|].
        rewrite Z2Nat.id by lia.
        destruct (j =? 0) eqn:Ej; [apply Z.eqb_eq in Ej; lia | exact Hsaved].
  - split.
    + unfold len, replicateZ. simpl. rewrite length_replicate. lia.
    + intros [|i] x; simpl; intros Hx.
      * inversion Hx. reflexivity.
      * unfold replicateZ in Hx. apply lookup_replicate in Hx as [-> _]. reflexivity.
Qed.

(** At [u = 1.0], in the span [n - 1], row [j] of A2.2 moves the 1 from
    position [j - 1] to position [j]. *)
Lemma basis_functions_at_1 :
  exists N, spec.basis_functions degree knot_vector (n - 1) 1 = Ok N
            /\ len N = degree + 1
            /\ unit_vector degree N.
Proof using All.
  destruct (check_knot_vector_true _ _ _ valid) as [Hlen Hsorted].
  destruct (clamped_inv _ _ _ ends) as (_ & _ & Hnt & Hone).
  assert (Hd0 : 0 <= degree) by lia.
  assert (Hlo : degree <= n - 1) by lia.
  assert (Hhi : n - 1 + degree < len knot_vector) by lia.
  unfold spec.basis_functions.
  destruct (for_range_total (fun j N => len N = degree + 1 /\ unit_vector (j - 1) N)
              (spec.basis_row knot_vector (n - 1) 1) 1 (degree + 1))
    with (acc := 1%Q :: replicateZ degree 0%Q) as (N & EN & HN & Hunit).
  - lia.
  - intros j N Hj [HN Hunit]. unfold spec.basis_row.
    destruct (for_range_total
                (fun (r : Z) (acc : list Q * Q) =>
                   len acc.1 = degree + 1
                   /\ (forall i x, acc.1 !! i = Some x ->
                         (x == if Z.of_nat i <? r then 0
                               else if Z.of_nat i =? j - 1 then 1 else 0)%Q)
                   /\ (acc.2 == if r =? j then 1 else 0)%Q)
                (spec.basis_step knot_vector (n - 1) 1 j) 0 j) with (acc := (N, 0%Q))
      as (acc & Eacc & Hlen' & Hval & Hsaved).
    + lia.
    + intros r [N' saved] Hr (HN' & Hval & Hsaved). cbn [fst snd] in *.
      destruct (lookup_lt_is_Some_2 N' (Z.to_nat r)) as (Nr & HNr); [unfold len in *; lia|].
      destruct (basis_step_Ok degree knot_vector (n - 1) 1 Hd0 Hlo Hhi Hsorted Hnt
                  j r N' saved Nr) as (x & y & Hx & Hy & Hxy & E); [lia | lia | exact HNr |].
      destruct (Hone (n - 1 + (r + 1))) as (x' & Hx' & Hx1); [lia|].
      assert (x' = x) as -> by congruence.
      rewrite E. eexists. split; [reflexivity|]. cbn [fst snd].
      set (T := (Nr / (x - 1 + (1 - y)))%Q).
      assert (HT : ((x - 1 + (1 - y)) * T == Nr)%Q) by (unfold T; field; lra).
      assert (HxT : ((x - 1) * T == 0)%Q) by (rewrite Hx1; ring).
      pose proof (Hval _ _ HNr) as ENr. rewrite Z2Nat.id in ENr by lia.
      destruct (Z.ltb_spec r r) as [?|_]; [lia|].
      destruct (Z.eqb_spec r j) as [?|_]; [lia|].
      split; [|split].
      * unfold len in *. rewrite length_insert. exact HN'.
      * intros i v Hv. destruct (decide (Z.to_nat r = i)) as [<-|Hne].
        -- apply list_lookup_insert_Some in Hv as [(_ & <- & _) | (? & _)]; [|congruence].
           rewrite Z2Nat.id by lia.
           destruct (Z.ltb_spec r (r + 1)) as [_|?]; [|lia]. lra.
        -- rewrite list_lookup_insert_ne in Hv by exact Hne.
           rewrite (Hval i v Hv).
           destruct (Z.ltb_spec (Z.of_nat i) r), (Z.ltb_spec (Z.of_nat i) (r + 1));
             try reflexivity; lia.
      * destruct (Z.eqb_spec (r + 1) j) as [Ej|Ej].
        -- destruct (Z.eqb_spec r (j - 1)) as [_|?]; [|lia]. lra.
        -- destruct (Z.eqb_spec r (j - 1)) as [?|_]; [lia|]. lra.
    + cbn [fst snd]. split; [exact HN|]. split.
      * intros i x Hx. destruct (Z.ltb_spec (Z.of_nat i) 0) as [?|_]; [lia|].
        apply Hunit, Hx.
      * destruct (Z.eqb_spec 0 j) as [?|_]; [lia | reflexivity].
    + rewrite Eacc. simpl. rewrite setitem_Ok by lia.
      eexists. split; [reflexivity|]. split.
      * unfold len in *. rewrite length_insert. exact Hlen'.
      * replace (j + 1 - 1) with j by lia.
        rewrite Z.eqb_refl in Hsaved.
        intros i v Hv. destruct (decide (Z.to_nat j = i)) as [<-|Hne].
        -- apply list_lookup_insert_Some in Hv as [(_ & <- & _) | (? & _)]; [|congruence].
           rewrite Z2Nat.id by lia. rewrite Z.eqb_refl. exact Hsaved.
        -- rewrite list_lookup_insert_ne in Hv by exact Hne.
           rewrite (Hval i v Hv).
           destruct (Z.eqb_spec (Z.of_nat i) j) as [?|_]; [lia|].
           destruct (Z.ltb_spec (Z.of_nat i) j) as [_|?]; [reflexivity|].
           destruct (Z.eqb_spec (Z.of_nat i) (j - 1)) as [?|_]; [lia | reflexivity].
  - split.
    + unfold len, replicateZ. simpl. rewrite length_replicate. lia.
    + intros [|i] x; simpl; intros Hx.
      * inversion Hx. reflexivity.
      * unfold replicateZ in Hx. apply lookup_replicate in Hx as [-> _]. reflexivity.
  - exists N. split; [exact EN|]. split; [exact HN|].
    replace (degree + 1 - 1) with degree in Hunit by lia. exact Hunit.
Qed.

End Clamped.

(** ** Curve.curvept at the ends of a clamped knot vector *)

Lemma range_snoc (a b : Z) : a < b -> range a b = range a (b - 1) ++ [b - 1].
Proof.
  intros H. unfold range.
  replace (Z.to_nat (b - a)) with (Z.to_nat (b - 1 - a) + 1)%nat by lia.
  rewrite seq_app, map_app. simpl. do 2 f_equal. lia.
Qed.

Lemma nontrivial_inv (values : list Q) (k : Z) :
  spec.nontrivial values k = true ->
  exists a b, spec.knot values k = Some a /\ spec.knot values (k + 1) = Some b /\ (a < b)%Q.
Proof.
  unfold spec.nontrivial.
  destruct (spec.knot values k) as [a|]; [|discriminate].
  destruct (spec.knot values (k + 1)) as [b|]; [|discriminate].
  intros H. apply negb_true_iff in H. exists a, b. split; [reflexivity|]. split; [reflexivity|].
  apply Qnot_le_lt. intros Hle. apply Qle_bool_iff in Hle. congruence.
Qed.

Lemma find_span_at_0 (degree : Z) (values : list Q) (n : Z) :
  0 <= degree < n ->
  clamped degree values n = true ->
  spec.find_span degree values n 0 = Ok degree.
Proof.
  intros Hd Hc. destruct (clamped_inv _ _ _ Hc) as (Hzero & Hnt & _ & _).
  unfold spec.find_span. change (Qeq_bool 0 1) with false. cbv iota.
  rewrite range_cons by lia.
  rewrite filter_cons_True; [reflexivity|].
  apply nontrivial_inv in Hnt as (a & b & Ha & Hb & Hab).
  destruct (Hzero degree) as (a' & Ha' & Ha0); [lia|].
  assert (a' = a) as ->.
  { unfold spec.knot in Ha. destruct (0 <=? degree); [congruence | discriminate]. }
  unfold spec.holds. rewrite Ha, Hb.
  apply andb_true_iff. split.
  - apply Qle_bool_iff. lra.
  - apply negb_true_iff. destruct (Qle_bool b 0) eqn:E; [|reflexivity].
    apply Qle_bool_iff in E. lra.
Qed.

Lemma find_span_at_1 (degree : Z) (values : list Q) (n : Z) :
  0 <= degree < n ->
  clamped degree values n = true ->
  spec.find_span degree values n 1 = Ok (n - 1).
Proof.
  intros Hd Hc. destruct (clamped_inv _ _ _ Hc) as (_ & _ & Hnt & _).
  unfold spec.find_span. change (Qeq_bool 1 1) with true. cbv iota.
  rewrite range_snoc by lia.
  rewrite filter_app, (filter_cons_True _ (n - 1)) by exact Hnt.
  rewrite filter_nil, last_snoc. reflexivity.
Qed.

(** The weighted sum of [curvept] when the basis values are 1 at position
    [m] and 0 elsewhere: the control point at position [m] of the window. *)
Lemma curvept_loop_unit (c : Curve.t) (N target : list Q) (span m : Z) :
  dimensioned c ->
  0 <= Curve._degree c <= span ->
  span < len (Curve._control_points c) ->
  len N = Curve._degree c + 1 ->
  unit_vector m N ->
  0 <= m <= Curve._degree c ->
  Curve._control_points c !! Z.to_nat (span - Curve._degree c + m) = Some target ->
  exists cpt,
    for_ (range 0 (Curve._degree c + 1)) (fun i cpt =>
      ctrl_pt <- getitem (Curve._control_points c) (span - Curve._degree c + i) ;;
      Curve.axpy (getitem N i) cpt ctrl_pt) (replicateZ (Curve._dimension c) 0%Q)
    = Ok cpt
    /\ length cpt = length target
    /\ forall d x y, cpt !! d = Some x -> target !! d = Some y -> (x == y)%Q.
Proof.
  intros Hdim Hspan Hn HN Hunit Hm Htarget.
  unfold dimensioned in Hdim. rewrite Forall_forall in Hdim.
  assert (Htlen : len target = Curve._dimension c).
  { apply Hdim. eapply list_elem_of_lookup_2. exact Htarget. }
  destruct (for_range_total
              (fun i cpt =>
                 len cpt = Curve._dimension c
                 /\ forall d x y, cpt !! d = Some x -> target !! d = Some y ->
                      (x == if m <? i then y else 0)%Q)
              (fun i cpt =>
                 ctrl_pt <- getitem (Curve._control_points c) (span - Curve._degree c + i) ;;
                 Curve.axpy (getitem N i) cpt ctrl_pt)
              0 (Curve._degree c + 1))
    with (acc := replicateZ (Curve._dimension c) 0%Q) as (cpt & E & Hlen & Hval).
  - lia.
  - intros i cpt Hi [Hlen Hval].
    destruct (lookup_lt_is_Some_2 (Curve._control_points c)
                (Z.to_nat (span - Curve._degree c + i))) as (cp & Hcp);
      [unfold len in *; lia|].
    assert (Hcplen : len cp = Curve._dimension c).
    { apply Hdim. eapply list_elem_of_lookup_2. exact Hcp. }
    destruct (lookup_lt_is_Some_2 N (Z.to_nat i)) as (b & Hb); [unfold len in *; lia|].
    pose proof (Hunit _ _ Hb) as Eb. rewrite Z2Nat.id in Eb by lia.
    rewrite (getitem_Ok _ _ cp) by (lia || exact Hcp). simpl.
    rewrite (getitem_Ok _ _ b) by (lia || exact Hb).
    rewrite axpy_Ok. eexists. split; [reflexivity|]. split.
    + unfold len in *. rewrite length_map, length_zip. lia.
    + intros d x y Hx Hy. rewrite lookup_map in Hx.
      destruct (zip cpt cp !! d) as [[x1 y1]|] eqn:Ez; [|discriminate].
      apply lookup_zip_Some in Ez as [Hx1 Hy1].
      simpl in Hx. inversion Hx; subst x.
      pose proof (Hval d x1 y Hx1 Hy) as Ex1.
      destruct (Z.eqb_spec i m) as [->|Hne].
      * assert (cp = target) as ->
          by (pose proof (eq_trans (eq_sym Hcp) Htarget) as Heq; inversion Heq; reflexivity).
        assert (y1 = y) as -> by congruence.
        destruct (Z.ltb_spec m m) as [?|_]; [lia|].
        destruct (Z.ltb_spec m (m + 1)) as [_|?]; [|lia].
        assert (Eby : (b * y == y)%Q) by (rewrite Eb; ring). lra.
      * assert (Eby : (b * y1 == 0)%Q) by (rewrite Eb; ring).
        destruct (Z.ltb_spec m i), (Z.ltb_spec m (i + 1)); try lia; lra.
  - split.
    + apply len_replicateZ. unfold len in Htlen. lia.
    + intros d x y Hx Hy. unfold replicateZ in Hx.
      apply lookup_replicate in Hx as [-> _].
      destruct (Z.ltb_spec m 0) as [?|_]; [lia | reflexivity].
  - exists cpt. split; [exact E|]. split; [unfold len in *; lia|].
    intros d x y Hx Hy. rewrite (Hval d x y Hx Hy).
    destruct (Z.ltb_spec m (Curve._degree c + 1)) as [_|?]; [reflexivity | lia].
Qed.

(** C8, in exact arithmetic, and in binary64 on the scenario.  In exact
    arithmetic, for a curve of degree at least 1 with at least
    [degree + 1] control points of [dimension] coordinates each, and a
    knot vector that [check_knot_vector] accepts and that is clamped:
    [curvept(0.0)] is the first control point and [curvept(1.0)] is the
    last.  In binary64, for degree 2, the knot vector [0,0,0,0.5,1,1,1]
    and the control points (0,0), (1,2), (3,2), (4,0): [curvept(0.0)] is
    (0.0, 0.0) and [curvept(1.0)] is (4.0, 0.0). *)
Theorem endpoint_interpolation :
  (forall c : Curve.t,
     1 <= Curve._degree c ->
     Curve._degree c + 1 <= len (Curve._control_points c) ->
     spec.check_knot_vector (Curve._degree c) (Curve._knot_vector c)
       (len (Curve._control_points c)) = true ->
     clamped (Curve._degree c) (Curve._knot_vector c)
       (len (Curve._control_points c)) = true ->
     dimensioned c ->
     exists first final pt0 pt1,
       head (Curve._control_points c) = Some first
       /\ last (Curve._control_points c) = Some final
       /\ Curve.curvept utils c 0 true = Ok pt0 /\ same pt0 first
       /\ Curve.curvept utils c 1 true = Ok pt1 /\ same pt1 final)
  /\ (Binary64.Curve.curvept Binary64.Curve.scenario 0 true = Ok [0; 0]%float
      /\ Binary64.Curve.curvept Binary64.Curve.scenario 1 true = Ok [4; 0]%float).
Proof.
  split; [|split; vm_compute; reflexivity].
  intros c Hdeg Hn Hkv Hclamped Hdim.
  pose proof (check_knot_vector_true _ _ _ Hkv) as [Hlen Hsorted].
  assert (Hvars : Curve._check_variables c = Ok tt).
  { unfold Curve._check_variables.
    destruct (Curve._degree c =? 0) eqn:E0; [apply Z.eqb_eq in E0; lia|].
    destruct (Curve._control_points c) eqn:Ecp; [unfold len in Hn; simpl in Hn; lia|].
    destruct (Curve._knot_vector c) eqn:Ekv; [unfold len in Hlen; simpl in Hlen; lia|].
    reflexivity. }
  destruct (lookup_lt_is_Some_2 (Curve._control_points c) 0) as (first & Hfirst);
    [unfold len in *; lia|].
  destruct (lookup_lt_is_Some_2 (Curve._control_points c)
              (Z.to_nat (len (Curve._control_points c) - 1))) as (final & Hfinal);
    [unfold len in *; lia|].
  destruct (basis_functions_at_0 _ _ _ Hdeg Hn Hkv Hclamped) as (N0 & EN0 & HN0 & Hunit0).
  destruct (basis_functions_at_1 _ _ _ Hdeg Hn Hkv Hclamped) as (N1 & EN1 & HN1 & Hunit1).
  destruct (curvept_loop_unit c N0 first (Curve._degree c) 0) as (pt0 & E0 & Hl0 & Hv0);
    try assumption; try lia.
  { replace (Curve._degree c - Curve._degree c + 0) with 0 by lia. exact Hfirst. }
  destruct (curvept_loop_unit c N1 final (len (Curve._control_points c) - 1)
              (Curve._degree c)) as (pt1 & E1 & Hl1 & Hv1);
    try assumption; try lia.
  { replace (len (Curve._control_points c) - 1 - Curve._degree c + Curve._degree c)
      with (len (Curve._control_points c) - 1) by lia. exact Hfinal. }
  exists first, final, pt0, pt1.
  split; [|split; [|split; [|split; [|split]]]].
  - rewrite <- Hfirst. destruct (Curve._control_points c); reflexivity.
  - rewrite last_lookup. rewrite <- Hfinal. f_equal. unfold len. lia.
  - unfold Curve.curvept. rewrite Hvars. simpl.
    rewrite find_span_at_0 by (lia || assumption). simpl.
    rewrite EN0. simpl. exact E0.
  - apply same_of_equal; assumption.
  - unfold Curve.curvept. rewrite Hvars. simpl.
    rewrite find_span_at_1 by (lia || assumption). simpl.
    rewrite EN1. simpl. exact E1.
  - apply same_of_equal; assumption.
Qed.

Lemma endpoint_interpolation_witness :
  exists pt0 pt1,
    Curve.curvept utils Examples.curve 0 true = Ok pt0 /\ same pt0 [0; 0]%Q
    /\ Curve.curvept utils Examples.curve 1 true = Ok pt1 /\ same pt1 [4; 0]%Q.
Proof.
  destruct (proj1 endpoint_interpolation Examples.curve)
    as (first & final & pt0 & pt1 & Hfirst & Hfinal & E0 & H0 & E1 & H1).
  - vm_compute. discriminate.
  - vm_compute. discriminate.
  - reflexivity.
  - reflexivity.
  - repeat constructor.
  - simpl in Hfirst, Hfinal. inversion Hfirst; inversion Hfinal; subst.
    exists pt0, pt1. auto.
Defined.

(** C8, as it is stated, fails in binary64: the end point is the control
    point up to rounding only, neither equal to it nor within the
    specification's 1e-9 of it.  On the curve of degree 1 with the clamped
    knot vector [0, 0, 49/1024, 1, 1] and the control points 1e9, 2, 3, the
    basis values at [u = 0.0] are 0.99999999999999989 and 0.0 (the
    quotient [1 / (49/1024)] is rounded), and [curvept(0.0)] is
    999999999.99999988, off by 1.19e-7. *)
Lemma endpoint_interpolation_binary64 :
  let c := Binary64.Curve.scalar 1 [0; 0; 0x1.88p-5; 1; 1]%float [1e9; 2; 3]%float in
  Binary64.spec.find_span 1 (Binary64.Curve._knot_vector c) 3 0 = Ok 1
  /\ Binary64.spec.basis_functions 1 (Binary64.Curve._knot_vector c) 1 0
     = Ok [0x1.fffffffffffffp-1; 0]%float
  /\ Binary64.Curve.curvept c 0 true = Ok [0x1.dcd64ffffffffp+29%float]
  /\ PrimFloat.eqb 0x1.dcd64ffffffffp+29 1e9 = false
  /\ PrimFloat.ltb Binary64.tol (PrimFloat.abs (0x1.dcd64ffffffffp+29 - 1e9)) = true.
Proof. cbv zeta. repeat split; vm_compute; reflexivity. Qed.


(** ** Derivatives of an order above the degree *)

Lemma comprehension_total {X B} (f : X -> result B) (P : B -> Prop) (l : list X) :
  Forall (fun x => exists y, f x = Ok y /\ P y) l ->
  exists ys, comprehension f l = Ok ys /\ Forall P ys /\ length ys = length l.
Proof.
  induction 1 as [|x l (y & Ey & Hy) _ (ys & Eys & Hys & Hlen)]; simpl.
  - exists []. auto.
  - rewrite Ey. simpl. rewrite Eys. simpl. exists (y :: ys).
    split; [reflexivity|]. split; [constructor; assumption | simpl; lia].
Qed.

Lemma Forall_zip {A B} (P : A -> Prop) (R : B -> Prop) (l : list A) (k : list B) :
  Forall P l -> Forall R k -> Forall (fun ab => P ab.1 /\ R ab.2) (zip l k).
Proof.
  intros Hl. revert k. induction Hl as [|a l Ha _ IH]; intros k Hk; simpl; [constructor|].
  destruct Hk as [|b k Hb Hk]; simpl; [constructor|].
  constructor; [auto | apply IH, Hk].
Qed.

Lemma axpy_entry_Ok (coef : result Q) (b : Q) (accs xs : list (option Q)) :
  coef = Ok b -> floats accs -> floats xs ->
  exists new, Curve.axpy_entry coef accs xs = Ok new /\ floats new.
Proof.
  intros -> Haccs Hxs. unfold Curve.axpy_entry.
  destruct (comprehension_total
              (fun ax : option Q * option Q =>
                 b <- Ok b ;; x <- Curve.number ax.2 ;; a <- Curve.number ax.1 ;;
                 Ok (Some (a + b * x)%Q)) is_Some (zip accs xs)) as (new & E & Hnew & _).
  - eapply Forall_impl; [apply (Forall_zip _ _ _ _ Haccs Hxs)|].
    intros [a x] [[a' ->] [x' ->]]. simpl. eexists. split; [reflexivity | eexists; reflexivity].
  - exists new. split; [exact E | exact Hnew].
Qed.

Lemma floats_zeros (c : Curve.t) : floats (Curve.zeros c).
Proof. unfold floats, Curve.zeros, replicateZ. apply Forall_replicate. eexists; reflexivity. Qed.

Lemma floats_points (cp : list Q) : floats (map Some cp).
Proof. unfold floats. induction cp; simpl; constructor; [eexists; reflexivity | assumption]. Qed.

Lemma zero_above_degree_insert (c : Curve.t) (order k : Z) CK entry :
  zero_above_degree c order CK -> 0 <= k <= Curve._degree c ->
  zero_above_degree c order (<[Z.to_nat k := entry]> CK).
Proof.
  intros [Hlen Hzero] Hk. split.
  - unfold len in *. rewrite length_insert. exact Hlen.
  - intros k' Hk'. rewrite list_lookup_insert_ne by lia. apply Hzero, Hk'.
Qed.

(** The table [CK] as the method sets it up. *)
Lemma CK_init_Ok (c : Curve.t) (order : Z) :
  0 <= Curve._degree c < order ->
  exists CK, Curve.CK_init c order = Ok CK /\ zero_above_degree c order CK.
Proof.
  intros Hd. unfold Curve.CK_init.
  destruct (for_range_total
              (fun k CK => len CK = order + 1
                           /\ forall k', Curve._degree c < k' < k ->
                                CK !! Z.to_nat k' = Some (Curve.zeros c))
              (fun k CK => setitem CK k (Curve.zeros c))
              (Curve._degree c + 1) (order + 1))
    with (acc := replicateZ (order + 1) (Curve.nones c)) as (CK & E & Hlen & Hzero).
  - lia.
  - intros k CK Hk [Hlen Hzero]. rewrite setitem_Ok by lia.
    eexists. split; [reflexivity|]. split.
    + unfold len in *. rewrite length_insert. exact Hlen.
    + intros k' Hk'. destruct (Z.eq_dec k' k) as [->|Hne].
      * apply list_lookup_insert_eq. unfold len in *. lia.
      * rewrite list_lookup_insert_ne by lia. apply Hzero. lia.
  - split; [apply len_replicateZ; lia|]. intros k' Hk'. lia.
  - exists CK. split; [exact E|]. split; [exact Hlen|]. intros k Hk. apply Hzero. lia.
Qed.

Lemma table_inv {A} (rows cols : Z) (t : list (list A)) (k j : Z) :
  table rows cols t = true -> 0 <= k < rows -> 0 <= j < cols ->
  exists x, (row <- getitem t k ;; getitem row j) = Ok x.
Proof.
  unfold table. intros H Hk Hj. apply andb_true_iff in H as [H1 H2].
  apply Z.leb_le in H1. rewrite forallb_forall in H2.
  destruct (lookup_lt_is_Some_2 t (Z.to_nat k)) as (row & Hrow); [unfold len in *; lia|].
  assert (Hlen : cols <= len row).
  { apply Z.leb_le, H2, list_elem_of_In. eapply list_elem_of_lookup_2. exact Hrow. }
  destruct (lookup_lt_is_Some_2 row (Z.to_nat j)) as (x & Hx); [unfold len in *; lia|].
  exists x. rewrite (getitem_Ok _ _ row) by (lia || exact Hrow). simpl.
  apply getitem_Ok; [lia | exact Hx].
Qed.

(** The main loop of [derivatives2] and of [derivatives] writes entries up
    to the degree only. *)
Lemma CK_loop_Ok (c : Curve.t) (order : Z) (width : Z -> Z)
    (body : Z -> Z -> list (list (option Q)) -> result (list (list (option Q)))) CK :
  0 <= Curve._degree c < order ->
  zero_above_degree c order CK ->
  (forall k, 0 <= k <= Curve._degree c -> 0 <= width k) ->
  (forall k j CK entry,
     0 <= k <= Curve._degree c -> 0 <= j < width k ->
     CK !! Z.to_nat k = Some entry -> floats entry ->
     exists new, body k j CK = Ok (<[Z.to_nat k := new]> CK) /\ floats new) ->
  exists CK',
    for_ (range 0 (Curve._degree c + 1)) (fun k CK =>
      CK <- setitem CK k (Curve.zeros c) ;;
      for_ (range 0 (width k)) (body k) CK) CK = Ok CK'
    /\ zero_above_degree c order CK'.
Proof.
  intros Hd HCK Hwidth Hbody.
  apply (for_range_total (fun _ CK => zero_above_degree c order CK)); [lia | | exact HCK].
  intros k CK0 Hk HCK0.
  assert (Hklen : 0 <= k < len CK0) by (destruct HCK0; lia).
  rewrite setitem_Ok by exact Hklen. simpl.
  destruct (for_range_total
              (fun (_ : Z) CK =>
                 zero_above_degree c order CK
                 /\ exists entry, CK !! Z.to_nat k = Some entry /\ floats entry)
              (body k) 0 (width k) (Hwidth k ltac:(lia)))
    with (acc := <[Z.to_nat k := Curve.zeros c]> CK0) as (CK1 & E & HCK1 & _).
  - intros j CK2 Hj [HCKz (entry & Hentry & Hfl)].
    destruct (Hbody k j CK2 entry) as (new & Enew & Hnew); [lia | lia | exact Hentry | exact Hfl |].
    exists (<[Z.to_nat k := new]> CK2). split; [exact Enew|]. split.
    + apply zero_above_degree_insert; [exact HCKz | lia].
    + exists new. split; [|exact Hnew].
      apply list_lookup_insert_eq. apply lookup_lt_Some in Hentry. exact Hentry.
  - split.
    + apply zero_above_degree_insert; [exact HCK0 | lia].
    + exists (Curve.zeros c). split; [|apply floats_zeros].
      apply list_lookup_insert_eq. unfold len in Hklen. lia.
  - exists CK1. split; [exact E | exact HCK1].
Qed.

(** [derivatives2]: the call returns, and the entries above the degree are
    zero vectors. *)
Lemma derivatives2_above_degree (U : utilities.t) (c : Curve.t) (u : Q) (order span : Z) :
  evaluable U c u span -> tabulated U c u span ->
  Curve._degree c < order ->
  exists CK, Curve.derivatives2 U c u order = Ok CK /\ zero_above_degree c order CK.
Proof.
  intros (Hvars & Huv & Hunit & Hd & Hspan & Hwin & Hkn & Hsorted & Hnt)
         ((bfunsders & Eders & Hders) & _) Horder.
  unfold Curve.derivatives2. rewrite Hvars. simpl.
  unfold spec.in_unit in Hunit. apply andb_true_iff in Hunit as [Hu0 Hu1].
  rewrite Hu0, Hu1. simpl.
  destruct (CK_init_Ok c order) as (CK0 & ECK0 & HCK0); [lia|].
  rewrite ECK0. simpl. rewrite Hspan. simpl.
  rewrite Z.min_l by lia. rewrite Eders. simpl.
  apply (CK_loop_Ok c order (fun _ => Curve._degree c + 1)); [lia | exact HCK0 | intros; lia |].
  intros k j CK entry Hk Hj Hentry Hfl.
  rewrite (getitem_Ok _ _ entry) by (lia || exact Hentry). simpl.
  destruct (lookup_lt_is_Some_2 (Curve._control_points c)
              (Z.to_nat (span - Curve._degree c + j))) as (cp & Hcp);
    [unfold len in *; lia|].
  rewrite (getitem_Ok _ _ cp) by (lia || exact Hcp). simpl.
  destruct (table_inv _ _ bfunsders k j Hders) as (b & Eb); [lia | lia |].
  destruct (axpy_entry_Ok _ b entry (map Some cp) Eb Hfl (floats_points cp)) as (new & Enew & Hnew).
  rewrite Enew. simpl.
  exists new. split; [|exact Hnew].
  apply setitem_Ok. apply lookup_lt_Some in Hentry. unfold len. lia.
Qed.

(** *** The derivative control points *)

Lemma PK_ready_get PK (k i : Z) :
  PK_ready PK k i -> 0 <= k -> 0 <= i ->
  exists row entry, getitem PK k = Ok row /\ getitem row i = Ok entry
                    /\ PK !! Z.to_nat k = Some row /\ row !! Z.to_nat i = Some entry
                    /\ floats entry.
Proof.
  intros (row & entry & Hrow & Hentry & Hfl) Hk Hi. exists row, entry.
  split; [apply getitem_Ok; assumption|]. split; [apply getitem_Ok; assumption|]. auto.
Qed.

Lemma PK_shape_insert (rows cols : Z) PK (k i : nat) row entry :
  PK_shape rows cols PK -> PK !! k = Some row ->
  PK_shape rows cols (<[k := <[i := entry]> row]> PK).
Proof.
  intros [Hlen Hrows] Hrow. split.
  - unfold len in *. rewrite length_insert. exact Hlen.
  - apply Forall_insert; [exact Hrows|].
    unfold len. rewrite length_insert.
    rewrite Forall_forall in Hrows. apply Hrows. eapply list_elem_of_lookup_2. exact Hrow.
Qed.

Lemma PK_shape_row (rows cols : Z) PK (k : Z) :
  PK_shape rows cols PK -> 0 <= k < rows ->
  exists row, PK !! Z.to_nat k = Some row /\ len row = cols.
Proof.
  intros [Hlen Hrows] Hk.
  destruct (lookup_lt_is_Some_2 PK (Z.to_nat k)) as (row & Hrow); [unfold len in *; lia|].
  exists row. split; [exact Hrow|].
  rewrite Forall_forall in Hrows. apply Hrows. eapply list_elem_of_lookup_2. exact Hrow.
Qed.

(** Writing entry [PK[k][i]] leaves the other entries ready. *)
Lemma PK_ready_insert_other PK (k i k' i' : Z) row entry :
  0 <= k -> 0 <= i -> 0 <= k' -> 0 <= i' ->
  PK !! Z.to_nat k = Some row ->
  (k' <> k \/ i' <> i) ->
  PK_ready PK k' i' ->
  PK_ready (<[Z.to_nat k := <[Z.to_nat i := entry]> row]> PK) k' i'.
Proof.
  intros Hk Hi Hk' Hi' Hrow Hne (row' & entry' & Hrow' & Hentry' & Hfl).
  destruct (Z.eq_dec k' k) as [->|Hkk].
  - assert (row' = row) as -> by congruence.
    exists (<[Z.to_nat i := entry]> row), entry'. split; [|split; [|exact Hfl]].
    + apply list_lookup_insert_eq. apply lookup_lt_Some in Hrow. exact Hrow.
    + rewrite list_lookup_insert_ne by lia. exact Hentry'.
  - exists row', entry'. split; [|split; [exact Hentry' | exact Hfl]].
    rewrite list_lookup_insert_ne by lia. exact Hrow'.
Qed.

Lemma PK_ready_insert_same PK (k i : Z) row entry :
  0 <= k -> 0 <= i < len row ->
  PK !! Z.to_nat k = Some row -> floats entry ->
  PK_ready (<[Z.to_nat k := <[Z.to_nat i := entry]> row]> PK) k i.
Proof.
  intros Hk Hi Hrow Hfl. exists (<[Z.to_nat i := entry]> row), entry.
  split; [|split; [|exact Hfl]].
  - apply list_lookup_insert_eq. apply lookup_lt_Some in Hrow. exact Hrow.
  - apply list_lookup_insert_eq. unfold len in Hi. lia.
Qed.

Section DerivativeControlPoints.

Variables (c : Curve.t) (span : Z).

Hypothesis degree_nonneg : 0 <= Curve._degree c.
Hypothesis window : Curve._degree c <= span < len (Curve._control_points c).
Hypothesis knots_after : span + Curve._degree c < len (Curve._knot_vector c).
Hypothesis sorted : spec.nondecreasing (Curve._knot_vector c) = true.
Hypothesis span_nontrivial : spec.nontrivial (Curve._knot_vector c) span = true.

(** The first loop of A3.3 copies the control points of the window. *)
Lemma PK_level_0 :
  exists PK,
    for_ (range 0 (Curve._degree c + 1)) (fun i PK =>
      cp <- getitem (Curve._control_points c) (span - Curve._degree c + i) ;;
      PK0 <- getitem PK 0 ;;
      PK0 <- setitem PK0 i (map Some cp) ;;
      setitem PK 0 PK0)
      (replicateZ (Curve._degree c + 1) (replicateZ (Curve._degree c + 1) (Curve.nones c)))
    = Ok PK
    /\ PK_shape (Curve._degree c + 1) (Curve._degree c + 1) PK
    /\ forall i, 0 <= i <= Curve._degree c -> PK_ready PK 0 i.
Proof using All.
  destruct (for_range_total
              (fun i PK => PK_shape (Curve._degree c + 1) (Curve._degree c + 1) PK
                           /\ forall i', 0 <= i' < i -> PK_ready PK 0 i')
              (fun i PK =>
                 cp <- getitem (Curve._control_points c) (span - Curve._degree c + i) ;;
                 PK0 <- getitem PK 0 ;;
                 PK0 <- setitem PK0 i (map Some cp) ;;
                 setitem PK 0 PK0)
              0 (Curve._degree c + 1))
    with (acc := replicateZ (Curve._degree c + 1)
                   (replicateZ (Curve._degree c + 1) (Curve.nones c)))
    as (PK & E & Hshape & Hready).
  - lia.
  - intros i PK Hi [Hshape Hready].
    destruct (lookup_lt_is_Some_2 (Curve._control_points c)
                (Z.to_nat (span - Curve._degree c + i))) as (cp & Hcp);
      [unfold len in *; lia|].
    rewrite (getitem_Ok _ _ cp) by (lia || exact Hcp). simpl.
    destruct (PK_shape_row _ _ PK 0 Hshape) as (row & Hrow & Hlen); [lia|].
    rewrite (getitem_Ok _ _ row) by (lia || exact Hrow). simpl.
    rewrite setitem_Ok by lia. simpl.
    rewrite setitem_Ok by (destruct Hshape; lia).
    eexists. split; [reflexivity|]. split.
    + apply PK_shape_insert; assumption.
    + intros i' Hi'. destruct (Z.eq_dec i' i) as [->|Hne].
      * apply (PK_ready_insert_same PK 0 i); [lia | lia | exact Hrow | apply floats_points].
      * apply (PK_ready_insert_other PK 0 i 0 i'); try lia; [exact Hrow|].
        apply Hready. lia.
  - split.
    + split; [apply len_replicateZ; lia|].
      unfold replicateZ at 1. apply Forall_replicate. apply len_replicateZ. lia.
    + intros i' Hi'. lia.
  - exists PK. split; [exact E|]. split; [exact Hshape|].
    intros i Hi. apply Hready. lia.
Qed.

(** One entry of a derivative level: the knots it divides by differ. *)
Lemma PK_entry (k i : Z) (elems1 elems2 : list (option Q)) :
  1 <= k <= Curve._degree c -> 0 <= i <= Curve._degree c - k ->
  floats elems1 -> floats elems2 ->
  exists new,
    comprehension (fun e : option Q * option Q =>
      elem1 <- Curve.number e.1 ;;
      elem2 <- Curve.number e.2 ;;
      a <- getitem (Curve._knot_vector c) (span - Curve._degree c + i + Curve._degree c + 1) ;;
      b <- getitem (Curve._knot_vector c) (span - Curve._degree c + i + k) ;;
      q <- fdiv (inject_Z (Curve._degree c - k + 1) * (elem1 - elem2)) (a - b) ;;
      Ok (Some q)) (zip elems1 elems2) = Ok new
    /\ floats new.
Proof using All.
  intros Hk Hi H1 H2.
  destruct (knot_exists (Curve._knot_vector c)
              (span - Curve._degree c + i + Curve._degree c + 1)) as (x & Hx); [lia|].
  destruct (knot_exists (Curve._knot_vector c)
              (span - Curve._degree c + i + k)) as (y & Hy); [lia|].
  assert (Hyx : (y < x)%Q).
  { apply (knots_apart (Curve._degree c) (Curve._knot_vector c) span degree_nonneg
             ltac:(lia) sorted span_nontrivial
             (span - Curve._degree c + i + k)
             (span - Curve._degree c + i + Curve._degree c + 1));
      [lia | lia | exact Hy | exact Hx]. }
  destruct (comprehension_total
              (fun e : option Q * option Q =>
                 elem1 <- Curve.number e.1 ;;
                 elem2 <- Curve.number e.2 ;;
                 a <- getitem (Curve._knot_vector c)
                        (span - Curve._degree c + i + Curve._degree c + 1) ;;
                 b <- getitem (Curve._knot_vector c) (span - Curve._degree c + i + k) ;;
                 q <- fdiv (inject_Z (Curve._degree c - k + 1) * (elem1 - elem2)) (a - b) ;;
                 Ok (Some q)) is_Some (zip elems1 elems2)) as (new & E & Hnew & _).
  - eapply Forall_impl; [apply (Forall_zip _ _ _ _ H1 H2)|].
    intros [e1 e2] [[a ->] [b ->]]. simpl.
    rewrite (getitem_Ok _ _ x) by (lia || exact Hx). simpl.
    rewrite (getitem_Ok _ _ y) by (lia || exact Hy). simpl.
    rewrite fdiv_Ok by lra. simpl.
    eexists. split; [reflexivity | eexists; reflexivity].
  - exists new. split; [exact E | exact Hnew].
Qed.

(** A3.3 returns, with [PK[k][i]] ready for [0 <= k <= degree] and
    [0 <= i <= degree - k]. *)
Lemma derivatives_ctrlpts_Ok :
  exists PK,
    Curve.derivatives_ctrlpts c (Curve._degree c) (span - Curve._degree c) span = Ok PK
    /\ forall k i, 0 <= k <= Curve._degree c -> 0 <= i <= Curve._degree c - k ->
         PK_ready PK k i.
Proof using All.
  unfold Curve.derivatives_ctrlpts. cbv zeta.
  replace (span - (span - Curve._degree c)) with (Curve._degree c) by lia.
  destruct PK_level_0 as (PK0 & E0 & Hshape0 & Hready0).
  rewrite E0. simpl.
  destruct (for_range_total
              (fun k PK => PK_shape (Curve._degree c + 1) (Curve._degree c + 1) PK
                           /\ forall k' i', 0 <= k' < k -> 0 <= i' <= Curve._degree c - k' ->
                                PK_ready PK k' i')
              (fun k PK =>
                 for_ (range 0 (Curve._degree c - k + 1)) (fun i PK =>
                   prev <- getitem PK (k - 1) ;;
                   elems1 <- getitem prev (i + 1) ;;
                   elems2 <- getitem prev i ;;
                   new <- comprehension (fun e : option Q * option Q =>
                            elem1 <- Curve.number e.1 ;;
                            elem2 <- Curve.number e.2 ;;
                            a <- getitem (Curve._knot_vector c)
                                   (span - Curve._degree c + i + Curve._degree c + 1) ;;
                            b <- getitem (Curve._knot_vector c)
                                   (span - Curve._degree c + i + k) ;;
                            q <- fdiv (inject_Z (Curve._degree c - k + 1) * (elem1 - elem2))
                                      (a - b) ;;
                            Ok (Some q)) (zip elems1 elems2) ;;
                   PKk <- getitem PK k ;;
                   PKk <- setitem PKk i new ;;
                   setitem PK k PKk) PK)
              1 (Curve._degree c + 1)) with (acc := PK0) as (PK & E & Hshape & Hready).
  - lia.
  - intros k PK1 Hk [Hshape1 Hready1].
    destruct (for_range_total
                (fun i PK =>
                   PK_shape (Curve._degree c + 1) (Curve._degree c + 1) PK
                   /\ (forall k' i', 0 <= k' < k -> 0 <= i' <= Curve._degree c - k' ->
                         PK_ready PK k' i')
                   /\ forall i', 0 <= i' < i -> PK_ready PK k i')
                (fun i PK =>
                   prev <- getitem PK (k - 1) ;;
                   elems1 <- getitem prev (i + 1) ;;
                   elems2 <- getitem prev i ;;
                   new <- comprehension (fun e : option Q * option Q =>
                            elem1 <- Curve.number e.1 ;;
                            elem2 <- Curve.number e.2 ;;
                            a <- getitem (Curve._knot_vector c)
                                   (span - Curve._degree c + i + Curve._degree c + 1) ;;
                            b <- getitem (Curve._knot_vector c)
                                   (span - Curve._degree c + i + k) ;;
                            q <- fdiv (inject_Z (Curve._degree c - k + 1) * (elem1 - elem2))
                                      (a - b) ;;
                            Ok (Some q)) (zip elems1 elems2) ;;
                   PKk <- getitem PK k ;;
                   PKk <- setitem PKk i new ;;
                   setitem PK k PKk)
                0 (Curve._degree c - k + 1)) with (acc := PK1)
      as (PK2 & E2 & Hshape2 & Hlow2 & Hcur2).
    + lia.
    + intros i PK Hi (Hshape & Hlow & Hcur).
      destruct (PK_ready_get PK (k - 1) (i + 1)) as (prev & elems1 & Eprev & E1 & Hprev & _ & Hfl1);
        [apply Hlow; lia | lia | lia |].
      destruct (PK_ready_get PK (k - 1) i) as (prev' & elems2 & _ & E2 & Hprev' & _ & Hfl2);
        [apply Hlow; lia | lia | lia |].
      assert (prev' = prev) as -> by congruence.
      rewrite Eprev. simpl. rewrite E1. simpl. rewrite E2. simpl.
      destruct (PK_entry k i elems1 elems2) as (new & Enew & Hnew);
        [lia | lia | exact Hfl1 | exact Hfl2 |].
      rewrite Enew. simpl.
      destruct (PK_shape_row _ _ PK k Hshape) as (row & Hrow & Hlen); [lia|].
      rewrite (getitem_Ok _ _ row) by (lia || exact Hrow). simpl.
      rewrite setitem_Ok by lia. simpl.
      rewrite setitem_Ok by (destruct Hshape; lia).
      eexists. split; [reflexivity|]. split; [|split].
      * apply PK_shape_insert; assumption.
      * intros k' i' Hk' Hi'.
        apply (PK_ready_insert_other PK k i k' i'); try lia; [exact Hrow|].
        apply Hlow; lia.
      * intros i' Hi'. destruct (Z.eq_dec i' i) as [->|Hne].
        -- apply (PK_ready_insert_same PK k i); [lia | lia | exact Hrow | exact Hnew].
        -- apply (PK_ready_insert_other PK k i k i'); try lia; [exact Hrow|].
           apply Hcur. lia.
    + split; [exact Hshape1|]. split; [exact Hready1|]. intros i' Hi'. lia.
    + exists PK2. split; [exact E2|]. split; [exact Hshape2|].
      intros k' i' Hk' Hi'. destruct (Z.eq_dec k' k) as [->|Hne].
      * apply Hcur2. lia.
      * apply Hlow2; lia.
  - split; [exact Hshape0|]. intros k' i' Hk' Hi'.
    assert (k' = 0) as -> by lia. apply Hready0. lia.
  - exists PK. split; [exact E|]. intros k i Hk Hi. apply Hready; lia.
Qed.

End DerivativeControlPoints.

(** [derivatives]: the call returns, and the entries above the degree are
    zero vectors. *)
Lemma derivatives_above_degree_A34 (U : utilities.t) (c : Curve.t) (u : Q) (order span : Z) :
  evaluable U c u span -> tabulated U c u span ->
  Curve._degree c < order ->
  exists CK, Curve.derivatives U c u order = Ok CK /\ zero_above_degree c order CK.
Proof.
  intros (Hvars & Huv & Hunit & Hd & Hspan & Hwin & Hkn & Hsorted & Hnt)
         (_ & (bfuns & Eall & Hall)) Horder.
  unfold Curve.derivatives. rewrite Hvars. simpl. rewrite Huv. simpl.
  destruct (CK_init_Ok c order) as (CK0 & ECK0 & HCK0); [lia|].
  rewrite ECK0. simpl. rewrite Hspan. simpl. rewrite Eall. simpl.
  rewrite Z.min_l by lia.
  destruct (derivatives_ctrlpts_Ok c span Hd Hwin Hkn Hsorted Hnt) as (PK & EPK & HPK).
  rewrite EPK. simpl.
  apply (CK_loop_Ok c order (fun k => Curve._degree c - k + 1));
    [lia | exact HCK0 | intros; lia |].
  intros k j CK entry Hk Hj Hentry Hfl.
  rewrite (getitem_Ok _ _ entry) by (lia || exact Hentry). simpl.
  destruct (PK_ready_get PK k j) as (row & drv & Erow & Edrv & _ & _ & Hdrv);
    [apply HPK; lia | lia | lia |].
  rewrite Erow. simpl. rewrite Edrv. simpl.
  destruct (table_inv _ _ bfuns j (Curve._degree c - k) Hall) as (b & Eb); [lia | lia |].
  destruct (axpy_entry_Ok _ b entry drv Eb Hfl Hdrv) as (new & Enew & Hnew).
  rewrite Enew. simpl.
  exists new. split; [|exact Hnew].
  apply setitem_Ok. apply lookup_lt_Some in Hentry. unfold len. lia.
Qed.

(** ** The tables of basis values (A2.2 for every degree, A2.3) *)

(** A step of a computation that returns, followed by one that returns. *)
Lemma bind_total {A B} (m : result A) (f : A -> result B) (P : A -> Prop) (R : B -> Prop) :
  (exists a, m = Ok a /\ P a) ->
  (forall a, P a -> exists b, f a = Ok b /\ R b) ->
  exists b, Py.bind m f = Ok b /\ R b.
Proof. intros (a & -> & Ha) Hf. simpl. apply Hf, Ha. Qed.

Lemma for_range_empty {A} (body : Z -> A -> result A) (a b : Z) (acc : A) :
  b <= a -> for_ (range a b) body acc = Ok acc.
Proof. intros H. rewrite range_nil by exact H. reflexivity. Qed.

(** A loop whose range may be empty. *)
Lemma for_range_total' {A} (P : A -> Prop) (body : Z -> A -> result A) (a b : Z) :
  (forall i acc, a <= i < b -> P acc -> exists acc', body i acc = Ok acc' /\ P acc') ->
  forall acc, P acc -> exists acc', for_ (range a b) body acc = Ok acc' /\ P acc'.
Proof.
  intros Hbody acc Hacc. destruct (Z_le_gt_dec a b) as [Hab|Hab].
  - apply (for_range_total (fun _ => P) body a b Hab); [|exact Hacc].
    intros i acc0 Hi H0. apply Hbody; assumption.
  - rewrite for_range_empty by lia. eauto.
Qed.

Lemma table_true {A} (rows cols : Z) (t : list (list A)) :
  table rows cols t = true <-> rows <= len t /\ Forall (fun row => cols <= len row) t.
Proof.
  unfold table. rewrite andb_true_iff, Z.leb_le, forallb_forall, Forall_forall.
  split; intros [H1 H2]; (split; [exact H1|]); intros row Hrow.
  - apply Z.leb_le, H2, list_elem_of_In, Hrow.
  - apply Z.leb_le, H2, list_elem_of_In, Hrow.
Qed.

Lemma table_replicateZ {A} (rows cols : Z) (x : A) :
  0 <= rows -> 0 <= cols -> table rows cols (replicateZ rows (replicateZ cols x)) = true.
Proof.
  intros Hr Hc. apply table_true. split.
  - rewrite len_replicateZ by exact Hr. lia.
  - unfold replicateZ at 1. apply Forall_replicate. rewrite len_replicateZ by exact Hc. lia.
Qed.

Lemma get2_Ok {A} (rows cols : Z) (t : list (list A)) (i j : Z) :
  table rows cols t = true -> 0 <= i < rows -> 0 <= j < cols ->
  exists x, get2 t i j = Ok x.
Proof. apply table_inv. Qed.

(** [M[i][j] = x] on a table: the table keeps its shape, holds [x] at
    [i], [j] and what it held elsewhere. *)
Lemma set2_Ok {A} (rows cols : Z) (t : list (list A)) (i j : Z) (x : A) :
  table rows cols t = true -> 0 <= i < rows -> 0 <= j < cols ->
  exists t', set2 t i j x = Ok t'
    /\ table rows cols t' = true
    /\ get2 t' i j = Ok x
    /\ forall i' j', 0 <= i' -> 0 <= j' -> i' <> i \/ j' <> j ->
         get2 t' i' j' = get2 t i' j'.
Proof.
  intros Ht Hi Hj. pose proof Ht as Ht0. apply table_true in Ht as [Hrows Hcols].
  destruct (lookup_lt_is_Some_2 t (Z.to_nat i)) as (row & Hrow); [unfold len in *; lia|].
  assert (Hlen : cols <= len row).
  { eapply (proj1 (Forall_forall _ _) Hcols). eapply list_elem_of_lookup_2. exact Hrow. }
  exists (<[Z.to_nat i := <[Z.to_nat j := x]> row]> t).
  split; [|split; [|split]].
  - unfold set2. rewrite (getitem_Ok _ _ row) by (lia || exact Hrow). simpl.
    rewrite setitem_Ok by lia. simpl. apply setitem_Ok. lia.
  - apply table_true. split.
    + unfold len. rewrite length_insert. exact Hrows.
    + apply Forall_insert; [exact Hcols|]. unfold len. rewrite length_insert. exact Hlen.
  - unfold get2. rewrite (getitem_Ok _ _ (<[Z.to_nat j := x]> row)).
    + simpl. apply getitem_Ok; [lia|]. apply list_lookup_insert_eq. unfold len in *. lia.
    + lia.
    + apply list_lookup_insert_eq. unfold len in *. lia.
  - intros i' j' Hi' Hj' Hne. unfold get2, getitem.
    rewrite length_insert.
    destruct (index (length t) i') as [n|e] eqn:En; [|reflexivity].
    apply index_nonneg_inv in En as [-> Hlt]; [|exact Hi'].
    destruct (Z.eq_dec i' i) as [->|Hii].
    + rewrite list_lookup_insert_eq by (unfold len in *; lia). rewrite Hrow. simpl.
      rewrite length_insert.
      destruct (index (length row) j') as [m|e] eqn:Em; [|reflexivity].
      apply index_nonneg_inv in Em as [-> Hlt']; [|exact Hj'].
      rewrite list_lookup_insert_ne by lia. reflexivity.
    + rewrite list_lookup_insert_ne by lia. reflexivity.
Qed.

(** *** Finite sums *)

Lemma sigma_nil (a b : Z) (f : Z -> Q) : b <= a -> sigma a b f = 0%Q.
Proof. intros H. unfold sigma. rewrite range_nil by exact H. reflexivity. Qed.

Lemma sigma_cons (a b : Z) (f : Z -> Q) :
  a < b -> sigma a b f = (f a + sigma (a + 1) b f)%Q.
Proof. intros H. unfold sigma. rewrite range_cons by exact H. reflexivity. Qed.

(** Induction over the length of the range of a sum. *)
Lemma range_induction (P : Z -> Z -> Prop) :
  (forall a b, b <= a -> P a b) ->
  (forall a b, a < b -> P (a + 1) b -> P a b) ->
  forall a b, P a b.
Proof.
  intros Hnil Hcons a b. remember (Z.to_nat (b - a)) as n eqn:Hn.
  revert a Hn. induction n as [|n IH]; intros a Hn.
  - apply Hnil. lia.
  - apply Hcons; [lia|]. apply IH. lia.
Qed.

Lemma sigma_ext (a b : Z) (f g : Z -> Q) :
  (forall i, a <= i < b -> (f i == g i)%Q) -> (sigma a b f == sigma a b g)%Q.
Proof.
  revert a b. apply (range_induction (fun a b => _ -> _)).
  - intros a b H _. rewrite !sigma_nil by exact H. reflexivity.
  - intros a b H IH Hfg. rewrite (sigma_cons a b f), (sigma_cons a b g) by exact H.
    rewrite Hfg by lia. rewrite IH; [reflexivity|]. intros i Hi. apply Hfg. lia.
Qed.

Lemma sigma_zero (a b : Z) (f : Z -> Q) :
  (forall i, a <= i < b -> (f i == 0)%Q) -> (sigma a b f == 0)%Q.
Proof.
  revert a b. apply (range_induction (fun a b => _ -> _)).
  - intros a b H _. rewrite sigma_nil by exact H. reflexivity.
  - intros a b H IH Hf. rewrite sigma_cons by exact H.
    rewrite Hf by lia. rewrite IH; [ring|]. intros i Hi. apply Hf. lia.
Qed.

Lemma sigma_scale (a b : Z) (c : Q) (f : Z -> Q) :
  (sigma a b (fun i => c * f i) == c * sigma a b f)%Q.
Proof.
  revert a b. apply range_induction.
  - intros a b H. rewrite !sigma_nil by exact H. ring.
  - intros a b H IH. rewrite (sigma_cons a b), (sigma_cons a b f) by exact H. rewrite IH. ring.
Qed.

Lemma sigma_plus (a b : Z) (f g : Z -> Q) :
  (sigma a b (fun i => f i + g i) == sigma a b f + sigma a b g)%Q.
Proof.
  revert a b. apply range_induction.
  - intros a b H. rewrite !sigma_nil by exact H. ring.
  - intros a b H IH.
    rewrite (sigma_cons a b), (sigma_cons a b f), (sigma_cons a b g) by exact H.
    rewrite IH. ring.
Qed.

Lemma sigma_split (a m b : Z) (f : Z -> Q) :
  a <= m <= b -> (sigma a b f == sigma a m f + sigma m b f)%Q.
Proof.
  revert a m. apply (range_induction (fun a m => a <= m <= b -> _)).
  - intros a m H Hm. assert (m = a) as -> by lia. rewrite (sigma_nil a a) by lia. ring.
  - intros a m H IH Hm. rewrite (sigma_cons a b), (sigma_cons a m) by lia.
    rewrite IH by lia. ring.
Qed.

Lemma sigma_snoc (a b : Z) (f : Z -> Q) :
  a <= b -> (sigma a (b + 1) f == sigma a b f + f b)%Q.
Proof.
  intros H. rewrite (sigma_split a b (b + 1)) by lia.
  rewrite (sigma_cons b (b + 1)) by lia. rewrite (sigma_nil (b + 1)) by lia. ring.
Qed.

(** A sum whose terms are 0 outside [a' <= i < b']. *)
Lemma sigma_trim (a b a' b' : Z) (f : Z -> Q) :
  a <= a' <= b' -> b' <= b ->
  (forall i, a <= i < a' \/ b' <= i < b -> (f i == 0)%Q) ->
  (sigma a b f == sigma a' b' f)%Q.
Proof.
  intros Ha Hb Hf.
  rewrite (sigma_split a a' b) by lia. rewrite (sigma_split a' b' b) by lia.
  rewrite (sigma_zero a a') by (intros; apply Hf; lia).
  rewrite (sigma_zero b' b) by (intros; apply Hf; lia). ring.
Qed.

Lemma sigma_single (a b m : Z) (f : Z -> Q) :
  a <= m < b -> (forall i, a <= i < b -> i <> m -> (f i == 0)%Q) ->
  (sigma a b f == f m)%Q.
Proof.
  intros Hm Hf. rewrite (sigma_trim a b m (m + 1)); [| lia | lia |].
  - rewrite sigma_cons by lia. rewrite sigma_nil by lia. ring.
  - intros i Hi. apply Hf; lia.
Qed.

Lemma sigma_exchange (a b c d : Z) (f : Z -> Z -> Q) :
  (sigma a b (fun i => sigma c d (fun j => f i j))
   == sigma c d (fun j => sigma a b (fun i => f i j)))%Q.
Proof.
  revert a b. apply range_induction.
  - intros a b H. rewrite sigma_nil by exact H.
    rewrite sigma_zero; [reflexivity|]. intros j _. rewrite sigma_nil by exact H. reflexivity.
  - intros a b H IH. rewrite sigma_cons by exact H. rewrite IH.
    rewrite <- sigma_plus. apply sigma_ext. intros j _.
    rewrite (sigma_cons a b) by exact H. reflexivity.
Qed.

(** *** The reference values *)

Lemma K_lookup (knot_vector : list Q) (i : Z) (x : Q) :
  0 <= i -> knot_vector !! Z.to_nat i = Some x -> K knot_vector i = x.
Proof.
  intros Hi Hx. unfold K, spec.knot.
  destruct (Z.leb_spec 0 i); [|lia]. rewrite Hx. reflexivity.
Qed.

Lemma Nref_step (knot_vector : list Q) (span : Z) (u : Q) (j r : Z) :
  1 <= j ->
  Nref knot_vector span u (Z.to_nat j) r
  = ((if (0 <? r) && (r <=? j)
      then Lt knot_vector span u (j - r + 1)
           * (Nref knot_vector span u (Z.to_nat (j - 1)) (r - 1)
              / D knot_vector span u j (r - 1))
      else 0)
     + (if (0 <=? r) && (r <? j)
        then Rt knot_vector span u (r + 1)
             * (Nref knot_vector span u (Z.to_nat (j - 1)) r / D knot_vector span u j r)
        else 0))%Q.
Proof.
  intros Hj. replace (Z.to_nat j) with (S (Z.to_nat (j - 1))) by lia.
  cbn [Nref]. replace (Z.of_nat (S (Z.to_nat (j - 1)))) with j by lia. reflexivity.
Qed.

Lemma Aref_step (degree : Z) (knot_vector : list Q) (span : Z) (u : Q) (k r j : Z) :
  1 <= k ->
  Aref degree knot_vector span u (Z.to_nat k) r j
  = ((Aref degree knot_vector span u (Z.to_nat (k - 1)) r j
      - Aref degree knot_vector span u (Z.to_nat (k - 1)) r (j - 1))
     / D knot_vector span u (degree - k + 1) (r - k + j))%Q.
Proof.
  intros Hk. replace (Z.to_nat k) with (S (Z.to_nat (k - 1))) by lia.
  cbn [Aref]. replace (Z.of_nat (S (Z.to_nat (k - 1)))) with k by lia.
  replace (degree - Z.of_nat (Z.to_nat (k - 1))) with (degree - k + 1) by lia. reflexivity.
Qed.

(** The coefficients vanish outside [0 <= j <= k]. *)
Lemma Aref_outside (degree : Z) (knot_vector : list Q) (span : Z) (u : Q) (k : nat) (r j : Z) :
  j < 0 \/ Z.of_nat k < j -> (Aref degree knot_vector span u k r j == 0)%Q.
Proof.
  revert j. induction k as [|k IH]; intros j Hj.
  - cbn [Aref]. destruct (Z.eqb_spec j 0); [lia | reflexivity].
  - cbn [Aref]. rewrite (IH j), (IH (j - 1)) by lia. unfold Qdiv. ring.
Qed.

Lemma Fk_step (degree k : Z) :
  1 <= k -> Fk degree (Z.to_nat k) = (Fk degree (Z.to_nat (k - 1)) * inject_Z (degree - k + 1))%Q.
Proof.
  intros Hk. replace (Z.to_nat k) with (S (Z.to_nat (k - 1))) by lia.
  cbn [Fk]. replace (degree - Z.of_nat (Z.to_nat (k - 1))) with (degree - k + 1) by lia.
  reflexivity.
Qed.

Lemma cell_get (M : list (list Q)) (i j : Z) (x : Q) :
  cell M i j x -> exists y, get2 M i j = Ok y /\ (y == x)%Q.
Proof. intros H. exact H. Qed.

Lemma cell_frame (M M' : list (list Q)) (i j : Z) (x : Q) :
  get2 M' i j = get2 M i j -> cell M i j x -> cell M' i j x.
Proof. intros E (y & Hy & Hx). exists y. rewrite E. auto. Qed.

Section BasisValues.

Variables (degree : Z) (knot_vector : list Q) (span : Z) (u : Q).

Hypothesis degree_nonneg : 0 <= degree.
Hypothesis span_low : degree <= span.
Hypothesis span_high : span + degree < len knot_vector.
Hypothesis sorted : spec.nondecreasing knot_vector = true.
Hypothesis span_nontrivial : spec.nontrivial knot_vector span = true.

Lemma right_value (j : Z) :
  1 <= j <= degree -> spec.right knot_vector span u j = Ok (Rt knot_vector span u j).
Proof using degree_nonneg span_low span_high.
  intros Hj.
  destruct (right_Ok degree knot_vector span u degree_nonneg span_low span_high j Hj)
    as (x & Hx & ->).
  unfold Rt. rewrite (K_lookup _ _ x) by (lia || exact Hx). reflexivity.
Qed.

Lemma left_value (j : Z) :
  1 <= j <= degree -> spec.left knot_vector span u j = Ok (Lt knot_vector span u j).
Proof using degree_nonneg span_low span_high.
  intros Hj.
  destruct (left_Ok degree knot_vector span u degree_nonneg span_low span_high j Hj)
    as (x & Hx & ->).
  unfold Lt. rewrite (K_lookup _ _ x) by (lia || exact Hx). reflexivity.
Qed.

(** The knot differences of the lower triangle are positive. *)
Lemma D_positive (j r : Z) : 0 <= r < j -> j <= degree -> (0 < D knot_vector span u j r)%Q.
Proof using All.
  intros Hr Hj.
  destruct (knot_exists knot_vector (span + (r + 1))) as (x & Hx); [lia|].
  destruct (knot_exists knot_vector (span + 1 - (j - r))) as (y & Hy); [lia|].
  assert (Hxy : (y < x)%Q).
  { apply (knots_apart degree knot_vector span degree_nonneg span_low sorted span_nontrivial
             (span + 1 - (j - r)) (span + (r + 1))); [lia | lia | exact Hy | exact Hx]. }
  unfold D, Rt, Lt.
  rewrite (K_lookup _ _ x) by (lia || exact Hx).
  rewrite (K_lookup _ _ y) by (lia || exact Hy). lra.
Qed.

(** One round of the inner loop of the first part of A2.3 stores a knot
    difference below the diagonal and a basis value above it. *)
Lemma ndu_step_value (j r : Z) (ndu : list (list Q)) (saved : Q) :
  1 <= j <= degree -> 0 <= r < j ->
  table (degree + 1) (degree + 1) ndu = true ->
  ndu_filled knot_vector span u ndu j r ->
  (saved == if 0 <? r
            then Lt knot_vector span u (j - r + 1)
                 * (Nref knot_vector span u (Z.to_nat (j - 1)) (r - 1)
                    / D knot_vector span u j (r - 1))
            else 0)%Q ->
  exists acc, spec.ndu_step knot_vector span u j r (ndu, saved) = Ok acc
    /\ table (degree + 1) (degree + 1) acc.1 = true
    /\ ndu_filled knot_vector span u acc.1 j (r + 1)
    /\ (acc.2 == Lt knot_vector span u (j - r)
                 * (Nref knot_vector span u (Z.to_nat (j - 1)) r
                    / D knot_vector span u j r))%Q.
Proof using All.
  intros Hj Hr Hndu Hfill Hsaved.
  pose proof (D_positive j r Hr ltac:(lia)) as HD.
  unfold spec.ndu_step. rewrite (right_value (r + 1)) by lia. simpl.
  rewrite (left_value (j - r)) by lia. simpl.
  fold (D knot_vector span u j r).
  destruct (set2_Ok _ _ ndu j r (D knot_vector span u j r) Hndu)
    as (ndu1 & -> & H1 & Hjr & Hframe1); [lia | lia |]. simpl.
  destruct (Hfill (j - 1) r) as [_ Hup]; [lia | lia |].
  destruct (Hup ltac:(lia)) as (x & Ex & Hx).
  rewrite Hframe1 by lia. rewrite Ex. simpl. rewrite Hjr. simpl.
  rewrite fdiv_Ok by lra. simpl.
  destruct (set2_Ok _ _ ndu1 r j
              (saved + Rt knot_vector span u (r + 1) * (x / D knot_vector span u j r))%Q H1)
    as (ndu2 & -> & H2 & Hrj & Hframe2); [lia | lia |].
  eexists. split; [reflexivity|]. simpl. split; [exact H2|]. split.
  - intros j' r' Hr' Hwhere. split; intros Hside.
    + apply (cell_frame ndu1); [apply Hframe2; lia|].
      destruct (Z.eq_dec j' j) as [->|Hjj]; [destruct (Z.eq_dec r' r) as [->|Hrr]|].
      * exists (D knot_vector span u j r). split; [exact Hjr | reflexivity].
      * apply (cell_frame ndu); [apply Hframe1; lia|]. apply Hfill; lia.
      * apply (cell_frame ndu); [apply Hframe1; lia|]. apply Hfill; lia.
    + destruct (Z.eq_dec j' j) as [->|Hjj]; [destruct (Z.eq_dec r' r) as [->|Hrr]|].
      * eexists. split; [exact Hrj|].
        rewrite (Nref_step knot_vector span u j r) by lia.
        rewrite Hsaved, Hx.
        destruct (0 <? r) eqn:E0; destruct (Z.leb_spec r j); try lia;
          destruct (Z.leb_spec 0 r); try lia; destruct (Z.ltb_spec r j); try lia;
          simpl; reflexivity.
      * apply (cell_frame ndu1); [apply Hframe2; lia|].
        apply (cell_frame ndu); [apply Hframe1; lia|]. apply Hfill; lia.
      * apply (cell_frame ndu1); [apply Hframe2; lia|].
        apply (cell_frame ndu); [apply Hframe1; lia|]. apply Hfill; lia.
  - rewrite Hx. reflexivity.
Qed.

(** The first part of A2.3 returns the table [ndu]: the knot differences
    below the diagonal, the basis values of every degree on and above it. *)
Lemma ndu_table_value :
  exists ndu, spec.ndu_table degree knot_vector span u = Ok ndu
    /\ table (degree + 1) (degree + 1) ndu = true
    /\ ndu_filled knot_vector span u ndu (degree + 1) 0.
Proof using All.
  unfold spec.ndu_table.
  destruct (set2_Ok (degree + 1) (degree + 1)
              (replicateZ (degree + 1) (replicateZ (degree + 1) 0%Q)) 0 0 1%Q)
    as (ndu0 & -> & H0 & H00 & _); [apply table_replicateZ; lia | lia | lia |].
  simpl.
  apply (for_range_total
           (fun j ndu => table (degree + 1) (degree + 1) ndu = true
                         /\ ndu_filled knot_vector span u ndu j 0)
           _ 1 (degree + 1)); [lia | | ].
  - intros j ndu Hj (Hndu & Hfill).
    destruct (for_range_total
                (fun r (acc : list (list Q) * Q) =>
                   table (degree + 1) (degree + 1) acc.1 = true
                   /\ ndu_filled knot_vector span u acc.1 j r
                   /\ (acc.2 == if 0 <? r
                                then Lt knot_vector span u (j - r + 1)
                                     * (Nref knot_vector span u (Z.to_nat (j - 1)) (r - 1)
                                        / D knot_vector span u j (r - 1))
                                else 0)%Q)
                (spec.ndu_step knot_vector span u j) 0 j) with (acc := (ndu, 0%Q))
      as (acc & -> & Hacc & Hfill' & Hsaved); [lia | | |].
    + intros r [ndu' saved] Hr (H' & Hl' & Hs'). simpl in H', Hl', Hs'.
      destruct (ndu_step_value j r ndu' saved) as (acc & E & Ha & Hf & Hs);
        [lia | lia | exact H' | exact Hl' | exact Hs' |].
      exists acc. split; [exact E|]. split; [exact Ha|]. split; [exact Hf|].
      rewrite Hs. destruct (Z.ltb_spec 0 (r + 1)); [|lia].
      replace (j - (r + 1) + 1) with (j - r) by lia.
      replace (r + 1 - 1) with r by lia. reflexivity.
    + split; [exact Hndu|]. split; [exact Hfill | reflexivity].
    + simpl.
      destruct (set2_Ok _ _ acc.1 j j acc.2 Hacc) as (ndu' & -> & H' & Hjj & Hframe);
        [lia | lia |].
      exists ndu'. split; [reflexivity|]. split; [exact H'|].
      intros j' r' Hr' Hwhere. split; intros Hside.
      * apply (cell_frame acc.1); [apply Hframe; lia|]. apply Hfill'; lia.
      * destruct (Z.eq_dec j' j) as [->|Hne]; [destruct (Z.eq_dec r' j) as [->|Hrr]|].
        -- eexists. split; [exact Hjj|]. rewrite Hsaved.
           rewrite (Nref_step knot_vector span u j j) by lia.
           destruct (Z.ltb_spec 0 j); [|lia]. destruct (Z.leb_spec j j); [|lia].
           destruct (Z.ltb_spec j j); [lia|]. destruct (Z.leb_spec 0 j); [|lia].
           simpl. ring.
        -- apply (cell_frame acc.1); [apply Hframe; lia|]. apply Hfill'; lia.
        -- apply (cell_frame acc.1); [apply Hframe; lia|]. apply Hfill'; lia.
  - split; [exact H0|]. intros j' r' Hr' Hwhere. split; intros Hside; [lia|].
    assert (j' = 0) as -> by lia. assert (r' = 0) as -> by lia.
    exists 1%Q. split; [exact H00 | reflexivity].
Qed.

(** One round of the inner loop of A2.2, on the values. *)
Lemma basis_step_value (q j r : Z) (N : list Q) (saved : Q) :
  1 <= j <= q -> q <= degree -> 0 <= r < j -> len N = q + 1 ->
  (forall i, 0 <= i < r ->
     exists y, N !! Z.to_nat i = Some y /\ (y == Nref knot_vector span u (Z.to_nat j) i)%Q) ->
  (forall i, r <= i <= j - 1 ->
     exists y, N !! Z.to_nat i = Some y
               /\ (y == Nref knot_vector span u (Z.to_nat (j - 1)) i)%Q) ->
  (saved == if 0 <? r
            then Lt knot_vector span u (j - r + 1)
                 * (Nref knot_vector span u (Z.to_nat (j - 1)) (r - 1)
                    / D knot_vector span u j (r - 1))
            else 0)%Q ->
  exists acc, spec.basis_step knot_vector span u j r (N, saved) = Ok acc
    /\ len acc.1 = q + 1
    /\ (forall i, 0 <= i < r + 1 ->
          exists y, acc.1 !! Z.to_nat i = Some y
                    /\ (y == Nref knot_vector span u (Z.to_nat j) i)%Q)
    /\ (forall i, r + 1 <= i <= j - 1 ->
          exists y, acc.1 !! Z.to_nat i = Some y
                    /\ (y == Nref knot_vector span u (Z.to_nat (j - 1)) i)%Q)
    /\ (acc.2 == Lt knot_vector span u (j - r)
                 * (Nref knot_vector span u (Z.to_nat (j - 1)) r
                    / D knot_vector span u j r))%Q.
Proof using All.
  intros Hj Hq Hr Hlen Hnew Hold Hsaved.
  pose proof (D_positive j r Hr ltac:(lia)) as HD.
  destruct (Hold r) as (x & Ex & Hx); [lia|].
  unfold spec.basis_step.
  rewrite (getitem_Ok _ _ x) by (lia || exact Ex). simpl.
  rewrite (right_value (r + 1)) by lia. simpl.
  rewrite (left_value (j - r)) by lia. simpl.
  fold (D knot_vector span u j r).
  rewrite fdiv_Ok by lra. simpl.
  rewrite setitem_Ok by lia. simpl.
  eexists. split; [reflexivity|]. simpl. split; [|split; [|split]].
  - unfold len in *. rewrite length_insert. exact Hlen.
  - intros i Hi. destruct (Z.eq_dec i r) as [->|Hne].
    + eexists. split; [apply list_lookup_insert_eq; unfold len in *; lia|].
      rewrite (Nref_step knot_vector span u j r) by lia.
      rewrite Hsaved, Hx.
      destruct (0 <? r) eqn:E0; destruct (Z.leb_spec r j); try lia;
        destruct (Z.leb_spec 0 r); try lia; destruct (Z.ltb_spec r j); try lia;
        simpl; reflexivity.
    + rewrite list_lookup_insert_ne by lia. apply Hnew. lia.
  - intros i Hi. rewrite list_lookup_insert_ne by lia. apply Hold. lia.
  - rewrite Hx. reflexivity.
Qed.

(** A2.2 returns the basis values of degree [q]. *)
Lemma basis_functions_value (q : Z) :
  0 <= q <= degree ->
  exists N, spec.basis_functions q knot_vector span u = Ok N
    /\ len N = q + 1
    /\ forall i, 0 <= i <= q ->
         exists y, N !! Z.to_nat i = Some y
                   /\ (y == Nref knot_vector span u (Z.to_nat q) i)%Q.
Proof using All.
  intros Hq. unfold spec.basis_functions.
  destruct (for_range_total
              (fun j N => len N = q + 1
                 /\ forall i, 0 <= i <= j - 1 ->
                      exists y, N !! Z.to_nat i = Some y
                                /\ (y == Nref knot_vector span u (Z.to_nat (j - 1)) i)%Q)
              (spec.basis_row knot_vector span u) 1 (q + 1))
    with (acc := 1%Q :: replicateZ q 0%Q) as (N & EN & HlenN & HN).
  - lia.
  - intros j N Hj (Hlen & Hval). unfold spec.basis_row.
    destruct (for_range_total
                (fun r (acc : list Q * Q) =>
                   len acc.1 = q + 1
                   /\ (forall i, 0 <= i < r ->
                         exists y, acc.1 !! Z.to_nat i = Some y
                                   /\ (y == Nref knot_vector span u (Z.to_nat j) i)%Q)
                   /\ (forall i, r <= i <= j - 1 ->
                         exists y, acc.1 !! Z.to_nat i = Some y
                                   /\ (y == Nref knot_vector span u (Z.to_nat (j - 1)) i)%Q)
                   /\ (acc.2 == if 0 <? r
                                then Lt knot_vector span u (j - r + 1)
                                     * (Nref knot_vector span u (Z.to_nat (j - 1)) (r - 1)
                                        / D knot_vector span u j (r - 1))
                                else 0)%Q)
                (spec.basis_step knot_vector span u j) 0 j) with (acc := (N, 0%Q))
      as (acc & -> & Hlen' & Hnew & _ & Hsaved); [lia | | |].
    + intros r [N' saved] Hr (H1 & H2 & H3 & H4). simpl in H1, H2, H3, H4.
      destruct (basis_step_value q j r N' saved) as (acc & E & Ha & Hb & Hc & Hd);
        [lia | lia | lia | exact H1 | exact H2 | exact H3 | exact H4 |].
      exists acc. split; [exact E|]. split; [exact Ha|]. split; [exact Hb|].
      split; [exact Hc|].
      rewrite Hd. destruct (Z.ltb_spec 0 (r + 1)); [|lia].
      replace (j - (r + 1) + 1) with (j - r) by lia.
      replace (r + 1 - 1) with r by lia. reflexivity.
    + simpl. split; [exact Hlen|]. split; [intros; lia|]. split; [exact Hval | reflexivity].
    + simpl. rewrite setitem_Ok by lia.
      eexists. split; [reflexivity|]. split.
      * unfold len in *. rewrite length_insert. exact Hlen'.
      * intros i Hi. replace (j + 1 - 1) with j by lia.
        destruct (Z.eq_dec i j) as [->|Hne].
        -- eexists. split; [apply list_lookup_insert_eq; unfold len in *; lia|].
           rewrite Hsaved. rewrite (Nref_step knot_vector span u j j) by lia.
           destruct (Z.ltb_spec 0 j); [|lia]. destruct (Z.leb_spec j j); [|lia].
           destruct (Z.ltb_spec j j); [lia|]. destruct (Z.leb_spec 0 j); [|lia].
           simpl. ring.
        -- rewrite list_lookup_insert_ne by lia. apply Hnew. lia.
  - split.
    + unfold len. simpl. unfold replicateZ. rewrite length_replicate. lia.
    + intros i Hi. assert (i = 0) as -> by lia. exists 1%Q. split; reflexivity.
  - exists N. split; [exact EN|]. split; [exact HlenN|].
    intros i Hi. replace (q + 1 - 1) with q in HN by lia. apply HN. lia.
Qed.

(** [basis_functions_all] returns the basis values of every degree. *)
Lemma basis_functions_all_value :
  exists bfuns, spec.basis_functions_all degree knot_vector span u = Ok bfuns
    /\ table (degree + 1) (degree + 1) bfuns = true
    /\ forall k i, 0 <= k <= i -> i <= degree ->
         cell bfuns k i (Nref knot_vector span u (Z.to_nat i) k).
Proof using All.
  unfold spec.basis_functions_all.
  destruct (for_range_total
              (fun i N => table (degree + 1) (degree + 1) N = true
                 /\ forall k i', 0 <= k <= i' -> i' < i ->
                      cell N k i' (Nref knot_vector span u (Z.to_nat i') k))
              (fun i N =>
                 bfuns <- spec.basis_functions i knot_vector span u ;;
                 for_ (range 0 (i + 1)) (fun k N =>
                   b <- getitem bfuns k ;; set2 N k i b) N)
              0 (degree + 1))
    with (acc := replicateZ (degree + 1) (replicateZ (degree + 1) 0%Q))
    as (bfuns & E & Ht & Hv).
  - lia.
  - intros i N Hi (HN & Hval).
    destruct (basis_functions_value i) as (bf & -> & Hlen & Hbf); [lia|]. simpl.
    destruct (for_range_total
                (fun k N => table (degree + 1) (degree + 1) N = true
                   /\ (forall k' i', 0 <= k' <= i' -> i' < i ->
                         cell N k' i' (Nref knot_vector span u (Z.to_nat i') k'))
                   /\ (forall k', 0 <= k' < k ->
                         cell N k' i (Nref knot_vector span u (Z.to_nat i) k')))
                (fun k N => b <- getitem bf k ;; set2 N k i b) 0 (i + 1))
      with (acc := N) as (N' & -> & HN' & Hold & Hnew).
    + lia.
    + intros k N1 Hk (H1 & H2 & H3).
      destruct (Hbf k) as (b & Eb & Hb); [lia|].
      rewrite (getitem_Ok _ _ b) by (lia || exact Eb). simpl.
      destruct (set2_Ok _ _ N1 k i b H1) as (N2 & -> & HN2 & Hki & Hframe); [lia | lia |].
      exists N2. split; [reflexivity|]. split; [exact HN2|]. split.
      * intros k' i' Hk' Hi'. apply (cell_frame N1); [apply Hframe; lia|]. apply H2; lia.
      * intros k' Hk'. destruct (Z.eq_dec k' k) as [->|Hne].
        -- exists b. split; [exact Hki | exact Hb].
        -- apply (cell_frame N1); [apply Hframe; lia|]. apply H3; lia.
    + split; [exact HN|]. split; [exact Hval|]. intros; lia.
    + exists N'. split; [reflexivity|]. split; [exact HN'|].
      intros k i' Hk Hi'. destruct (Z.eq_dec i' i) as [->|Hne].
      * apply Hnew. lia.
      * apply Hold; lia.
  - split; [apply table_replicateZ; lia|]. intros; lia.
  - exists bfuns. split; [exact E|]. split; [exact Ht|].
    intros k i Hk Hi. apply Hv; lia.
Qed.

Lemma Gref_at (k r i j : Z) :
  i = r - k + j ->
  Gref degree knot_vector span u k r i
  = (Aref degree knot_vector span u (Z.to_nat k) r j
     * Nref knot_vector span u (Z.to_nat (degree - k)) i)%Q.
Proof using Type.
  intros ->. unfold Gref. replace (r - k + j - r + k) with j by lia. reflexivity.
Qed.

Lemma Gref_outside (k r i : Z) :
  0 <= k -> i < r - k \/ r < i -> (Gref degree knot_vector span u k r i == 0)%Q.
Proof using Type.
  intros Hk Hi. unfold Gref. rewrite Aref_outside by lia. ring.
Qed.

Lemma a_row_frame (a a' : list (list Q)) (s k r j : Z) :
  (forall j', 0 <= j' < j -> get2 a' s j' = get2 a s j') ->
  a_row degree knot_vector span u a s k r j ->
  a_row degree knot_vector span u a' s k r j.
Proof using Type.
  intros Hframe Ha j' Hj' Hin. apply (cell_frame a); [apply Hframe, Hj'|]. apply Ha; assumption.
Qed.

Lemma ndu_lower (ndu : list (list Q)) (j r : Z) :
  ndu_filled knot_vector span u ndu (degree + 1) 0 ->
  0 <= r < j -> j <= degree ->
  exists y, get2 ndu j r = Ok y /\ (y == D knot_vector span u j r)%Q /\ ~ (y == 0)%Q.
Proof using All.
  intros Hfill Hr Hj. destruct (Hfill j r) as [Hlow _]; [lia | lia |].
  destruct (Hlow ltac:(lia)) as (y & Ey & Hy). exists y. split; [exact Ey|]. split; [exact Hy|].
  pose proof (D_positive j r Hr Hj). intros H0. rewrite Hy in H0. lra.
Qed.

Lemma ndu_upper (ndu : list (list Q)) (i q : Z) :
  ndu_filled knot_vector span u ndu (degree + 1) 0 ->
  0 <= i <= q -> q <= degree ->
  exists y, get2 ndu i q = Ok y /\ (y == Nref knot_vector span u (Z.to_nat q) i)%Q.
Proof using Type.
  intros Hfill Hi Hq. destruct (Hfill q i) as [_ Hup]; [lia | lia |].
  apply Hup. lia.
Qed.

(** One round of the loop over [k] of the second part of A2.3: row [s2]
    of [a] receives the coefficients of round [k], and [ders[k][r]] the sum
    of the terms of the [k]-th derivative of basis function [r]. *)
Lemma ders_step_value (ndu : list (list Q)) (order r k : Z) (st : spec.ders_state) :
  table (degree + 1) (degree + 1) ndu = true ->
  ndu_filled knot_vector span u ndu (degree + 1) 0 ->
  0 <= r <= degree -> 1 <= k <= order -> order <= degree ->
  ders_ready degree order st ->
  a_row degree knot_vector span u (spec.a st) (spec.s1 st) (k - 1) r k ->
  exists st', spec.ders_step degree ndu r k st = Ok st'
    /\ ders_ready degree order st'
    /\ a_row degree knot_vector span u (spec.a st') (spec.s1 st') k r (k + 1)
    /\ cell (spec.ders st') k r (Sref degree knot_vector span u k r)
    /\ forall k' r', 0 <= k' -> 0 <= r' -> k' <> k \/ r' <> r ->
         get2 (spec.ders st') k' r' = get2 (spec.ders st) k' r'.
Proof using All.
  intros Hndu Hfill Hr Hk Horder Hready Hprev.
  destruct st as [a ders s1 s2]. destruct Hready as (Ha & Hders & Hs).
  simpl in Ha, Hders, Hs, Hprev.
  assert (Hs1 : 0 <= s1 < 2) by lia. assert (Hs2 : 0 <= s2 < 2) by lia.
  assert (Hs12 : s1 <> s2) by lia.
  set (round := ders_round degree knot_vector span u s1 s2 k r).
  unfold spec.ders_step. cbv beta iota zeta.
  apply (bind_total _ _ (round (if r - k >=? -1 then 1 else - (r - k)))).
  { destruct (r >=? k) eqn:Erk.
    - rewrite Z.geb_leb in Erk. apply Z.leb_le in Erk.
      rewrite Z.geb_leb. destruct (Z.leb_spec (-1) (r - k)); [|lia].
      destruct (Hprev 0) as (x & Ex & Hx); [lia | lia |]. rewrite Ex. simpl.
      destruct (ndu_lower ndu (degree - k + 1) (r - k) Hfill) as (y & Ey & Hy & Hy0);
        [lia | lia |].
      rewrite Ey. simpl. rewrite fdiv_Ok by exact Hy0. simpl.
      destruct (set2_Ok _ _ a s2 0 (x / y)%Q Ha) as (a1 & E1 & Ha1 & E2 & Hframe);
        [lia | lia |].
      rewrite E1. simpl. rewrite E2. simpl.
      destruct (ndu_upper ndu (r - k) (degree - k) Hfill) as (z & Ez & Hz); [lia | lia |].
      rewrite Ez. simpl.
      eexists. split; [reflexivity|]. split; [exact Ha1|]. simpl. split; [|split].
      + apply (a_row_frame a); [|exact Hprev]. intros j' Hj'. apply Hframe; lia.
      + intros j' Hj' Hin. assert (j' = 0) as -> by lia.
        exists (x / y)%Q. split; [exact E2|].
        rewrite (Aref_step degree knot_vector span u k r 0) by lia.
        rewrite Hx, Hy. rewrite (Aref_outside _ _ _ _ _ r (0 - 1)) by lia.
        replace (r - k + 0) with (r - k) by lia. unfold Qdiv. ring.
      + rewrite (sigma_single 0 (r - k + 1) (r - k)); [| lia |].
        * rewrite (Gref_at k r (r - k) 0) by lia.
          rewrite Hz. apply Qmult_comp; [|reflexivity].
          rewrite (Aref_step degree knot_vector span u k r 0) by lia.
          rewrite Hx, Hy. rewrite (Aref_outside _ _ _ _ _ r (0 - 1)) by lia.
          replace (r - k + 0) with (r - k) by lia. unfold Qdiv. ring.
        * intros i Hi Hne. apply Gref_outside; lia.
    - rewrite Z.geb_leb in Erk. apply Z.leb_gt in Erk.
      eexists. split; [reflexivity|]. split; [exact Ha|]. simpl. split; [exact Hprev|].
      rewrite Z.geb_leb. split.
      + intros j' Hj' Hin. destruct (Z.leb_spec (-1) (r - k)); lia.
      + rewrite sigma_nil; [reflexivity|]. destruct (Z.leb_spec (-1) (r - k)); lia. }
  intros ad Had.
  apply (bind_total _ _ (round ((if r - 1 <=? degree - k then k - 1 else degree - r) + 1))).
  { apply (for_range_total round); [| |exact Had].
    { rewrite Z.geb_leb.
      destruct (Z.leb_spec (-1) (r - k)); destruct (Z.leb_spec (r - 1) (degree - k)); lia. }
    intros j ad1 Hj (Ha1 & Hrow1 & Hrow2 & Hd).
    assert (Hjk : 1 <= j <= k - 1 /\ 0 <= r - k + j <= degree - k).
    { revert Hj. rewrite Z.geb_leb.
      destruct (Z.leb_spec (-1) (r - k)); destruct (Z.leb_spec (r - 1) (degree - k)); lia. }
    destruct (Hrow1 j) as (x & Ex & Hx); [lia | lia |]. rewrite Ex. simpl.
    destruct (Hrow1 (j - 1)) as (x' & Ex' & Hx'); [lia | lia |]. rewrite Ex'. simpl.
    destruct (ndu_lower ndu (degree - k + 1) (r - k + j) Hfill) as (y & Ey & Hy & Hy0);
      [lia | lia |].
    rewrite Ey. simpl. rewrite fdiv_Ok by exact Hy0. simpl.
    destruct (set2_Ok _ _ ad1.1 s2 j ((x - x') / y)%Q Ha1) as (a1 & E1 & Ha1' & E2 & Hframe);
      [lia | lia |].
    rewrite E1. simpl. rewrite E2. simpl.
    destruct (ndu_upper ndu (r - k + j) (degree - k) Hfill) as (z & Ez & Hz); [lia | lia |].
    rewrite Ez. simpl.
    assert (Hnew : ((x - x') / y == Aref degree knot_vector span u (Z.to_nat k) r j)%Q).
    { rewrite (Aref_step degree knot_vector span u k r j) by lia.
      rewrite Hx, Hx', Hy. reflexivity. }
    eexists. split; [reflexivity|]. split; [exact Ha1'|]. simpl. split; [|split].
    - apply (a_row_frame ad1.1); [|exact Hrow1]. intros j' Hj'. apply Hframe; lia.
    - intros j' Hj' Hin. destruct (Z.eq_dec j' j) as [->|Hne].
      + eexists. split; [exact E2 | exact Hnew].
      + apply (cell_frame ad1.1); [apply Hframe; lia|]. apply Hrow2; lia.
    - replace (r - k + (j + 1)) with (r - k + j + 1) by lia.
      rewrite sigma_snoc by lia.
      rewrite Hd, (Gref_at k r (r - k + j) j), Hnew, Hz by lia. reflexivity. }
  intros ad2 (Ha2 & Hrow1 & Hrow2 & Hd).
  apply (bind_total _ _ (fun ad : list (list Q) * Q =>
           table 2 (degree + 1) ad.1 = true
           /\ a_row degree knot_vector span u ad.1 s2 k r (k + 1)
           /\ (ad.2 == Sref degree knot_vector span u k r)%Q)).
  { destruct (Z.leb_spec r (degree - k)) as [Erk|Erk].
    - destruct (Z.leb_spec (r - 1) (degree - k)); [|lia].
      replace (k - 1 + 1) with k in Hrow2, Hd by lia.
      destruct (Hrow1 (k - 1)) as (x & Ex & Hx); [lia | lia |]. rewrite Ex. simpl.
      destruct (ndu_lower ndu (degree - k + 1) r Hfill) as (y & Ey & Hy & Hy0); [lia | lia |].
      rewrite Ey. simpl. rewrite fdiv_Ok by exact Hy0. simpl.
      destruct (set2_Ok _ _ ad2.1 s2 k (- x / y)%Q Ha2) as (a1 & E1 & Ha1 & E2 & Hframe);
        [lia | lia |].
      rewrite E1. simpl. rewrite E2. simpl.
      destruct (ndu_upper ndu r (degree - k) Hfill) as (z & Ez & Hz); [lia | lia |].
      rewrite Ez. simpl.
      assert (Hnew : (- x / y == Aref degree knot_vector span u (Z.to_nat k) r k)%Q).
      { rewrite (Aref_step degree knot_vector span u k r k) by lia.
        rewrite Hx, Hy. rewrite (Aref_outside _ _ _ _ (Z.to_nat (k - 1)) r k) by lia.
        replace (r - k + k) with r by lia. unfold Qdiv. ring. }
      eexists. split; [reflexivity|]. split; [exact Ha1|]. simpl. split.
      + intros j' Hj' Hin. destruct (Z.eq_dec j' k) as [->|Hne].
        * eexists. split; [exact E2 | exact Hnew].
        * apply (cell_frame ad2.1); [apply Hframe; lia|]. apply Hrow2; lia.
      + unfold Sref. rewrite (sigma_trim 0 (degree - k + 1) 0 (r + 1)); [| lia | lia |].
        * rewrite sigma_snoc by lia.
          replace (r - k + k) with r in Hd by lia.
          rewrite Hd, (Gref_at k r r k), Hnew, Hz by lia. reflexivity.
        * intros i Hi. apply Gref_outside; lia.
    - eexists. split; [reflexivity|]. split; [exact Ha2|]. split.
      + intros j' Hj' Hin. apply Hrow2; [|exact Hin].
        destruct (Z.leb_spec (r - 1) (degree - k)); lia.
      + rewrite Hd. unfold Sref.
        replace (r - k + ((if r - 1 <=? degree - k then k - 1 else degree - r) + 1))
          with (degree - k + 1); [reflexivity|].
        destruct (Z.leb_spec (r - 1) (degree - k)); lia. }
  intros ad3 (Ha3 & Hrow3 & Hd3).
  destruct (set2_Ok _ _ ders k r ad3.2 Hders) as (ders' & -> & Hders' & Ekr & Hframe);
    [lia | lia |].
  eexists. split; [reflexivity|]. simpl.
  split; [split; [exact Ha3|]; split; [exact Hders'|]; simpl; lia|].
  split; [exact Hrow3|]. split.
  - eexists. split; [exact Ekr | exact Hd3].
  - intros k' r' Hk' Hr' Hne. apply Hframe; assumption.
Qed.

Lemma Dref_0 (r : Z) :
  0 <= r <= degree ->
  (Dref degree knot_vector span u 0 r == Nref knot_vector span u (Z.to_nat degree) r)%Q.
Proof using Type.
  intros Hr. unfold Dref, Sref. change (Z.to_nat 0) with 0%nat. cbn [Fk].
  rewrite (sigma_single 0 (degree - 0 + 1) r); [| lia |].
  - rewrite (Gref_at 0 r r 0) by lia. change (Z.to_nat 0) with 0%nat. cbn [Aref].
    simpl (0 =? 0). replace (degree - 0) with degree by lia. ring.
  - intros i Hi Hne. apply Gref_outside; lia.
Qed.

(** A2.3 returns the derivatives of the basis functions of the span, up to
    [order]. *)
Lemma basis_functions_ders_value (order : Z) :
  0 <= order <= degree ->
  exists ders, spec.basis_functions_ders degree knot_vector span u order = Ok ders
    /\ table (order + 1) (degree + 1) ders = true
    /\ forall k r, 0 <= k <= order -> 0 <= r <= degree ->
         cell ders k r (Dref degree knot_vector span u k r).
Proof using All.
  intros Horder. unfold spec.basis_functions_ders.
  destruct ndu_table_value as (ndu & -> & Hndu & Hfill). simpl.
  set (shaped := fun ders : list (list Q) => table (order + 1) (degree + 1) ders = true).
  set (row0 := fun ders : list (list Q) =>
         forall j, 0 <= j <= degree ->
           cell ders 0 j (Nref knot_vector span u (Z.to_nat degree) j)).
  (* the basis values *)
  apply (bind_total _ _ (fun ders => shaped ders /\ row0 ders)).
  { destruct (for_range_total
                (fun j ders => shaped ders
                   /\ forall j', 0 <= j' < j ->
                        cell ders 0 j' (Nref knot_vector span u (Z.to_nat degree) j'))
                (fun j ders => x <- get2 ndu j degree ;; set2 ders 0 j x)
                0 (degree + 1))
      with (acc := replicateZ (order + 1) (replicateZ (degree + 1) 0%Q))
      as (ders & E & Hders & Hrow).
    - lia.
    - intros j ders Hj (Hders & Hrow).
      destruct (ndu_upper ndu j degree Hfill) as (x & -> & Hx); [lia | lia |]. simpl.
      destruct (set2_Ok _ _ ders 0 j x Hders) as (ders' & -> & Hders' & E0j & Hframe);
        [lia | lia |].
      exists ders'. split; [reflexivity|]. split; [exact Hders'|].
      intros j' Hj'. destruct (Z.eq_dec j' j) as [->|Hne].
      + exists x. split; [exact E0j | exact Hx].
      + apply (cell_frame ders); [apply Hframe; lia|]. apply Hrow. lia.
    - split; [apply table_replicateZ; lia|]. intros; lia.
    - exists ders. split; [exact E|]. split; [exact Hders|]. intros j Hj. apply Hrow. lia. }
  intros ders0 (Hders0 & Hrow0).
  (* the sums of the derivatives *)
  set (sums := fun (r : Z) (ders : list (list Q)) =>
         forall k r', 1 <= k <= order -> 0 <= r' < r ->
           cell ders k r' (Sref degree knot_vector span u k r')).
  apply (bind_total _ _ (fun st => shaped (spec.ders st) /\ row0 (spec.ders st)
                                   /\ sums (degree + 1) (spec.ders st))).
  { destruct (for_range_total
                (fun r st => ders_ready degree order st /\ row0 (spec.ders st)
                             /\ sums r (spec.ders st))
                (fun r (st : spec.ders_state) =>
                   a <- set2 (spec.a st) 0 0 1%Q ;;
                   for_ (range 1 (order + 1)) (spec.ders_step degree ndu r)
                        {| spec.a := a; spec.ders := spec.ders st;
                           spec.s1 := 0; spec.s2 := 1 |})
                0 (degree + 1))
      with (acc := {| spec.a := replicateZ 2 (replicateZ (degree + 1) 0%Q);
                      spec.ders := ders0; spec.s1 := 0; spec.s2 := 1 |})
      as (st & E & (_ & Hd & _) & Hrow & Hsums).
    - lia.
    - intros r st Hr ((Ha & Hd & Hs) & Hrow & Hsums).
      destruct (set2_Ok _ _ (spec.a st) 0 0 1%Q Ha) as (a1 & -> & Ha1 & E00 & _); [lia | lia |].
      simpl.
      destruct (for_range_total
                  (fun k st' => ders_ready degree order st'
                     /\ a_row degree knot_vector span u (spec.a st') (spec.s1 st') (k - 1) r k
                     /\ row0 (spec.ders st') /\ sums r (spec.ders st')
                     /\ forall k', 1 <= k' < k ->
                          cell (spec.ders st') k' r (Sref degree knot_vector span u k' r))
                  (spec.ders_step degree ndu r) 1 (order + 1))
        with (acc := {| spec.a := a1; spec.ders := spec.ders st; spec.s1 := 0; spec.s2 := 1 |})
        as (st' & E' & Hready' & _ & Hrow' & Hsums' & Hnew).
      + lia.
      + intros k st1 Hk (Hready1 & Harow1 & Hrow1 & Hsums1 & Hnew1).
        destruct (ders_step_value ndu order r k st1 Hndu Hfill)
          as (st2 & E2 & Hready2 & Harow2 & Hkr & Hframe); [lia | lia | lia | assumption.. |].
        exists st2. split; [exact E2|]. split; [exact Hready2|]. split.
        { replace (k + 1 - 1) with k by lia. exact Harow2. }
        split; [|split].
        * intros j Hj. apply (cell_frame (spec.ders st1)); [apply Hframe; lia|].
          apply Hrow1, Hj.
        * intros k' r' Hk' Hr'. apply (cell_frame (spec.ders st1)); [apply Hframe; lia|].
          apply Hsums1; assumption.
        * intros k' Hk'. destruct (Z.eq_dec k' k) as [->|Hne]; [exact Hkr|].
          apply (cell_frame (spec.ders st1)); [apply Hframe; lia|]. apply Hnew1. lia.
      + split; [split; [exact Ha1|]; split; [exact Hd|]; simpl; lia|]. simpl.
        split; [|split; [exact Hrow|]; split; [exact Hsums|]; intros; lia].
        intros j' Hj' Hin. assert (j' = 0) as -> by lia.
        exists 1%Q. split; [exact E00 | reflexivity].
      + exists st'. split; [exact E'|]. split; [exact Hready'|]. split; [exact Hrow'|].
        intros k r' Hk Hr'. destruct (Z.eq_dec r' r) as [->|Hne].
        * apply Hnew. lia.
        * apply Hsums'; lia.
    - split; [split; [apply table_replicateZ; lia|]; split; [exact Hders0|]; simpl; lia|].
      simpl. split; [exact Hrow0|]. intros k r' Hk Hr'. lia.
    - exists st. split; [exact E|]. split; [exact Hd|]. split; [exact Hrow | exact Hsums]. }
  intros st (Hd & Hrow & Hsums).
  (* the factors *)
  set (scaled := fun (k : Z) (ders : list (list Q)) =>
         forall k' r, 1 <= k' < k -> 0 <= r <= degree ->
           cell ders k' r (Dref degree knot_vector span u k' r)).
  set (unscaled := fun (k : Z) (ders : list (list Q)) =>
         forall k' r, k <= k' <= order -> 0 <= r <= degree ->
           cell ders k' r (Sref degree knot_vector span u k' r)).
  apply (bind_total _ _ (fun acc : list (list Q) * Q =>
           shaped acc.1 /\ row0 acc.1 /\ scaled (order + 1) acc.1)).
  { destruct (for_range_total
                (fun k (acc : list (list Q) * Q) =>
                   shaped acc.1 /\ row0 acc.1 /\ scaled k acc.1 /\ unscaled k acc.1
                   /\ (acc.2 == Fk degree (Z.to_nat k))%Q)
                (fun k (acc : list (list Q) * Q) =>
                   ders <- for_ (range 0 (degree + 1)) (fun j ders =>
                             x <- get2 ders k j ;; set2 ders k j (x * acc.2)%Q) acc.1 ;;
                   Ok (ders, (acc.2 * inject_Z (degree - k))%Q))
                1 (order + 1))
      with (acc := (spec.ders st, inject_Z degree))
      as (acc & E & Hs & Hr0 & Hsc & _).
    - lia.
    - intros k [ders rr] Hk (Hs & Hr0 & Hsc & Hun & Hrr). simpl in Hs, Hr0, Hsc, Hun, Hrr.
      cbn [fst snd].
      destruct (for_range_total
                  (fun j ders' => shaped ders' /\ row0 ders' /\ scaled k ders'
                     /\ unscaled (k + 1) ders'
                     /\ (forall r, 0 <= r < j ->
                           cell ders' k r (Dref degree knot_vector span u k r))
                     /\ (forall r, j <= r <= degree ->
                           cell ders' k r (Sref degree knot_vector span u k r)))
                  (fun j ders' => x <- get2 ders' k j ;; set2 ders' k j (x * rr)%Q)
                  0 (degree + 1))
        with (acc := ders) as (ders' & -> & Hs' & Hr0' & Hsc' & Hun' & Hnew & _).
      + lia.
      + intros j ders1 Hj (H1 & H2 & H3 & H4 & H5 & H6).
        destruct (H6 j) as (x & -> & Hx); [lia|]. simpl.
        destruct (set2_Ok _ _ ders1 k j (x * rr)%Q H1) as (ders2 & -> & Hs2 & Ekj & Hframe);
          [lia | lia |].
        exists ders2. split; [reflexivity|]. split; [exact Hs2|].
        split; [|split; [|split; [|split]]].
        * intros j' Hj'. apply (cell_frame ders1); [apply Hframe; lia|]. apply H2, Hj'.
        * intros k' r Hk' Hr. apply (cell_frame ders1); [apply Hframe; lia|]. apply H3; lia.
        * intros k' r Hk' Hr. apply (cell_frame ders1); [apply Hframe; lia|]. apply H4; lia.
        * intros r Hr. destruct (Z.eq_dec r j) as [->|Hne].
          -- eexists. split; [exact Ekj|]. unfold Dref. rewrite Hx, Hrr. ring.
          -- apply (cell_frame ders1); [apply Hframe; lia|]. apply H5. lia.
        * intros r Hr. apply (cell_frame ders1); [apply Hframe; lia|]. apply H6. lia.
      + split; [exact Hs|]. split; [exact Hr0|]. split; [exact Hsc|]. split; [|split].
        * intros k' r Hk' Hr. apply Hun; lia.
        * intros; lia.
        * intros r Hr. apply Hun; lia.
      + simpl. eexists. split; [reflexivity|]. simpl.
        split; [exact Hs'|]. split; [exact Hr0'|]. split; [|split; [exact Hun'|]].
        * intros k' r Hk' Hr. destruct (Z.eq_dec k' k) as [->|Hne].
          -- apply Hnew. lia.
          -- apply Hsc'; lia.
        * rewrite (Fk_step degree (k + 1)) by lia.
          replace (k + 1 - 1) with k by lia.
          replace (degree - (k + 1) + 1) with (degree - k) by lia.
          rewrite Hrr. reflexivity.
    - simpl. split; [exact Hd|]. split; [exact Hrow|]. split; [intros k' r Hk'; lia|].
      split.
      + intros k' r Hk' Hr. apply Hsums; lia.
      + change (Z.to_nat 1) with 1%nat. cbn [Fk]. change (Z.of_nat 0) with 0.
        replace (degree - 0) with degree by lia. ring.
    - exists acc. split; [exact E|]. split; [exact Hs|]. split; [exact Hr0 | exact Hsc]. }
  intros acc (Hs & Hr0 & Hsc).
  exists acc.1. split; [reflexivity|]. split; [exact Hs|].
  intros k r Hk Hr. destruct (Z.eq_dec k 0) as [->|Hne].
  - destruct (Hr0 r Hr) as (y & Ey & Hy). exists y. split; [exact Ey|].
    rewrite Hy. symmetry. apply Dref_0, Hr.
  - apply Hsc; lia.
Qed.

End BasisValues.

(** *** Points and tables of points *)

Lemma comprehension_points (f : option Q * option Q -> result (option Q))
    (g : Q -> Q -> Q) (v w : list Q) :
  (forall a b, f (Some a, Some b) = Ok (Some (g a b))) ->
  comprehension f (zip (map Some v) (map Some w)) = Ok (map Some (zip_with g v w)).
Proof.
  intros Hf. revert w. induction v as [|a v IH]; intros [|b w]; simpl; try reflexivity.
  rewrite Hf. simpl. rewrite IH. reflexivity.
Qed.

Lemma coord_lookup (v : list Q) (d : nat) (x : Q) : v !! d = Some x -> coord v d = x.
Proof. intros H. unfold coord. rewrite H. reflexivity. Qed.

Lemma coord_zip_with (g : Q -> Q -> Q) (v w : list Q) (d : nat) :
  (d < length v)%nat -> (d < length w)%nat ->
  coord (zip_with g v w) d = g (coord v d) (coord w d).
Proof.
  intros Hv Hw.
  destruct (lookup_lt_is_Some_2 v d Hv) as (x & Hx).
  destruct (lookup_lt_is_Some_2 w d Hw) as (y & Hy).
  unfold coord. rewrite lookup_zip_with, Hx, Hy. reflexivity.
Qed.

Lemma is_point_ext (c : Curve.t) (entry : list (option Q)) (f f' : nat -> Q) :
  (forall d, Z.of_nat d < Curve._dimension c -> (f d == f' d)%Q) ->
  is_point c entry f -> is_point c entry f'.
Proof.
  intros Hff (w & -> & Hlen & Hw). exists w. split; [reflexivity|]. split; [exact Hlen|].
  intros d Hd. rewrite Hw by exact Hd. apply Hff. unfold len in Hlen. lia.
Qed.

(** A comprehension over the zip of two points. *)
Lemma points_combine (c : Curve.t) (f : option Q * option Q -> result (option Q))
    (g : Q -> Q -> Q) (e1 e2 : list (option Q)) (f1 f2 : nat -> Q) :
  (forall a b, f (Some a, Some b) = Ok (Some (g a b))) ->
  (forall a a' b b', (a == a')%Q -> (b == b')%Q -> (g a b == g a' b')%Q) ->
  is_point c e1 f1 -> is_point c e2 f2 ->
  exists new, comprehension f (zip e1 e2) = Ok new
              /\ is_point c new (fun d => g (f1 d) (f2 d)).
Proof.
  intros Hf Hg (v & -> & Hlenv & Hv) (w & -> & Hlenw & Hw).
  exists (map Some (zip_with g v w)). split; [apply comprehension_points, Hf|].
  exists (zip_with g v w). split; [reflexivity|]. split.
  - unfold len in *. rewrite length_zip_with. lia.
  - intros d Hd. rewrite length_zip_with in Hd.
    rewrite coord_zip_with by (unfold len in *; lia).
    apply Hg; [apply Hv | apply Hw]; unfold len in *; lia.
Qed.

Lemma is_point_zeros (c : Curve.t) :
  0 <= Curve._dimension c -> is_point c (Curve.zeros c) (fun _ => 0%Q).
Proof.
  intros Hdim. exists (replicateZ (Curve._dimension c) 0%Q). split; [|split].
  - unfold Curve.zeros, replicateZ.
    induction (Z.to_nat (Curve._dimension c)) as [|n IH]; simpl; [reflexivity | congruence].
  - apply len_replicateZ, Hdim.
  - intros d Hd. unfold replicateZ in *. rewrite length_replicate in Hd.
    rewrite (coord_lookup _ _ 0%Q); [reflexivity|]. apply lookup_replicate. auto.
Qed.

(** A control point of the window of the span. *)
Lemma is_point_ctrlpt (c : Curve.t) (span r : Z) (cp : list Q) :
  dimensioned c -> 0 <= span - Curve._degree c + r ->
  Curve._control_points c !! Z.to_nat (span - Curve._degree c + r) = Some cp ->
  is_point c (map Some cp) (Pref c span r).
Proof.
  intros Hdim Hr Hcp. exists cp. split; [reflexivity|]. split.
  - unfold dimensioned in Hdim. rewrite Forall_forall in Hdim. apply Hdim.
    eapply list_elem_of_lookup_2. exact Hcp.
  - intros d Hd. unfold Pref. rewrite Hcp. reflexivity.
Qed.

Lemma PK_at_get P PK (k i : Z) :
  PK_at P PK k i -> 0 <= k -> 0 <= i ->
  exists row entry, getitem PK k = Ok row /\ getitem row i = Ok entry
                    /\ PK !! Z.to_nat k = Some row /\ P k i entry.
Proof.
  intros (row & entry & Hrow & Hentry & HP) Hk Hi. exists row, entry.
  split; [apply getitem_Ok; assumption|]. split; [apply getitem_Ok; assumption|]. auto.
Qed.

Lemma PK_at_insert_other P PK (k i k' i' : Z) row entry :
  0 <= k -> 0 <= i -> 0 <= k' -> 0 <= i' ->
  PK !! Z.to_nat k = Some row ->
  (k' <> k \/ i' <> i) ->
  PK_at P PK k' i' ->
  PK_at P (<[Z.to_nat k := <[Z.to_nat i := entry]> row]> PK) k' i'.
Proof.
  intros Hk Hi Hk' Hi' Hrow Hne (row' & entry' & Hrow' & Hentry' & HP).
  destruct (Z.eq_dec k' k) as [->|Hkk].
  - assert (row' = row) as -> by congruence.
    exists (<[Z.to_nat i := entry]> row), entry'. split; [|split; [|exact HP]].
    + apply list_lookup_insert_eq. apply lookup_lt_Some in Hrow. exact Hrow.
    + rewrite list_lookup_insert_ne by lia. exact Hentry'.
  - exists row', entry'. split; [|split; [exact Hentry' | exact HP]].
    rewrite list_lookup_insert_ne by lia. exact Hrow'.
Qed.

Lemma PK_at_insert_same P PK (k i : Z) row entry :
  0 <= k -> 0 <= i < len row ->
  PK !! Z.to_nat k = Some row -> P k i entry ->
  PK_at P (<[Z.to_nat k := <[Z.to_nat i := entry]> row]> PK) k i.
Proof.
  intros Hk Hi Hrow HP. exists (<[Z.to_nat i := entry]> row), entry.
  split; [|split; [|exact HP]].
  - apply list_lookup_insert_eq. apply lookup_lt_Some in Hrow. exact Hrow.
  - apply list_lookup_insert_eq. unfold len in Hi. lia.
Qed.

(** *** The derivative control points, by their coordinates *)

Section DerivativeValues.

Variables (c : Curve.t) (u : Q) (span : Z).

Hypothesis degree_nonneg : 0 <= Curve._degree c.
Hypothesis window : Curve._degree c <= span < len (Curve._control_points c).
Hypothesis knots_after : span + Curve._degree c < len (Curve._knot_vector c).
Hypothesis sorted : spec.nondecreasing (Curve._knot_vector c) = true.
Hypothesis span_nontrivial : spec.nontrivial (Curve._knot_vector c) span = true.
Hypothesis dims : dimensioned c.

Lemma PKref_0 (i : Z) (d : nat) :
  0 <= i <= Curve._degree c -> (PKref c u span 0 i d == Pref c span i d)%Q.
Proof using Type.
  intros Hi. unfold PKref. change (Z.to_nat 0) with 0%nat. cbn [Fk Aref].
  rewrite (sigma_single 0 (Curve._degree c + 1) i); [| lia |].
  - replace (i - i + 0) with 0 by lia. simpl (0 =? 0). cbv iota. ring.
  - intros r Hr Hne. destruct (Z.eqb_spec (i - r + 0) 0); [lia | ring].
Qed.

(** The recurrence of A3.3 on the coordinates. *)
Lemma PKref_step (k i : Z) (d : nat) (x y : Q) :
  1 <= k <= Curve._degree c -> 0 <= i <= Curve._degree c - k ->
  Curve._knot_vector c !! Z.to_nat (span - Curve._degree c + i + Curve._degree c + 1) = Some x ->
  Curve._knot_vector c !! Z.to_nat (span - Curve._degree c + i + k) = Some y ->
  (inject_Z (Curve._degree c - k + 1)
   * (PKref c u span (k - 1) (i + 1) d - PKref c u span (k - 1) i d) / (x - y)
   == PKref c u span k i d)%Q.
Proof using degree_nonneg window.
  intros Hk Hi Hx Hy.
  set (Dd := D (Curve._knot_vector c) span u (Curve._degree c - k + 1) i).
  assert (Hxy : (x - y == Dd)%Q).
  { unfold Dd, D, Rt, Lt.
    replace (span + (i + 1)) with (span - Curve._degree c + i + Curve._degree c + 1) by lia.
    replace (span + 1 - (Curve._degree c - k + 1 - i))
      with (span - Curve._degree c + i + k) by lia.
    rewrite (K_lookup _ _ x) by (lia || exact Hx).
    rewrite (K_lookup _ _ y) by (lia || exact Hy). ring. }
  unfold PKref at 3.
  rewrite (sigma_ext 0 (Curve._degree c + 1) _
             (fun r => / Dd * (Aref (Curve._degree c) (Curve._knot_vector c) span u
                                 (Z.to_nat (k - 1)) r (i + 1 - r + (k - 1))
                               * Pref c span r d)
                       + - / Dd * (Aref (Curve._degree c) (Curve._knot_vector c) span u
                                     (Z.to_nat (k - 1)) r (i - r + (k - 1))
                                   * Pref c span r d)))%Q.
  - rewrite sigma_plus, !sigma_scale. rewrite (Fk_step (Curve._degree c) k) by lia.
    unfold PKref. rewrite Hxy. unfold Qdiv. ring.
  - intros r Hr. rewrite (Aref_step (Curve._degree c) (Curve._knot_vector c) span u k) by lia.
    replace (r - k + (i - r + k)) with i by lia. fold Dd.
    replace (i - r + k - 1) with (i - r + (k - 1)) by lia.
    replace (i - r + k) with (i + 1 - r + (k - 1)) by lia.
    unfold Qdiv. ring.
Qed.

(** One entry of a derivative level. *)
Lemma PK_entry_value (k i : Z) (elems1 elems2 : list (option Q)) :
  1 <= k <= Curve._degree c -> 0 <= i <= Curve._degree c - k ->
  is_point c elems1 (PKref c u span (k - 1) (i + 1)) ->
  is_point c elems2 (PKref c u span (k - 1) i) ->
  exists new,
    comprehension (fun e : option Q * option Q =>
      elem1 <- Curve.number e.1 ;;
      elem2 <- Curve.number e.2 ;;
      a <- getitem (Curve._knot_vector c) (span - Curve._degree c + i + Curve._degree c + 1) ;;
      b <- getitem (Curve._knot_vector c) (span - Curve._degree c + i + k) ;;
      q <- fdiv (inject_Z (Curve._degree c - k + 1) * (elem1 - elem2)) (a - b) ;;
      Ok (Some q)) (zip elems1 elems2) = Ok new
    /\ is_point c new (PKref c u span k i).
Proof using All.
  intros Hk Hi H1 H2.
  destruct (knot_exists (Curve._knot_vector c)
              (span - Curve._degree c + i + Curve._degree c + 1)) as (x & Hx); [lia|].
  destruct (knot_exists (Curve._knot_vector c)
              (span - Curve._degree c + i + k)) as (y & Hy); [lia|].
  assert (Hyx : (y < x)%Q).
  { apply (knots_apart (Curve._degree c) (Curve._knot_vector c) span degree_nonneg
             ltac:(lia) sorted span_nontrivial
             (span - Curve._degree c + i + k)
             (span - Curve._degree c + i + Curve._degree c + 1));
      [lia | lia | exact Hy | exact Hx]. }
  destruct (points_combine c
              (fun e : option Q * option Q =>
                 elem1 <- Curve.number e.1 ;;
                 elem2 <- Curve.number e.2 ;;
                 a <- getitem (Curve._knot_vector c)
                        (span - Curve._degree c + i + Curve._degree c + 1) ;;
                 b <- getitem (Curve._knot_vector c) (span - Curve._degree c + i + k) ;;
                 q <- fdiv (inject_Z (Curve._degree c - k + 1) * (elem1 - elem2)) (a - b) ;;
                 Ok (Some q))
              (fun a b => inject_Z (Curve._degree c - k + 1) * (a - b) / (x - y))%Q
              elems1 elems2 (PKref c u span (k - 1) (i + 1)) (PKref c u span (k - 1) i))
    as (new & E & Hnew); [| | exact H1 | exact H2 |].
  - intros a b. simpl.
    rewrite (getitem_Ok _ _ x) by (lia || exact Hx). simpl.
    rewrite (getitem_Ok _ _ y) by (lia || exact Hy). simpl.
    rewrite fdiv_Ok by lra. reflexivity.
  - intros a a' b b' Ha Hb. rewrite Ha, Hb. reflexivity.
  - exists new. split; [exact E|].
    apply (is_point_ext c new _ _ (fun d _ => PKref_step k i d x y Hk Hi Hx Hy)), Hnew.
Qed.

(** A3.3 returns the control points of the derivative curves up to
    [order]. *)
Lemma derivatives_ctrlpts_value (order : Z) :
  0 <= order <= Curve._degree c ->
  exists PK,
    Curve.derivatives_ctrlpts c order (span - Curve._degree c) span = Ok PK
    /\ forall k i, 0 <= k <= order -> 0 <= i <= Curve._degree c - k ->
         PK_at (fun k i entry => is_point c entry (PKref c u span k i)) PK k i.
Proof using All.
  intros Horder.
  set (P := fun (k i : Z) entry => is_point c entry (PKref c u span k i)).
  unfold Curve.derivatives_ctrlpts. cbv zeta.
  replace (span - (span - Curve._degree c)) with (Curve._degree c) by lia.
  apply (bind_total _ _
           (fun PK => PK_shape (order + 1) (Curve._degree c + 1) PK
                      /\ forall i, 0 <= i <= Curve._degree c -> PK_at P PK 0 i)).
  { destruct (for_range_total
                (fun i PK => PK_shape (order + 1) (Curve._degree c + 1) PK
                             /\ forall i', 0 <= i' < i -> PK_at P PK 0 i')
                (fun i PK =>
                   cp <- getitem (Curve._control_points c) (span - Curve._degree c + i) ;;
                   PK0 <- getitem PK 0 ;;
                   PK0 <- setitem PK0 i (map Some cp) ;;
                   setitem PK 0 PK0)
                0 (Curve._degree c + 1))
      with (acc := replicateZ (order + 1) (replicateZ (Curve._degree c + 1) (Curve.nones c)))
      as (PK & E & Hshape & Hat).
    - lia.
    - intros i PK Hi [Hshape Hat].
      destruct (lookup_lt_is_Some_2 (Curve._control_points c)
                  (Z.to_nat (span - Curve._degree c + i))) as (cp & Hcp);
        [unfold len in *; lia|].
      rewrite (getitem_Ok _ _ cp) by (lia || exact Hcp). simpl.
      destruct (PK_shape_row _ _ PK 0 Hshape) as (row & Hrow & Hlen); [lia|].
      rewrite (getitem_Ok _ _ row) by (lia || exact Hrow). simpl.
      rewrite setitem_Ok by lia. simpl.
      rewrite setitem_Ok by (destruct Hshape; lia).
      eexists. split; [reflexivity|]. split.
      + apply PK_shape_insert; assumption.
      + intros i' Hi'. destruct (Z.eq_dec i' i) as [->|Hne].
        * apply (PK_at_insert_same P PK 0 i); [lia | lia | exact Hrow |].
          apply (is_point_ext c _ (Pref c span i)).
          -- intros d _. symmetry. apply PKref_0. lia.
          -- apply is_point_ctrlpt; [exact dims | lia | exact Hcp].
        * apply (PK_at_insert_other P PK 0 i 0 i'); try lia; [exact Hrow|].
          apply Hat. lia.
    - split.
      + split; [apply len_replicateZ; lia|].
        unfold replicateZ at 1. apply Forall_replicate. apply len_replicateZ. lia.
      + intros i' Hi'. lia.
    - exists PK. split; [exact E|]. split; [exact Hshape|].
      intros i Hi. apply Hat. lia. }
  intros PK0 (Hshape0 & Hat0).
  destruct (for_range_total
              (fun k PK => PK_shape (order + 1) (Curve._degree c + 1) PK
                           /\ forall k' i', 0 <= k' < k -> 0 <= i' <= Curve._degree c - k' ->
                                PK_at P PK k' i')
              (fun k PK =>
                 for_ (range 0 (Curve._degree c - k + 1)) (fun i PK =>
                   prev <- getitem PK (k - 1) ;;
                   elems1 <- getitem prev (i + 1) ;;
                   elems2 <- getitem prev i ;;
                   new <- comprehension (fun e : option Q * option Q =>
                            elem1 <- Curve.number e.1 ;;
                            elem2 <- Curve.number e.2 ;;
                            a <- getitem (Curve._knot_vector c)
                                   (span - Curve._degree c + i + Curve._degree c + 1) ;;
                            b <- getitem (Curve._knot_vector c)
                                   (span - Curve._degree c + i + k) ;;
                            q <- fdiv (inject_Z (Curve._degree c - k + 1) * (elem1 - elem2))
                                      (a - b) ;;
                            Ok (Some q)) (zip elems1 elems2) ;;
                   PKk <- getitem PK k ;;
                   PKk <- setitem PKk i new ;;
                   setitem PK k PKk) PK)
              1 (order + 1)) with (acc := PK0) as (PK & E & Hshape & Hat).
  - lia.
  - intros k PK1 Hk [Hshape1 Hat1].
    destruct (for_range_total
                (fun i PK =>
                   PK_shape (order + 1) (Curve._degree c + 1) PK
                   /\ (forall k' i', 0 <= k' < k -> 0 <= i' <= Curve._degree c - k' ->
                         PK_at P PK k' i')
                   /\ forall i', 0 <= i' < i -> PK_at P PK k i')
                (fun i PK =>
                   prev <- getitem PK (k - 1) ;;
                   elems1 <- getitem prev (i + 1) ;;
                   elems2 <- getitem prev i ;;
                   new <- comprehension (fun e : option Q * option Q =>
                            elem1 <- Curve.number e.1 ;;
                            elem2 <- Curve.number e.2 ;;
                            a <- getitem (Curve._knot_vector c)
                                   (span - Curve._degree c + i + Curve._degree c + 1) ;;
                            b <- getitem (Curve._knot_vector c)
                                   (span - Curve._degree c + i + k) ;;
                            q <- fdiv (inject_Z (Curve._degree c - k + 1) * (elem1 - elem2))
                                      (a - b) ;;
                            Ok (Some q)) (zip elems1 elems2) ;;
                   PKk <- getitem PK k ;;
                   PKk <- setitem PKk i new ;;
                   setitem PK k PKk)
                0 (Curve._degree c - k + 1)) with (acc := PK1)
      as (PK2 & E2 & Hshape2 & Hlow2 & Hcur2).
    + lia.
    + intros i PK Hi (Hshape & Hlow & Hcur).
      destruct (PK_at_get P PK (k - 1) (i + 1)) as (prev & elems1 & Eprev & E1 & Hprev & Hp1);
        [apply Hlow; lia | lia | lia |].
      destruct (PK_at_get P PK (k - 1) i) as (prev' & elems2 & _ & E2 & Hprev' & Hp2);
        [apply Hlow; lia | lia | lia |].
      assert (prev' = prev) as -> by congruence.
      rewrite Eprev. simpl. rewrite E1. simpl. rewrite E2. simpl.
      destruct (PK_entry_value k i elems1 elems2) as (new & Enew & Hnew);
        [lia | lia | exact Hp1 | exact Hp2 |].
      rewrite Enew. simpl.
      destruct (PK_shape_row _ _ PK k Hshape) as (row & Hrow & Hlen); [lia|].
      rewrite (getitem_Ok _ _ row) by (lia || exact Hrow). simpl.
      rewrite setitem_Ok by lia. simpl.
      rewrite setitem_Ok by (destruct Hshape; lia).
      eexists. split; [reflexivity|]. split; [|split].
      * apply PK_shape_insert; assumption.
      * intros k' i' Hk' Hi'.
        apply (PK_at_insert_other P PK k i k' i'); try lia; [exact Hrow|].
        apply Hlow; lia.
      * intros i' Hi'. destruct (Z.eq_dec i' i) as [->|Hne].
        -- apply (PK_at_insert_same P PK k i); [lia | lia | exact Hrow | exact Hnew].
        -- apply (PK_at_insert_other P PK k i k i'); try lia; [exact Hrow|].
           apply Hcur. lia.
    + split; [exact Hshape1|]. split; [exact Hat1|]. intros i' Hi'. lia.
    + exists PK2. split; [exact E2|]. split; [exact Hshape2|].
      intros k' i' Hk' Hi'. destruct (Z.eq_dec k' k) as [->|Hne].
      * apply Hcur2. lia.
      * apply Hlow2; lia.
  - split; [exact Hshape0|]. intros k' i' Hk' Hi'.
    assert (k' = 0) as -> by lia. apply Hat0. lia.
  - exists PK. split; [exact E|]. intros k i Hk Hi. apply Hat; lia.
Qed.

End DerivativeValues.


(** On the utilities modelled from the specification every curve with a
    degree of at least 1, at least [degree + 1] control points and a knot
    vector that [check_knot_vector] accepts can be evaluated at every [u]
    of its domain, and the two tables of basis values have their shape. *)
Lemma valid_curve_evaluable (c : Curve.t) (u : Q) :
  1 <= Curve._degree c ->
  Curve._degree c + 1 <= len (Curve._control_points c) ->
  spec.check_knot_vector (Curve._degree c) (Curve._knot_vector c)
    (len (Curve._control_points c)) = true ->
  in_domain (Curve._degree c) (Curve._knot_vector c)
    (len (Curve._control_points c)) u = true ->
  exists span, evaluable utils c u span /\ tabulated utils c u span.
Proof.
  intros Hdeg Hn Hkv Hdom.
  pose proof (check_knot_vector_true _ _ _ Hkv) as [Hlen Hsorted].
  destruct (find_span_total (Curve._degree c) (Curve._knot_vector c)
              (len (Curve._control_points c)) u) as (span & Hspan);
    [lia | lia | lia | exact Hdom |].
  pose proof (find_span_Ok_inv _ _ _ _ _ Hspan) as [Hk Hnt].
  assert (Hunit : spec.in_unit u = true).
  { unfold in_domain in Hdom.
    destruct (spec.knot _ _); [|discriminate]. destruct (spec.knot _ _); [|discriminate].
    repeat (apply andb_true_iff in Hdom as [Hdom ?]).
    unfold spec.in_unit. apply andb_true_iff. auto. }
  assert (Hvars : Curve._check_variables c = Ok tt).
  { unfold Curve._check_variables.
    destruct (Curve._degree c =? 0) eqn:E0; [apply Z.eqb_eq in E0; lia|].
    destruct (Curve._control_points c) eqn:Ecp; [unfold len in Hn; simpl in Hn; lia|].
    destruct (Curve._knot_vector c) eqn:Ekv; [unfold len in Hlen; simpl in Hlen; lia|].
    reflexivity. }
  exists span. split.
  - split; [exact Hvars|]. split; [simpl; unfold spec.check_uv; rewrite Hunit; reflexivity|].
    split; [exact Hunit|]. split; [lia|]. split; [exact Hspan|].
    split; [exact Hk|]. split; [lia|]. split; [exact Hsorted | exact Hnt].
  - split; simpl.
    + destruct (basis_functions_ders_value (Curve._degree c) (Curve._knot_vector c) span u
                  ltac:(lia) ltac:(lia) ltac:(lia) Hsorted Hnt (Curve._degree c))
        as (ders & E & Hders & _); [lia|].
      exists ders. split; [exact E | exact Hders].
    + destruct (basis_functions_all_value (Curve._degree c) (Curve._knot_vector c) span u
                  ltac:(lia) ltac:(lia) ltac:(lia) Hsorted Hnt)
        as (bfuns & E & Hall & _).
      exists bfuns. split; [exact E | exact Hall].
Qed.

(** On the utilities modelled from the specification: for every such curve,
    every [u] of its domain and every order above the degree, the two
    methods return, and the entries above the degree are zero vectors. *)
Lemma derivatives_above_degree_valid (c : Curve.t) (u : Q) (order : Z) :
  1 <= Curve._degree c ->
  Curve._degree c + 1 <= len (Curve._control_points c) ->
  spec.check_knot_vector (Curve._degree c) (Curve._knot_vector c)
    (len (Curve._control_points c)) = true ->
  in_domain (Curve._degree c) (Curve._knot_vector c)
    (len (Curve._control_points c)) u = true ->
  Curve._degree c < order ->
  exists CK CK2,
    Curve.derivatives utils c u order = Ok CK
    /\ Curve.derivatives2 utils c u order = Ok CK2
    /\ zero_above_degree c order CK /\ zero_above_degree c order CK2.
Proof.
  intros Hdeg Hn Hkv Hdom Horder.
  destruct (valid_curve_evaluable c u Hdeg Hn Hkv Hdom) as (span & Heval & Htab).
  destruct (derivatives_above_degree_A34 utils c u order span Heval Htab Horder)
    as (CK & E & HCK).
  destruct (derivatives2_above_degree utils c u order span Heval Htab Horder)
    as (CK2 & E2 & HCK2).
  exists CK, CK2. auto.
Qed.

(** C9.  For a curve that can be evaluated at [u], with the two tables of
    basis values of the shape their callers read, and an order above the
    degree: [derivatives(u, order)] and [derivatives2(u, order)] return
    lists of [order + 1] entries, and every entry at an index [k] with
    [degree < k <= order] is the zero vector of the curve's dimension. *)
Theorem derivatives_above_degree (U : utilities.t) (c : Curve.t) (u : Q) (order span : Z) :
  evaluable U c u span -> tabulated U c u span ->
  Curve._degree c < order ->
  exists CK CK2,
    Curve.derivatives U c u order = Ok CK
    /\ Curve.derivatives2 U c u order = Ok CK2
    /\ len CK = order + 1 /\ len CK2 = order + 1
    /\ forall k, Curve._degree c < k <= order ->
         CK !! Z.to_nat k = Some (replicateZ (Curve._dimension c) (Some 0%Q))
         /\ CK2 !! Z.to_nat k = Some (replicateZ (Curve._dimension c) (Some 0%Q)).
Proof.
  intros Heval Htab Horder.
  destruct (derivatives_above_degree_A34 U c u order span Heval Htab Horder)
    as (CK & E & Hlen & Hzero).
  destruct (derivatives2_above_degree U c u order span Heval Htab Horder)
    as (CK2 & E2 & Hlen2 & Hzero2).
  exists CK, CK2. repeat (split; [assumption|]).
  intros k Hk. split; [apply Hzero | apply Hzero2]; exact Hk.
Qed.

Lemma derivatives_above_degree_witness :
  exists CK CK2,
    Curve.derivatives utils Examples.curve (1 # 4) 4 = Ok CK
    /\ Curve.derivatives2 utils Examples.curve (1 # 4) 4 = Ok CK2
    /\ len CK = 5 /\ len CK2 = 5
    /\ forall k, 2 < k <= 4 ->
         CK !! Z.to_nat k = Some [Some 0%Q; Some 0%Q]
         /\ CK2 !! Z.to_nat k = Some [Some 0%Q; Some 0%Q].
Proof.
  apply (derivatives_above_degree utils Examples.curve (1 # 4) 4 2).
  - repeat split; try reflexivity; vm_compute; discriminate.
  - split; eexists; (split; [vm_compute; reflexivity | reflexivity]).
  - vm_compute. reflexivity.
Defined.

(** ** The two derivative algorithms agree *)

(** *** The two evaluations *)

Lemma axpy_entry_value (c : Curve.t) (coef : result Q) (b : Q)
    (accs xs : list (option Q)) (f1 f2 : nat -> Q) :
  coef = Ok b -> is_point c accs f1 -> is_point c xs f2 ->
  exists new, Curve.axpy_entry coef accs xs = Ok new
              /\ is_point c new (fun d => f1 d + b * f2 d)%Q.
Proof.
  intros -> H1 H2. unfold Curve.axpy_entry.
  apply (points_combine c _ (fun a x => a + b * x)%Q accs xs f1 f2); [| | exact H1 | exact H2].
  - intros a x. reflexivity.
  - intros a a' x x' Ha Hx. rewrite Ha, Hx. reflexivity.
Qed.

Lemma CK_init_len (c : Curve.t) (order : Z) :
  0 <= Curve._degree c -> 0 <= order + 1 ->
  exists CK, Curve.CK_init c order = Ok CK /\ len CK = order + 1.
Proof.
  intros Hd Horder. unfold Curve.CK_init.
  apply (for_range_total' (fun CK => len CK = order + 1)).
  - intros k CK Hk Hlen. rewrite setitem_Ok by lia.
    eexists. split; [reflexivity|]. unfold len in *. rewrite length_insert. exact Hlen.
  - apply len_replicateZ. lia.
Qed.

(** A loop that clears entry [k] of a list and then adds [width k] terms
    to it, for [k] from 0 to [n - 1]. *)
Lemma accumulate_loop {E} (pt : E -> (nat -> Q) -> Prop) (zero : E) (n : Z)
    (width : Z -> Z) (term : Z -> Z -> nat -> Q)
    (body : Z -> Z -> list E -> result (list E)) (T : list E) :
  (forall e f f', (forall d, (f d == f' d)%Q) -> pt e f -> pt e f') ->
  pt zero (fun _ => 0%Q) ->
  0 <= n <= len T ->
  (forall k, 0 <= k < n -> 0 <= width k) ->
  (forall k j T e f,
     0 <= k < n -> 0 <= j < width k ->
     T !! Z.to_nat k = Some e -> pt e f ->
     exists new, body k j T = Ok (<[Z.to_nat k := new]> T)
                 /\ pt new (fun d => f d + term k j d)%Q) ->
  exists T',
    for_ (range 0 n) (fun k T =>
      T <- setitem T k zero ;;
      for_ (range 0 (width k)) (body k) T) T = Ok T'
    /\ len T' = len T
    /\ forall k, 0 <= k < n ->
         exists e, T' !! Z.to_nat k = Some e
           /\ pt e (fun d => sigma 0 (width k) (fun j => term k j d)).
Proof.
  intros Hext Hzero Hn Hwidth Hbody.
  set (done := fun (k : Z) (T' : list E) =>
         exists e, T' !! Z.to_nat k = Some e
           /\ pt e (fun d => sigma 0 (width k) (fun j => term k j d))).
  destruct (for_range_total
              (fun k T' => len T' = len T /\ forall k', 0 <= k' < k -> done k' T')
              (fun k T =>
                 T <- setitem T k zero ;;
                 for_ (range 0 (width k)) (body k) T)
              0 n) with (acc := T) as (T' & E' & Hlen' & Hdone).
  - lia.
  - intros k T0 Hk (Hlen & Hprev).
    rewrite setitem_Ok by lia. simpl.
    destruct (for_range_total
                (fun j T' =>
                   len T' = len T
                   /\ (forall k', 0 <= k' < k -> done k' T')
                   /\ exists e, T' !! Z.to_nat k = Some e
                        /\ pt e (fun d => sigma 0 j (fun j' => term k j' d)))
                (body k) 0 (width k) (Hwidth k ltac:(lia)))
      with (acc := <[Z.to_nat k := zero]> T0) as (T1 & E1 & Hlen1 & Hprev1 & Hcur).
    + intros j T2 Hj (Hlen2 & Hprev2 & (e & He & Hpt)).
      destruct (Hbody k j T2 e _ ltac:(lia) Hj He Hpt) as (new & Enew & Hnew).
      eexists. split; [exact Enew|]. split; [|split].
      * unfold len in *. rewrite length_insert. exact Hlen2.
      * intros k' Hk'. destruct (Hprev2 k' Hk') as (e' & He' & Hp).
        exists e'. split; [|exact Hp]. rewrite list_lookup_insert_ne by lia. exact He'.
      * exists new. split.
        -- apply list_lookup_insert_eq. apply lookup_lt_Some in He. exact He.
        -- apply (Hext new (fun d => sigma 0 j (fun j' => term k j' d) + term k j d)%Q);
             [|exact Hnew].
           intros d. rewrite sigma_snoc by lia. reflexivity.
    + split; [|split].
      * unfold len in *. rewrite length_insert. exact Hlen.
      * intros k' Hk'. destruct (Hprev k' Hk') as (e' & He' & Hp).
        exists e'. split; [|exact Hp]. rewrite list_lookup_insert_ne by lia. exact He'.
      * exists zero. split.
        -- apply list_lookup_insert_eq. unfold len in *. lia.
        -- apply (Hext zero (fun _ => 0%Q)); [|exact Hzero].
           intros d. rewrite sigma_nil by lia. reflexivity.
    + exists T1. split; [exact E1|]. split; [exact Hlen1|].
      intros k' Hk'. destruct (Z.eq_dec k' k) as [->|Hne]; [exact Hcur|].
      apply Hprev1. lia.
  - split; [reflexivity|]. intros; lia.
  - exists T'. split; [exact E'|]. split; [exact Hlen'|]. intros k Hk. apply Hdone. lia.
Qed.

(** The main loop of [derivatives2] and of [derivatives]: entry [k] is the
    sum of the terms that its inner loop adds. *)
Lemma CK_loop_value (c : Curve.t) (du : Z) (width : Z -> Z) (term : Z -> Z -> nat -> Q)
    (body : Z -> Z -> list (list (option Q)) -> result (list (list (option Q)))) CK :
  0 <= Curve._dimension c ->
  0 <= du + 1 <= len CK ->
  (forall k, 0 <= k <= du -> 0 <= width k) ->
  (forall k j CK entry f,
     0 <= k <= du -> 0 <= j < width k ->
     CK !! Z.to_nat k = Some entry -> is_point c entry f ->
     exists new, body k j CK = Ok (<[Z.to_nat k := new]> CK)
                 /\ is_point c new (fun d => f d + term k j d)%Q) ->
  exists CK',
    for_ (range 0 (du + 1)) (fun k CK =>
      CK <- setitem CK k (Curve.zeros c) ;;
      for_ (range 0 (width k)) (body k) CK) CK = Ok CK'
    /\ forall k, 0 <= k <= du ->
         exists entry, CK' !! Z.to_nat k = Some entry
           /\ is_point c entry (fun d => sigma 0 (width k) (fun j => term k j d)).
Proof.
  intros Hdim Hdu Hwidth Hbody.
  destruct (accumulate_loop (is_point c) (Curve.zeros c) (du + 1) width term body CK)
    as (CK' & E & _ & H).
  - intros e f f' Hff. apply is_point_ext. intros d _. apply Hff.
  - apply is_point_zeros, Hdim.
  - lia.
  - intros k Hk. apply Hwidth. lia.
  - intros k j T e f Hk Hj. apply Hbody; lia.
  - exists CK'. split; [exact E|]. intros k Hk. apply H. lia.
Qed.

(** The identity behind the two algorithms: the basis functions of degree
    [degree - k] against the control points of the [k]-th derivative curve,
    and the [k]-th derivatives of the basis functions against the control
    points. *)
Lemma derivative_identity (c : Curve.t) (u : Q) (span k : Z) (d : nat) :
  (sigma 0 (Curve._degree c - k + 1)
     (fun j => Nref (Curve._knot_vector c) span u (Z.to_nat (Curve._degree c - k)) j
               * PKref c u span k j d)
   == sigma 0 (Curve._degree c + 1)
        (fun r => Dref (Curve._degree c) (Curve._knot_vector c) span u k r
                  * Pref c span r d))%Q.
Proof.
  set (t := fun j r =>
         (Fk (Curve._degree c) (Z.to_nat k)
          * Aref (Curve._degree c) (Curve._knot_vector c) span u (Z.to_nat k) r (j - r + k)
          * Nref (Curve._knot_vector c) span u (Z.to_nat (Curve._degree c - k)) j
          * Pref c span r d)%Q).
  transitivity (sigma 0 (Curve._degree c - k + 1)
                  (fun j => sigma 0 (Curve._degree c + 1) (fun r => t j r))).
  - apply sigma_ext. intros j _. unfold PKref.
    rewrite <- !sigma_scale. apply sigma_ext. intros r _. unfold t. ring.
  - rewrite sigma_exchange. apply sigma_ext. intros r _. unfold Dref, Sref.
    rewrite <- sigma_scale.
    transitivity (Pref c span r d
                  * sigma 0 (Curve._degree c - k + 1)
                      (fun j => Fk (Curve._degree c) (Z.to_nat k)
                                * Gref (Curve._degree c) (Curve._knot_vector c) span u k r j))%Q;
      [|ring].
    rewrite <- sigma_scale. apply sigma_ext. intros j _. unfold t, Gref. ring.
Qed.

Section Agreement.

Variables (c : Curve.t) (u : Q) (order span : Z).

Hypothesis ready : evaluable utils c u span.
Hypothesis dims : dimensioned c.
Hypothesis order_nonneg : 0 <= order.

Lemma dimension_nonneg : 0 <= Curve._dimension c.
Proof using ready dims.
  destruct ready as (_ & _ & _ & Hd & _ & Hwin & _).
  destruct (lookup_lt_is_Some_2 (Curve._control_points c) (Z.to_nat span)) as (cp & Hcp);
    [unfold len in *; lia|].
  unfold dimensioned in dims. rewrite Forall_forall in dims.
  rewrite <- (dims cp); [unfold len; lia|]. eapply list_elem_of_lookup_2. exact Hcp.
Qed.

(** [derivatives]: entry [k] combines the control points of the [k]-th
    derivative curve with the basis functions of degree [degree - k]. *)
Lemma derivatives_value :
  exists CK, Curve.derivatives utils c u order = Ok CK
    /\ forall k, 0 <= k <= Z.min (Curve._degree c) order ->
         exists entry, CK !! Z.to_nat k = Some entry
           /\ is_point c entry
                (fun d => sigma 0 (Curve._degree c - k + 1)
                   (fun j => Nref (Curve._knot_vector c) span u
                               (Z.to_nat (Curve._degree c - k)) j
                             * PKref c u span k j d)%Q).
Proof using All.
  pose proof dimension_nonneg as Hdim.
  destruct ready as (Hvars & Huv & Hunit & Hd & Hspan & Hwin & Hkn & Hsorted & Hnt).
  change (spec.check_uv (Some u) None = Ok tt) in Huv.
  change (spec.find_span (Curve._degree c) (Curve._knot_vector c)
            (len (Curve._control_points c)) u = Ok span) in Hspan.
  unfold Curve.derivatives. rewrite Hvars. simpl. rewrite Huv. simpl.
  destruct (CK_init_len c order) as (CK0 & ECK0 & HCK0); [lia | lia |].
  rewrite ECK0. simpl. rewrite Hspan. simpl.
  destruct (basis_functions_all_value (Curve._degree c) (Curve._knot_vector c) span u)
    as (bfuns & Eall & Hall & Hvalues); [lia | lia | lia | exact Hsorted | exact Hnt |].
  rewrite Eall. simpl.
  destruct (derivatives_ctrlpts_value c u span Hd Hwin Hkn Hsorted Hnt dims
              (Z.min (Curve._degree c) order)) as (PK & EPK & HPK); [lia|].
  rewrite EPK. simpl.
  apply (CK_loop_value c (Z.min (Curve._degree c) order)
           (fun k => Curve._degree c - k + 1)
           (fun k j d => Nref (Curve._knot_vector c) span u (Z.to_nat (Curve._degree c - k)) j
                         * PKref c u span k j d)%Q);
    [exact Hdim | lia | intros; lia |].
  intros k j CK entry f Hk Hj Hentry Hpoint.
  rewrite (getitem_Ok _ _ entry) by (lia || exact Hentry). simpl.
  destruct (PK_at_get (fun k i entry => is_point c entry (PKref c u span k i)) PK k j)
    as (row & drv & Erow & Edrv & _ & Hdrv);
    [apply HPK; lia | lia | lia |].
  rewrite Erow. simpl. rewrite Edrv. simpl.
  destruct (Hvalues j (Curve._degree c - k)) as (b & Eb & Hb); [lia | lia |].
  destruct (axpy_entry_value c _ b entry drv _ _ Eb Hpoint Hdrv) as (new & Enew & Hnew).
  unfold get2 in Enew. rewrite Enew. simpl.
  exists new. split.
  - apply setitem_Ok. apply lookup_lt_Some in Hentry. unfold len. lia.
  - refine (is_point_ext c new _ _ _ Hnew). intros d _. simpl. rewrite Hb. reflexivity.
Qed.

(** [derivatives2]: entry [k] combines the control points with the [k]-th
    derivatives of the basis functions. *)
Lemma derivatives2_value :
  exists CK, Curve.derivatives2 utils c u order = Ok CK
    /\ forall k, 0 <= k <= Z.min (Curve._degree c) order ->
         exists entry, CK !! Z.to_nat k = Some entry
           /\ is_point c entry
                (fun d => sigma 0 (Curve._degree c + 1)
                   (fun r => Dref (Curve._degree c) (Curve._knot_vector c) span u k r
                             * Pref c span r d)%Q).
Proof using All.
  pose proof dimension_nonneg as Hdim.
  destruct ready as (Hvars & Huv & Hunit & Hd & Hspan & Hwin & Hkn & Hsorted & Hnt).
  change (spec.find_span (Curve._degree c) (Curve._knot_vector c)
            (len (Curve._control_points c)) u = Ok span) in Hspan.
  unfold Curve.derivatives2. rewrite Hvars. simpl.
  unfold spec.in_unit in Hunit. apply andb_true_iff in Hunit as [Hu0 Hu1].
  rewrite Hu0, Hu1. simpl.
  destruct (CK_init_len c order) as (CK0 & ECK0 & HCK0); [lia | lia |].
  rewrite ECK0. simpl. rewrite Hspan. simpl.
  destruct (basis_functions_ders_value (Curve._degree c) (Curve._knot_vector c) span u
              Hd ltac:(lia) Hkn Hsorted Hnt (Z.min (Curve._degree c) order))
    as (bfunsders & Eders & Hders & Hvalues); [lia|].
  rewrite Eders. simpl.
  apply (CK_loop_value c (Z.min (Curve._degree c) order)
           (fun _ => Curve._degree c + 1)
           (fun k r d => Dref (Curve._degree c) (Curve._knot_vector c) span u k r
                         * Pref c span r d)%Q);
    [exact Hdim | lia | intros; lia |].
  intros k j CK entry f Hk Hj Hentry Hpoint.
  rewrite (getitem_Ok _ _ entry) by (lia || exact Hentry). simpl.
  destruct (lookup_lt_is_Some_2 (Curve._control_points c)
              (Z.to_nat (span - Curve._degree c + j))) as (cp & Hcp);
    [unfold len in *; lia|].
  rewrite (getitem_Ok _ _ cp) by (lia || exact Hcp). simpl.
  destruct (Hvalues k j) as (b & Eb & Hb); [lia | lia |].
  destruct (axpy_entry_value c _ b entry (map Some cp) _ _ Eb Hpoint
              (is_point_ctrlpt c span j cp dims ltac:(lia) Hcp)) as (new & Enew & Hnew).
  unfold get2 in Enew. rewrite Enew. simpl.
  exists new. split.
  - apply setitem_Ok. apply lookup_lt_Some in Hentry. unfold len. lia.
  - refine (is_point_ext c new _ _ _ Hnew). intros d _. simpl. rewrite Hb. reflexivity.
Qed.

End Agreement.

(** The two algorithms on a curve: for every [k] with [0 <= k <= degree]
    and [k <= order] the vectors at index [k] of the two lists are equal,
    coordinate by coordinate. *)
Lemma curve_derivatives_agree (c : Curve.t) (u : Q) (order : Z) :
  1 <= Curve._degree c ->
  Curve._degree c + 1 <= len (Curve._control_points c) ->
  spec.check_knot_vector (Curve._degree c) (Curve._knot_vector c)
    (len (Curve._control_points c)) = true ->
  in_domain (Curve._degree c) (Curve._knot_vector c)
    (len (Curve._control_points c)) u = true ->
  dimensioned c ->
  0 <= order ->
  exists CK CK2,
    Curve.derivatives utils c u order = Ok CK
    /\ Curve.derivatives2 utils c u order = Ok CK2
    /\ forall k, 0 <= k <= Curve._degree c -> k <= order ->
         exists v v2, CK !! Z.to_nat k = Some (map Some v)
                      /\ CK2 !! Z.to_nat k = Some (map Some v2)
                      /\ same v v2.
Proof.
  intros Hdeg Hn Hkv Hdom Hdims Horder.
  destruct (valid_curve_evaluable c u Hdeg Hn Hkv Hdom) as (span & Heval & _).
  destruct (derivatives_value c u order span Heval Hdims Horder) as (CK & E & HCK).
  destruct (derivatives2_value c u order span Heval Hdims Horder) as (CK2 & E2 & HCK2).
  exists CK, CK2. split; [exact E|]. split; [exact E2|].
  intros k Hk Hko.
  destruct (HCK k) as (e & He & (v & -> & Hlen & Hv)); [lia|].
  destruct (HCK2 k) as (e2 & He2 & (v2 & -> & Hlen2 & Hv2)); [lia|].
  exists v, v2. split; [exact He|]. split; [exact He2|].
  apply same_of_equal; [unfold len in *; lia|].
  intros d x y Hx Hy.
  rewrite <- (coord_lookup v d x Hx), <- (coord_lookup v2 d y Hy).
  rewrite Hv by (apply lookup_lt_Some in Hx; exact Hx).
  rewrite Hv2 by (apply lookup_lt_Some in Hy; exact Hy).
  apply derivative_identity.
Qed.

(** ** Surface.derivatives *)

Lemma is_vec_ext (dim : Z) (w : list Q) (f f' : nat -> Q) :
  (forall d, (f d == f' d)%Q) -> is_vec dim w f -> is_vec dim w f'.
Proof.
  intros Hff [Hlen Hw]. split; [exact Hlen|].
  intros d Hd. rewrite Hw by exact Hd. apply Hff.
Qed.

Lemma is_vec_zeros (dim : Z) :
  0 <= dim -> is_vec dim (replicateZ dim 0%Q) (fun _ => 0%Q).
Proof.
  intros Hdim. split; [apply len_replicateZ, Hdim|].
  intros d Hd. unfold replicateZ in *. rewrite length_replicate in Hd.
  rewrite (coord_lookup _ _ 0%Q); [reflexivity|]. apply lookup_replicate. auto.
Qed.

Lemma map_Some_inj {A} (w w' : list A) : map Some w = map Some w' -> w = w'.
Proof.
  revert w'. induction w as [|x w IH]; intros [|y w'] E; simpl in E;
    try discriminate; [reflexivity|].
  inversion E. f_equal. apply IH. assumption.
Qed.

Lemma is_point_vec (c : Curve.t) (w : list Q) (f : nat -> Q) :
  is_point c (map Some w) f <-> is_vec (Curve._dimension c) w f.
Proof.
  split.
  - intros (w' & E & Hlen & Hw). apply map_Some_inj in E. subst w'. split; assumption.
  - intros [Hlen Hw]. exists w. auto.
Qed.

Lemma axpy_value (dim : Z) (coef : result Q) (b : Q) (accs xs : list Q) (f1 f2 : nat -> Q) :
  coef = Ok b -> is_vec dim accs f1 -> is_vec dim xs f2 ->
  exists new, Curve.axpy coef accs xs = Ok new
              /\ is_vec dim new (fun d => f1 d + b * f2 d)%Q.
Proof.
  intros -> [Hlen1 H1] [Hlen2 H2]. rewrite axpy_Ok.
  eexists. split; [reflexivity|]. split.
  - unfold len in *. rewrite length_map, length_zip_with. lia.
  - intros d Hd. rewrite length_map, length_zip_with in Hd.
    destruct (lookup_lt_is_Some_2 accs d) as (a & Ha); [lia|].
    destruct (lookup_lt_is_Some_2 xs d) as (x & Hx); [lia|].
    rewrite (coord_lookup _ d (a + b * x)%Q).
    + rewrite <- (coord_lookup accs d a Ha), <- (coord_lookup xs d x Hx).
      rewrite H1, H2 by lia. reflexivity.
    + rewrite lookup_map, lookup_zip_with, Ha, Hx. reflexivity.
Qed.

Lemma grid_point (s : Surface.t) (i j : Z) :
  gridded s ->
  0 <= i < Surface._control_points_size_u s ->
  0 <= j < Surface._control_points_size_v s ->
  exists row p, Surface._control_points2D s !! Z.to_nat i = Some row
    /\ row !! Z.to_nat j = Some p
    /\ get2 (Surface._control_points2D s) i j = Ok p
    /\ is_vec (Surface._dimension s) p (Sgrid s i j).
Proof.
  intros [Hrows Hgrid] Hi Hj.
  destruct (lookup_lt_is_Some_2 (Surface._control_points2D s) (Z.to_nat i)) as (row & Hrow);
    [unfold len in *; lia|].
  rewrite Forall_forall in Hgrid.
  destruct (Hgrid row) as [Hlen Hpts]; [eapply list_elem_of_lookup_2; exact Hrow|].
  destruct (lookup_lt_is_Some_2 (A := list Q) row (Z.to_nat j)) as (p & Hp);
    [unfold len in *; lia|].
  exists row, p. split; [exact Hrow|]. split; [exact Hp|]. split.
  - unfold get2. rewrite (getitem_Ok _ _ row) by (lia || exact Hrow). simpl.
    apply getitem_Ok; [lia | exact Hp].
  - split.
    + rewrite Forall_forall in Hpts. apply Hpts. eapply list_elem_of_lookup_2. exact Hp.
    + intros d _. unfold Sgrid. unfold Surface.point in *. rewrite Hrow. simpl.
      rewrite Hp. reflexivity.
Qed.

Lemma SKL_progress_ext (s : Surface.t) (u v : Q) (span_u span_v order : Z)
    (P P' : Z -> Z -> Z) (SKL : list (list (list Q))) :
  (forall k l, 0 <= k <= Z.min (Surface._degree_u s) order ->
               0 <= l <= Z.min (Surface._degree_v s) order -> P k l = P' k l) ->
  SKL_progress s u v span_u span_v order P SKL ->
  SKL_progress s u v span_u span_v order P' SKL.
Proof.
  intros HP H k l Hk Hl. rewrite <- (HP k l Hk Hl). apply H; assumption.
Qed.

Lemma result_weaken {A} (m : result A) (P R : A -> Prop) :
  (exists a, m = Ok a /\ P a) -> (forall a, P a -> R a) -> exists a, m = Ok a /\ R a.
Proof. intros (a & E & Ha) H. exists a. auto. Qed.

Section SurfaceDerivatives.

Variables (s : Surface.t) (u v : Q) (order span_u span_v : Z).

Hypothesis ready : evaluable2 utils s u v span_u span_v.
Hypothesis order_nonneg : 0 <= order.

Lemma surface_dimension_nonneg : 0 <= Surface._dimension s.
Proof using ready.
  destruct ready as (_ & _ & Hgrid & (Hdu & _ & Hwu & _) & (Hdv & _ & Hwv & _)).
  destruct (grid_point s span_u span_v Hgrid) as (_ & p & _ & _ & _ & [Hlen _]); [lia | lia |].
  rewrite <- Hlen. unfold len. lia.
Qed.

(** The first half of a round of A3.6: the control points of the window
    against the derivatives of the basis functions of the u direction. *)
Lemma temp_value (k : Z) (bfunsders_u : list (list Q)) :
  0 <= k <= Z.min (Surface._degree_u s) order ->
  (forall r, 0 <= r <= Surface._degree_u s ->
     cell bfunsders_u k r
       (Dref (Surface._degree_u s) (Surface._knot_vector_u s) span_u u k r)) ->
  exists temp,
    for_ (range 0 (Surface._degree_v s + 1)) (fun s' temp =>
      temp <- setitem temp s' (replicateZ (Surface._dimension s) 0%Q) ;;
      for_ (range 0 (Surface._degree_u s + 1)) (fun r temp =>
        temp_s <- getitem temp s' ;;
        cp <- get2 (Surface._control_points2D s)
                (span_u - Surface._degree_u s + r) (span_v - Surface._degree_v s + s') ;;
        new <- Curve.axpy (get2 bfunsders_u k r) temp_s cp ;;
        setitem temp s' new) temp)
      (replicateZ (Surface._degree_v s + 1) ([] : list Q)) = Ok temp
    /\ forall t, 0 <= t <= Surface._degree_v s ->
         exists p, temp !! Z.to_nat t = Some p
           /\ is_vec (Surface._dimension s) p (fun d =>
                sigma 0 (Surface._degree_u s + 1) (fun r =>
                  Dref (Surface._degree_u s) (Surface._knot_vector_u s) span_u u k r
                  * Sgrid s (span_u - Surface._degree_u s + r)
                      (span_v - Surface._degree_v s + t) d)%Q).
Proof using All.
  intros Hk Hders.
  pose proof surface_dimension_nonneg as Hdim.
  destruct ready as (_ & _ & Hgrid & (Hdu & _ & Hwu & _) & (Hdv & _ & Hwv & _)).
  destruct (accumulate_loop (is_vec (Surface._dimension s))
              (replicateZ (Surface._dimension s) 0%Q)
              (Surface._degree_v s + 1)
              (fun _ => Surface._degree_u s + 1)
              (fun s' r d =>
                 Dref (Surface._degree_u s) (Surface._knot_vector_u s) span_u u k r
                 * Sgrid s (span_u - Surface._degree_u s + r)
                     (span_v - Surface._degree_v s + s') d)%Q
              (fun s' r temp =>
                 temp_s <- getitem temp s' ;;
                 cp <- get2 (Surface._control_points2D s)
                         (span_u - Surface._degree_u s + r)
                         (span_v - Surface._degree_v s + s') ;;
                 new <- Curve.axpy (get2 bfunsders_u k r) temp_s cp ;;
                 setitem temp s' new)
              (replicateZ (Surface._degree_v s + 1) ([] : list Q)))
    as (temp & E & _ & Htemp).
  - intros e f f'. apply is_vec_ext.
  - apply is_vec_zeros, Hdim.
  - rewrite len_replicateZ by lia. lia.
  - intros; lia.
  - intros s' r temp e f Hs' Hr He Hf.
    rewrite (getitem_Ok _ _ e) by (lia || exact He). simpl.
    destruct (grid_point s (span_u - Surface._degree_u s + r)
                (span_v - Surface._degree_v s + s') Hgrid)
      as (_ & cp & _ & _ & -> & Hcp); [lia | lia |].
    simpl.
    destruct (Hders r) as (b & Eb & Hb); [lia|].
    destruct (axpy_value _ _ b e cp _ _ Eb Hf Hcp) as (new & -> & Hnew). simpl.
    exists new. split.
    + apply setitem_Ok. apply lookup_lt_Some in He. unfold len. lia.
    + refine (is_vec_ext _ _ _ _ _ Hnew). intros d. simpl. rewrite Hb. reflexivity.
  - exists temp. split; [exact E|]. intros t Ht. apply Htemp. lia.
Qed.

(** The second half: one term for the entry [SKL[k][l]]. *)
Lemma SKL_step (bfunsders_v : list (list Q)) (temp : list (list Q)) (k l t : Z)
    (P : Z -> Z -> Z) (SKL : list (list (list Q))) :
  0 <= k <= Z.min (Surface._degree_u s) order ->
  0 <= l <= Z.min (Surface._degree_v s) order ->
  0 <= t <= Surface._degree_v s -> P k l = t ->
  cell bfunsders_v l t (Dref (Surface._degree_v s) (Surface._knot_vector_v s) span_v v l t) ->
  (exists p, temp !! Z.to_nat t = Some p
     /\ is_vec (Surface._dimension s) p (fun d =>
          sigma 0 (Surface._degree_u s + 1) (fun r =>
            Dref (Surface._degree_u s) (Surface._knot_vector_u s) span_u u k r
            * Sgrid s (span_u - Surface._degree_u s + r)
                (span_v - Surface._degree_v s + t) d)%Q)) ->
  table (Z.min (Surface._degree_u s) order + 1) (Z.min (Surface._degree_v s) order + 1) SKL
    = true ->
  SKL_progress s u v span_u span_v order P SKL ->
  exists SKL',
    (elems <- get2 SKL k l ;;
     temp_s <- getitem temp t ;;
     new <- Curve.axpy (get2 bfunsders_v l t) elems temp_s ;;
     set2 SKL k l new) = Ok SKL'
    /\ table (Z.min (Surface._degree_u s) order + 1) (Z.min (Surface._degree_v s) order + 1) SKL'
       = true
    /\ SKL_progress s u v span_u span_v order
         (fun k' l' => if (k' =? k) && (l' =? l) then t + 1 else P k' l') SKL'.
Proof using Type.
  intros Hk Hl Ht HP (b & Eb & Hb) (p & Hp & Hpv) Htable Hprog.
  destruct (Hprog k l Hk Hl) as (w & Ew & Hw). rewrite HP in Hw.
  rewrite Ew. simpl. rewrite (getitem_Ok _ _ p) by (lia || exact Hp). simpl.
  destruct (axpy_value _ _ b w p _ _ Eb Hw Hpv) as (new & -> & Hnew). simpl.
  destruct (set2_Ok _ _ SKL k l new Htable) as (SKL' & -> & Htable' & Ekl & Hframe);
    [lia | lia |].
  exists SKL'. split; [reflexivity|]. split; [exact Htable'|].
  intros k' l' Hk' Hl'.
  destruct (Z.eqb_spec k' k) as [->|Hkk]; [destruct (Z.eqb_spec l' l) as [->|Hll]|]; simpl.
  - exists new. split; [exact Ekl|].
    refine (is_vec_ext _ _ _ _ _ Hnew). intros d. simpl.
    rewrite (sigma_snoc 0 t) by lia. rewrite Hb. reflexivity.
  - rewrite Hframe by lia. apply Hprog; assumption.
  - rewrite Hframe by lia. apply Hprog; assumption.
Qed.

(** A3.6 returns the table [SKL]; the entries with [k + l <= order] hold
    the derivatives of the basis functions of the two directions against
    the control points. *)
(** A3.6 returns a table of [du + 1] rows of [dv + 1] entries, each the
    sum of the terms it has received. *)
Lemma surface_derivatives_progress :
  exists SKL, Surface.derivatives utils s u v order = Ok SKL
    /\ table (Z.min (Surface._degree_u s) order + 1)
             (Z.min (Surface._degree_v s) order + 1) SKL = true
    /\ SKL_progress s u v span_u span_v order (SKL_terms s order) SKL.
Proof using All.
  pose proof surface_dimension_nonneg as Hdim.
  destruct ready as (Hvars & Huv & Hgrid & (Hdu & Hsu & Hwu & Hku & Hsortu & Hntu)
                     & (Hdv & Hsv & Hwv & Hkv & Hsortv & Hntv)).
  change (spec.check_uv (Some u) (Some v) = Ok tt) in Huv.
  change (spec.find_span (Surface._degree_u s) (Surface._knot_vector_u s)
            (Surface._control_points_size_u s) u = Ok span_u) in Hsu.
  change (spec.find_span (Surface._degree_v s) (Surface._knot_vector_v s)
            (Surface._control_points_size_v s) v = Ok span_v) in Hsv.
  unfold Surface.derivatives. rewrite Hvars. simpl. rewrite Huv. simpl. rewrite Hsu. simpl.
  destruct (basis_functions_ders_value (Surface._degree_u s) (Surface._knot_vector_u s)
              span_u u Hdu ltac:(lia) Hku Hsortu Hntu (Z.min (Surface._degree_u s) order))
    as (bu & -> & _ & Hvu); [lia|].
  simpl. rewrite Hsv. simpl.
  destruct (basis_functions_ders_value (Surface._degree_v s) (Surface._knot_vector_v s)
              span_v v Hdv ltac:(lia) Hkv Hsortv Hntv (Z.min (Surface._degree_v s) order))
    as (bv & -> & _ & Hvv); [lia|].
  simpl.
  set (du := Z.min (Surface._degree_u s) order) in *.
  set (dv := Z.min (Surface._degree_v s) order) in *.
  set (Pk := fun k k' l' : Z =>
         if (k' <? k) && (l' <=? Z.min (order - k') dv) then Surface._degree_v s + 1 else 0).
  set (Pl := fun k l k' l' : Z =>
         if (k' =? k) && (l' <? l) then Surface._degree_v s + 1 else Pk k k' l').
  set (Pt := fun k l t k' l' : Z =>
         if (k' =? k) && (l' =? l) then t else Pl k l k' l').
  set (inv := fun (P : Z -> Z -> Z) (SKL : list (list (list Q))) =>
         table (du + 1) (dv + 1) SKL = true
         /\ SKL_progress s u v span_u span_v order P SKL).
  apply (result_weaken _ (inv (Pk (du + 1)))).
  - apply (for_range_total (fun k => inv (Pk k))); [lia | |].
    + intros k SKL1 Hk (Ht1 & Hp1).
      destruct (temp_value k bu) as (temp & -> & Htemp); [lia | intros r Hr; apply Hvu; lia |].
      simpl.
      apply (result_weaken _ (inv (Pl k (Z.min (order - k) dv + 1)))).
      * apply (for_range_total (fun l => inv (Pl k l))); [lia | |].
        -- intros l SKL2 Hl (Ht2 & Hp2).
           apply (result_weaken _ (inv (Pt k l (Surface._degree_v s + 1)))).
           ++ apply (for_range_total (fun t => inv (Pt k l t))); [lia | |].
              ** intros t SKL3 Ht (Ht3 & Hp3).
                 destruct (SKL_step bv temp k l t (Pt k l t) SKL3)
                   as (SKL4 & E4 & Ht4 & Hp4);
                   [lia | lia | lia | | apply Hvv; lia | apply Htemp; lia | exact Ht3
                    | exact Hp3 |].
                 { unfold Pt. case_bools; simpl; lia. }
                 exists SKL4. split; [exact E4|]. split; [exact Ht4|].
                 refine (SKL_progress_ext _ _ _ _ _ _ _ _ _ _ Hp4).
                 intros k' l' Hk' Hl'. unfold Pt. case_bools; simpl; lia.
              ** split; [exact Ht2|].
                 refine (SKL_progress_ext _ _ _ _ _ _ _ _ _ _ Hp2).
                 intros k' l' Hk' Hl'. unfold Pt, Pl, Pk. case_bools; simpl; lia.
           ++ intros SKL3 (Ht3 & Hp3). split; [exact Ht3|].
              refine (SKL_progress_ext _ _ _ _ _ _ _ _ _ _ Hp3).
              intros k' l' Hk' Hl'. unfold Pt, Pl. case_bools; simpl; lia.
        -- split; [exact Ht1|].
           refine (SKL_progress_ext _ _ _ _ _ _ _ _ _ _ Hp1).
           intros k' l' Hk' Hl'. unfold Pl. case_bools; simpl; lia.
      * intros SKL2 (Ht2 & Hp2). split; [exact Ht2|].
        refine (SKL_progress_ext _ _ _ _ _ _ _ _ _ _ Hp2).
        intros k' l' Hk' Hl'. unfold Pl, Pk. case_bools; simpl; lia.
    + split; [apply table_replicateZ; lia|].
      intros k l Hk Hl. exists (replicateZ (Surface._dimension s) 0%Q). split.
      * unfold get2.
        rewrite (getitem_Ok _ _ (replicateZ (dv + 1) (replicateZ (Surface._dimension s) 0%Q)))
          by (lia || (apply lookup_replicateZ; lia)).
        simpl. apply getitem_Ok; [lia|]. apply lookup_replicateZ. lia.
      * refine (is_vec_ext _ _ _ _ _ (is_vec_zeros _ Hdim)).
        intros d. unfold Pk. case_bools; simpl; try lia; rewrite sigma_nil by lia; reflexivity.
  - intros SKL (Htable & Hprog). split; [exact Htable|].
    refine (SKL_progress_ext _ _ _ _ _ _ _ _ _ _ Hprog).
    intros k l Hk Hl. unfold Pk, SKL_terms. fold dv. case_bools; simpl; lia.
Qed.

Lemma surface_derivatives_value :
  exists SKL, Surface.derivatives utils s u v order = Ok SKL
    /\ forall k l,
         0 <= k <= Z.min (Surface._degree_u s) order ->
         0 <= l <= Z.min (order - k) (Z.min (Surface._degree_v s) order) ->
         exists w, get2 SKL k l = Ok w
           /\ is_vec (Surface._dimension s) w (SKLref s u v span_u span_v k l).
Proof using All.
  destruct surface_derivatives_progress as (SKL & E & _ & Hprog).
  exists SKL. split; [exact E|].
  intros k l Hk Hl.
  destruct (Hprog k l) as (w & Ew & Hw); [lia | lia |].
  exists w. split; [exact Ew|]. unfold SKLref.
  replace (SKL_terms s order k l) with (Surface._degree_v s + 1) in Hw; [exact Hw|].
  unfold SKL_terms. case_bools; simpl; lia.
Qed.

End SurfaceDerivatives.

(** ** The derivatives of a surface, direction by direction *)

(** [derivatives] in terms of the derivatives of the basis functions. *)
Lemma derivatives_by_basis (c : Curve.t) (u : Q) (order span : Z) :
  evaluable utils c u span -> dimensioned c -> 0 <= order ->
  exists CK, Curve.derivatives utils c u order = Ok CK
    /\ forall k, 0 <= k <= Z.min (Curve._degree c) order ->
         exists w, CK !! Z.to_nat k = Some (map Some w)
           /\ is_vec (Curve._dimension c) w (fun d =>
                sigma 0 (Curve._degree c + 1) (fun r =>
                  Dref (Curve._degree c) (Curve._knot_vector c) span u k r
                  * Pref c span r d)%Q).
Proof.
  intros Hready Hdims Horder.
  destruct (derivatives_value c u order span Hready Hdims Horder) as (CK & E & HCK).
  exists CK. split; [exact E|]. intros k Hk.
  destruct (HCK k Hk) as (e & He & (w & -> & Hw)).
  exists w. split; [exact He|].
  refine (is_vec_ext _ _ _ _ _ Hw). intros d. apply derivative_identity.
Qed.

Lemma finite_choice {A} (n : nat) (R : Z -> A -> Prop) :
  (forall j, 0 <= j < Z.of_nat n -> exists q, R j q) ->
  exists qs : list A, length qs = n
    /\ forall j, 0 <= j < Z.of_nat n -> exists q, qs !! Z.to_nat j = Some q /\ R j q.
Proof.
  induction n as [|n IH]; intros H.
  - exists []. split; [reflexivity|]. intros j Hj. lia.
  - destruct IH as (qs & Hlen & Hqs); [intros j Hj; apply H; lia|].
    destruct (H (Z.of_nat n)) as (q & Hq); [lia|].
    exists (qs ++ [q]). split; [rewrite length_app; simpl; lia|].
    intros j Hj. destruct (Z.eq_dec j (Z.of_nat n)) as [->|Hne].
    + exists q. split; [|exact Hq].
      rewrite Nat2Z.id, lookup_app_r by lia.
      replace (n - length qs)%nat with 0%nat by lia. reflexivity.
    + destruct (Hqs j) as (q' & Hq' & HR); [lia|].
      exists q'. split; [|exact HR]. rewrite lookup_app_l by lia. exact Hq'.
Qed.

Lemma surface_check_variables_inv (s : Surface.t) :
  Surface._check_variables s = Ok tt ->
  Surface._degree_u s <> 0 /\ Surface._degree_v s <> 0.
Proof.
  unfold Surface._check_variables.
  destruct (Z.eqb_spec (Surface._degree_u s) 0); simpl;
    destruct (Z.eqb_spec (Surface._degree_v s) 0); simpl;
    destruct (negb (nonempty (Surface._control_points s)));
    destruct (negb (nonempty (Surface._knot_vector_u s))
              || negb (nonempty (Surface._knot_vector_v s)));
    simpl; intros H; try discriminate; auto.
Qed.

Lemma curve_check_variables (c : Curve.t) :
  Curve._degree c <> 0 -> 0 < len (Curve._control_points c) ->
  0 < len (Curve._knot_vector c) -> Curve._check_variables c = Ok tt.
Proof.
  intros Hd Hcp Hkv. unfold Curve._check_variables.
  destruct (Z.eqb_spec (Curve._degree c) 0); [contradiction|].
  destruct (Curve._control_points c); [unfold len in Hcp; simpl in Hcp; lia|].
  destruct (Curve._knot_vector c); [unfold len in Hkv; simpl in Hkv; lia|].
  reflexivity.
Qed.

Lemma check_uv_inv (u v : Q) :
  spec.check_uv (Some u) (Some v) = Ok tt ->
  spec.in_unit u = true /\ spec.in_unit v = true.
Proof.
  unfold spec.check_uv.
  destruct (spec.in_unit u); simpl; [|discriminate].
  destruct (spec.in_unit v); simpl; [auto | discriminate].
Qed.

Lemma default_map_lookup {A B} (f : A -> B) (l : list A) (n : nat) (a0 : A) (b0 : B) :
  f a0 = b0 -> default b0 (map f l !! n) = f (default a0 (l !! n)).
Proof.
  intros <-. rewrite lookup_map. destruct (l !! n); reflexivity.
Qed.

Lemma v_curve_Pref (s : Surface.t) (Qs : list (list Q)) (span_v t : Z) (d : nat) (q : list Q) :
  Qs !! Z.to_nat (span_v - Surface._degree_v s + t) = Some q ->
  Pref (v_curve s Qs) span_v t d = coord q d.
Proof.
  intros H. unfold Pref. f_equal.
  change (default [] (Qs !! Z.to_nat (span_v - Surface._degree_v s + t)) = q).
  rewrite H. reflexivity.
Qed.

Section Reconstruction.

Variables (s : Surface.t) (u v : Q) (order span_u span_v : Z).

Hypothesis ready : evaluable2 utils s u v span_u span_v.
Hypothesis order_nonneg : 0 <= order.

(** The curve through a column of control points can be evaluated. *)
Lemma u_curve_evaluable (j : Z) :
  0 <= j < Surface._control_points_size_v s ->
  evaluable utils (u_curve s j) u span_u /\ dimensioned (u_curve s j).
Proof using ready.
  intros Hj.
  destruct ready as (Hvars & Huv & Hgrid & (Hdu & Hsu & Hwu & Hku & Hsortu & Hntu) & _).
  destruct (surface_check_variables_inv s Hvars) as [Hu0 _].
  destruct (check_uv_inv u v Huv) as [Hunit _].
  assert (Hlen : len (Curve._control_points (u_curve s j)) = Surface._control_points_size_u s).
  { simpl. unfold len. rewrite length_map. apply Hgrid. }
  split.
  - split; [apply curve_check_variables;
            [exact Hu0 | rewrite Hlen; lia | unfold len in *; simpl; lia]|].
    split; [simpl; unfold spec.check_uv; rewrite Hunit; reflexivity|].
    split; [exact Hunit|]. split; [exact Hdu|].
    split; [rewrite Hlen; exact Hsu|]. split; [rewrite Hlen; exact Hwu|].
    split; [exact Hku|]. split; [exact Hsortu | exact Hntu].
  - unfold dimensioned. simpl. rewrite Forall_forall. intros p Hp.
    apply list_elem_of_In, in_map_iff in Hp as (row & <- & Hrow).
    apply list_elem_of_In, list_elem_of_lookup in Hrow as (i & Hi).
    destruct (grid_point s (Z.of_nat i) j Hgrid) as (row' & p & Hrow' & Hp & _ & [Hlenp _]);
      [apply lookup_lt_Some in Hi; destruct Hgrid as [Hg _]; unfold len in Hg;
       unfold Surface.point in *; lia | lia |].
    rewrite Nat2Z.id in Hrow'. unfold Surface.point in *.
    assert (row' = row) as -> by congruence. rewrite Hp. exact Hlenp.
Qed.

Lemma u_curve_Pref (j r : Z) (d : nat) :
  0 <= j -> 0 <= r ->
  Pref (u_curve s j) span_u r d = Sgrid s (span_u - Surface._degree_u s + r) j d.
Proof using ready.
  intros Hj Hr.
  destruct ready as (_ & _ & _ & (Hdu & _ & Hwu & _) & _).
  unfold Pref, Sgrid, u_curve. cbn [Curve._control_points Curve._degree].
  f_equal.
  apply (default_map_lookup (fun row : list (list Q) => default [] (row !! Z.to_nat j))
           (Surface._control_points2D s) _ [] []). reflexivity.
Qed.

(** The [k]-th derivatives at [u] of the curves through the columns. *)
Lemma columns_value (k : Z) :
  0 <= k <= Z.min (Surface._degree_u s) order ->
  exists Qs : list (list Q),
    len Qs = Surface._control_points_size_v s
    /\ forall j, 0 <= j < Surface._control_points_size_v s ->
         exists q, Qs !! Z.to_nat j = Some q
           /\ (exists CKj, Curve.derivatives utils (u_curve s j) u order = Ok CKj
                           /\ CKj !! Z.to_nat k = Some (map Some q))
           /\ is_vec (Surface._dimension s) q (fun d =>
                sigma 0 (Surface._degree_u s + 1) (fun r =>
                  Dref (Surface._degree_u s) (Surface._knot_vector_u s) span_u u k r
                  * Sgrid s (span_u - Surface._degree_u s + r) j d)%Q).
Proof using All.
  intros Hk.
  assert (Hsize : 0 <= Surface._control_points_size_v s).
  { destruct ready as (_ & _ & _ & _ & (Hdv & _ & Hwv & _)). lia. }
  destruct (finite_choice (Z.to_nat (Surface._control_points_size_v s))
              (fun j (q : list Q) =>
                 (exists CKj, Curve.derivatives utils (u_curve s j) u order = Ok CKj
                              /\ CKj !! Z.to_nat k = Some (map Some q))
                 /\ is_vec (Surface._dimension s) q (fun d =>
                      sigma 0 (Surface._degree_u s + 1) (fun r =>
                        Dref (Surface._degree_u s) (Surface._knot_vector_u s) span_u u k r
                        * Sgrid s (span_u - Surface._degree_u s + r) j d)%Q)))
    as (Qs & Hlen & HQs).
  - intros j Hj.
    destruct (u_curve_evaluable j) as [Hready Hdims]; [lia|].
    destruct (derivatives_by_basis (u_curve s j) u order span_u Hready Hdims order_nonneg)
      as (CKj & E & HCKj).
    destruct (HCKj k Hk) as (q & Hq & Hv).
    exists q. split; [exists CKj; split; [exact E | exact Hq]|].
    refine (is_vec_ext _ _ _ _ _ Hv). intros d. simpl.
    apply sigma_ext. intros r Hr. rewrite u_curve_Pref by lia. reflexivity.
  - exists Qs. split; [unfold len; lia|]. intros j Hj. apply HQs. lia.
Qed.

(** [Surface.derivatives] agrees with the derivatives that
    [Curve.derivatives] gives direction by direction. *)
Lemma surface_agreement :
  exists SKL, Surface.derivatives utils s u v order = Ok SKL
    /\ forall k l, 0 <= k <= Surface._degree_u s -> 0 <= l <= Surface._degree_v s ->
         k + l <= order ->
         exists w w', reconstructed utils s u v order k l w
                      /\ get2 SKL k l = Ok w' /\ same w w'.
Proof using All.
  destruct (surface_derivatives_value s u v order span_u span_v ready order_nonneg)
    as (SKL & E & HSKL).
  exists SKL. split; [exact E|]. intros k l Hk Hl Hkl.
  destruct (columns_value k) as (Qs & HlenQs & HQs); [lia|].
  destruct ready as (Hvars & Huv & Hgrid & (Hdu & Hsu & Hwu & Hku & Hsortu & Hntu)
                     & (Hdv & Hsv & Hwv & Hkv & Hsortv & Hntv)).
  destruct (surface_check_variables_inv s Hvars) as [_ Hv0].
  destruct (check_uv_inv u v Huv) as [_ Hunit].
  assert (Hready : evaluable utils (v_curve s Qs) v span_v).
  { assert (Hlen : len (Curve._control_points (v_curve s Qs))
                   = Surface._control_points_size_v s) by exact HlenQs.
    unfold evaluable. rewrite Hlen.
    split; [apply curve_check_variables;
            [exact Hv0 | rewrite Hlen; lia | unfold len in *; simpl; lia]|].
    split; [simpl; unfold spec.check_uv; rewrite Hunit; reflexivity|].
    split; [exact Hunit|]. split; [exact Hdv|].
    split; [exact Hsv|]. split; [exact Hwv|].
    split; [exact Hkv|]. split; [exact Hsortv | exact Hntv]. }
  assert (Hdims : dimensioned (v_curve s Qs)).
  { unfold dimensioned. simpl. rewrite Forall_forall. intros q Hq.
    apply list_elem_of_lookup in Hq as (j & Hj).
    destruct (HQs (Z.of_nat j)) as (q' & Hq' & _ & [Hlenq _]);
      [apply lookup_lt_Some in Hj; unfold len in HlenQs; lia|].
    rewrite Nat2Z.id in Hq'. assert (q' = q) as -> by congruence. exact Hlenq. }
  destruct (derivatives_by_basis (v_curve s Qs) v order span_v Hready Hdims order_nonneg)
    as (CK & ECK & HCK).
  destruct (HCK l) as (w & Hw & [Hlenw Hwv']); [simpl; lia|].
  destruct (HSKL k l) as (w' & Ew' & [Hlenw' Hw'v]); [lia | lia |].
  exists w, w'. split; [|split; [exact Ew'|]].
  - exists Qs, CK. split; [exact HlenQs|]. split; [|split; [exact ECK | exact Hw]].
    intros j Hj. destruct (HQs j Hj) as (q & Hq & (CKj & Ej & Hkj) & _).
    exists CKj, q. auto.
  - simpl in Hlenw. apply same_of_equal; [unfold len in *; lia|].
    intros d x y Hx Hy.
    rewrite <- (coord_lookup w d x Hx), <- (coord_lookup w' d y Hy).
    rewrite Hwv' by (apply lookup_lt_Some in Hx; exact Hx).
    rewrite Hw'v by (apply lookup_lt_Some in Hy; exact Hy).
    unfold SKLref. simpl. apply sigma_ext. intros t Ht.
    apply Qmult_comp; [reflexivity|].
    destruct (HQs (span_v - Surface._degree_v s + t)) as (q & Hq & _ & [Hlenq Hqv]); [lia|].
    rewrite (v_curve_Pref s Qs span_v t d q Hq).
    apply Hqv. apply lookup_lt_Some in Hx. unfold len in *. lia.
Qed.

End Reconstruction.

Lemma in_domain_unit (degree : Z) (values : list Q) (n : Z) (u : Q) :
  in_domain degree values n u = true -> spec.in_unit u = true.
Proof.
  unfold in_domain. intros Hdom.
  destruct (spec.knot _ _); [|discriminate]. destruct (spec.knot _ _); [|discriminate].
  repeat (apply andb_true_iff in Hdom as [Hdom ?]).
  unfold spec.in_unit. apply andb_true_iff. auto.
Qed.

(** On the utilities modelled from the specification a valid surface can
    be evaluated at every [(u, v)] of its domain. *)
Lemma valid_surface_evaluable (s : Surface.t) (u v : Q) :
  valid_surface s u v -> exists span_u span_v, evaluable2 utils s u v span_u span_v.
Proof.
  intros ((Hdu & Hdv) & (Hnu & Hnv) & Hcp & Hgrid & (Hkvu & Hkvv) & (Hdomu & Hdomv)).
  pose proof (check_knot_vector_true _ _ _ Hkvu) as [Hlenu Hsortu].
  pose proof (check_knot_vector_true _ _ _ Hkvv) as [Hlenv Hsortv].
  destruct (find_span_total (Surface._degree_u s) (Surface._knot_vector_u s)
              (Surface._control_points_size_u s) u) as (span_u & Hsu);
    [lia | lia | lia | exact Hdomu |].
  destruct (find_span_total (Surface._degree_v s) (Surface._knot_vector_v s)
              (Surface._control_points_size_v s) v) as (span_v & Hsv);
    [lia | lia | lia | exact Hdomv |].
  pose proof (find_span_Ok_inv _ _ _ _ _ Hsu) as [Hku Hntu].
  pose proof (find_span_Ok_inv _ _ _ _ _ Hsv) as [Hkv Hntv].
  exists span_u, span_v. split; [|split; [|split; [exact Hgrid|split]]].
  - unfold Surface._check_variables.
    destruct (Z.eqb_spec (Surface._degree_u s) 0); [lia|].
    destruct (Z.eqb_spec (Surface._degree_v s) 0); [lia|].
    rewrite Hcp. simpl.
    destruct (Surface._knot_vector_u s); [unfold len in Hlenu; simpl in Hlenu; lia|].
    destruct (Surface._knot_vector_v s); [unfold len in Hlenv; simpl in Hlenv; lia|].
    reflexivity.
  - simpl. unfold spec.check_uv.
    rewrite (in_domain_unit _ _ _ _ Hdomu), (in_domain_unit _ _ _ _ Hdomv). reflexivity.
  - split; [lia|]. split; [exact Hsu|]. split; [exact Hku|]. split; [lia|].
    split; [exact Hsortu | exact Hntu].
  - split; [lia|]. split; [exact Hsv|]. split; [exact Hkv|]. split; [lia|].
    split; [exact Hsortv | exact Hntv].
Qed.

(** C6, in exact arithmetic, and in binary64 on the scenario.  In exact
    arithmetic: for a valid curve, a parameter [u] of its
    domain and an order that is not negative, [derivatives(u, order)]
    (Algorithm A3.4, by the derivative control points) and
    [derivatives2(u, order)] (Algorithm A3.2, by the derivatives of the
    basis functions) return, and for every [k] with [0 <= k <= degree] and
    [k <= order] the vectors at index [k] are equal, coordinate by
    coordinate.  For a valid surface and a pair [(u, v)] of its domain,
    [Surface.derivatives] (Algorithm A3.6, by the derivatives of the basis
    functions, the only derivative method of the class) returns, and for
    every [k <= degree_u] and [l <= degree_v] with [k + l <= order] the
    vector [SKL[k][l]] is equal to the derivative that the derivative
    control points give direction by direction: [Curve.derivatives] on the
    curves through the columns of control points, and again on the curve
    through the results.  In binary64, on the curve of the scenario at
    [u = 0.25] both [derivatives(u, 2)] and [derivatives2(u, 2)] return
    (1.0, 1.5), (4.0, 4.0), (0.0, -16.0). *)
Theorem derivative_algorithms_agree :
  (forall (c : Curve.t) (u : Q) (s : Surface.t) (su sv : Q) (order : Z),
     valid_curve c u -> valid_surface s su sv -> 0 <= order ->
     (exists CK CK2,
        Curve.derivatives utils c u order = Ok CK
        /\ Curve.derivatives2 utils c u order = Ok CK2
        /\ forall k, 0 <= k <= Curve._degree c -> k <= order ->
             exists w w2, CK !! Z.to_nat k = Some (map Some w)
                          /\ CK2 !! Z.to_nat k = Some (map Some w2)
                          /\ same w w2)
     /\ (exists SKL,
           Surface.derivatives utils s su sv order = Ok SKL
           /\ forall k l, 0 <= k <= Surface._degree_u s -> 0 <= l <= Surface._degree_v s ->
                k + l <= order ->
                exists w w', reconstructed utils s su sv order k l w
                             /\ get2 SKL k l = Ok w' /\ same w w'))
  /\ (Binary64.Curve.derivatives Binary64.Curve.scenario 0.25 2
      = Ok [[Some 1; Some 1.5]; [Some 4; Some 4]; [Some 0; Some (-16)]]%float
      /\ Binary64.Curve.derivatives2 Binary64.Curve.scenario 0.25 2
         = Ok [[Some 1; Some 1.5]; [Some 4; Some 4]; [Some 0; Some (-16)]]%float).
Proof.
  split; [|split; vm_compute; reflexivity].
  intros c u s su sv order (Hdeg & Hn & Hkv & Hdom & Hdims) Hs Horder. split.
  - apply curve_derivatives_agree; assumption.
  - destruct (valid_surface_evaluable s su sv Hs) as (span_u & span_v & Hready).
    apply (surface_agreement s su sv order span_u span_v Hready Horder).
Qed.

Lemma derivative_algorithms_agree_witness :
  (exists CK CK2,
     Curve.derivatives utils Examples.curve (1 # 4) 2 = Ok CK
     /\ Curve.derivatives2 utils Examples.curve (1 # 4) 2 = Ok CK2
     /\ forall k, 0 <= k <= 2 -> k <= 2 ->
          exists w w2, CK !! Z.to_nat k = Some (map Some w)
                       /\ CK2 !! Z.to_nat k = Some (map Some w2)
                       /\ same w w2)
  /\ (exists SKL,
        Surface.derivatives utils Examples.arch (1 # 4) (1 # 2) 2 = Ok SKL
        /\ forall k l, 0 <= k <= 2 -> 0 <= l <= 1 -> k + l <= 2 ->
             exists w w', reconstructed utils Examples.arch (1 # 4) (1 # 2) 2 k l w
                          /\ get2 SKL k l = Ok w' /\ same w w').
Proof.
  apply (proj1 derivative_algorithms_agree
           Examples.curve (1 # 4) Examples.arch (1 # 4) (1 # 2) 2).
  - split; [simpl; lia|]. split; [vm_compute; discriminate|].
    split; [reflexivity|]. split; [reflexivity | repeat constructor].
  - split; [split; simpl; lia|]. split; [split; vm_compute; discriminate|].
    split; [reflexivity|]. split; [split; [reflexivity | repeat constructor]|].
    split; split; reflexivity.
  - lia.
Defined.

(** C6, as it is stated, fails in binary64: the two algorithms round
    differently.  On the curve of degree 2 with the knot vector
    [0,0,0,0.25,0.5,1,1,1] and the control points 1e9, 3e9, 2e9, 5e9, 4e9,
    at [u = 0.875] the first derivative is -1000000000.0 by [derivatives]
    and -1000000000.0000019 by [derivatives2]: they differ by 1.9e-6, more
    than 1e-9. *)
Lemma derivative_algorithms_binary64 :
  let c := Binary64.Curve.scalar 2 [0; 0; 0; 0.25; 0.5; 1; 1; 1]%float
             [1e9; 3e9; 2e9; 5e9; 4e9]%float in
  Binary64.Curve.derivatives c 0.875 2
  = Ok [[Some 4312500000]; [Some (-1000000000)]; [Some (-24000000000)]]%float
  /\ Binary64.Curve.derivatives2 c 0.875 2
     = Ok [[Some 4312500000]; [Some (-0x1.dcd650000001p+29)];
           [Some (-24000000000)]]%float
  /\ PrimFloat.ltb Binary64.tol
       (PrimFloat.abs (-1000000000 - (-0x1.dcd650000001p+29))) = true.
Proof. cbv zeta. repeat split; vm_compute; reflexivity. Qed.

(** * Further properties of the two classes *)

(** ** Curve.evaluate and the cached curve points *)

(** The loop of [evaluate] appends the points of [curvept], which does not
    read the cached points. *)
Lemma curve_evaluate_loop (U : utilities.t) (c : Curve.t) (us : list Q) (done : list Curve.point) :
  let o := for_each us (fun u =>
             c <~ get ;;
             cpt <~ lift (Curve.curvept U c u false) ;;
             put (Curve.with_curve_points c (Curve._curve_points c ++ [cpt])))
             (Curve.with_curve_points c done) in
  warned o = []
  /\ match comprehension (fun u => Curve.curvept U c u false) us with
     | Ok pts => res o = Ok tt /\ post o = Curve.with_curve_points c (done ++ pts)
     | Raise e => res o = Raise e
     end.
Proof.
  revert done. induction us as [|u us IH]; intros done; cbn zeta.
  - simpl. rewrite app_nil_r. auto.
  - cbn [for_each comprehension].
    destruct (Curve.curvept U c u false) as [cpt|e] eqn:E.
    + rewrite seq_Ok with (a := tt) (s' := Curve.with_curve_points c (done ++ [cpt])) (w := []).
      2:{ rewrite seq_get.
          change (Curve.curvept U (Curve.with_curve_points c done) u false)
            with (Curve.curvept U c u false).
          rewrite E, seq_lift_Ok. reflexivity. }
      specialize (IH (done ++ [cpt])). cbn zeta in IH.
      destruct IH as (Hw & IH). cbn [res post warned bind]. rewrite Hw.
      split; [reflexivity|].
      destruct (comprehension _ us) as [pts|e']; cbn [bind].
      * rewrite <- app_assoc in IH. exact IH.
      * exact IH.
    + rewrite seq_Raise with (e := e) (s' := Curve.with_curve_points c done) (w := []).
      2:{ rewrite seq_get.
          change (Curve.curvept U (Curve.with_curve_points c done) u false)
            with (Curve.curvept U c u false).
          rewrite E, seq_lift_Raise. reflexivity. }
      cbn. auto.
Qed.

Lemma curve_evaluate_eq (U : utilities.t) (c : Curve.t) :
  Curve._check_variables c = Ok tt ->
  Curve.evaluate U c
  = for_each (utilities.frange U 0 1 (Curve._delta c)) (fun u =>
      c <~ get ;;
      cpt <~ lift (Curve.curvept U c u false) ;;
      put (Curve.with_curve_points c (Curve._curve_points c ++ [cpt])))
      (Curve.with_curve_points c []).
Proof.
  intros Hvars. unfold Curve.evaluate.
  rewrite seq_get, Hvars, seq_lift_Ok.
  rewrite seq_Ok with (a := tt) (s' := Curve.with_curve_points c []) (w := [])
    by apply reset_curve_eq.
  cbn [app]. apply outcome_eta.
Qed.

(** X1.  [Curve.evaluate()] on a curve that passes [_check_variables]
    stores the points [curvept(u)] for the parameters of [frange(0, 1,
    delta)], in that order and with nothing else changed, and returns;
    when [curvept] raises at one of the parameters, the call raises the
    same exception. *)
Theorem curve_evaluate_samples (U : utilities.t) (c : Curve.t) :
  Curve._check_variables c = Ok tt ->
  (forall pts,
     comprehension (fun u => Curve.curvept U c u false)
       (utilities.frange U 0 1 (Curve._delta c)) = Ok pts ->
     Curve.evaluate U c = Outcome (Ok tt) (Curve.with_curve_points c pts) [])
  /\ (forall e,
     comprehension (fun u => Curve.curvept U c u false)
       (utilities.frange U 0 1 (Curve._delta c)) = Raise e ->
     res (Curve.evaluate U c) = Raise e).
Proof.
  intros Hvars. rewrite curve_evaluate_eq by exact Hvars.
  destruct (curve_evaluate_loop U c (utilities.frange U 0 1 (Curve._delta c)) [])
    as (Hw & H).
  cbn zeta in Hw, H.
  split.
  - intros pts E. rewrite E in H. destruct H as (Hr & Hp).
    rewrite <- (outcome_eta (for_each _ _ _)), Hr, Hp, Hw. reflexivity.
  - intros e E. rewrite E in H. exact H.
Qed.

Lemma curve_evaluate_samples_witness :
  Curve._check_variables Examples.curve = Ok tt
  /\ exists pts,
       length pts = 5%nat
       /\ Curve.evaluate utils Examples.curve
          = Outcome (Ok tt) (Curve.with_curve_points Examples.curve pts) [].
Proof.
  split; [reflexivity|].
  eexists. split.
  2:{ apply (curve_evaluate_samples utils Examples.curve); [reflexivity|].
      vm_compute. reflexivity. }
  reflexivity.
Defined.

(** [evaluate()] writes the cached points and nothing else. *)
Lemma curve_evaluate_writes_cache (U : utilities.t) (c : Curve.t) :
  exists pts, post (Curve.evaluate U c) = Curve.with_curve_points c pts.
Proof.
  unfold Curve.evaluate. rewrite seq_get.
  destruct (Curve._check_variables c).
  2:{ rewrite seq_lift_Raise. exists (Curve._curve_points c). destruct c; reflexivity. }
  rewrite seq_lift_Ok.
  rewrite seq_Ok with (a := tt) (s' := Curve.with_curve_points c []) (w := [])
    by apply reset_curve_eq.
  cbn [post].
  apply (for_each_invariant (fun c' => exists pts, c' = Curve.with_curve_points c pts)).
  - intros u c1 (pts & ->). rewrite seq_get.
    destruct (Curve.curvept U _ u false) as [cpt|e].
    + rewrite seq_lift_Ok. cbn. eexists. reflexivity.
    + rewrite seq_lift_Raise. cbn. eexists. reflexivity.
  - exists []. reflexivity.
Qed.

(** [evaluate()] does not read the cached points. *)
Lemma curve_evaluate_ignores_cache (U : utilities.t) (c : Curve.t) (pts : list Curve.point) :
  Curve._check_variables c = Ok tt ->
  Curve.evaluate U (Curve.with_curve_points c pts) = Curve.evaluate U c.
Proof.
  intros Hvars. unfold Curve.evaluate. rewrite !seq_get.
  cbn [Curve._delta Curve.with_curve_points].
  change (Curve._check_variables (Curve.with_curve_points c pts))
    with (Curve._check_variables c).
  rewrite Hvars, !seq_lift_Ok.
  rewrite seq_Ok with (s := Curve.with_curve_points c pts) (a := tt)
    (s' := Curve.with_curve_points c []) (w := [])
    by apply (reset_curve_eq (Curve.with_curve_points c pts)).
  rewrite seq_Ok with (s := c) (a := tt) (s' := Curve.with_curve_points c []) (w := [])
    by apply reset_curve_eq.
  reflexivity.
Qed.

(** Evaluating an evaluated curve again gives the same curve. *)
Lemma curve_evaluate_idempotent (U : utilities.t) (c0 c : Curve.t) :
  Curve.evaluate U c0 = Outcome (Ok tt) c [] ->
  Curve.evaluate U c = Outcome (Ok tt) c [].
Proof.
  intros H.
  assert (Hvars : Curve._check_variables c0 = Ok tt).
  { unfold Curve.evaluate in H. rewrite seq_get in H.
    destruct (Curve._check_variables c0) as [[]|e]; [reflexivity|].
    rewrite seq_lift_Raise in H. discriminate. }
  destruct (curve_evaluate_writes_cache U c0) as (pts & Hpts).
  rewrite H in Hpts. cbn in Hpts. subst c.
  rewrite curve_evaluate_ignores_cache by exact Hvars. exact H.
Qed.

(** X2.  The getter of [curvepts] is lazy.  With cached points it returns
    them and calls nothing, whatever the state of the curve; right after an
    [evaluate()] that returned it returns the points of that call and leaves
    the curve as it is; with no cached points it is [evaluate()] followed
    by the read of the cache, and raises what [evaluate()] raises. *)
Theorem curvepts_is_lazy (U : utilities.t) (c : Curve.t) :
  (Curve._curve_points c <> [] ->
     Curve.curvepts U c = Outcome (Ok (Curve._curve_points c)) c [])
  /\ (forall c0, Curve.evaluate U c0 = Outcome (Ok tt) c [] ->
     Curve.curvepts U c = Outcome (Ok (Curve._curve_points c)) c [])
  /\ (Curve._curve_points c = [] ->
      (forall c', Curve.evaluate U c = Outcome (Ok tt) c' [] ->
         Curve.curvepts U c = Outcome (Ok (Curve._curve_points c')) c' [])
      /\ (forall e, res (Curve.evaluate U c) = Raise e ->
         res (Curve.curvepts U c) = Raise e)).
Proof.
  assert (Hfull : Curve._curve_points c <> [] ->
            Curve.curvepts U c = Outcome (Ok (Curve._curve_points c)) c []).
  { intros Hne. unfold Curve.curvepts. rewrite seq_get.
    destruct (Curve._curve_points c) as [|p pts] eqn:E; [contradiction|].
    cbn [nonempty negb]. rewrite seq_pass, seq_get, E. reflexivity. }
  assert (Hempty : Curve._curve_points c = [] ->
            forall c', Curve.evaluate U c = Outcome (Ok tt) c' [] ->
            Curve.curvepts U c = Outcome (Ok (Curve._curve_points c')) c' []).
  { intros Hnil c' Hev. unfold Curve.curvepts. rewrite seq_get, Hnil.
    cbn [nonempty negb].
    rewrite seq_Ok with (a := tt) (s' := c') (w := []) by exact Hev.
    rewrite seq_get. reflexivity. }
  split; [exact Hfull | split; [|split]].
  - intros c0 Hev.
    destruct (list_eq_nil_dec (Curve._curve_points c)) as [E|E].
    + apply Hempty; [exact E|].
      apply (curve_evaluate_idempotent U c0 c Hev).
    + apply Hfull, E.
  - exact (Hempty H).
  - intros e He. unfold Curve.curvepts. rewrite seq_get, H.
    cbn [nonempty negb]. unfold seq_ at 1. rewrite He. reflexivity.
Qed.

Lemma curvepts_is_lazy_witness :
  Curve.curvepts utils (post (Curve.evaluate utils Examples.curve))
  = Outcome (Ok (Curve._curve_points (post (Curve.evaluate utils Examples.curve))))
      (post (Curve.evaluate utils Examples.curve)) []
  /\ res (Curve.curvepts utils Curve.__init__) = Raise ValueError.
Proof.
  split.
  - destruct (curvepts_is_lazy utils (post (Curve.evaluate utils Examples.curve)))
      as (_ & H & _).
    apply (H Examples.curve). vm_compute. reflexivity.
  - destruct (curvepts_is_lazy utils Curve.__init__) as (_ & _ & H).
    apply H; reflexivity.
Defined.

(** ** The setters of a curve *)

Lemma degree_setter_eq (value : Z) (c : Curve.t) :
  Curve.degree_setter value c
  = if value <? 0 then Outcome (Raise ValueError) c []
    else Outcome (Ok tt) (Curve.with_degree (Curve.with_curve_points c []) value) [].
Proof.
  unfold Curve.degree_setter. rewrite seq_guard.
  destruct (value <? 0); [reflexivity|].
  rewrite seq_Ok with (a := tt) (s' := Curve.with_curve_points c []) (w := [])
    by apply reset_curve_eq.
  rewrite seq_get. reflexivity.
Qed.

Lemma delta_setter_eq (value : Q) (c : Curve.t) :
  Curve.delta_setter value c
  = if Qle_bool value 0 || Qle_bool 1 value then Outcome (Raise ValueError) c []
    else Outcome (Ok tt) (Curve.with_delta (Curve.with_curve_points c []) value) [].
Proof.
  unfold Curve.delta_setter. rewrite seq_guard.
  destruct (Qle_bool value 0 || Qle_bool 1 value); [reflexivity|].
  rewrite seq_Ok with (a := tt) (s' := Curve.with_curve_points c []) (w := [])
    by apply reset_curve_eq.
  rewrite seq_get. reflexivity.
Qed.

Lemma knotvector_setter_eq (K : utilities.knots) (value : list Q) (c : Curve.t) :
  Curve.knotvector_setter K value c
  = if (Curve._degree c =? 0) || (len (Curve._control_points c) =? 0)
    then Outcome (Raise ValueError) c []
    else match utilities.normalize_knot_vector K value with
         | Raise e => Outcome (Raise e) c []
         | Ok value_normalized =>
             if utilities.check_knot_vector K (Curve._degree c) value_normalized
                  (len (Curve._control_points c))
             then Outcome (Ok tt)
                    (Curve.with_knot_vector (Curve.with_curve_points c []) value_normalized) []
             else Outcome (Raise ValueError) c []
         end.
Proof.
  unfold Curve.knotvector_setter. rewrite seq_get, seq_guard.
  destruct ((Curve._degree c =? 0) || (len (Curve._control_points c) =? 0)); [reflexivity|].
  destruct (utilities.normalize_knot_vector K value) as [vn|e]; [|reflexivity].
  rewrite seq_lift_Ok, seq_guard.
  destruct (utilities.check_knot_vector K _ vn _); [|reflexivity].
  cbn [negb].
  rewrite seq_Ok with (a := tt) (s' := Curve.with_curve_points c []) (w := [])
    by apply reset_curve_eq.
  rewrite seq_get. reflexivity.
Qed.

(** ** Comparisons of binary64 numbers *)

Lemma SFcompare_antisym (x y : spec_float) :
  SFcompare y x = option_map CompOpp (SFcompare x y).
Proof.
  destruct x as [s| s| |s m e], y as [s'| s'| |s' m' e']; simpl; try reflexivity;
    try (destruct s; reflexivity); try (destruct s'; reflexivity);
    try (destruct s, s'; reflexivity).
  destruct s, s'; simpl; try reflexivity.
  - rewrite (Z.compare_antisym e e'). destruct (e ?= e')%Z; simpl; try reflexivity.
    rewrite (Pos.compare_cont_antisym m m' Eq). reflexivity.
  - rewrite (Z.compare_antisym e e'). destruct (e ?= e')%Z; simpl; try reflexivity.
    rewrite (Pos.compare_cont_antisym m m' Eq). simpl. reflexivity.
Qed.

Lemma SFcompare_refl (x : spec_float) :
  SFcompare x x = match x with S754_nan => None | _ => Some Eq end.
Proof.
  destruct x as [s| s| |s m e]; simpl; try reflexivity.
  - destruct s; reflexivity.
  - rewrite Z.compare_refl. change (PosDef.Pos.compare_cont Eq m m) with (m ?= m)%positive.
    rewrite Pos.compare_refl. destruct s; reflexivity.
Qed.

(** [value <= 0 or value >= 1] is false of the numbers strictly between 0
    and 1 and of [NaN], and of nothing else. *)
Lemma delta_test (value : float) :
  PrimFloat.leb value 0 || PrimFloat.leb 1 value = false
  <-> PrimFloat.is_nan value = true
      \/ (PrimFloat.ltb 0 value = true /\ PrimFloat.ltb value 1 = true).
Proof.
  unfold PrimFloat.is_nan.
  rewrite !leb_spec, !ltb_spec, FloatAxioms.eqb_spec. unfold SFleb, SFltb, SFeqb.
  rewrite (SFcompare_antisym (Prim2SF value) (Prim2SF 0)).
  rewrite (SFcompare_antisym (Prim2SF value) (Prim2SF 1)).
  rewrite SFcompare_refl.
  destruct (Prim2SF value) as [s| s| |s m e] eqn:E.
  - simpl. split; [discriminate | intros [H|[H _]]; discriminate].
  - destruct s; simpl; (split; [discriminate | intros [H|[H1 H2]]; discriminate]).
  - simpl. split; [left; reflexivity | reflexivity].
  - destruct (SFcompare (S754_finite s m e) (Prim2SF 1)) as [[]|] eqn:E1;
      destruct s; simpl;
      (split; [try discriminate; intros _; right; split; reflexivity
              | intros [H|[H1 H2]]; try discriminate; try reflexivity]).
Qed.

(** The setter of [delta] of a curve, in binary64. *)
Lemma binary64_delta_setter_eq (value : float) (c : Binary64.Curve.t) :
  Binary64.Curve.delta_setter value c
  = if PrimFloat.leb value 0 || PrimFloat.leb 1 value
    then Outcome (Raise ValueError) c []
    else Outcome (Ok tt)
           (Binary64.Curve.with_delta (Binary64.Curve.with_curve_points c []) value) [].
Proof.
  unfold Binary64.Curve.delta_setter. rewrite seq_guard.
  destruct (PrimFloat.leb value 0 || PrimFloat.leb 1 value); [reflexivity|].
  destruct c as [d kv cps dl [|p pts] dim]; reflexivity.
Qed.

(** X3.  The setters of [degree], [order], [delta] and [knotvector] of a
    curve change nothing when they raise: the curve, its cached points
    included, is as it was.  When they return, the cached points are
    empty, the attribute reads back as the value stored ([order] as the
    value given, [knotvector] as the normalized vector) and the other
    attributes are as they were.  The setter of [delta] returns, and stores
    the value, exactly when [value <= 0 or value >= 1] is false: for a
    number, when it lies strictly between 0 and 1; in binary64 also for
    [NaN], which it stores as the delta of the curve. *)
Theorem curve_setters_atomic (K : utilities.knots) (c : Curve.t) :
  (forall value e,
     (res (Curve.degree_setter value c) = Raise e -> post (Curve.degree_setter value c) = c)
     /\ (res (Curve.order_setter value c) = Raise e -> post (Curve.order_setter value c) = c))
  /\ (forall value e,
     res (Curve.delta_setter value c) = Raise e -> post (Curve.delta_setter value c) = c)
  /\ (forall value e,
     res (Curve.knotvector_setter K value c) = Raise e ->
     post (Curve.knotvector_setter K value c) = c)
  /\ (forall value,
     res (Curve.order_setter value c) = Ok tt ->
     1 <= value
     /\ Curve.order (post (Curve.order_setter value c)) = value
     /\ post (Curve.order_setter value c)
        = Curve.with_degree (Curve.with_curve_points c []) (value - 1))
  /\ (forall value,
     (res (Curve.delta_setter value c) = Ok tt <-> (0 < value)%Q /\ (value < 1)%Q)
     /\ (res (Curve.delta_setter value c) = Ok tt ->
         post (Curve.delta_setter value c)
         = Curve.with_delta (Curve.with_curve_points c []) value))
  /\ (forall (b : Binary64.Curve.t) (value : float),
     (forall e, res (Binary64.Curve.delta_setter value b) = Raise e ->
        post (Binary64.Curve.delta_setter value b) = b)
     /\ (res (Binary64.Curve.delta_setter value b) = Ok tt
         <-> PrimFloat.is_nan value = true
             \/ (PrimFloat.ltb 0 value = true /\ PrimFloat.ltb value 1 = true))
     /\ (res (Binary64.Curve.delta_setter value b) = Ok tt ->
         post (Binary64.Curve.delta_setter value b)
         = Binary64.Curve.with_delta (Binary64.Curve.with_curve_points b []) value))
  /\ (forall b : Binary64.Curve.t,
     res (Binary64.Curve.delta_setter PrimFloat.nan b) = Ok tt
     /\ PrimFloat.is_nan
          (Binary64.Curve._delta (post (Binary64.Curve.delta_setter PrimFloat.nan b)))
        = true)
  /\ (forall value,
     res (Curve.knotvector_setter K value c) = Ok tt ->
     exists value_normalized,
       utilities.normalize_knot_vector K value = Ok value_normalized
       /\ utilities.check_knot_vector K (Curve._degree c) value_normalized
            (len (Curve._control_points c)) = true
       /\ Curve._degree c <> 0 /\ Curve._control_points c <> []
       /\ post (Curve.knotvector_setter K value c)
          = Curve.with_knot_vector (Curve.with_curve_points c []) value_normalized).
Proof.
  split; [|split; [|split; [|split; [|split; [|split; [|split]]]]]].
  - intros value e. unfold Curve.order_setter. rewrite !degree_setter_eq.
    split; [destruct (value <? 0) | destruct (value - 1 <? 0)];
      cbn; (reflexivity || discriminate).
  - intros value e. rewrite delta_setter_eq.
    destruct (_ || _); cbn; (reflexivity || discriminate).
  - intros value e. rewrite knotvector_setter_eq.
    destruct (_ || _); [reflexivity|].
    destruct (utilities.normalize_knot_vector K value); [|reflexivity].
    destruct (utilities.check_knot_vector K _ _ _); cbn; (reflexivity || discriminate).
  - intros value. unfold Curve.order_setter. rewrite degree_setter_eq.
    destruct (Z.ltb_spec (value - 1) 0); cbn; [discriminate|].
    intros _. unfold Curve.order. cbn. split; [lia | split; [lia | reflexivity]].
  - intros value. rewrite delta_setter_eq.
    destruct (Qle_bool value 0) eqn:E0; cbn.
    { split; [|discriminate]. split; [discriminate|]. intros [H _].
      apply Qle_bool_iff in E0. lra. }
    destruct (Qle_bool 1 value) eqn:E1; cbn.
    { split; [|discriminate]. split; [discriminate|]. intros [_ H].
      apply Qle_bool_iff in E1. lra. }
    split; [|reflexivity]. split; [|reflexivity]. intros _. split.
    + apply Qnot_le_lt. intros H. apply Qle_bool_iff in H. congruence.
    + apply Qnot_le_lt. intros H. apply Qle_bool_iff in H. congruence.
  - intros b value. rewrite binary64_delta_setter_eq.
    pose proof (delta_test value) as Ht.
    destruct (PrimFloat.leb value 0 || PrimFloat.leb 1 value); cbn.
    + split; [reflexivity|]. split; [|discriminate].
      split; [discriminate|]. intros H. apply Ht in H. discriminate.
    + split; [discriminate|]. split; [|reflexivity].
      split; [|reflexivity]. intros _. apply Ht. reflexivity.
  - intros b. rewrite binary64_delta_setter_eq. split; reflexivity.
  - intros value. rewrite knotvector_setter_eq.
    destruct (Z.eqb_spec (Curve._degree c) 0); cbn [orb]; [discriminate|].
    destruct (Z.eqb_spec (len (Curve._control_points c)) 0); cbn [orb]; [discriminate|].
    destruct (utilities.normalize_knot_vector K value) as [vn|e]; [|discriminate].
    destruct (utilities.check_knot_vector K _ vn _) eqn:E; [|discriminate].
    intros _. exists vn. repeat split; try assumption.
    intros Hnil. rewrite Hnil in *. contradiction.
Qed.

Lemma curve_setters_atomic_witness :
  post (Curve.order_setter 0 Examples.curve) = Examples.curve
  /\ post (Curve.delta_setter 1 Examples.curve) = Examples.curve
  /\ Curve.order (post (Curve.order_setter 4 Examples.curve)) = 4
  /\ post (Binary64.Curve.delta_setter 1.5 Binary64.Curve.scenario)
     = Binary64.Curve.scenario
  /\ post (Binary64.Curve.delta_setter 0.5 Binary64.Curve.scenario)
     = Binary64.Curve.with_delta
         (Binary64.Curve.with_curve_points Binary64.Curve.scenario []) 0.5.
Proof.
  pose (K := {| utilities.normalize_knot_vector := fun v => Ok v;
                utilities.check_knot_vector := spec.check_knot_vector |}).
  destruct (curve_setters_atomic K Examples.curve) as (H1 & H2 & _ & H4 & _ & H6 & _).
  split; [|split; [|split; [|split]]].
  - apply (H1 0 ValueError). reflexivity.
  - apply (H2 1%Q ValueError). reflexivity.
  - apply (H4 4). reflexivity.
  - apply (proj1 (H6 Binary64.Curve.scenario 1.5%float) ValueError). reflexivity.
  - apply (proj2 (proj2 (H6 Binary64.Curve.scenario 0.5%float))). reflexivity.
Defined.

(** ** The [ctrlpts] setter of a curve, accepted input *)

(** The loop of the setter stores every point when none has more
    coordinates than the dimension. *)
Lemma ctrlpts_loop_stores (value : list (list Q)) (c : Curve.t) :
  Forall (fun coord => len coord <= Curve._dimension c) value ->
  for_each value (fun coord =>
    c <~ get ;;
    (if (len coord <? 0) || (len coord >? Curve._dimension c)
     then raise ValueError else pass) ;;~
    put (Curve.with_control_points c (Curve._control_points c ++ [coord]))) c
  = Outcome (Ok tt) (Curve.with_control_points c (Curve._control_points c ++ value)) [].
Proof.
  revert c. induction value as [|g value IH]; intros c Hall; simpl.
  - rewrite app_nil_r. destruct c; reflexivity.
  - inversion Hall as [|? ? Hg Hall']; subst.
    rewrite seq_Ok with (a := tt)
      (s' := Curve.with_control_points c (Curve._control_points c ++ [g])) (w := []).
    + rewrite IH by exact Hall'. simpl. rewrite <- app_assoc. reflexivity.
    + rewrite seq_get, seq_guard.
      assert (E : (len g <? 0) || (len g >? Curve._dimension c) = false).
      { apply orb_false_iff; split.
        - apply Z.ltb_ge. unfold len. lia.
        - rewrite Z.gtb_ltb. apply Z.ltb_ge. lia. }
      rewrite E. reflexivity.
Qed.

(** A list of points all within the dimension, or its first point beyond
    it. *)
Lemma first_oversized (dim : Z) (value : list (list Q)) :
  Forall (fun coord => len coord <= dim) value
  \/ exists good bad rest,
       value = good ++ bad :: rest
       /\ Forall (fun coord => len coord <= dim) good
       /\ dim < len bad.
Proof.
  induction value as [|g value IH]; [left; constructor|].
  destruct (Z_le_gt_dec (len g) dim) as [Hg|Hg].
  - destruct IH as [IH | (good & bad & rest & -> & Hgood & Hbad)].
    + left. constructor; assumption.
    + right. exists (g :: good), bad, rest. repeat split; [constructor; assumption | exact Hbad].
  - right. exists [], g, value. repeat split; [constructor | lia].
Qed.

(** X4.  The setter of [ctrlpts] of a curve returns exactly when the list
    has at least [degree + 1] points and no point has more coordinates than
    the dimension (a point with fewer coordinates, or none, is accepted).
    It then stores the list as given, which the getter returns, empties the
    cached points and leaves the degree, the knot vector and [delta] as
    they were. *)
Theorem ctrlpts_setter_accepts (c : Curve.t) (value : list (list Q)) :
  (res (Curve.ctrlpts_setter value c) = Ok tt
   <-> Curve._degree c + 1 <= len value
       /\ Forall (fun coord => len coord <= Curve._dimension c) value)
  /\ (res (Curve.ctrlpts_setter value c) = Ok tt ->
      Curve.ctrlpts_setter value c
      = Outcome (Ok tt) (Curve.with_control_points (Curve.with_curve_points c []) value) []
      /\ Curve.ctrlpts (post (Curve.ctrlpts_setter value c)) = value).
Proof.
  assert (Hyes : Curve._degree c + 1 <= len value ->
            Forall (fun coord => len coord <= Curve._dimension c) value ->
            Curve.ctrlpts_setter value c
            = Outcome (Ok tt)
                (Curve.with_control_points (Curve.with_curve_points c []) value) []).
  { intros Hlen Hall. unfold Curve.ctrlpts_setter.
    rewrite seq_get, seq_guard.
    apply Z.ltb_ge in Hlen. rewrite Hlen.
    rewrite seq_Ok with (a := tt) (s' := Curve.with_curve_points c []) (w := [])
      by apply reset_curve_eq.
    rewrite seq_Ok with (a := tt)
      (s' := Curve.with_control_points (Curve.with_curve_points c []) []) (w := [])
      by apply reset_ctrlpts_eq.
    rewrite (ctrlpts_loop_stores value) by exact Hall. reflexivity. }
  assert (Hno : res (Curve.ctrlpts_setter value c) = Ok tt ->
            Curve._degree c + 1 <= len value
            /\ Forall (fun coord => len coord <= Curve._dimension c) value).
  { intros Hres.
    destruct (Z_lt_le_dec (len value) (Curve._degree c + 1)) as [Hlen|Hlen].
    { exfalso. unfold Curve.ctrlpts_setter in Hres.
      rewrite seq_get, seq_guard in Hres.
      apply Z.ltb_lt in Hlen. rewrite Hlen in Hres. discriminate. }
    split; [exact Hlen|].
    destruct (first_oversized (Curve._dimension c) value)
      as [Hall | (good & bad & rest & -> & Hgood & Hbad)]; [exact Hall|].
    exfalso. unfold Curve.ctrlpts_setter in Hres.
    rewrite seq_get, seq_guard in Hres.
    apply Z.ltb_ge in Hlen. rewrite Hlen in Hres.
    rewrite seq_Ok with (a := tt) (s' := Curve.with_curve_points c []) (w := []) in Hres
      by apply reset_curve_eq.
    rewrite seq_Ok with (a := tt)
      (s' := Curve.with_control_points (Curve.with_curve_points c []) []) (w := []) in Hres
      by apply reset_ctrlpts_eq.
    rewrite ctrlpts_loop_stops in Hres; [discriminate | exact Hgood | exact Hbad]. }
  split; [split|].
  - exact Hno.
  - intros [Hlen Hall]. rewrite Hyes by assumption. reflexivity.
  - intros Hres. destruct (Hno Hres) as [Hlen Hall].
    rewrite Hyes by assumption. split; reflexivity.
Qed.

Lemma ctrlpts_setter_accepts_witness :
  Curve.ctrlpts_setter [[5; 5]; [6]; []; [7; 7]]%Q Examples.curve
  = Outcome (Ok tt)
      (Curve.with_control_points (Curve.with_curve_points Examples.curve [])
         [[5; 5]; [6]; []; [7; 7]]%Q) []
  /\ Curve.ctrlpts (post (Curve.ctrlpts_setter [[5; 5]; [6]; []; [7; 7]]%Q Examples.curve))
     = [[5; 5]; [6]; []; [7; 7]]%Q.
Proof.
  apply (ctrlpts_setter_accepts Examples.curve [[5; 5]; [6]; []; [7; 7]]%Q).
  reflexivity.
Defined.

(** ** Loops that collect *)

(** [for x in l: acc.append(f(x))] is a comprehension. *)
Lemma for_append {X B} (f : X -> result B) (l : list X) (acc : list B) :
  for_ l (fun x acc => y <- f x ;; Ok (acc ++ [y])) acc
  = (ys <- comprehension f l ;; Ok (acc ++ ys)).
Proof.
  revert acc. induction l as [|x l IH]; intros acc; simpl.
  - rewrite app_nil_r. reflexivity.
  - destruct (f x) as [y|e]; simpl; [|reflexivity].
    rewrite IH. destruct (comprehension f l) as [ys|e]; simpl; [|reflexivity].
    rewrite <- app_assoc. reflexivity.
Qed.

(** The slice [l[a + off : b + off]], read item by item. *)
Lemma comprehension_slice {A} (l : list A) (off a b : Z) :
  0 <= a + off -> a <= b -> b + off <= len l ->
  comprehension (fun j => getitem l (j + off)) (range a b)
  = Ok (take (Z.to_nat (b - a)) (drop (Z.to_nat (a + off)) l)).
Proof.
  intros Ha Hab Hb. remember (Z.to_nat (b - a)) as n eqn:Hn.
  revert a Ha Hab Hn. induction n as [|n IH]; intros a Ha Hab Hn.
  - rewrite range_nil by lia. reflexivity.
  - rewrite range_cons by lia. simpl.
    destruct (lookup_lt_is_Some_2 l (Z.to_nat (a + off))) as [x Hx];
      [unfold len in Hb; lia|].
    rewrite (getitem_Ok l (a + off) x) by (exact Ha || exact Hx). simpl.
    rewrite IH by lia. simpl.
    rewrite (drop_S l x (Z.to_nat (a + off))) by exact Hx. simpl.
    replace (Z.to_nat (a + 1 + off)) with (S (Z.to_nat (a + off))) by lia.
    reflexivity.
Qed.

(** ** Surface.set_ctrlpts, accepted input *)

Lemma grid_row_Ok (ctrlpts : list (list Q)) (size_v i : Z) :
  0 <= i -> 0 <= size_v -> (i + 1) * size_v <= len ctrlpts ->
  for_ (range 0 size_v) (fun j ctrlpts_v =>
    x <- getitem ctrlpts (j + i * size_v) ;; Ok (ctrlpts_v ++ [x])) []
  = Ok (grid_row ctrlpts size_v i).
Proof.
  intros Hi Hv Hlen.
  rewrite (for_append (fun j => getitem ctrlpts (j + i * size_v))).
  rewrite comprehension_slice by nia. simpl.
  unfold grid_row. repeat f_equal; lia.
Qed.

Lemma grid_loop (s0 : Surface.t) (ctrlpts cps : list (list Q)) (G : list (list (list Q)))
    (su sv size_v a b : Z) :
  0 <= a <= b -> 0 <= size_v -> b * size_v <= len ctrlpts ->
  for_each (range a b) (fun i =>
    ctrlpts_v <~ lift (for_ (range 0 size_v) (fun j ctrlpts_v =>
                   x <- getitem ctrlpts (j + i * size_v) ;;
                   Ok (ctrlpts_v ++ [x])) []) ;;
    s <~ get ;;
    put (Surface.with_ctrlpts s (Surface._control_points s)
           (Surface._control_points2D s ++ [ctrlpts_v])
           (Surface._control_points_size_u s) (Surface._control_points_size_v s)))
    (Surface.with_ctrlpts s0 cps G su sv)
  = Outcome (Ok tt)
      (Surface.with_ctrlpts s0 cps (G ++ map (grid_row ctrlpts size_v) (range a b)) su sv) [].
Proof.
  intros Hab Hv Hlen. remember (Z.to_nat (b - a)) as n eqn:Hn.
  revert a G Hab Hn. induction n as [|n IH]; intros a G Hab Hn.
  - rewrite range_nil by lia. simpl. rewrite app_nil_r. reflexivity.
  - rewrite range_cons by lia. cbn [for_each map].
    rewrite seq_Ok with (a := tt)
      (s' := Surface.with_ctrlpts s0 cps (G ++ [grid_row ctrlpts size_v a]) su sv) (w := []).
    + rewrite IH by lia. cbn. rewrite <- app_assoc. reflexivity.
    + rewrite grid_row_Ok by nia. rewrite seq_lift_Ok, seq_get. reflexivity.
Qed.

Lemma lookup_range (a b : Z) (n : nat) :
  Z.of_nat n < b - a -> range a b !! n = Some (a + Z.of_nat n).
Proof.
  intros H. unfold range. rewrite list_lookup_fmap.
  rewrite lookup_seq_lt by lia. reflexivity.
Qed.

Lemma length_range (a b : Z) : a <= b -> len (range a b) = b - a.
Proof. intros H. unfold len, range. rewrite length_map, length_seq. lia. Qed.

Lemma grid_row_lookup (ctrlpts : list (list Q)) (size_v i j : Z) :
  0 <= i -> 0 <= j < size_v ->
  grid_row ctrlpts size_v i !! Z.to_nat j = ctrlpts !! Z.to_nat (j + i * size_v).
Proof.
  intros Hi Hj. unfold grid_row.
  rewrite lookup_take_lt by lia. rewrite lookup_drop. f_equal. nia.
Qed.

Lemma grid_row_length (ctrlpts : list (list Q)) (size_v i : Z) :
  0 <= i -> 0 <= size_v -> (i + 1) * size_v <= len ctrlpts ->
  len (grid_row ctrlpts size_v i) = size_v.
Proof.
  intros Hi Hv Hlen. unfold grid_row, len in *.
  rewrite length_take, length_drop. nia.
Qed.

Lemma gridded_shaped (s : Surface.t) :
  gridded s ->
  shaped (Surface._control_points_size_u s) (Surface._control_points_size_v s)
    (Surface._control_points2D s).
Proof.
  intros [Hrows Hgrid]. split; [exact Hrows|].
  eapply Forall_impl; [exact Hgrid|]. intros row [H _]. exact H.
Qed.

(** The rows of the grid, one after the other, are the flat list. *)
Lemma concat_grid_rows (ctrlpts : list (list Q)) (size_v a b : Z) :
  0 <= a <= b -> 0 <= size_v ->
  concat (map (grid_row ctrlpts size_v) (range a b))
  = take (Z.to_nat ((b - a) * size_v)) (drop (Z.to_nat (a * size_v)) ctrlpts).
Proof.
  intros Hab Hv. remember (Z.to_nat (b - a)) as n eqn:Hn.
  revert a Hab Hn. induction n as [|n IH]; intros a Hab Hn.
  - rewrite range_nil by lia. replace (b - a) with 0 by lia. reflexivity.
  - rewrite range_cons by lia. cbn [map concat]. rewrite IH by lia.
    unfold grid_row.
    replace (Z.to_nat ((a + 1) * size_v))
      with (Z.to_nat (a * size_v) + Z.to_nat size_v)%nat by nia.
    rewrite <- drop_drop, take_take_drop. f_equal. nia.
Qed.

(** X5.  [set_ctrlpts(ctrlpts, size_u, size_v)] on a surface of degrees at
    least 1, with [size_u > degree_u], [size_v > degree_v], every point of
    [dimension] coordinates and at least [size_u * size_v] points, returns:
    the flat list is stored as given, the sizes are set, the cached points
    are empty, and the 2D grid has [size_u] rows of [size_v] points with
    [ctrlpts2d[i][j] == ctrlpts[j + i * size_v]] (the v index varies
    first).  Degrees, knot vectors and [delta] are as they were.  With
    exactly [size_u * size_v] points the flat list is the grid row by row.
    The grid is appended to [_control_points2D], which [_reset_ctrlpts]
    empties only when control points are stored: the precondition on the
    old grid. *)
Theorem set_ctrlpts_builds_grid (s : Surface.t) (ctrlpts : list (list Q)) (size_u size_v : Z) :
  1 <= Surface._degree_u s -> 1 <= Surface._degree_v s ->
  Surface._degree_u s + 1 <= size_u -> Surface._degree_v s + 1 <= size_v ->
  Forall (fun cpt => len cpt = Surface._dimension s) ctrlpts ->
  size_u * size_v <= len ctrlpts ->
  (Surface._control_points s = [] -> Surface._control_points2D s = []) ->
  exists s',
    Surface.set_ctrlpts ctrlpts size_u size_v s = Outcome (Ok tt) s' []
    /\ s' = Surface.with_ctrlpts (Surface.with_surface_points s []) ctrlpts
              (Surface.ctrlpts2d s') size_u size_v
    /\ gridded s'
    /\ (forall i j, 0 <= i < size_u -> 0 <= j < size_v ->
         exists p, get2 (Surface.ctrlpts2d s') i j = Ok p
                   /\ getitem (Surface.ctrlpts s') (j + i * size_v) = Ok p)
    /\ (len ctrlpts = size_u * size_v -> in_step s').
Proof.
  intros Hdu Hdv Hsu Hsv Hdim Hlen Hold.
  set (G := map (grid_row ctrlpts size_v) (range 0 size_u)).
  exists (Surface.with_ctrlpts (Surface.with_surface_points s []) ctrlpts G size_u size_v).
  assert (HG : forall i, 0 <= i < size_u ->
            G !! Z.to_nat i = Some (grid_row ctrlpts size_v i)).
  { intros i Hi. unfold G. rewrite list_lookup_fmap, lookup_range by lia.
    simpl. do 2 f_equal. lia. }
  assert (Hgrid : gridded (Surface.with_ctrlpts (Surface.with_surface_points s []) ctrlpts G
                             size_u size_v)).
  2: split; [|split; [reflexivity | split; [exact Hgrid | split]]].
  2:{ unfold Surface.set_ctrlpts.
    rewrite seq_Ok with (a := tt) (s' := Surface.with_surface_points s []) (w := [])
      by apply reset_surface_eq.
    assert (Hc : post (Surface._reset_ctrlpts (Surface.with_surface_points s [])) = cleared s).
    { unfold cleared. rewrite reset_surface_eq. reflexivity. }
    rewrite seq_Ok with (a := tt) (s' := cleared s) (w := [])
      by (rewrite reset_ctrlpts_surface, Hc; reflexivity).
    destruct (cleared_degrees s) as (Hu & Hv & Hd).
    rewrite seq_get, seq_guard, Hu, Hv.
    destruct (Z.eqb_spec (Surface._degree_u s) 0); [lia|].
    destruct (Z.eqb_spec (Surface._degree_v s) 0); [lia|]. cbn [orb].
    rewrite seq_guard. destruct (Z.ltb_spec size_u (Surface._degree_u s + 1)); [lia|].
    rewrite seq_guard. destruct (Z.ltb_spec size_v (Surface._degree_v s + 1)); [lia|].
    rewrite seq_Ok with (a := tt) (s' := cleared s) (w := []).
    2:{ rewrite dimension_check, Hd.
        assert (E : forallb (fun cpt => len cpt =? Surface._dimension s) ctrlpts = true).
        { apply forallb_forall. intros cpt Hin. apply Z.eqb_eq.
          rewrite Forall_forall in Hdim. apply Hdim, list_elem_of_In, Hin. }
        rewrite E. reflexivity. }
    rewrite seq_put.
    assert (E : Surface.with_ctrlpts (cleared s) ctrlpts
                  (Surface._control_points2D (cleared s)) size_u size_v
                = Surface.with_ctrlpts (Surface.with_surface_points s []) ctrlpts []
                    size_u size_v).
    { unfold cleared. rewrite reset_surface_eq. cbn [post].
      unfold Surface._reset_ctrlpts. cbn [Surface._control_points Surface.with_surface_points].
      destruct (Surface._control_points s) as [|p ps] eqn:Ecp; cbn [nonempty].
      - cbn. rewrite (Hold eq_refl). reflexivity.
      - reflexivity. }
    cbn [app]. rewrite E.
    match goal with
    | |- context [for_each ?l ?body ?st] =>
        assert (HL : for_each l body st
                     = Outcome (Ok tt)
                         (Surface.with_ctrlpts (Surface.with_surface_points s []) ctrlpts
                            ([] ++ G) size_u size_v) [])
          by (apply (grid_loop (Surface.with_surface_points s []) ctrlpts ctrlpts []
                       size_u size_v size_v 0 size_u); lia);
        rewrite HL
    end.
    reflexivity. }
  - split.
    + cbn. unfold G. unfold len. rewrite length_map.
      pose proof (length_range 0 size_u) as Hr. unfold len in Hr. lia.
    + cbn. apply Forall_forall. intros row Hrow.
      apply list_elem_of_lookup_1 in Hrow as (n & Hn).
      assert (Hn' : Z.of_nat n < size_u).
      { apply lookup_lt_Some in Hn. unfold G in Hn.
        rewrite length_map in Hn. pose proof (length_range 0 size_u). unfold len in *. lia. }
      rewrite <- (Nat2Z.id n), HG in Hn by lia. inversion Hn; subst row.
      split; [apply grid_row_length; nia|].
      unfold grid_row. apply Forall_take, Forall_drop. exact Hdim.
  - intros i j Hi Hj.
    change (exists p, get2 G i j = Ok p /\ getitem ctrlpts (j + i * size_v) = Ok p).
    destruct (lookup_lt_is_Some_2 ctrlpts (Z.to_nat (j + i * size_v))) as [p Hp];
      [unfold len in *; nia|].
    exists p. split.
    + unfold get2. rewrite (getitem_Ok G i (grid_row ctrlpts size_v i)) by (lia || apply HG; lia).
      simpl. apply getitem_Ok; [lia|]. rewrite grid_row_lookup by lia. exact Hp.
    + apply getitem_Ok; [nia | exact Hp].
  - intros Hexact. split; [|split].
    + change (ctrlpts = concat G). unfold G.
      rewrite (concat_grid_rows ctrlpts size_v 0 size_u) by lia.
      rewrite drop_0, take_ge; [reflexivity | unfold len in *; lia].
    + apply (gridded_shaped _ Hgrid).
    + cbn. lia.
Qed.

Lemma set_ctrlpts_builds_grid_witness :
  exists s',
    Surface.set_ctrlpts [[0; 0; 0]; [0; 1; 1]; [0; 2; 0]; [1; 0; 0]; [1; 1; 4]; [1; 2; 0]]%Q
      2 3 (Examples.blank 1 1) = Outcome (Ok tt) s' []
    /\ s' = Surface.with_ctrlpts (Surface.with_surface_points (Examples.blank 1 1) [])
              [[0; 0; 0]; [0; 1; 1]; [0; 2; 0]; [1; 0; 0]; [1; 1; 4]; [1; 2; 0]]%Q
              (Surface.ctrlpts2d s') 2 3
    /\ gridded s'
    /\ (forall i j, 0 <= i < 2 -> 0 <= j < 3 ->
         exists p, get2 (Surface.ctrlpts2d s') i j = Ok p
                   /\ getitem (Surface.ctrlpts s') (j + i * 3) = Ok p)
    /\ (len [[0; 0; 0]; [0; 1; 1]; [0; 2; 0]; [1; 0; 0]; [1; 1; 4]; [1; 2; 0]]%Q = 2 * 3 ->
        in_step s').
Proof.
  apply (set_ctrlpts_builds_grid (Examples.blank 1 1)
           [[0; 0; 0]; [0; 1; 1]; [0; 2; 0]; [1; 0; 0]; [1; 1; 4]; [1; 2; 0]]%Q 2 3).
  - simpl; lia.
  - simpl; lia.
  - simpl; lia.
  - simpl; lia.
  - repeat constructor.
  - vm_compute. discriminate.
  - reflexivity.
Defined.

Lemma range_app (a m b : Z) : a <= m <= b -> range a b = range a m ++ range m b.
Proof.
  intros H. remember (Z.to_nat (m - a)) as n eqn:Hn.
  revert a H Hn. induction n as [|n IH]; intros a H Hn.
  - assert (a = m) by lia. subst. rewrite (range_nil m m) by lia. reflexivity.
  - rewrite (range_cons a b), (range_cons a m) by lia. simpl. f_equal. apply IH; lia.
Qed.

Lemma for_each_app {S X} (l1 l2 : list X) (body : X -> method S unit) (s s1 : S) :
  for_each l1 body s = Outcome (Ok tt) s1 [] ->
  for_each (l1 ++ l2) body s = for_each l2 body s1.
Proof.
  revert s. induction l1 as [|x l1 IH]; intros s H; simpl in *.
  - inversion H. reflexivity.
  - unfold seq_ in *. destruct (body x s) as [[[]|e] s' w]; simpl in *.
    + destruct (for_each l1 body s') as [r s2 w2] eqn:E. simpl in H.
      inversion H; subst. apply app_eq_nil in H3 as [-> ->].
      rewrite (IH s') by exact E. simpl. apply outcome_eta.
    + discriminate.
Qed.

Lemma comprehension_raises {X B} (f : X -> result B) (l1 l2 : list X) (x : X) (e : exn) :
  (forall y, y ∈ l1 -> exists v, f y = Ok v) ->
  f x = Raise e ->
  comprehension f (l1 ++ x :: l2) = Raise e.
Proof.
  intros Hl1 Hx. induction l1 as [|y l1 IH]; simpl.
  - rewrite Hx. reflexivity.
  - destruct (Hl1 y) as [v Hv]; [left|]. rewrite Hv. simpl.
    rewrite IH; [reflexivity|]. intros z Hz. apply Hl1. right. exact Hz.
Qed.

(** The row of the grid that the flat list cannot fill. *)
Lemma grid_row_raises (ctrlpts : list (list Q)) (size_v i : Z) :
  0 <= i -> i * size_v <= len ctrlpts < (i + 1) * size_v ->
  for_ (range 0 size_v) (fun j ctrlpts_v =>
    x <- getitem ctrlpts (j + i * size_v) ;; Ok (ctrlpts_v ++ [x])) []
  = Raise IndexError.
Proof.
  intros Hi Hlen.
  rewrite (for_append (fun j => getitem ctrlpts (j + i * size_v))).
  set (j0 := len ctrlpts - i * size_v).
  rewrite (range_app 0 j0 size_v) by (unfold j0; lia).
  rewrite (range_cons j0 size_v) by (unfold j0; lia).
  rewrite (comprehension_raises _ _ _ _ IndexError); [reflexivity | |].
  - intros y Hy. apply elem_of_range in Hy.
    destruct (lookup_lt_is_Some_2 ctrlpts (Z.to_nat (y + i * size_v))) as [p Hp];
      [unfold len in *; unfold j0 in Hy; nia|].
    exists p. apply getitem_Ok; [nia | exact Hp].
  - unfold getitem, index, j0.
    replace (len ctrlpts - i * size_v + i * size_v) with (len ctrlpts) by lia.
    unfold len.
    destruct (Z.leb_spec 0 (Z.of_nat (length ctrlpts))); [|lia].
    destruct (Z.ltb_spec (Z.of_nat (length ctrlpts)) (Z.of_nat (length ctrlpts))); [lia|].
    cbn [andb].
    destruct (Z.ltb_spec (Z.of_nat (length ctrlpts)) 0); [lia|].
    rewrite andb_false_r. reflexivity.
Qed.

(** X6.  [set_ctrlpts] with fewer than [size_u * size_v] points, all else
    being accepted, raises [IndexError] (not [ValueError]) while it builds
    the grid: the flat list and the two sizes are stored already, and the
    grid holds the rows that the list could fill, fewer than [size_u]. *)
Theorem set_ctrlpts_short_list (s : Surface.t) (ctrlpts : list (list Q)) (size_u size_v : Z) :
  1 <= Surface._degree_u s -> 1 <= Surface._degree_v s ->
  Surface._degree_u s + 1 <= size_u -> Surface._degree_v s + 1 <= size_v ->
  Forall (fun cpt => len cpt = Surface._dimension s) ctrlpts ->
  len ctrlpts < size_u * size_v ->
  (Surface._control_points s = [] -> Surface._control_points2D s = []) ->
  let o := Surface.set_ctrlpts ctrlpts size_u size_v s in
  res o = Raise IndexError
  /\ Surface._control_points (post o) = ctrlpts
  /\ Surface._control_points_size_u (post o) = size_u
  /\ Surface._control_points_size_v (post o) = size_v
  /\ len (Surface._control_points2D (post o)) = len ctrlpts / size_v
  /\ len (Surface._control_points2D (post o)) < size_u.
Proof.
  intros Hdu Hdv Hsu Hsv Hdim Hlen Hold.
  set (i0 := len ctrlpts / size_v).
  assert (Hlen0 : 0 <= len ctrlpts) by (unfold len; lia).
  assert (Hi0 : 0 <= i0 < size_u).
  { unfold i0. split; [apply Z.div_pos; lia|].
    apply Z.div_lt_upper_bound; lia. }
  assert (Hrow : i0 * size_v <= len ctrlpts < (i0 + 1) * size_v).
  { unfold i0. pose proof (Z.mul_div_le (len ctrlpts) size_v).
    pose proof (Z.mul_succ_div_gt (len ctrlpts) size_v). lia. }
  set (G := map (grid_row ctrlpts size_v) (range 0 i0)).
  assert (E : Surface.set_ctrlpts ctrlpts size_u size_v s
              = Outcome (Raise IndexError)
                  (Surface.with_ctrlpts (Surface.with_surface_points s []) ctrlpts
                     G size_u size_v) []).
  { unfold Surface.set_ctrlpts.
    rewrite seq_Ok with (a := tt) (s' := Surface.with_surface_points s []) (w := [])
      by apply reset_surface_eq.
    assert (Hc : post (Surface._reset_ctrlpts (Surface.with_surface_points s [])) = cleared s).
    { unfold cleared. rewrite reset_surface_eq. reflexivity. }
    rewrite seq_Ok with (a := tt) (s' := cleared s) (w := [])
      by (rewrite reset_ctrlpts_surface, Hc; reflexivity).
    destruct (cleared_degrees s) as (Hu & Hv & Hd).
    rewrite seq_get, seq_guard, Hu, Hv.
    destruct (Z.eqb_spec (Surface._degree_u s) 0); [lia|].
    destruct (Z.eqb_spec (Surface._degree_v s) 0); [lia|]. cbn [orb].
    rewrite seq_guard. destruct (Z.ltb_spec size_u (Surface._degree_u s + 1)); [lia|].
    rewrite seq_guard. destruct (Z.ltb_spec size_v (Surface._degree_v s + 1)); [lia|].
    rewrite seq_Ok with (a := tt) (s' := cleared s) (w := []).
    2:{ rewrite dimension_check, Hd.
        assert (E : forallb (fun cpt => len cpt =? Surface._dimension s) ctrlpts = true).
        { apply forallb_forall. intros cpt Hin. apply Z.eqb_eq.
          rewrite Forall_forall in Hdim. apply Hdim, list_elem_of_In, Hin. }
        rewrite E. reflexivity. }
    rewrite seq_put.
    assert (E : Surface.with_ctrlpts (cleared s) ctrlpts
                  (Surface._control_points2D (cleared s)) size_u size_v
                = Surface.with_ctrlpts (Surface.with_surface_points s []) ctrlpts []
                    size_u size_v).
    { unfold cleared. rewrite reset_surface_eq. cbn [post].
      unfold Surface._reset_ctrlpts. cbn [Surface._control_points Surface.with_surface_points].
      destruct (Surface._control_points s) as [|p ps] eqn:Ecp; cbn [nonempty].
      - cbn. rewrite (Hold eq_refl). reflexivity.
      - reflexivity. }
    cbn [app]. rewrite E.
    rewrite (range_app 0 i0 size_u) by lia.
    match goal with
    | |- context [for_each (?l1 ++ ?l2) ?body ?st] =>
        rewrite (for_each_app l1 l2 body st
                   (Surface.with_ctrlpts (Surface.with_surface_points s []) ctrlpts
                      ([] ++ G) size_u size_v))
          by (apply (grid_loop (Surface.with_surface_points s []) ctrlpts ctrlpts []
                       size_u size_v size_v 0 i0); lia)
    end.
    rewrite (range_cons i0 size_u) by lia. cbn [for_each].
    rewrite seq_Raise with (e := IndexError)
      (s' := Surface.with_ctrlpts (Surface.with_surface_points s []) ctrlpts
               ([] ++ G) size_u size_v) (w := []).
    - reflexivity.
    - rewrite grid_row_raises by lia. rewrite seq_lift_Raise. reflexivity. }
  cbn zeta. rewrite E. cbn [res post].
  repeat split.
  - cbn. unfold G, len. rewrite length_map.
    pose proof (length_range 0 i0) as Hr. unfold len in Hr. fold i0. lia.
  - cbn. unfold G, len. rewrite length_map.
    pose proof (length_range 0 i0) as Hr. unfold len in Hr. lia.
Qed.

Lemma set_ctrlpts_short_list_witness :
  let o := Surface.set_ctrlpts [[0; 0; 0]; [0; 1; 1]; [0; 2; 0]; [1; 0; 0]]%Q
             2 3 (Examples.blank 1 1) in
  res o = Raise IndexError
  /\ Surface._control_points (post o) = [[0; 0; 0]; [0; 1; 1]; [0; 2; 0]; [1; 0; 0]]%Q
  /\ Surface._control_points_size_u (post o) = 2
  /\ Surface._control_points_size_v (post o) = 3
  /\ len (Surface._control_points2D (post o))
     = len [[0; 0; 0]; [0; 1; 1]; [0; 2; 0]; [1; 0; 0]]%Q / 3
  /\ len (Surface._control_points2D (post o)) < 2.
Proof.
  apply (set_ctrlpts_short_list (Examples.blank 1 1)
           [[0; 0; 0]; [0; 1; 1]; [0; 2; 0]; [1; 0; 0]]%Q 2 3).
  - simpl; lia.
  - simpl; lia.
  - simpl; lia.
  - simpl; lia.
  - repeat constructor.
  - vm_compute. reflexivity.
  - reflexivity.
Defined.

(** ** Surface.transpose *)

(** A comprehension over the positions of a list. *)
Lemma comprehension_positions {A B} (f : Z -> result B) (g : A -> B) (l : list A) (a : Z) :
  (forall n x, l !! n = Some x -> f (a + Z.of_nat n) = Ok (g x)) ->
  comprehension f (range a (a + len l)) = Ok (map g l).
Proof.
  revert a. induction l as [|x l IH]; intros a H.
  - rewrite range_nil by (unfold len; simpl; lia). reflexivity.
  - rewrite range_cons by (unfold len; simpl; lia). simpl.
    assert (E : f a = Ok (g x)).
    { rewrite <- (Z.add_0_r a). apply (H 0%nat x). reflexivity. }
    rewrite E. simpl.
    replace (a + len (x :: l)) with (a + 1 + len l) by (unfold len; simpl; lia).
    rewrite IH; [reflexivity|].
    intros n y Hn. replace (a + 1 + Z.of_nat n) with (a + Z.of_nat (S n)) by lia.
    apply H. exact Hn.
Qed.

(** A comprehension whose function succeeds on every item of a range. *)
Lemma comprehension_range {B} (f : Z -> result B) (g : Z -> B) (a b : Z) :
  (forall i, a <= i < b -> f i = Ok (g i)) ->
  comprehension f (range a b) = Ok (map g (range a b)).
Proof.
  intros H. assert (Hin : forall i, i ∈ range a b -> f i = Ok (g i)).
  { intros i Hi. apply H, elem_of_range, Hi. }
  clear H. induction (range a b) as [|x l IH]; simpl; [reflexivity|].
  rewrite Hin by left. simpl. rewrite IH; [reflexivity|].
  intros i Hi. apply Hin. right. exact Hi.
Qed.

(** Two nested loops that append to one list. *)
Lemma for_append2 {X Y B} (f : Y -> X -> result B) (l : list X) (l' : list Y) (acc : list B) :
  for_ l (fun v acc => for_ l' (fun u acc => x <- f u v ;; Ok (acc ++ [x])) acc) acc
  = (rows <- comprehension (fun v => comprehension (fun u => f u v) l') l ;;
     Ok (acc ++ concat rows)).
Proof.
  revert acc. induction l as [|v l IH]; intros acc; simpl.
  - rewrite app_nil_r. reflexivity.
  - rewrite (for_append (fun u => f u v)).
    destruct (comprehension (fun u => f u v) l') as [row|e]; simpl; [|reflexivity].
    rewrite IH.
    destruct (comprehension _ l) as [rows|e]; simpl; [|reflexivity].
    rewrite app_assoc. reflexivity.
Qed.

Lemma column_Ok (G : list (list (list Q))) (rows cols v : Z) :
  shaped rows cols G -> 0 <= v < cols ->
  comprehension (fun u => get2 G u v) (range 0 rows) = Ok (column G v).
Proof.
  intros [Hrows Hcols] Hv. rewrite <- Hrows.
  apply (comprehension_positions (fun u => get2 G u v)
           (fun row : list (list Q) => default [] (row !! Z.to_nat v)) G 0).
  intros n row Hrow. unfold get2.
  rewrite (getitem_Ok G _ row) by (lia || (rewrite Z.add_0_l, Nat2Z.id; exact Hrow)).
  simpl.
  assert (Hlen : len row = cols).
  { rewrite Forall_forall in Hcols. apply Hcols. eapply list_elem_of_lookup_2. exact Hrow. }
  destruct (lookup_lt_is_Some_2 row (Z.to_nat v)) as [p Hp]; [unfold len in *; lia|].
  rewrite Hp. simpl. apply getitem_Ok; [lia | exact Hp].
Qed.

Lemma transposed_Ok (G : list (list (list Q))) (rows cols : Z) :
  shaped rows cols G ->
  comprehension (fun v => comprehension (fun u => get2 G u v) (range 0 rows)) (range 0 cols)
  = Ok (transposed G cols).
Proof.
  intros HG. apply comprehension_range. intros v Hv. apply (column_Ok G rows cols v HG Hv).
Qed.

Lemma transposed_shaped (G : list (list (list Q))) (rows cols : Z) :
  shaped rows cols G -> 0 <= cols -> shaped cols rows (transposed G cols).
Proof.
  intros [Hrows Hcols] Hc. split.
  - unfold transposed, len. rewrite length_map.
    pose proof (length_range 0 cols) as Hr. unfold len in Hr. lia.
  - unfold transposed. apply Forall_forall. intros col Hcol.
    apply list_elem_of_fmap in Hcol as (v & -> & _).
    unfold column, len in *. rewrite length_map. exact Hrows.
Qed.

(** Listing the positions of a list gives the list. *)
Lemma map_positions {A} (l : list A) (d : A) (n : Z) :
  len l = n -> map (fun i => default d (l !! Z.to_nat i)) (range 0 n) = l.
Proof.
  intros <-. apply list_eq. intros i. rewrite list_lookup_fmap.
  destruct (l !! i) as [x|] eqn:E.
  - rewrite lookup_range by (apply lookup_lt_Some in E; unfold len; lia).
    cbn [fmap option_fmap option_map].
    replace (Z.to_nat (0 + Z.of_nat i)) with i by lia.
    rewrite E. reflexivity.
  - apply lookup_ge_None in E.
    rewrite (proj2 (lookup_ge_None _ _)); [reflexivity|].
    pose proof (length_range 0 (len l)) as Hr. unfold len in *. lia.
Qed.

Lemma transposed_twice (G : list (list (list Q))) (rows cols : Z) :
  shaped rows cols G -> 0 <= cols -> transposed (transposed G cols) rows = G.
Proof.
  intros [Hrows Hcols] Hc.
  rewrite <- (map_positions G [] rows Hrows) at 2.
  unfold transposed at 1. apply map_ext_in. intros u Hu.
  apply list_elem_of_In, elem_of_range in Hu.
  destruct (lookup_lt_is_Some_2 G (Z.to_nat u)) as [row Hrow]; [unfold len in *; lia|].
  rewrite Hrow. simpl.
  assert (Hlen : len row = cols).
  { rewrite Forall_forall in Hcols. apply Hcols. eapply list_elem_of_lookup_2. exact Hrow. }
  transitivity (map (fun i => default [] (row !! Z.to_nat i)) (range 0 cols));
    [|apply (map_positions row [] cols Hlen)].
  unfold column at 1, transposed. rewrite map_map.
  apply map_ext. intros v. unfold column.
  rewrite list_lookup_fmap, Hrow. reflexivity.
Qed.

(** The flat list that [transpose] builds from the new grid. *)
Lemma concat_transposed (G : list (list (list Q))) (rows cols : Z) :
  shaped rows cols G -> 0 <= cols ->
  comprehension (fun v => comprehension (fun u => get2 (transposed G cols) u v) (range 0 cols))
    (range 0 rows)
  = Ok G.
Proof.
  intros HG Hc.
  rewrite (transposed_Ok (transposed G cols) cols rows) by (apply transposed_shaped; assumption).
  f_equal. apply (transposed_twice G rows cols HG Hc).
Qed.

Lemma transpose_eq (s : Surface.t) :
  shaped (Surface._control_points_size_u s) (Surface._control_points_size_v s)
    (Surface._control_points2D s) ->
  0 <= Surface._control_points_size_v s ->
  Surface.transpose s = Outcome (Ok tt) (flipped s) [].
Proof.
  intros HG Hv. unfold Surface.transpose. rewrite seq_get.
  assert (E1 : for_ (range 0 (Surface._control_points_size_v s)) (fun v ctrlpts2D_new =>
                 ctrlpts_u <- for_ (range 0 (Surface._control_points_size_u s))
                                (fun u ctrlpts_u =>
                                   temp <- get2 (Surface._control_points2D s) u v ;;
                                   Ok (ctrlpts_u ++ [temp])) [] ;;
                 Ok (ctrlpts2D_new ++ [ctrlpts_u])) []
               = Ok (transposed (Surface._control_points2D s)
                       (Surface._control_points_size_v s))).
  { rewrite (for_append (fun v =>
               for_ (range 0 (Surface._control_points_size_u s))
                 (fun u ctrlpts_u =>
                    temp <- get2 (Surface._control_points2D s) u v ;;
                    Ok (ctrlpts_u ++ [temp])) [])).
    rewrite (comprehension_range _
               (column (Surface._control_points2D s))).
    - reflexivity.
    - intros v Hvr.
      rewrite (for_append (fun u => get2 (Surface._control_points2D s) u v)).
      pose proof (column_Ok _ _ _ v HG Hvr) as Hc.
      unfold Surface.point in *. rewrite Hc. reflexivity. }
  rewrite E1, seq_lift_Ok. cbv zeta. unfold Surface.point.
  assert (E2 : for_ (range 0 (Surface._control_points_size_u s)) (fun v ctrlpts_new =>
                 for_ (range 0 (Surface._control_points_size_v s)) (fun u ctrlpts_new =>
                   x <- get2 (transposed (Surface._control_points2D s)
                                (Surface._control_points_size_v s)) u v ;;
                   Ok (ctrlpts_new ++ [x])) ctrlpts_new) []
               = Ok (concat (Surface._control_points2D s))).
  { rewrite (for_append2 (fun u v =>
               get2 (transposed (Surface._control_points2D s)
                       (Surface._control_points_size_v s)) u v)).
    rewrite (concat_transposed _ _ _ HG Hv). reflexivity. }
  rewrite E2, seq_lift_Ok.
  rewrite seq_Ok with (a := tt) (s' := Surface.with_surface_points s []) (w := [])
    by apply reset_surface_eq.
  rewrite seq_get. reflexivity.
Qed.

(** X7.  On a surface whose control points form a grid, [transpose()]
    returns with the degrees, the knot vectors and the two sizes swapped,
    the cached points empty and the grid transposed:
    [ctrlpts2d[j][i]] is the old [ctrlpts2d[i][j]]; the flat list it stores
    is the old grid row by row.  A second [transpose()] restores the grid,
    the degrees, the knot vectors and the sizes. *)
Theorem transpose_twice (s : Surface.t) :
  gridded s -> 0 <= Surface._control_points_size_v s ->
  exists s1 s2,
    Surface.transpose s = Outcome (Ok tt) s1 []
    /\ Surface.transpose s1 = Outcome (Ok tt) s2 []
    /\ (forall i j, 0 <= i < Surface._control_points_size_u s ->
                    0 <= j < Surface._control_points_size_v s ->
          exists p, get2 (Surface._control_points2D s) i j = Ok p
                    /\ get2 (Surface._control_points2D s1) j i = Ok p)
    /\ Surface._control_points s1 = concat (Surface._control_points2D s)
    /\ Surface._surface_points s1 = []
    /\ (Surface._degree_u s1 = Surface._degree_v s
        /\ Surface._degree_v s1 = Surface._degree_u s
        /\ Surface._knot_vector_u s1 = Surface._knot_vector_v s
        /\ Surface._knot_vector_v s1 = Surface._knot_vector_u s
        /\ Surface._control_points_size_u s1 = Surface._control_points_size_v s
        /\ Surface._control_points_size_v s1 = Surface._control_points_size_u s)
    /\ Surface._control_points2D s2 = Surface._control_points2D s
    /\ (Surface._degree_u s2 = Surface._degree_u s
        /\ Surface._degree_v s2 = Surface._degree_v s
        /\ Surface._knot_vector_u s2 = Surface._knot_vector_u s
        /\ Surface._knot_vector_v s2 = Surface._knot_vector_v s
        /\ Surface._control_points_size_u s2 = Surface._control_points_size_u s
        /\ Surface._control_points_size_v s2 = Surface._control_points_size_v s).
Proof.
  intros Hgrid Hv. pose proof (gridded_shaped s Hgrid) as HG.
  assert (Hu : 0 <= Surface._control_points_size_u s).
  { destruct HG as [<- _]. unfold len. lia. }
  pose proof (transposed_shaped _ _ _ HG Hv) as HG1.
  exists (flipped s), (flipped (flipped s)).
  split; [apply transpose_eq; assumption|].
  split; [apply transpose_eq; [exact HG1 | exact Hu]|].
  split; [|split; [reflexivity | split; [reflexivity | split; [repeat split|split]]]].
  - intros i j Hi Hj.
    destruct (grid_point s i j Hgrid Hi Hj) as (row & p & Hrow & Hp & Hget & _).
    exists p. split; [exact Hget|].
    change (get2 (transposed (Surface._control_points2D s)
                    (Surface._control_points_size_v s)) j i = Ok p).
    unfold get2.
    rewrite (getitem_Ok _ j (column (Surface._control_points2D s) j)).
    + simpl. apply getitem_Ok; [lia|]. unfold column.
      unfold Surface.point in *.
      rewrite list_lookup_fmap, Hrow. simpl. rewrite Hp. reflexivity.
    + lia.
    + unfold transposed. rewrite list_lookup_fmap, lookup_range by lia.
      simpl. do 2 f_equal. lia.
  - apply (transposed_twice _ _ _ HG Hv).
  - repeat split.
Qed.

Lemma transpose_twice_witness :
  exists s1 s2,
    Surface.transpose Examples.grid23 = Outcome (Ok tt) s1 []
    /\ Surface.transpose s1 = Outcome (Ok tt) s2 []
    /\ Surface._control_points2D s2 = Surface._control_points2D Examples.grid23.
Proof.
  destruct (transpose_twice Examples.grid23) as (s1 & s2 & H1 & H2 & _ & _ & _ & _ & H3 & _).
  - split; [reflexivity|]. repeat constructor.
  - vm_compute. discriminate.
  - exists s1, s2. auto.
Defined.

(** ** The derivative of order 0 is the point *)

(** [curvept] returns the basis functions of the span against the control
    points of its window. *)
Lemma curvept_value (c : Curve.t) (u : Q) (span : Z) (check_vars : bool) :
  evaluable utils c u span -> dimensioned c ->
  exists w, Curve.curvept utils c u check_vars = Ok w
    /\ is_vec (Curve._dimension c) w (fun d =>
         sigma 0 (Curve._degree c + 1) (fun r =>
           Nref (Curve._knot_vector c) span u (Z.to_nat (Curve._degree c)) r
           * Pref c span r d)%Q).
Proof.
  intros Heval Hdims.
  pose proof (dimension_nonneg c u span Heval Hdims) as Hdim.
  destruct Heval as (Hvars & Huv & Hunit & Hd & Hspan & Hwin & Hkn & Hsorted & Hnt).
  change (spec.check_uv (Some u) None = Ok tt) in Huv.
  change (spec.find_span (Curve._degree c) (Curve._knot_vector c)
            (len (Curve._control_points c)) u = Ok span) in Hspan.
  unfold Curve.curvept.
  assert (Hcheck : (if check_vars
                    then Curve._check_variables c ;;; utilities.check_uv utils (Some u) None
                    else Ok tt) = Ok tt).
  { destruct check_vars; [|reflexivity]. rewrite Hvars. simpl. exact Huv. }
  rewrite Hcheck. simpl. rewrite Hspan. simpl.
  destruct (basis_functions_value (Curve._degree c) (Curve._knot_vector c) span u
              Hd ltac:(lia) Hkn Hsorted Hnt (Curve._degree c))
    as (N & -> & HlenN & HN); [lia|].
  simpl.
  apply (for_range_total
           (fun i cpt => is_vec (Curve._dimension c) cpt (fun d =>
              sigma 0 i (fun r =>
                Nref (Curve._knot_vector c) span u (Z.to_nat (Curve._degree c)) r
                * Pref c span r d)%Q))).
  - lia.
  - intros i cpt Hi Hcpt.
    destruct (lookup_lt_is_Some_2 (Curve._control_points c)
                (Z.to_nat (span - Curve._degree c + i))) as (cp & Hcp);
      [unfold len in *; lia|].
    rewrite (getitem_Ok _ _ cp) by (lia || exact Hcp). simpl.
    destruct (HN i) as (y & Hy & Hval); [lia|].
    destruct (axpy_value (Curve._dimension c) (getitem N i) y cpt cp _ (Pref c span i)
                (getitem_Ok N i y ltac:(lia) Hy) Hcpt) as (new & -> & Hnew).
    { apply is_point_vec, is_point_ctrlpt; [exact Hdims | lia | exact Hcp]. }
    exists new. split; [reflexivity|].
    refine (is_vec_ext _ _ _ _ _ Hnew). intros d. simpl.
    rewrite sigma_snoc by lia. rewrite Hval. reflexivity.
  - refine (is_vec_ext _ _ _ _ _ (is_vec_zeros _ Hdim)). intros d.
    rewrite sigma_nil by lia. reflexivity.
Qed.

Lemma same_of_vec (dim : Z) (w w' : list Q) (f f' : nat -> Q) :
  is_vec dim w f -> is_vec dim w' f' -> (forall d, (f d == f' d)%Q) -> same w w'.
Proof.
  intros [Hlen Hw] [Hlen' Hw'] Hff.
  apply Forall2_same_length_lookup_2; [unfold len in *; lia|].
  intros d x y Hx Hy.
  rewrite <- (coord_lookup w d x Hx), <- (coord_lookup w' d y Hy).
  rewrite Hw by (apply lookup_lt_Some in Hx; exact Hx).
  rewrite Hw' by (apply lookup_lt_Some in Hy; exact Hy).
  apply Hff.
Qed.

(** The entries of [derivatives(u, order)] up to the degree, and the one of
    order 0. *)
Lemma curve_derivatives_0 (c : Curve.t) (u : Q) (order : Z) :
  valid_curve c u -> 0 <= order ->
  exists CK p w,
    Curve.derivatives utils c u order = Ok CK
    /\ Curve.curvept utils c u true = Ok p
    /\ CK !! 0%nat = Some (map Some w)
    /\ same w p
    /\ forall k, 0 <= k <= Z.min (Curve._degree c) order ->
         exists entry, CK !! Z.to_nat k = Some entry.
Proof.
  intros (Hdeg & Hn & Hkv & Hdom & Hdims) Horder.
  destruct (valid_curve_evaluable c u Hdeg Hn Hkv Hdom) as (span & Heval & _).
  destruct (derivatives_value c u order span Heval Hdims Horder) as (CK & E & HCK).
  destruct (curvept_value c u span true Heval Hdims) as (p & Ep & Hp).
  destruct (HCK 0) as (e & He & He'); [lia|].
  pose proof He' as (w & -> & _). apply is_point_vec in He'.
  exists CK, p, w.
  split; [exact E|]. split; [exact Ep|]. split; [exact He|]. split.
  - refine (same_of_vec _ _ _ _ _ He' Hp _). intros d.
    rewrite (derivative_identity c u span 0 d).
    apply sigma_ext. intros r Hr.
    rewrite Dref_0 by lia. reflexivity.
  - intros k Hk. destruct (HCK k Hk) as (entry & Hentry & _). eauto.
Qed.

(** X8.  On a curve the claims on evaluation quantify over, the entry of
    order 0 of [derivatives(u, order)] and of [derivatives2(u, order)] is
    the point [curvept(u)], for every [order >= 0]. *)
Theorem derivative_0_is_curvept (c : Curve.t) (u : Q) (order : Z) :
  valid_curve c u -> 0 <= order ->
  exists CK CK2 p w w2,
    Curve.derivatives utils c u order = Ok CK
    /\ Curve.derivatives2 utils c u order = Ok CK2
    /\ Curve.curvept utils c u true = Ok p
    /\ getitem CK 0 = Ok (map Some w)
    /\ getitem CK2 0 = Ok (map Some w2)
    /\ same w p /\ same w2 p.
Proof.
  intros Hvalid Horder.
  destruct (curve_derivatives_0 c u order Hvalid Horder) as (CK & p & w & E & Ep & He & Hw & _).
  destruct Hvalid as (Hdeg & Hn & Hkv & Hdom & Hdims).
  destruct (valid_curve_evaluable c u Hdeg Hn Hkv Hdom) as (span & Heval & _).
  destruct (derivatives2_value c u order span Heval Hdims Horder) as (CK2 & E2 & HCK2).
  destruct (curvept_value c u span true Heval Hdims) as (p' & Ep' & Hp).
  assert (p' = p) by congruence. subst p'.
  destruct (HCK2 0) as (e2 & He2 & He2'); [lia|].
  pose proof He2' as (w2 & -> & _). apply is_point_vec in He2'.
  exists CK, CK2, p, w, w2.
  split; [exact E|]. split; [exact E2|]. split; [exact Ep|].
  split; [apply getitem_Ok; [lia | exact He]|].
  split; [apply getitem_Ok; [lia | exact He2]|].
  split; [exact Hw|].
  refine (same_of_vec _ _ _ _ _ He2' Hp _). intros d.
  apply sigma_ext. intros r Hr.
  rewrite Dref_0 by lia. reflexivity.
Qed.

Lemma derivative_0_is_curvept_witness :
  exists CK CK2 p w w2,
    Curve.derivatives utils Examples.curve (1 # 4) 2 = Ok CK
    /\ Curve.derivatives2 utils Examples.curve (1 # 4) 2 = Ok CK2
    /\ Curve.curvept utils Examples.curve (1 # 4) true = Ok p
    /\ getitem CK 0 = Ok (map Some w)
    /\ getitem CK2 0 = Ok (map Some w2)
    /\ same w p /\ same w2 p.
Proof.
  apply (derivative_0_is_curvept Examples.curve (1 # 4) 2).
  - repeat split; try (vm_compute; (reflexivity || discriminate)).
    repeat constructor.
  - lia.
Defined.

(** ** The tangent and the normal of a curve *)

(** X9.  With [normalize=False], [tangent(u)] and [normal(u)] on such a
    curve return, whatever [vector_normalize] is: their first component is
    the point [curvept(u)], the second is the entry of order 1, respectively
    2, of [derivatives]; the normal of a curve of degree 1 is the zero
    vector. *)
Theorem tangent_and_normal (V : utilities.vectors) (c : Curve.t) (u : Q) :
  valid_curve c u ->
  exists p w t w' n,
    Curve.curvept utils c u true = Ok p
    /\ Curve.tangent utils V c u false = Ok (map Some w, t)
    /\ same w p
    /\ Curve.normal utils V c u false = Ok (map Some w', n)
    /\ same w' p
    /\ (exists CK, Curve.derivatives utils c u 1 = Ok CK /\ getitem CK 1 = Ok t)
    /\ (exists CK, Curve.derivatives utils c u 2 = Ok CK /\ getitem CK 2 = Ok n)
    /\ (Curve._degree c = 1 -> n = Curve.zeros c).
Proof.
  intros Hvalid.
  destruct (curve_derivatives_0 c u 1 Hvalid) as (CK1 & p & w & E1 & Ep & H10 & Hw & H1); [lia|].
  destruct (curve_derivatives_0 c u 2 Hvalid) as (CK2 & p' & w' & E2 & Ep' & H20 & Hw' & H2);
    [lia|].
  assert (p' = p) by congruence. subst p'.
  pose proof Hvalid as (Hdeg & Hn & Hkv & Hdom & Hdims).
  destruct (H1 1) as (t & Ht); [lia|].
  assert (Hn2 : exists n, CK2 !! 2%nat = Some n /\ (Curve._degree c = 1 -> n = Curve.zeros c)).
  { destruct (Z.eq_dec (Curve._degree c) 1) as [Hone|Hmore].
    - destruct (derivatives_above_degree_valid c u 2 Hdeg Hn Hkv Hdom)
        as (CK & _ & E & _ & (_ & Hzero) & _); [lia|].
      assert (CK = CK2) by congruence. subst CK.
      exists (Curve.zeros c). split; [apply (Hzero 2); lia | reflexivity].
    - destruct (H2 2) as (n & Hn2); [lia|]. exists n. split; [exact Hn2 | lia]. }
  destruct Hn2 as (n & Hn2 & Hzero).
  assert (G10 : getitem CK1 0 = Ok (map Some w)) by (apply getitem_Ok; [lia | exact H10]).
  assert (G11 : getitem CK1 1 = Ok t) by (apply getitem_Ok; [lia | exact Ht]).
  assert (G20 : getitem CK2 0 = Ok (map Some w')) by (apply getitem_Ok; [lia | exact H20]).
  assert (G22 : getitem CK2 2 = Ok n) by (apply getitem_Ok; [lia | exact Hn2]).
  exists p, w, t, w', n.
  split; [exact Ep|].
  split; [unfold Curve.tangent; rewrite E1; simpl; rewrite G10; simpl; rewrite G11; reflexivity|].
  split; [exact Hw|].
  split; [unfold Curve.normal; rewrite E2; simpl; rewrite G20; simpl; rewrite G22; reflexivity|].
  split; [exact Hw'|].
  split; [exists CK1; auto|].
  split; [exists CK2; auto | exact Hzero].
Qed.

Lemma tangent_and_normal_witness :
  exists p w t w' n,
    Curve.curvept utils Examples.curve (1 # 4) true = Ok p
    /\ Curve.tangent utils
         {| utilities.vector_normalize := fun v => Ok v;
            utilities.vector_cross := fun v _ => Ok v |}
         Examples.curve (1 # 4) false = Ok (map Some w, t)
    /\ same w p
    /\ Curve.normal utils
         {| utilities.vector_normalize := fun v => Ok v;
            utilities.vector_cross := fun v _ => Ok v |}
         Examples.curve (1 # 4) false = Ok (map Some w', n)
    /\ same w' p
    /\ (exists CK, Curve.derivatives utils Examples.curve (1 # 4) 1 = Ok CK
                   /\ getitem CK 1 = Ok t)
    /\ (exists CK, Curve.derivatives utils Examples.curve (1 # 4) 2 = Ok CK
                   /\ getitem CK 2 = Ok n)
    /\ (Curve._degree Examples.curve = 1 -> n = Curve.zeros Examples.curve).
Proof.
  apply (tangent_and_normal _ Examples.curve (1 # 4)).
  repeat split; try (vm_compute; (reflexivity || discriminate)).
  repeat constructor.
Defined.

(** ** The derivative of order (0, 0) of a surface is the point *)

(** [surfpt] returns the basis functions of the two spans against the
    control points of their window. *)
Lemma surfpt_value (s : Surface.t) (u v : Q) (span_u span_v : Z) (check_vars : bool) :
  evaluable2 utils s u v span_u span_v ->
  exists w, Surface.surfpt utils s u v check_vars = Ok w
    /\ is_vec (Surface._dimension s) w (fun d =>
         sigma 0 (Surface._degree_v s + 1) (fun t =>
           Nref (Surface._knot_vector_v s) span_v v (Z.to_nat (Surface._degree_v s)) t
           * sigma 0 (Surface._degree_u s + 1) (fun r =>
               Nref (Surface._knot_vector_u s) span_u u (Z.to_nat (Surface._degree_u s)) r
               * Sgrid s (span_u - Surface._degree_u s + r)
                   (span_v - Surface._degree_v s + t) d))%Q).
Proof.
  intros Heval.
  pose proof (surface_dimension_nonneg s u v span_u span_v Heval) as Hdim.
  destruct Heval as (Hvars & Huv & Hgrid & (Hdu & Hsu & Hwu & Hku & Hsortu & Hntu)
                     & (Hdv & Hsv & Hwv & Hkv & Hsortv & Hntv)).
  change (spec.check_uv (Some u) (Some v) = Ok tt) in Huv.
  change (spec.find_span (Surface._degree_u s) (Surface._knot_vector_u s)
            (Surface._control_points_size_u s) u = Ok span_u) in Hsu.
  change (spec.find_span (Surface._degree_v s) (Surface._knot_vector_v s)
            (Surface._control_points_size_v s) v = Ok span_v) in Hsv.
  unfold Surface.surfpt.
  assert (Hcheck : (if check_vars
                    then Surface._check_variables s ;;;
                         utilities.check_uv utils (Some u) (Some v)
                    else Ok tt) = Ok tt).
  { destruct check_vars; [|reflexivity]. rewrite Hvars. simpl. exact Huv. }
  rewrite Hcheck. simpl. rewrite Hsv. simpl.
  destruct (basis_functions_value (Surface._degree_v s) (Surface._knot_vector_v s) span_v v
              Hdv ltac:(lia) Hkv Hsortv Hntv (Surface._degree_v s))
    as (Nv & -> & _ & HNv); [lia|].
  simpl. rewrite Hsu. simpl.
  destruct (basis_functions_value (Surface._degree_u s) (Surface._knot_vector_u s) span_u u
              Hdu ltac:(lia) Hku Hsortu Hntu (Surface._degree_u s))
    as (Nu & -> & _ & HNu); [lia|].
  simpl.
  apply (for_range_total
           (fun l spt => is_vec (Surface._dimension s) spt (fun d =>
              sigma 0 l (fun t =>
                Nref (Surface._knot_vector_v s) span_v v (Z.to_nat (Surface._degree_v s)) t
                * sigma 0 (Surface._degree_u s + 1) (fun r =>
                    Nref (Surface._knot_vector_u s) span_u u (Z.to_nat (Surface._degree_u s)) r
                    * Sgrid s (span_u - Surface._degree_u s + r)
                        (span_v - Surface._degree_v s + t) d))%Q))).
  - lia.
  - intros l spt Hl Hspt.
    apply (bind_total _ _ (fun temp => is_vec (Surface._dimension s) temp (fun d =>
             sigma 0 (Surface._degree_u s + 1) (fun r =>
               Nref (Surface._knot_vector_u s) span_u u (Z.to_nat (Surface._degree_u s)) r
               * Sgrid s (span_u - Surface._degree_u s + r)
                   (span_v - Surface._degree_v s + l) d)%Q))).
    + apply (for_range_total
               (fun k temp => is_vec (Surface._dimension s) temp (fun d =>
                  sigma 0 k (fun r =>
                    Nref (Surface._knot_vector_u s) span_u u
                      (Z.to_nat (Surface._degree_u s)) r
                    * Sgrid s (span_u - Surface._degree_u s + r)
                        (span_v - Surface._degree_v s + l) d)%Q))).
      * lia.
      * intros k temp Hk Htemp.
        destruct (grid_point s (span_u - Surface._degree_u s + k)
                    (span_v - Surface._degree_v s + l) Hgrid)
          as (row & p & _ & _ & Hget & Hp); [lia | lia |].
        rewrite Hget. simpl.
        destruct (HNu k) as (y & Hy & Hval); [lia|].
        destruct (axpy_value (Surface._dimension s) (getitem Nu k) y temp p _ _
                    (getitem_Ok Nu k y ltac:(lia) Hy) Htemp Hp) as (new & -> & Hnew).
        exists new. split; [reflexivity|].
        refine (is_vec_ext _ _ _ _ _ Hnew). intros d. simpl.
        rewrite (sigma_snoc 0 k) by lia. rewrite Hval. reflexivity.
      * refine (is_vec_ext _ _ _ _ _ (is_vec_zeros _ Hdim)). intros d.
        rewrite sigma_nil by lia. reflexivity.
    + intros temp Htemp.
      destruct (HNv l) as (y & Hy & Hval); [lia|].
      destruct (axpy_value (Surface._dimension s) (getitem Nv l) y spt temp _ _
                  (getitem_Ok Nv l y ltac:(lia) Hy) Hspt Htemp) as (new & -> & Hnew).
      exists new. split; [reflexivity|].
      refine (is_vec_ext _ _ _ _ _ Hnew). intros d. simpl.
      rewrite (sigma_snoc 0 l) by lia. rewrite Hval. reflexivity.
  - refine (is_vec_ext _ _ _ _ _ (is_vec_zeros _ Hdim)). intros d.
    rewrite sigma_nil by lia. reflexivity.
Qed.

(** The entries of [derivatives(u, v, order)] within the total order, and
    the one of order (0, 0). *)
Lemma surface_derivatives_0 (s : Surface.t) (u v : Q) (order : Z) :
  valid_surface s u v -> 0 <= order ->
  exists SKL p w,
    Surface.derivatives utils s u v order = Ok SKL
    /\ Surface.surfpt utils s u v true = Ok p
    /\ get2 SKL 0 0 = Ok w
    /\ same w p
    /\ forall k l, 0 <= k <= Z.min (Surface._degree_u s) order ->
                   0 <= l <= Z.min (order - k) (Z.min (Surface._degree_v s) order) ->
         exists e, get2 SKL k l = Ok e.
Proof.
  intros Hvalid Horder.
  destruct (valid_surface_evaluable s u v Hvalid) as (span_u & span_v & Heval).
  destruct (surface_derivatives_value s u v order span_u span_v Heval Horder)
    as (SKL & E & HSKL).
  destruct (surfpt_value s u v span_u span_v true Heval) as (p & Ep & Hp).
  pose proof Heval as (_ & _ & _ & (Hdu & _) & (Hdv & _)).
  destruct (HSKL 0 0) as (w & Ew & Hw); [lia | lia |].
  exists SKL, p, w.
  split; [exact E|]. split; [exact Ep|]. split; [exact Ew|]. split.
  - refine (same_of_vec _ _ _ _ _ Hw Hp _). intros d. unfold SKLref.
    apply sigma_ext. intros t Ht.
    rewrite Dref_0 by lia.
    apply Qmult_comp; [reflexivity|].
    apply sigma_ext. intros r Hr.
    rewrite Dref_0 by lia. reflexivity.
  - intros k l Hk Hl. destruct (HSKL k l Hk Hl) as (e & Ee & _). eauto.
Qed.

(** X10.  On a surface the claims on evaluation quantify over, the entry
    [SKL[0][0]] of [derivatives(u, v, order)] is the point [surfpt(u, v)],
    for every [order >= 0]. *)
Theorem derivative_00_is_surfpt (s : Surface.t) (u v : Q) (order : Z) :
  valid_surface s u v -> 0 <= order ->
  exists SKL p w,
    Surface.derivatives utils s u v order = Ok SKL
    /\ Surface.surfpt utils s u v true = Ok p
    /\ get2 SKL 0 0 = Ok w
    /\ same w p.
Proof.
  intros Hvalid Horder.
  destruct (surface_derivatives_0 s u v order Hvalid Horder)
    as (SKL & p & w & E & Ep & Ew & Hw & _).
  exists SKL, p, w. auto.
Qed.

Lemma derivative_00_is_surfpt_witness :
  exists SKL p w,
    Surface.derivatives utils Examples.grid23 (1 # 2) (3 # 4) 2 = Ok SKL
    /\ Surface.surfpt utils Examples.grid23 (1 # 2) (3 # 4) true = Ok p
    /\ get2 SKL 0 0 = Ok w
    /\ same w p.
Proof.
  apply (derivative_00_is_surfpt Examples.grid23 (1 # 2) (3 # 4) 2).
  - repeat split; try (vm_compute; (reflexivity || discriminate)).
    repeat constructor.
  - lia.
Defined.

(** X11.  [derivatives(u, v, order)] returns a table of
    [min(degree_u, order) + 1] rows of [min(degree_v, order) + 1] entries
    and leaves the entries [SKL[k][l]] with [k + l > order] at zero: the
    mixed derivatives of a total order above [order] are not computed. *)
Theorem derivatives_beyond_order (s : Surface.t) (u v : Q) (order : Z) :
  valid_surface s u v -> 0 <= order ->
  exists SKL,
    Surface.derivatives utils s u v order = Ok SKL
    /\ forall k l, 0 <= k <= Z.min (Surface._degree_u s) order ->
                   0 <= l <= Z.min (Surface._degree_v s) order ->
                   order < k + l ->
         exists w, get2 SKL k l = Ok w
                   /\ len w = Surface._dimension s
                   /\ Forall (fun x => x == 0)%Q w.
Proof.
  intros Hvalid Horder.
  destruct (valid_surface_evaluable s u v Hvalid) as (span_u & span_v & Heval).
  destruct (surface_derivatives_progress s u v order span_u span_v Heval Horder)
    as (SKL & E & _ & Hprog).
  exists SKL. split; [exact E|].
  intros k l Hk Hl Hkl.
  destruct (Hprog k l Hk Hl) as (w & Ew & Hlen & Hw).
  exists w. split; [exact Ew|]. split; [exact Hlen|].
  apply Forall_lookup. intros d x Hx.
  rewrite <- (coord_lookup w d x Hx).
  rewrite Hw by (apply lookup_lt_Some in Hx; exact Hx).
  unfold SKL_terms. destruct (Z.leb_spec l (Z.min (order - k) (Z.min (Surface._degree_v s) order)));
    [lia|].
  rewrite sigma_nil by lia. reflexivity.
Qed.

Lemma derivatives_beyond_order_witness :
  exists SKL,
    Surface.derivatives utils Examples.grid23 (1 # 2) (3 # 4) 1 = Ok SKL
    /\ forall k l, 0 <= k <= Z.min (Surface._degree_u Examples.grid23) 1 ->
                   0 <= l <= Z.min (Surface._degree_v Examples.grid23) 1 ->
                   1 < k + l ->
         exists w, get2 SKL k l = Ok w
                   /\ len w = Surface._dimension Examples.grid23
                   /\ Forall (fun x => x == 0)%Q w.
Proof.
  apply (derivatives_beyond_order Examples.grid23 (1 # 2) (3 # 4) 1).
  - repeat split; try (vm_compute; (reflexivity || discriminate)).
    repeat constructor.
  - lia.
Defined.

(** ** The tangents of a surface *)

(** X12.  With [normalize=False], [tangent(u, v)] on such a surface
    returns, whatever [vector_normalize] is: the point [surfpt(u, v)] and
    the entries [SKL[1][0]] and [SKL[0][1]] of [derivatives(u, v, 1)]. *)
Theorem surface_tangent (V : utilities.vectors) (s : Surface.t) (u v : Q) :
  valid_surface s u v ->
  exists p w der_u der_v SKL,
    Surface.tangent utils V s u v false = Ok (w, der_u, der_v)
    /\ Surface.surfpt utils s u v true = Ok p
    /\ same w p
    /\ Surface.derivatives utils s u v 1 = Ok SKL
    /\ get2 SKL 1 0 = Ok der_u
    /\ get2 SKL 0 1 = Ok der_v.
Proof.
  intros Hvalid.
  destruct (surface_derivatives_0 s u v 1 Hvalid) as (SKL & p & w & E & Ep & Ew & Hw & H);
    [lia|].
  pose proof Hvalid as ((Hdu & Hdv) & _).
  destruct (H 1 0) as (der_u & Eu); [lia | lia |].
  destruct (H 0 1) as (der_v & Ev); [lia | lia |].
  exists p, w, der_u, der_v, SKL.
  split; [|auto 10].
  unfold Surface.tangent. rewrite E. simpl. rewrite Ew. simpl. rewrite Eu. simpl.
  rewrite Ev. reflexivity.
Qed.

Lemma surface_tangent_witness :
  exists p w der_u der_v SKL,
    Surface.tangent utils
      {| utilities.vector_normalize := fun v => Ok v;
         utilities.vector_cross := fun v _ => Ok v |}
      Examples.grid23 (1 # 2) (3 # 4) false = Ok (w, der_u, der_v)
    /\ Surface.surfpt utils Examples.grid23 (1 # 2) (3 # 4) true = Ok p
    /\ same w p
    /\ Surface.derivatives utils Examples.grid23 (1 # 2) (3 # 4) 1 = Ok SKL
    /\ get2 SKL 1 0 = Ok der_u
    /\ get2 SKL 0 1 = Ok der_v.
Proof.
  apply (surface_tangent _ Examples.grid23 (1 # 2) (3 # 4)).
  repeat split; try (vm_compute; (reflexivity || discriminate)).
  repeat constructor.
Defined.

(** ** Surface.evaluate and the cached surface points *)

(** The inner loop of [evaluate] appends the points of [surfpt] along
    [v]. *)
Lemma surface_evaluate_row (U : utilities.t) (s : Surface.t) (u : Q) (vs : list Q)
    (done : list Surface.point) :
  let o := for_each vs (fun v =>
             s <~ get ;;
             spt <~ lift (Surface.surfpt U s u v false) ;;
             put (Surface.with_surface_points s (Surface._surface_points s ++ [spt])))
             (Surface.with_surface_points s done) in
  warned o = []
  /\ match comprehension (fun v => Surface.surfpt U s u v false) vs with
     | Ok pts => res o = Ok tt /\ post o = Surface.with_surface_points s (done ++ pts)
     | Raise e => res o = Raise e
     end.
Proof.
  revert done. induction vs as [|v vs IH]; intros done; cbn zeta.
  - simpl. rewrite app_nil_r. auto.
  - cbn [for_each comprehension].
    destruct (Surface.surfpt U s u v false) as [spt|e] eqn:E.
    + rewrite seq_Ok with (a := tt) (s' := Surface.with_surface_points s (done ++ [spt]))
        (w := []).
      2:{ rewrite seq_get.
          change (Surface.surfpt U (Surface.with_surface_points s done) u v false)
            with (Surface.surfpt U s u v false).
          rewrite E, seq_lift_Ok. reflexivity. }
      specialize (IH (done ++ [spt])). cbn zeta in IH.
      destruct IH as (Hw & IH). cbn [res post warned bind]. rewrite Hw.
      split; [reflexivity|].
      destruct (comprehension _ vs) as [pts|e']; cbn [bind].
      * rewrite <- app_assoc in IH. exact IH.
      * exact IH.
    + rewrite seq_Raise with (e := e) (s' := Surface.with_surface_points s done) (w := []).
      2:{ rewrite seq_get.
          change (Surface.surfpt U (Surface.with_surface_points s done) u v false)
            with (Surface.surfpt U s u v false).
          rewrite E, seq_lift_Raise. reflexivity. }
      cbn. auto.
Qed.

(** The two loops of [evaluate]: a row of points for every [u]. *)
Lemma surface_evaluate_loop (U : utilities.t) (s : Surface.t) (us vs : list Q)
    (done : list Surface.point) :
  let o := for_each us (fun u =>
             for_each vs (fun v =>
               s <~ get ;;
               spt <~ lift (Surface.surfpt U s u v false) ;;
               put (Surface.with_surface_points s (Surface._surface_points s ++ [spt]))))
             (Surface.with_surface_points s done) in
  warned o = []
  /\ match comprehension (fun u => comprehension (fun v => Surface.surfpt U s u v false) vs) us
     with
     | Ok rows => res o = Ok tt
                  /\ post o = Surface.with_surface_points s (done ++ concat rows)
     | Raise e => res o = Raise e
     end.
Proof.
  revert done. induction us as [|u us IH]; intros done; cbn zeta.
  - simpl. rewrite app_nil_r. auto.
  - cbn [for_each comprehension].
    destruct (surface_evaluate_row U s u vs done) as (Hw & Hrow). cbn zeta in Hw, Hrow.
    destruct (comprehension (fun v => Surface.surfpt U s u v false) vs) as [row|e] eqn:E.
    + destruct Hrow as (Hr & Hp).
      rewrite seq_Ok with (a := tt) (s' := Surface.with_surface_points s (done ++ row))
        (w := []).
      2:{ rewrite <- (outcome_eta (for_each vs _ _)), Hr, Hp, Hw. reflexivity. }
      specialize (IH (done ++ row)). cbn zeta in IH.
      destruct IH as (Hw' & IH). cbn [res post warned bind]. rewrite Hw'.
      split; [reflexivity|].
      destruct (comprehension _ us) as [rows|e']; cbn [bind concat].
      * rewrite app_assoc. exact IH.
      * exact IH.
    + rewrite seq_Raise with (e := e) (s' := post (for_each vs
          (fun v => s <~ get ;;
                    spt <~ lift (Surface.surfpt U s u v false) ;;
                    put (Surface.with_surface_points s (Surface._surface_points s ++ [spt])))
          (Surface.with_surface_points s done))) (w := []).
      * cbn. auto.
      * rewrite <- Hrow, <- Hw. symmetry. apply outcome_eta.
Qed.

Lemma surface_evaluate_eq (U : utilities.t) (s : Surface.t) :
  Surface._check_variables s = Ok tt ->
  Surface.evaluate U s
  = for_each (utilities.frange U 0 1 (Surface._delta s)) (fun u =>
      for_each (utilities.frange U 0 1 (Surface._delta s)) (fun v =>
        s <~ get ;;
        spt <~ lift (Surface.surfpt U s u v false) ;;
        put (Surface.with_surface_points s (Surface._surface_points s ++ [spt]))))
      (Surface.with_surface_points s []).
Proof.
  intros Hvars. unfold Surface.evaluate.
  rewrite seq_get, Hvars, seq_lift_Ok.
  rewrite seq_Ok with (a := tt) (s' := Surface.with_surface_points s []) (w := [])
    by apply reset_surface_eq.
  cbn [app]. apply outcome_eta.
Qed.

(** X13.  [Surface.evaluate()] on a surface that passes [_check_variables]
    stores the points [surfpt(u, v)] for [u] and [v] in [frange(0, 1,
    delta)], the [v] parameter varying first, with nothing else changed,
    and returns; when [surfpt] raises at one of the pairs, the call raises
    the same exception. *)
Theorem surface_evaluate_samples (U : utilities.t) (s : Surface.t) :
  Surface._check_variables s = Ok tt ->
  (forall rows,
     comprehension (fun u =>
       comprehension (fun v => Surface.surfpt U s u v false)
         (utilities.frange U 0 1 (Surface._delta s)))
       (utilities.frange U 0 1 (Surface._delta s)) = Ok rows ->
     Surface.evaluate U s
     = Outcome (Ok tt) (Surface.with_surface_points s (concat rows)) [])
  /\ (forall e,
     comprehension (fun u =>
       comprehension (fun v => Surface.surfpt U s u v false)
         (utilities.frange U 0 1 (Surface._delta s)))
       (utilities.frange U 0 1 (Surface._delta s)) = Raise e ->
     res (Surface.evaluate U s) = Raise e).
Proof.
  intros Hvars. rewrite surface_evaluate_eq by exact Hvars.
  destruct (surface_evaluate_loop U s (utilities.frange U 0 1 (Surface._delta s))
              (utilities.frange U 0 1 (Surface._delta s)) []) as (Hw & H).
  cbn zeta in Hw, H.
  split.
  - intros rows E. rewrite E in H. destruct H as (Hr & Hp).
    rewrite <- (outcome_eta (for_each _ _ _)), Hr, Hp, Hw. reflexivity.
  - intros e E. rewrite E in H. exact H.
Qed.

Lemma surface_evaluate_samples_witness :
  Surface._check_variables Examples.grid32 = Ok tt
  /\ exists rows,
       length rows = 3%nat
       /\ Surface.evaluate utils Examples.grid32
          = Outcome (Ok tt) (Surface.with_surface_points Examples.grid32 (concat rows)) [].
Proof.
  split; [reflexivity|].
  eexists. split.
  2:{ apply (surface_evaluate_samples utils Examples.grid32); [reflexivity|].
      vm_compute. reflexivity. }
  reflexivity.
Defined.

(** X14.  The getter of [surfpts] is lazy.  With cached points it returns
    them and calls nothing; right after an [evaluate()] that returned it
    returns the points of that call and leaves the surface as it is; with no
    cached points it is [evaluate()] followed by the read of the cache, and
    raises what [evaluate()] raises. *)
Theorem surfpts_is_lazy (U : utilities.t) (s : Surface.t) :
  (Surface._surface_points s <> [] ->
     Surface.surfpts U s = Outcome (Ok (Surface._surface_points s)) s [])
  /\ (forall s0, Surface.evaluate U s0 = Outcome (Ok tt) s [] ->
     Surface.surfpts U s = Outcome (Ok (Surface._surface_points s)) s [])
  /\ (Surface._surface_points s = [] ->
      (forall s', Surface.evaluate U s = Outcome (Ok tt) s' [] ->
         Surface.surfpts U s = Outcome (Ok (Surface._surface_points s')) s' [])
      /\ (forall e, res (Surface.evaluate U s) = Raise e ->
         res (Surface.surfpts U s) = Raise e)).
Proof.
  assert (Hfull : Surface._surface_points s <> [] ->
            Surface.surfpts U s = Outcome (Ok (Surface._surface_points s)) s []).
  { intros Hne. unfold Surface.surfpts. rewrite seq_get.
    destruct (Surface._surface_points s) as [|p pts] eqn:E; [contradiction|].
    cbn [nonempty negb]. rewrite seq_pass, seq_get, E. reflexivity. }
  assert (Hempty : Surface._surface_points s = [] ->
            forall s', Surface.evaluate U s = Outcome (Ok tt) s' [] ->
            Surface.surfpts U s = Outcome (Ok (Surface._surface_points s')) s' []).
  { intros Hnil s' Hev. unfold Surface.surfpts. rewrite seq_get, Hnil.
    cbn [nonempty negb].
    rewrite seq_Ok with (a := tt) (s' := s') (w := []) by exact Hev.
    rewrite seq_get. reflexivity. }
  split; [exact Hfull | split; [|split]].
  - intros s0 Hev.
    destruct (list_eq_nil_dec (Surface._surface_points s)) as [E|E].
    + apply Hempty; [exact E|].
      apply (evaluate_idempotent U s0 s Hev).
    + apply Hfull, E.
  - exact (Hempty H).
  - intros e He. unfold Surface.surfpts. rewrite seq_get, H.
    cbn [nonempty negb]. unfold seq_ at 1. rewrite He. reflexivity.
Qed.

Lemma surfpts_is_lazy_witness :
  Surface.surfpts utils Examples.grid32_evaluated
  = Outcome (Ok (Surface._surface_points Examples.grid32_evaluated))
      Examples.grid32_evaluated []
  /\ res (Surface.surfpts utils Surface.__init__) = Raise ValueError.
Proof.
  split.
  - destruct (surfpts_is_lazy utils Examples.grid32_evaluated) as (_ & H & _).
    apply (H Examples.grid32). vm_compute. reflexivity.
  - destruct (surfpts_is_lazy utils Surface.__init__) as (_ & _ & H).
    apply H; reflexivity.
Defined.

(** ** The setters of a surface *)

Lemma degree_u_setter_eq (value : Z) (s : Surface.t) :
  Surface.degree_u_setter value s
  = if value <? 0 then Outcome (Raise ValueError) s []
    else Outcome (Ok tt) (Surface.with_degree_u (Surface.with_surface_points s []) value) [].
Proof.
  unfold Surface.degree_u_setter. rewrite seq_guard.
  destruct (value <? 0); [reflexivity|].
  rewrite seq_Ok with (a := tt) (s' := Surface.with_surface_points s []) (w := [])
    by apply reset_surface_eq.
  rewrite seq_get. reflexivity.
Qed.

Lemma degree_v_setter_eq (value : Z) (s : Surface.t) :
  Surface.degree_v_setter value s
  = if value <? 0 then Outcome (Raise ValueError) s []
    else Outcome (Ok tt) (Surface.with_degree_v (Surface.with_surface_points s []) value) [].
Proof.
  unfold Surface.degree_v_setter. rewrite seq_guard.
  destruct (value <? 0); [reflexivity|].
  rewrite seq_Ok with (a := tt) (s' := Surface.with_surface_points s []) (w := [])
    by apply reset_surface_eq.
  rewrite seq_get. reflexivity.
Qed.

Lemma surface_delta_setter_eq (value : Q) (s : Surface.t) :
  Surface.delta_setter value s
  = if Qle_bool value 0 || Qle_bool 1 value then Outcome (Raise ValueError) s []
    else Outcome (Ok tt) (Surface.with_delta (Surface.with_surface_points s []) value) [].
Proof.
  unfold Surface.delta_setter. rewrite seq_guard.
  destruct (Qle_bool value 0 || Qle_bool 1 value); [reflexivity|].
  rewrite seq_Ok with (a := tt) (s' := Surface.with_surface_points s []) (w := [])
    by apply reset_surface_eq.
  rewrite seq_get. reflexivity.
Qed.

Lemma knotvector_u_setter_eq (K : utilities.knots) (value : list Q) (s : Surface.t) :
  Surface.knotvector_u_setter K value s
  = if (Surface._degree_u s =? 0) || (Surface._control_points_size_u s =? 0)
    then Outcome (Raise ValueError) s []
    else match utilities.normalize_knot_vector K value with
         | Raise e => Outcome (Raise e) s []
         | Ok value_normalized =>
             if utilities.check_knot_vector K (Surface._degree_u s) value_normalized
                  (Surface._control_points_size_u s)
             then Outcome (Ok tt)
                    (Surface.with_knot_vector_u (Surface.with_surface_points s [])
                       value_normalized) []
             else Outcome (Raise ValueError) s []
         end.
Proof.
  unfold Surface.knotvector_u_setter. rewrite seq_get, seq_guard.
  destruct ((Surface._degree_u s =? 0) || (Surface._control_points_size_u s =? 0));
    [reflexivity|].
  destruct (utilities.normalize_knot_vector K value) as [vn|e]; [|reflexivity].
  rewrite seq_lift_Ok, seq_guard.
  destruct (utilities.check_knot_vector K _ vn _); [|reflexivity].
  cbn [negb].
  rewrite seq_Ok with (a := tt) (s' := Surface.with_surface_points s []) (w := [])
    by apply reset_surface_eq.
  rewrite seq_get. reflexivity.
Qed.

Lemma knotvector_v_setter_eq (K : utilities.knots) (value : list Q) (s : Surface.t) :
  Surface.knotvector_v_setter K value s
  = if (Surface._degree_v s =? 0) || (Surface._control_points_size_v s =? 0)
    then Outcome (Raise ValueError) s []
    else match utilities.normalize_knot_vector K value with
         | Raise e => Outcome (Raise e) s []
         | Ok value_normalized =>
             if utilities.check_knot_vector K (Surface._degree_v s) value_normalized
                  (Surface._control_points_size_v s)
             then Outcome (Ok tt)
                    (Surface.with_knot_vector_v (Surface.with_surface_points s [])
                       value_normalized) []
             else Outcome (Raise ValueError) s []
         end.
Proof.
  unfold Surface.knotvector_v_setter. rewrite seq_get, seq_guard.
  destruct ((Surface._degree_v s =? 0) || (Surface._control_points_size_v s =? 0));
    [reflexivity|].
  destruct (utilities.normalize_knot_vector K value) as [vn|e]; [|reflexivity].
  rewrite seq_lift_Ok, seq_guard.
  destruct (utilities.check_knot_vector K _ vn _); [|reflexivity].
  cbn [negb].
  rewrite seq_Ok with (a := tt) (s' := Surface.with_surface_points s []) (w := [])
    by apply reset_surface_eq.
  rewrite seq_get. reflexivity.
Qed.

(** The setter of [delta] of a surface, in binary64. *)
Lemma binary64_surface_delta_setter_eq (value : float) (s : Binary64.Surface.t) :
  Binary64.Surface.delta_setter value s
  = if PrimFloat.leb value 0 || PrimFloat.leb 1 value
    then Outcome (Raise ValueError) s []
    else Outcome (Ok tt)
           (Binary64.Surface.with_delta (Binary64.Surface.with_surface_points s []) value) [].
Proof.
  unfold Binary64.Surface.delta_setter. rewrite seq_guard.
  destruct (PrimFloat.leb value 0 || PrimFloat.leb 1 value); [reflexivity|].
  destruct s as [du dv ku kv cps cps2 su sv dl [|p pts] dim]; reflexivity.
Qed.

(** X15.  The setters of [degree_u], [degree_v], [order_u], [order_v],
    [delta], [knotvector_u] and [knotvector_v] of a surface change nothing
    when they raise: the surface, its cached points included, is as it was.
    When they return, the cached points are empty and the control points,
    the grid and the sizes are as they were; [order_u] and [order_v] read
    back as the value given, which is at least 1, and [delta] as the value
    given.  The setter of [delta] returns exactly when
    [value <= 0 or value >= 1] is false: for a number, when it lies
    strictly between 0 and 1; in binary64 also for [NaN], which it stores
    as the delta of the surface. *)
Theorem surface_setters_atomic (K : utilities.knots) (s : Surface.t) :
  (forall m, surface_setter K m ->
     (forall e, res (m s) = Raise e -> post (m s) = s)
     /\ (res (m s) = Ok tt ->
         Surface._surface_points (post (m s)) = []
         /\ Surface._control_points (post (m s)) = Surface._control_points s
         /\ Surface._control_points2D (post (m s)) = Surface._control_points2D s
         /\ Surface._control_points_size_u (post (m s)) = Surface._control_points_size_u s
         /\ Surface._control_points_size_v (post (m s)) = Surface._control_points_size_v s))
  /\ (forall value, res (Surface.order_u_setter value s) = Ok tt ->
      1 <= value /\ Surface.order_u (post (Surface.order_u_setter value s)) = value)
  /\ (forall value, res (Surface.order_v_setter value s) = Ok tt ->
      1 <= value /\ Surface.order_v (post (Surface.order_v_setter value s)) = value)
  /\ (forall value,
      (res (Surface.delta_setter value s) = Ok tt <-> (0 < value)%Q /\ (value < 1)%Q)
      /\ (res (Surface.delta_setter value s) = Ok tt ->
          Surface._delta (post (Surface.delta_setter value s)) = value))
  /\ (forall (b : Binary64.Surface.t) (value : float),
      (forall e, res (Binary64.Surface.delta_setter value b) = Raise e ->
         post (Binary64.Surface.delta_setter value b) = b)
      /\ (res (Binary64.Surface.delta_setter value b) = Ok tt
          <-> PrimFloat.is_nan value = true
              \/ (PrimFloat.ltb 0 value = true /\ PrimFloat.ltb value 1 = true))
      /\ (res (Binary64.Surface.delta_setter value b) = Ok tt ->
          post (Binary64.Surface.delta_setter value b)
          = Binary64.Surface.with_delta (Binary64.Surface.with_surface_points b []) value))
  /\ (forall b : Binary64.Surface.t,
      res (Binary64.Surface.delta_setter PrimFloat.nan b) = Ok tt
      /\ PrimFloat.is_nan
           (Binary64.Surface._delta (post (Binary64.Surface.delta_setter PrimFloat.nan b)))
         = true).
Proof.
  split; [|split; [|split; [|split; [|split]]]].
  - intros m Hm. split.
    + intros e. destruct Hm; unfold Surface.order_u_setter, Surface.order_v_setter;
        rewrite ?degree_u_setter_eq, ?degree_v_setter_eq, ?surface_delta_setter_eq,
          ?knotvector_u_setter_eq, ?knotvector_v_setter_eq;
        repeat match goal with
               | |- context [if ?b then _ else _] => destruct b
               | |- context [match ?r with Ok _ => _ | Raise _ => _ end] => destruct r
               end; cbn; (reflexivity || discriminate).
    + destruct Hm; unfold Surface.order_u_setter, Surface.order_v_setter;
        rewrite ?degree_u_setter_eq, ?degree_v_setter_eq, ?surface_delta_setter_eq,
          ?knotvector_u_setter_eq, ?knotvector_v_setter_eq;
        repeat match goal with
               | |- context [if ?b then _ else _] => destruct b
               | |- context [match ?r with Ok _ => _ | Raise _ => _ end] => destruct r
               end; cbn; intros H; try discriminate; auto.
  - intros value. unfold Surface.order_u_setter. rewrite degree_u_setter_eq.
    destruct (Z.ltb_spec (value - 1) 0); cbn; [discriminate|].
    intros _. unfold Surface.order_u. cbn. lia.
  - intros value. unfold Surface.order_v_setter. rewrite degree_v_setter_eq.
    destruct (Z.ltb_spec (value - 1) 0); cbn; [discriminate|].
    intros _. unfold Surface.order_v. cbn. lia.
  - intros value. rewrite surface_delta_setter_eq.
    destruct (Qle_bool value 0) eqn:E0; cbn.
    { split; [|discriminate]. split; [discriminate|]. intros [H _].
      apply Qle_bool_iff in E0. lra. }
    destruct (Qle_bool 1 value) eqn:E1; cbn.
    { split; [|discriminate]. split; [discriminate|]. intros [_ H].
      apply Qle_bool_iff in E1. lra. }
    split; [|reflexivity]. split; [|reflexivity]. intros _. split.
    + apply Qnot_le_lt. intros H. apply Qle_bool_iff in H. congruence.
    + apply Qnot_le_lt. intros H. apply Qle_bool_iff in H. congruence.
  - intros b value. rewrite binary64_surface_delta_setter_eq.
    pose proof (delta_test value) as Ht.
    destruct (PrimFloat.leb value 0 || PrimFloat.leb 1 value); cbn.
    + split; [reflexivity|]. split; [|discriminate].
      split; [discriminate|]. intros H. apply Ht in H. discriminate.
    + split; [discriminate|]. split; [|reflexivity].
      split; [|reflexivity]. intros _. apply Ht. reflexivity.
  - intros b. rewrite binary64_surface_delta_setter_eq. split; reflexivity.
Qed.

Lemma surface_setters_atomic_witness :
  post (Surface.order_u_setter 0 Examples.grid32_evaluated) = Examples.grid32_evaluated
  /\ Surface._surface_points (post (Surface.degree_v_setter 2 Examples.grid32_evaluated)) = []
  /\ Surface.order_v (post (Surface.order_v_setter 3 Examples.grid32)) = 3.
Proof.
  pose (K := {| utilities.normalize_knot_vector := fun v => Ok v;
                utilities.check_knot_vector := spec.check_knot_vector |}).
  destruct (surface_setters_atomic K Examples.grid32_evaluated) as (H1 & _).
  destruct (surface_setters_atomic K Examples.grid32) as (_ & _ & H3 & _).
  split; [|split].
  - apply (proj1 (H1 _ (set_order_u K 0)) ValueError). reflexivity.
  - apply (proj2 (H1 _ (set_degree_v K 2))). reflexivity.
  - apply (H3 3). reflexivity.
Defined.

(** ** Methods called before the object is configured *)

(** X16.  A curve with degree 0, or without control points, or without a
    knot vector is not evaluated: [curvept] called with [check_vars] true
    (its default), [derivatives], [derivatives2], [tangent], [normal],
    [evaluate], [insert_knot] and, when no points are cached, the getter of
    [curvepts] raise [ValueError] and leave the curve as it was, whatever
    their other arguments and whatever [geomdl.utilities] does.  Called
    with [check_vars] false, [curvept] skips the check: on the curve of the
    scenario with its degree set to 0 it returns the point (3, 2) at
    u = 0.25.  The setter of [degree] accepts 0, which makes the curve such
    a curve. *)
Theorem curve_not_configured (U : utilities.t) (V : utilities.vectors) (c : Curve.t) :
  (Curve._degree c = 0 \/ Curve._control_points c = [] \/ Curve._knot_vector c = [] ->
   (forall u, Curve.curvept U c u true = Raise ValueError)
   /\ (forall u order, Curve.derivatives U c u order = Raise ValueError)
   /\ (forall u order, Curve.derivatives2 U c u order = Raise ValueError)
   /\ (forall u normalize, Curve.tangent U V c u normalize = Raise ValueError)
   /\ (forall u normalize, Curve.normal U V c u normalize = Raise ValueError)
   /\ Curve.evaluate U c = Outcome (Raise ValueError) c []
   /\ (forall u r, Curve.insert_knot U u r c = Outcome (Raise ValueError) c [])
   /\ (Curve._curve_points c = [] ->
       Curve.curvepts U c = Outcome (Raise ValueError) c []))
  /\ (Curve.curvept utils (Curve.with_degree Examples.curve 0) (1 # 4) true
      = Raise ValueError
      /\ Curve.curvept utils (Curve.with_degree Examples.curve 0) (1 # 4) false
         = Ok [3; 2]%Q)
  /\ (res (Curve.degree_setter 0 c) = Ok tt
      /\ Curve._degree (post (Curve.degree_setter 0 c)) = 0).
Proof.
  split; [|split; [split; vm_compute; reflexivity|]].
  - intros Hc.
    assert (Hvars : Curve._check_variables c = Raise ValueError).
    { unfold Curve._check_variables.
      destruct (Z.eqb_spec (Curve._degree c) 0);
        destruct (Curve._control_points c); destruct (Curve._knot_vector c);
        cbn; try reflexivity.
      destruct Hc as [H|[H|H]]; [contradiction | discriminate | discriminate]. }
    assert (Hev : Curve.evaluate U c = Outcome (Raise ValueError) c []).
    { unfold Curve.evaluate. rewrite seq_get, Hvars. reflexivity. }
    repeat split.
    + intros u. unfold Curve.curvept. rewrite Hvars. reflexivity.
    + intros u order. unfold Curve.derivatives. rewrite Hvars. reflexivity.
    + intros u order. unfold Curve.derivatives2. rewrite Hvars. reflexivity.
    + intros u normalize. unfold Curve.tangent, Curve.derivatives. rewrite Hvars. reflexivity.
    + intros u normalize. unfold Curve.normal, Curve.derivatives. rewrite Hvars. reflexivity.
    + exact Hev.
    + intros u r. unfold Curve.insert_knot. rewrite seq_get, Hvars. reflexivity.
    + intros Hnil. unfold Curve.curvepts. rewrite seq_get, Hnil. cbn [nonempty negb].
      rewrite seq_Raise with (e := ValueError) (s' := c) (w := []) by exact Hev.
      reflexivity.
  - unfold Curve.degree_setter. rewrite seq_guard. cbn [Z.ltb Z.compare].
    rewrite seq_Ok with (a := tt) (s' := Curve.with_curve_points c []) (w := [])
      by apply reset_curve_eq.
    rewrite seq_get. split; reflexivity.
Qed.

Lemma curve_not_configured_witness :
  Curve.evaluate utils Curve2D.__init__ = Outcome (Raise ValueError) Curve2D.__init__ []
  /\ Curve.insert_knot utils (1 # 2) 1 Curve.__init__
     = Outcome (Raise ValueError) Curve.__init__ [].
Proof.
  pose (V := {| utilities.vector_normalize := fun v => Ok v;
                utilities.vector_cross := fun v _ => Ok v |}).
  split.
  - apply (curve_not_configured utils V Curve2D.__init__). left. reflexivity.
  - apply (curve_not_configured utils V Curve.__init__). left. reflexivity.
Defined.

(** X17.  A surface with a degree 0, or without control points, or without
    one of its knot vectors is not evaluated: [surfpt] called with
    [check_vars] true (its default), [derivatives], [tangent], [evaluate],
    [insert_knot] and, when no points are cached, the getter of [surfpts]
    raise [ValueError] and leave the surface as it was, whatever their
    other arguments and whatever [geomdl.utilities] does.  Called with
    [check_vars] false, [surfpt] skips the check: on the 3 x 2 grid with
    its degree in u set to 0 it returns the point (1, 0.25, 1) at
    u = v = 0.25. *)
Theorem surface_not_configured (U : utilities.t) (V : utilities.vectors) (s : Surface.t) :
  (Surface._degree_u s = 0 \/ Surface._degree_v s = 0 \/ Surface._control_points s = []
   \/ Surface._knot_vector_u s = [] \/ Surface._knot_vector_v s = [] ->
   (forall u v, Surface.surfpt U s u v true = Raise ValueError)
   /\ (forall u v order, Surface.derivatives U s u v order = Raise ValueError)
   /\ (forall u v normalize, Surface.tangent U V s u v normalize = Raise ValueError)
   /\ Surface.evaluate U s = Outcome (Raise ValueError) s []
   /\ (forall u v r, Surface.insert_knot U u v r s = Outcome (Raise ValueError) s [])
   /\ (Surface._surface_points s = [] ->
       Surface.surfpts U s = Outcome (Raise ValueError) s []))
  /\ (Surface.surfpt utils (Surface.with_degree_u Examples.grid32 0) (1 # 4) (1 # 4) true
      = Raise ValueError
      /\ exists spt,
           Surface.surfpt utils (Surface.with_degree_u Examples.grid32 0)
             (1 # 4) (1 # 4) false = Ok spt
           /\ same spt [1; 1 # 4; 1]%Q).
Proof.
  split.
  2: { split; [vm_compute; reflexivity|]. eexists. split; [vm_compute; reflexivity|].
       unfold same. repeat (constructor; [vm_compute; reflexivity|]). constructor. }
  intros Hs.
  assert (Hvars : Surface._check_variables s = Raise ValueError).
  { unfold Surface._check_variables.
    destruct (Z.eqb_spec (Surface._degree_u s) 0);
      destruct (Z.eqb_spec (Surface._degree_v s) 0);
      destruct (Surface._control_points s);
      destruct (Surface._knot_vector_u s); destruct (Surface._knot_vector_v s);
      cbn; try reflexivity.
    destruct Hs as [H|[H|[H|[H|H]]]]; (contradiction || discriminate). }
  assert (Hev : Surface.evaluate U s = Outcome (Raise ValueError) s []).
  { unfold Surface.evaluate. rewrite seq_get, Hvars. reflexivity. }
  repeat split.
  - intros u v. unfold Surface.surfpt. rewrite Hvars. reflexivity.
  - intros u v order. unfold Surface.derivatives. rewrite Hvars. reflexivity.
  - intros u v normalize. unfold Surface.tangent, Surface.derivatives.
    rewrite Hvars. reflexivity.
  - exact Hev.
  - intros u v r. unfold Surface.insert_knot. rewrite seq_get, Hvars. reflexivity.
  - intros Hnil. unfold Surface.surfpts. rewrite seq_get, Hnil. cbn [nonempty negb].
    rewrite seq_Raise with (e := ValueError) (s' := s) (w := []) by exact Hev.
    reflexivity.
Qed.

Lemma surface_not_configured_witness :
  Surface.evaluate utils (Examples.blank 1 1)
  = Outcome (Raise ValueError) (Examples.blank 1 1) [].
Proof.
  pose (V := {| utilities.vector_normalize := fun v => Ok v;
                utilities.vector_cross := fun v _ => Ok v |}).
  apply (proj1 (surface_not_configured utils V (Examples.blank 1 1))).
  right. right. left. reflexivity.
Defined.

(** ** Surface.insert_knot keeps the two views of the control points in step *)

(** A loop that is known to have run to its end keeps what its rounds
    keep. *)
Lemma for_partial {A X} (P : A -> Prop) (body : X -> A -> result A) (l : list X) :
  (forall x acc acc', P acc -> body x acc = Ok acc' -> P acc') ->
  forall acc acc', P acc -> for_ l body acc = Ok acc' -> P acc'.
Proof.
  intros Hbody. induction l as [|x l IH]; intros acc acc' Hacc Hrun; simpl in Hrun.
  - congruence.
  - apply bind_Ok_inv in Hrun as (acc1 & E1 & Hrun).
    apply (IH acc1); [|exact Hrun]. apply (Hbody x acc acc1 Hacc E1).
Qed.

Lemma setitem_length {A} (l l' : list A) (i : Z) (x : A) :
  setitem l i x = Ok l' -> length l' = length l.
Proof.
  unfold setitem. destruct (index (length l) i); [|discriminate].
  intros H. inversion H. apply length_insert.
Qed.

Lemma index_lt (n : nat) (i : Z) (k : nat) : index n i = Ok k -> (k < n)%nat.
Proof.
  unfold index.
  destruct (Z.leb_spec 0 i); destruct (Z.ltb_spec i (Z.of_nat n)); cbn [andb];
    try (intros E; inversion E; lia);
    destruct (Z.leb_spec (- Z.of_nat n) i); destruct (Z.ltb_spec i 0); cbn [andb];
    intros E; inversion E; lia.
Qed.

Lemma set2_widths {A} (M M' : list (list A)) (i j : Z) (x : A) :
  set2 M i j x = Ok M' -> widths M' = widths M.
Proof.
  unfold set2, getitem, setitem. intros H.
  destruct (index (length M) i) as [n|] eqn:En; [|discriminate].
  destruct (M !! n) as [row|] eqn:Erow; [|discriminate]. simpl in H.
  destruct (index (length row) j) as [m|] eqn:Em; [|discriminate]. simpl in H.
  inversion H. unfold widths. rewrite list_fmap_insert, length_insert.
  apply list_insert_id. rewrite list_lookup_fmap, Erow. reflexivity.
Qed.

Lemma comprehension_length {X B} (f : X -> result B) (l : list X) (ys : list B) :
  comprehension f l = Ok ys -> length ys = length l.
Proof.
  revert ys. induction l as [|x l IH]; intros ys H; simpl in H.
  - inversion H. reflexivity.
  - apply bind_Ok_inv in H as (y & _ & H).
    apply bind_Ok_inv in H as (ys' & E & H). inversion H. simpl.
    f_equal. apply IH, E.
Qed.

Lemma comprehension2_widths {X B} (f : X -> result B) (M : list (list X)) (M' : list (list B)) :
  comprehension (comprehension f) M = Ok M' -> widths M' = widths M.
Proof.
  revert M'. induction M as [|row M IH]; intros M' H; simpl in H.
  - inversion H. reflexivity.
  - apply bind_Ok_inv in H as (row' & Erow & H).
    apply bind_Ok_inv in H as (M1 & E & H). inversion H. unfold widths in *. simpl.
    f_equal; [apply (comprehension_length _ _ _ Erow) | apply IH, E].
Qed.

Lemma widths_replicateZ {A} (rows cols : Z) (x : A) :
  widths (replicateZ rows (replicateZ cols x))
  = replicate (Z.to_nat rows) (Z.to_nat cols).
Proof.
  unfold widths, replicateZ. induction (Z.to_nat rows) as [|n IH]; simpl.
  - reflexivity.
  - rewrite length_replicate, IH. reflexivity.
Qed.

Lemma shaped_widths (rows cols : Z) (G : list (list (list Q))) :
  0 <= rows -> 0 <= cols ->
  widths G = replicate (Z.to_nat rows) (Z.to_nat cols) -> shaped rows cols G.
Proof.
  intros Hr Hc H. split.
  - assert (E : length (widths G) = Z.to_nat rows) by (rewrite H; apply length_replicate).
    unfold widths in E. rewrite length_map in E. unfold len. lia.
  - apply Forall_forall. intros row Hrow.
    assert (Hin : length row ∈ widths G) by (apply list_elem_of_fmap; eauto).
    rewrite H in Hin. apply elem_of_replicate in Hin as [E _]. unfold len. lia.
Qed.

Lemma widths_map {A B} (f : A -> B) (M : list (list A)) : widths (map (map f) M) = widths M.
Proof.
  unfold widths. rewrite map_map. apply map_ext. intros row. apply length_map.
Qed.

(** A loop of writes into a table keeps the lengths of its rows. *)
Lemma writes_widths {A X} (body : X -> list (list A) -> result (list (list A))) (l : list X)
    (M M' : list (list A)) :
  (forall x M1 M2, body x M1 = Ok M2 -> widths M2 = widths M1) ->
  for_ l body M = Ok M' -> widths M' = widths M.
Proof.
  intros Hbody Hrun.
  apply (for_partial (fun M1 => widths M1 = widths M) body l) with (acc := M);
    [|reflexivity | exact Hrun].
  intros x M1 M2 H1 H2. rewrite (Hbody x M1 M2 H2). exact H1.
Qed.

Lemma row_u_widths (s : Surface.t) (alpha : list (list Q))
    (p s_u k_u r np row : Z) (st st' : Surface.rows) :
  Surface.row_u s alpha p s_u k_u r np row st = Ok st' ->
  widths st'.1.1 = widths st.1.1.
Proof.
  destruct st as [[Q0 R0] L0]. unfold Surface.row_u. intros H.
  apply bind_Ok_inv in H as (Q1 & E1 & H).
  apply bind_Ok_inv in H as (Q2 & E2 & H).
  apply bind_Ok_inv in H as (R1 & _ & H).
  apply bind_Ok_inv in H as ([[Q3 R3] L3] & E3 & H).
  apply bind_Ok_inv in H as (Q4 & E4 & H).
  inversion H; subst st'. cbn [fst]. rewrite widths_map.
  assert (H1 : widths Q1 = widths Q0).
  { refine (writes_widths _ _ _ _ _ E1). intros i M1 M2 HM. cbv beta in HM.
    apply bind_Ok_inv in HM as (x & _ & HM). apply (set2_widths _ _ _ _ _ HM). }
  assert (H2 : widths Q2 = widths Q1).
  { refine (writes_widths _ _ _ _ _ E2). intros i M1 M2 HM. cbv beta in HM.
    apply bind_Ok_inv in HM as (x & _ & HM). apply (set2_widths _ _ _ _ _ HM). }
  assert (H3 : widths Q3 = widths Q2).
  { refine (for_partial (fun st : Surface.rows => widths st.1.1 = widths Q2) _ _ _
              (Q2, R1, L0) (Q3, R3, L3) eq_refl E3).
    intros j [[Qa Ra] La] st2 Hst HM. cbn [fst] in *.
    apply bind_Ok_inv in HM as (Rb & _ & HM).
    apply bind_Ok_inv in HM as (x & _ & HM).
    apply bind_Ok_inv in HM as (Qb & Eb & HM).
    apply bind_Ok_inv in HM as (y & _ & HM).
    apply bind_Ok_inv in HM as (Qc & Ec & HM).
    inversion HM; subst st2. cbn [fst].
    rewrite (set2_widths _ _ _ _ _ Ec), (set2_widths _ _ _ _ _ Eb). exact Hst. }
  assert (H4 : widths Q4 = widths Q3).
  { refine (writes_widths _ _ _ _ _ E4). intros i M1 M2 HM. cbv beta in HM.
    apply bind_Ok_inv in HM as (x & _ & HM). apply (set2_widths _ _ _ _ _ HM). }
  congruence.
Qed.

Lemma col_v_widths (s : Surface.t) (alpha : list (list Q))
    (q s_v k_v r mp : Z) (k_u : option Z) (col : Z) (st st' : Surface.rows) :
  Surface.col_v s alpha q s_v k_v r mp k_u col st = Ok st' ->
  widths st'.1.1 = widths st.1.1.
Proof.
  destruct st as [[Q0 R0] L0]. unfold Surface.col_v. intros H.
  apply bind_Ok_inv in H as (Q1 & E1 & H).
  apply bind_Ok_inv in H as (Q2 & E2 & H).
  apply bind_Ok_inv in H as (R1 & _ & H).
  apply bind_Ok_inv in H as ([[Q3 R3] L3] & E3 & H).
  apply bind_Ok_inv in H as (L' & _ & H).
  apply bind_Ok_inv in H as (Q4 & E4 & H).
  inversion H; subst st'. cbn [fst]. rewrite widths_map.
  assert (H1 : widths Q1 = widths Q0).
  { refine (writes_widths _ _ _ _ _ E1). intros i M1 M2 HM. cbv beta in HM.
    apply bind_Ok_inv in HM as (x & _ & HM). apply (set2_widths _ _ _ _ _ HM). }
  assert (H2 : widths Q2 = widths Q1).
  { refine (writes_widths _ _ _ _ _ E2). intros i M1 M2 HM. cbv beta in HM.
    apply bind_Ok_inv in HM as (x & _ & HM). apply (set2_widths _ _ _ _ _ HM). }
  assert (H3 : widths Q3 = widths Q2).
  { refine (for_partial (fun st : Surface.rows => widths st.1.1 = widths Q2) _ _ _
              (Q2, R1, L0) (Q3, R3, L3) eq_refl E3).
    intros j [[Qa Ra] La] st2 Hst HM. cbn [fst] in *.
    apply bind_Ok_inv in HM as (Rb & _ & HM).
    apply bind_Ok_inv in HM as (x & _ & HM).
    apply bind_Ok_inv in HM as (Qb & Eb & HM).
    apply bind_Ok_inv in HM as (y & _ & HM).
    apply bind_Ok_inv in HM as (Qc & Ec & HM).
    inversion HM; subst st2. cbn [fst].
    rewrite (set2_widths _ _ _ _ _ Ec), (set2_widths _ _ _ _ _ Eb). exact Hst. }
  assert (H4 : widths Q4 = widths Q3).
  { refine (writes_widths _ _ _ _ _ E4). intros i M1 M2 HM. cbv beta in HM.
    apply bind_Ok_inv in HM as (l & _ & HM).
    apply bind_Ok_inv in HM as (x & _ & HM).
    apply (set2_widths _ _ _ _ _ HM). }
  congruence.
Qed.

Lemma A5_3_u_widths (s : Surface.t) (u : Q) (r s_u k_u : Z) (L : option Z)
    (UQ : list Q) (G : list (list Surface.point)) (L' : option Z) :
  Surface.A5_3_u s u r s_u k_u L = Ok (UQ, G, L') ->
  widths G = replicate (Z.to_nat (Surface._control_points_size_u s + r))
               (Z.to_nat (Surface._control_points_size_v s)).
Proof.
  unfold Surface.A5_3_u. intros H.
  apply bind_Ok_inv in H as (UQ0 & _ & H).
  apply bind_Ok_inv in H as (aL & _ & H).
  apply bind_Ok_inv in H as ([[Q1 R1] L1] & E & H).
  apply bind_Ok_inv in H as (UQ1 & _ & H).
  apply bind_Ok_inv in H as (G1 & EG & H).
  injection H as HU HG HL. subst G L'.
  etransitivity; [apply (comprehension2_widths _ _ _ EG)|].
  rewrite <- (widths_replicateZ _ _ A5.Unset).
  refine (for_partial
            (fun st : Surface.rows =>
               widths st.1.1
               = widths (replicateZ (Surface._control_points_size_u s + r)
                           (replicateZ (Surface._control_points_size_v s) A5.Unset)))
            _ _ (fun row st1 st2 Hst HM => _) (_, _, _) (Q1, R1, L1) eq_refl E).
  cbv beta in *. rewrite (row_u_widths _ _ _ _ _ _ _ _ _ _ HM). exact Hst.
Qed.

Lemma A5_3_v_widths (s : Surface.t) (v : Q) (r s_v k_v : Z) (k_u L : option Z)
    (VQ : list Q) (G : list (list Surface.point)) (L' : option Z) :
  Surface.A5_3_v s v r s_v k_v k_u L = Ok (VQ, G, L') ->
  widths G = replicate (Z.to_nat (Surface._control_points_size_u s))
               (Z.to_nat (Surface._control_points_size_v s + r)).
Proof.
  unfold Surface.A5_3_v. intros H.
  apply bind_Ok_inv in H as (VQ0 & _ & H).
  apply bind_Ok_inv in H as (aL & _ & H).
  apply bind_Ok_inv in H as ([[Q1 R1] L1] & E & H).
  apply bind_Ok_inv in H as (VQ1 & _ & H).
  apply bind_Ok_inv in H as (G1 & EG & H).
  injection H as HU HG HL. subst G L'.
  etransitivity; [apply (comprehension2_widths _ _ _ EG)|].
  rewrite <- (widths_replicateZ _ _ A5.Unset).
  refine (for_partial
            (fun st : Surface.rows =>
               widths st.1.1
               = widths (replicateZ (Surface._control_points_size_u s)
                           (replicateZ (Surface._control_points_size_v s + r) A5.Unset)))
            _ _ (fun col st1 st2 Hst HM => _) (_, _, _) (Q1, R1, L1) eq_refl E).
  cbv beta in *. rewrite (col_v_widths _ _ _ _ _ _ _ _ _ _ _ HM). exact Hst.
Qed.

Lemma in_step_sizes (s : Surface.t) :
  in_step s -> 0 <= Surface._control_points_size_u s /\ 0 <= Surface._control_points_size_v s.
Proof. intros (_ & [<- _] & Hv). unfold len. lia. Qed.

Lemma insert_u_in_step (U : utilities.t) (x : Q) (r : Z) (env : Surface.locals)
    (s : Surface.t) :
  0 <= r -> in_step s -> in_step (post (Surface.insert_u U x r env s)).
Proof.
  intros Hr Hs. pose proof (in_step_sizes s Hs) as [Hu Hv].
  unfold Surface.insert_u. rewrite seq_get.
  destruct (utilities.find_multiplicity U x (Surface._knot_vector_u s)) as [s_u|e];
    [rewrite seq_lift_Ok | rewrite seq_lift_Raise; exact Hs].
  destruct (r >? Surface._degree_u s - s_u).
  { cbn. exact Hs. }
  rewrite seq_ret.
  destruct (Surface.can_insert_knot env); [|exact Hs].
  destruct (utilities.find_span U _ _ _ x) as [k|e];
    [rewrite seq_lift_Ok | rewrite seq_lift_Raise; exact Hs].
  destruct (Surface.A5_3_u s x r s_u k _) as [[[UQ G] L]|e] eqn:E;
    [rewrite seq_lift_Ok | rewrite seq_lift_Raise; exact Hs].
  cbv beta iota. rewrite seq_put. cbn [post ret].
  split; [reflexivity|]. split; [|exact Hv].
  apply shaped_widths;
    [cbn [Surface._control_points_size_u Surface.with_ctrlpts]; lia | exact Hv |].
  apply (A5_3_u_widths _ _ _ _ _ _ _ _ _ E).
Qed.

Lemma insert_v_in_step (U : utilities.t) (x : Q) (r : Z) (env : Surface.locals)
    (s : Surface.t) :
  0 <= r -> in_step s -> in_step (post (Surface.insert_v U x r env s)).
Proof.
  intros Hr Hs. pose proof (in_step_sizes s Hs) as [Hu Hv].
  unfold Surface.insert_v. rewrite seq_get.
  destruct (utilities.find_multiplicity U x (Surface._knot_vector_v s)) as [s_v|e];
    [rewrite seq_lift_Ok | rewrite seq_lift_Raise; exact Hs].
  destruct (r >? Surface._degree_v s - s_v).
  { cbn. exact Hs. }
  rewrite seq_ret.
  destruct (Surface.can_insert_knot env); [|exact Hs].
  destruct (utilities.find_span U _ _ _ x) as [k|e];
    [rewrite seq_lift_Ok | rewrite seq_lift_Raise; exact Hs].
  destruct (Surface.A5_3_v s x r s_v k _ _) as [[[VQ G] L]|e] eqn:E;
    [rewrite seq_lift_Ok | rewrite seq_lift_Raise; exact Hs].
  cbv beta iota. rewrite seq_put. cbn [post ret].
  split; [reflexivity|]. split.
  - apply shaped_widths;
      [exact Hu | cbn [Surface._control_points_size_v Surface.with_ctrlpts]; lia |].
    apply (A5_3_v_widths _ _ _ _ _ _ _ _ _ _ E).
  - cbn [Surface._control_points_size_v Surface.with_ctrlpts]. lia.
Qed.

(** What a method call keeps, whatever it returns. *)
Lemma seq_keeps {S A B} (P : S -> Prop) (m : method S A) (f : A -> method S B) (s : S) :
  P (post (m s)) -> (forall a s', P s' -> P (post (f a s'))) -> P (post (seq_ m f s)).
Proof.
  intros Hm Hf. unfold seq_. destruct (res (m s)); cbn; [apply Hf|]; exact Hm.
Qed.

(** X18.  [Surface.insert_knot] called with [r >= 1], or with at most one
    of [u] and [v] given, keeps the two views of the control points in
    step, whether it returns, warns or raises: if the flat list is the grid
    row by row and the grid has [size_u] rows of [size_v] points before the
    call, the same holds after it. *)
Theorem insert_knot_in_step (U : utilities.t) (u v : option Q) (r : Z) (s : Surface.t) :
  own_L u v r -> in_step s -> in_step (post (Surface.insert_knot U u v r s)).
Proof.
  intros _ Hs. unfold Surface.insert_knot. rewrite seq_get.
  apply seq_keeps; [exact Hs|]. intros _ s1 H1.
  apply seq_keeps; [destruct (truthy u || truthy v); exact H1|]. intros _ s2 H2.
  rewrite seq_guard. destruct (Z.ltb_spec r 0) as [Hr|Hr]; [exact H2|].
  apply seq_keeps.
  { destruct u as [x|]; [destruct (truthy (Some x))|]; try exact H2.
    apply insert_u_in_step; assumption. }
  intros env s3 H3.
  apply seq_keeps.
  { destruct v as [x|]; [destruct (truthy (Some x))|]; try exact H3.
    apply insert_v_in_step; assumption. }
  intros env' s4 H4. rewrite seq_get.
  destruct (nonempty (Surface._surface_points s4)); [|exact H4].
  destruct (evaluate_writes_cache U s4) as (pts & ->). exact H4.
Qed.

Lemma insert_knot_in_step_witness :
  in_step (post (Surface.insert_knot utils (Some (1 # 2)) (Some (3 # 4)) 1 Examples.grid23)).
Proof.
  apply (insert_knot_in_step utils (Some (1 # 2)) (Some (3 # 4)) 1 Examples.grid23).
  { left. lia. }
  split; [reflexivity | split; [|vm_compute; discriminate]].
  split; [reflexivity | repeat constructor].
Defined.

(** ** Curve.insert_knot: an accepted insertion *)

(** *** The new knot vector *)

(** One more slot of an array that is filled from the left. *)
Lemma fill_next {A} (done : list A) (m : nat) (x : A) (i : Z) :
  i = len done -> (0 < m)%nat ->
  setitem (map Some done ++ replicate m None) i (Some x)
  = Ok (map Some (done ++ [x]) ++ replicate (m - 1) None).
Proof.
  intros -> Hm. rewrite setitem_Ok.
  - f_equal. unfold len. rewrite Nat2Z.id.
    rewrite <- (length_map Some done) at 1.
    rewrite insert_app_r_alt by lia. rewrite Nat.sub_diag.
    destruct m as [|m]; [lia|]. simpl. rewrite Nat.sub_0_r.
    rewrite map_app. simpl. rewrite <- app_assoc. reflexivity.
  - unfold len. rewrite length_app, length_map, length_replicate. lia.
Qed.

(** A loop that fills the next [length vals] slots. *)
Lemma fill_loop {A} (body : Z -> list (option A) -> result (list (option A)))
    (vals : list A) :
  forall (a : Z) (done : list A) (m : nat),
  (length vals <= m)%nat ->
  (forall n y UQ, vals !! n = Some y ->
     body (a + Z.of_nat n) UQ = setitem UQ (len done + Z.of_nat n) (Some y)) ->
  for_ (range a (a + len vals)) body (map Some done ++ replicate m None)
  = Ok (map Some (done ++ vals) ++ replicate (m - length vals) None).
Proof.
  induction vals as [|y vals IH]; intros a done m Hm Hbody.
  - rewrite range_nil by (unfold len; simpl; lia). simpl.
    rewrite app_nil_r, Nat.sub_0_r. reflexivity.
  - rewrite range_cons by (unfold len; simpl; lia). cbn [for_].
    assert (E : body a (map Some done ++ replicate m None)
                = Ok (map Some (done ++ [y]) ++ replicate (m - 1) None)).
    { rewrite <- (Z.add_0_r a) at 1. rewrite (Hbody 0%nat y) by reflexivity.
      apply fill_next; [lia | simpl in Hm; lia]. }
    rewrite E. cbn [bind].
    replace (a + len (y :: vals)) with (a + 1 + len vals) by (unfold len; simpl; lia).
    rewrite IH.
    + rewrite <- app_assoc. simpl.
      replace (m - 1 - length vals)%nat with (m - S (length vals))%nat by lia.
      reflexivity.
    + simpl in Hm. lia.
    + intros n y' UQ Hn.
      replace (a + 1 + Z.of_nat n) with (a + Z.of_nat (S n)) by lia.
      rewrite (Hbody (S n) y') by exact Hn.
      f_equal. unfold len. rewrite length_app. simpl. lia.
Qed.

Lemma filled_Some {A} (l : list A) : A5.filled (map Some l) = Ok l.
Proof.
  unfold A5.filled. induction l as [|x l IH]; simpl; [reflexivity|].
  rewrite IH. reflexivity.
Qed.

(** "Load new knot vector" *)
Lemma load_knot_vector_value (knot_vector : list Q) (k r : Z) (x : Q) :
  0 <= k < len knot_vector -> 0 <= r ->
  A5.load_knot_vector knot_vector k r x = Ok (map Some (inserted_knots knot_vector k r x)).
Proof.
  intros Hk Hr. unfold A5.load_knot_vector, inserted_knots.
  set (mp := len knot_vector) in *.
  assert (Hmp : length knot_vector = Z.to_nat mp) by (unfold mp, len; lia).
  (* the knots up to k *)
  pose proof (fill_loop (fun i UQ => y <- getitem knot_vector i ;; setitem UQ i (Some y))
                (take (Z.to_nat (k + 1)) knot_vector) 0 [] (Z.to_nat (mp + r))) as H1.
  assert (Hl1 : len (take (Z.to_nat (k + 1)) knot_vector) = k + 1).
  { unfold len. rewrite length_take. lia. }
  rewrite Hl1 in H1. cbn [map app] in H1. replace (0 + (k + 1)) with (k + 1) in H1 by lia.
  unfold replicateZ. rewrite H1; clear H1.
  2:{ rewrite length_take. lia. }
  2:{ intros n y UQ Hn. apply lookup_take_Some in Hn as [Hn Hlt].
      rewrite (getitem_Ok _ _ y) by (lia || (rewrite Z.add_0_l, Nat2Z.id; exact Hn)).
      reflexivity. }
  cbn [bind].
  (* the new knot, r times *)
  pose proof (fill_loop (fun i UQ => setitem UQ (k + i) (Some x))
                (replicate (Z.to_nat r) x) 1 (take (Z.to_nat (k + 1)) knot_vector)
                (Z.to_nat (mp + r) - length (take (Z.to_nat (k + 1)) knot_vector))) as H2.
  assert (Hl2 : len (replicate (Z.to_nat r) x) = r).
  { unfold len. rewrite length_replicate. lia. }
  rewrite Hl2 in H2. replace (1 + r) with (r + 1) in H2 by lia. rewrite H2; clear H2.
  2:{ rewrite length_replicate, length_take. lia. }
  2:{ intros n y UQ Hn. apply lookup_replicate in Hn as [-> _].
      f_equal. rewrite Hl1. lia. }
  cbn [bind].
  (* the knots after k *)
  pose proof (fill_loop (fun i UQ => y <- getitem knot_vector i ;; setitem UQ (i + r) (Some y))
                (drop (Z.to_nat (k + 1)) knot_vector) (k + 1)
                (take (Z.to_nat (k + 1)) knot_vector ++ replicate (Z.to_nat r) x)
                (Z.to_nat (mp + r) - length (take (Z.to_nat (k + 1)) knot_vector)
                 - length (replicate (Z.to_nat r) x))) as H3.
  assert (Hl3 : len (drop (Z.to_nat (k + 1)) knot_vector) = mp - (k + 1)).
  { unfold len. rewrite length_drop. lia. }
  rewrite Hl3 in H3. replace (k + 1 + (mp - (k + 1))) with mp in H3 by lia.
  rewrite H3; clear H3.
  2:{ rewrite length_drop, length_replicate, length_take. lia. }
  2:{ intros n y UQ Hn. rewrite lookup_drop in Hn.
      rewrite (getitem_Ok _ _ y); [| lia |].
      - simpl. f_equal. unfold len. rewrite length_app, length_take, length_replicate. lia.
      - rewrite <- Hn. f_equal. lia. }
  f_equal. rewrite <- app_assoc.
  replace (Z.to_nat (mp + r) - length (take (Z.to_nat (k + 1)) knot_vector)
           - length (replicate (Z.to_nat r) x)
           - length (drop (Z.to_nat (k + 1)) knot_vector))%nat with 0%nat.
  - simpl. rewrite app_nil_r. reflexivity.
  - rewrite length_drop, length_replicate, length_take. lia.
Qed.

(** *** The new control points *)

(** A loop of writes, each of the value that its slot is to hold in the
    end. *)
Lemma write_loop {A} (E : Z -> A) (body : Z -> list A -> result (list A)) (idx : Z -> Z)
    (n : Z) (S : Z -> Prop) (a b : Z) :
  a <= b ->
  (forall i Q, a <= i < b -> len Q = n ->
     0 <= idx i < n /\ body i Q = setitem Q (idx i) (E (idx i))) ->
  forall Q, len Q = n ->
    (forall m, 0 <= m -> S m -> Q !! Z.to_nat m = Some (E m)) ->
    exists Q', for_ (range a b) body Q = Ok Q'
      /\ len Q' = n
      /\ forall m, 0 <= m -> S m \/ (exists i, a <= i < b /\ m = idx i) ->
           Q' !! Z.to_nat m = Some (E m).
Proof.
  intros Hab Hbody Q HQ HS.
  destruct (for_range_total
              (fun i Q => len Q = n
                 /\ forall m, 0 <= m -> S m \/ (exists i', a <= i' < i /\ m = idx i') ->
                      Q !! Z.to_nat m = Some (E m))
              body a b Hab) with (acc := Q) as (Q' & E' & HQ' & HS').
  - intros i Q1 Hi (Hlen & Hinv).
    destruct (Hbody i Q1 Hi Hlen) as (Hidx & ->).
    rewrite setitem_Ok by lia. eexists. split; [reflexivity|]. split.
    + unfold len in *. rewrite length_insert. exact Hlen.
    + intros m Hm Hcase.
      destruct (Z.eq_dec m (idx i)) as [->|Hne].
      * apply list_lookup_insert_eq. unfold len in *. lia.
      * rewrite list_lookup_insert_ne by lia. apply Hinv; [exact Hm|].
        destruct Hcase as [H|(i' & Hi' & ->)]; [left; exact H|].
        right. exists i'. split; [|reflexivity].
        destruct (Z.eq_dec i' i) as [->|]; [contradiction | lia].
  - split; [exact HQ|]. intros m Hm [H|(i' & Hi' & _)]; [apply HS; assumption | lia].
  - eauto.
Qed.

Lemma ref_Ok (R : list (option A5.point)) (i : Z) (p : A5.point) :
  0 <= i -> R !! Z.to_nat i = Some (Some p) -> A5.ref R i = Ok (A5.Aux (Z.to_nat i)).
Proof.
  intros Hi Hp. unfold A5.ref.
  rewrite index_nonneg by (apply lookup_lt_Some in Hp; lia).
  simpl. rewrite Hp. reflexivity.
Qed.

Lemma Rref_step (c : Curve.t) (u : Q) (s k j i : Z) :
  1 <= j ->
  Rref c u s k (Z.to_nat j) i
  = if i <=? Curve._degree c - j - s
    then Curve.blend (alpha_ref c u k j i)
           (Rref c u s k (Z.to_nat (j - 1)) i) (Rref c u s k (Z.to_nat (j - 1)) (i + 1))
    else Rref c u s k (Z.to_nat (j - 1)) i.
Proof.
  intros Hj. replace (Z.to_nat j) with (S (Z.to_nat (j - 1))) by lia.
  cbn [Rref]. replace (Z.of_nat (S (Z.to_nat (j - 1)))) with j by lia. reflexivity.
Qed.

Lemma getitem_default {A} (l : list A) (d : A) (i : Z) :
  0 <= i < len l -> getitem l i = Ok (default d (l !! Z.to_nat i)).
Proof.
  intros Hi.
  destruct (lookup_lt_is_Some_2 l (Z.to_nat i)) as (x & Hx); [unfold len in *; lia|].
  rewrite Hx. apply getitem_Ok; [lia | exact Hx].
Qed.

Section A51.

Variables (c : Curve.t) (u : Q) (r s k : Z).

Hypothesis degree_nonneg : 0 <= Curve._degree c.
Hypothesis window : Curve._degree c <= k < len (Curve._control_points c).
Hypothesis knots_after : k + Curve._degree c < len (Curve._knot_vector c).
Hypothesis sorted : spec.nondecreasing (Curve._knot_vector c) = true.
Hypothesis span_nontrivial : spec.nontrivial (Curve._knot_vector c) k = true.
Hypothesis multiplicity : 0 <= s.
Hypothesis count : 0 <= r <= Curve._degree c - s.

(** "The algorithm uses R array to update control points" *)
Lemma load_R :
  exists R,
    for_ (range 0 (Curve._degree c - s + 1)) (fun i R =>
      x <- getitem (Curve._control_points c) (k - Curve._degree c + i) ;;
      setitem R i (Some x)) (replicateZ (Curve._degree c + 1) None) = Ok R
    /\ loaded c u s k 0 R.
Proof using degree_nonneg window multiplicity count.
  destruct (write_loop
              (fun i => Some (Rref c u s k 0 i))
              (fun i R => x <- getitem (Curve._control_points c) (k - Curve._degree c + i) ;;
                          setitem R i (Some x))
              (fun i => i) (Curve._degree c + 1) (fun _ => False)
              0 (Curve._degree c - s + 1))
    with (Q := replicateZ (Curve._degree c + 1) (@None A5.point))
    as (R & E & Hlen & HR).
  - lia.
  - intros i R Hi HlenR. split; [lia|].
    cbv beta. rewrite (getitem_default (A := Curve.point) _ []) by lia. reflexivity.
  - apply len_replicateZ. lia.
  - intros m _ [].
  - exists R. split; [exact E|]. split; [exact Hlen|].
    intros i Hi. apply HR; [lia|]. right. exists i. split; [lia | reflexivity].
Qed.

(** One round of "insert the knot r times", on the auxiliary points. *)
Lemma blend_round (j : Z) (R : list (option A5.point)) :
  1 <= j <= r -> loaded c u s k (j - 1) R ->
  exists R',
    for_ (range 0 (Curve._degree c - j - s + 1)) (fun i R =>
      a <- getitem (Curve._knot_vector c) (k - Curve._degree c + j + i) ;;
      b <- getitem (Curve._knot_vector c) (i + k + 1) ;;
      a' <- getitem (Curve._knot_vector c) (k - Curve._degree c + j + i) ;;
      alpha <- fdiv (u - a) (b - a') ;;
      Ri <- getitem R i ;;
      Ri1 <- getitem R (i + 1) ;;
      elems1 <- A5.the_list Ri ;;
      elems2 <- A5.the_list Ri1 ;;
      setitem R i (Some (Curve.blend alpha elems1 elems2))) R = Ok R'
    /\ loaded c u s k j R'.
Proof using All.
  intros Hj (HlenR & HR).
  destruct (for_range_total
              (fun i R =>
                 len R = Curve._degree c + 1
                 /\ (forall i', 0 <= i' < i ->
                       R !! Z.to_nat i' = Some (Some (Rref c u s k (Z.to_nat j) i')))
                 /\ (forall i', i <= i' <= Curve._degree c - s ->
                       R !! Z.to_nat i' = Some (Some (Rref c u s k (Z.to_nat (j - 1)) i'))))
              (fun i R =>
                 a <- getitem (Curve._knot_vector c) (k - Curve._degree c + j + i) ;;
                 b <- getitem (Curve._knot_vector c) (i + k + 1) ;;
                 a' <- getitem (Curve._knot_vector c) (k - Curve._degree c + j + i) ;;
                 alpha <- fdiv (u - a) (b - a') ;;
                 Ri <- getitem R i ;;
                 Ri1 <- getitem R (i + 1) ;;
                 elems1 <- A5.the_list Ri ;;
                 elems2 <- A5.the_list Ri1 ;;
                 setitem R i (Some (Curve.blend alpha elems1 elems2)))
              0 (Curve._degree c - j - s + 1)) with (acc := R)
    as (R' & E & Hlen' & Hnew & Hold).
  - lia.
  - intros i R1 Hi (Hlen1 & Hnew1 & Hold1).
    destruct (knot_exists (Curve._knot_vector c) (k - Curve._degree c + j + i))
      as (a & Ha); [lia|].
    destruct (knot_exists (Curve._knot_vector c) (i + k + 1)) as (b & Hb); [lia|].
    rewrite (getitem_Ok _ _ a) by (lia || exact Ha). cbn [bind].
    rewrite (getitem_Ok _ _ b) by (lia || exact Hb). cbn [bind].
    assert (Hab : (a < b)%Q).
    { apply (knots_apart (Curve._degree c) (Curve._knot_vector c) k degree_nonneg
               ltac:(lia) sorted span_nontrivial (k - Curve._degree c + j + i) (i + k + 1));
        [lia | lia | exact Ha | exact Hb]. }
    rewrite fdiv_Ok by lra. cbn [bind].
    rewrite (getitem_Ok R1 i _) by (lia || (apply Hold1; lia)). cbn [bind].
    rewrite (getitem_Ok R1 (i + 1) _) by (lia || (apply Hold1; lia)). cbn [bind A5.the_list].
    rewrite setitem_Ok by lia. eexists. split; [reflexivity|].
    unfold A5.point, Curve.point in *. split; [|split].
    + unfold len in *. rewrite length_insert. exact Hlen1.
    + intros i' Hi'. destruct (Z.eq_dec i' i) as [->|Hne].
      * rewrite list_lookup_insert_eq by (unfold len in *; lia).
        rewrite (Rref_step c u s k j i) by lia.
        destruct (Z.leb_spec i (Curve._degree c - j - s)); [|lia].
        unfold alpha_ref. cbv zeta.
        rewrite (K_lookup (Curve._knot_vector c) (k - Curve._degree c + j + i) a)
          by (lia || exact Ha).
        rewrite (K_lookup (Curve._knot_vector c) (i + k + 1) b) by (lia || exact Hb).
        reflexivity.
      * rewrite list_lookup_insert_ne by lia. apply Hnew1. lia.
    + intros i' Hi'. rewrite list_lookup_insert_ne by lia. apply Hold1. lia.
  - split; [exact HlenR|]. split; [intros i' Hi'; lia|].
    intros i' Hi'. apply HR. lia.
  - exists R'. split; [exact E|]. split; [exact Hlen'|].
    intros i Hi. destruct (Z_lt_le_dec i (Curve._degree c - j - s + 1)) as [Hlt|Hge].
    + apply Hnew. lia.
    + rewrite (Rref_step c u s k j i) by lia.
      destruct (Z.leb_spec i (Curve._degree c - j - s)); [lia|].
      apply Hold. lia.
Qed.

(** "Save unaltered control points" *)
Lemma save_unaltered :
  exists Q,
    (Q <- for_ (range 0 (k - Curve._degree c + 1)) (fun i Q =>
            x <- getitem (Curve._control_points c) i ;; setitem Q i (A5.Old x))
          (replicateZ (len (Curve._control_points c) + r) A5.Unset) ;;
     for_ (range (k - s) (len (Curve._control_points c))) (fun i Q =>
       x <- getitem (Curve._control_points c) i ;; setitem Q (i + r) (A5.Old x)) Q) = Ok Q
    /\ slots c r s k (fun m => m <= k - Curve._degree c
                       \/ k + r - s <= m < len (Curve._control_points c) + r) Q.
Proof using degree_nonneg window multiplicity count.
  destruct (write_loop (slot_ref c r s k)
              (fun i Q => x <- getitem (Curve._control_points c) i ;; setitem Q i (A5.Old x))
              (fun i => i) (len (Curve._control_points c) + r) (fun _ => False)
              0 (k - Curve._degree c + 1))
    with (Q := replicateZ (len (Curve._control_points c) + r) A5.Unset)
    as (Q1 & E1 & Hlen1 & H1).
  - lia.
  - intros i Q Hi HlenQ. split; [lia|]. cbv beta.
    rewrite (getitem_default (A := Curve.point) _ []) by lia. cbn [bind].
    unfold slot_ref. cbv zeta.
    destruct (Z.leb_spec i (k - Curve._degree c)); [reflexivity | lia].
  - apply len_replicateZ. lia.
  - intros m _ [].
  - rewrite E1. cbn [bind].
    destruct (write_loop (slot_ref c r s k)
                (fun i Q => x <- getitem (Curve._control_points c) i ;;
                            setitem Q (i + r) (A5.Old x))
                (fun i => i + r) (len (Curve._control_points c) + r)
                (fun m => exists i, 0 <= i < k - Curve._degree c + 1 /\ m = i)
                (k - s) (len (Curve._control_points c)))
      with (Q := Q1) as (Q2 & E2 & Hlen2 & H2).
    + lia.
    + intros i Q Hi HlenQ. split; [lia|]. cbv beta.
      rewrite (getitem_default (A := Curve.point) _ []) by lia. cbn [bind].
      unfold slot_ref. cbv zeta.
      destruct (Z.leb_spec (i + r) (k - Curve._degree c)).
      { replace (i + r) with i by lia. reflexivity. }
      destruct (Z.ltb_spec (i + r) (k - Curve._degree c + r)); [lia|].
      destruct (Z.ltb_spec (i + r) (k + r - s)); [lia|].
      replace (i + r - r) with i by lia. reflexivity.
    + exact Hlen1.
    + intros m Hm Hcase. apply H1; [exact Hm | right; exact Hcase].
    + exists Q2. split; [exact E2|]. split; [exact Hlen2|].
      intros m Hm Hcase. apply H2; [exact Hm|].
      destruct Hcase as [Hlow|Hhigh].
      * left. exists m. split; [lia | reflexivity].
      * right. exists (m - r). split; [lia | lia].
Qed.

(** "Insert the knot r times": the rounds up to [j]. *)
Lemma insert_rounds (R : list (option A5.point)) (Q : list A5.slot) (S : Z -> Prop) :
  loaded c u s k 0 R -> slots c r s k S Q ->
  exists R' Q',
    for_ (range 1 (r + 1)) (fun j (RQ : list (option A5.point) * list A5.slot) =>
      let L := k - Curve._degree c + j in
      R <- for_ (range 0 (Curve._degree c - j - s + 1)) (fun i R =>
             a <- getitem (Curve._knot_vector c) (L + i) ;;
             b <- getitem (Curve._knot_vector c) (i + k + 1) ;;
             a' <- getitem (Curve._knot_vector c) (L + i) ;;
             alpha <- fdiv (u - a) (b - a') ;;
             Ri <- getitem R i ;;
             Ri1 <- getitem R (i + 1) ;;
             elems1 <- A5.the_list Ri ;;
             elems2 <- A5.the_list Ri1 ;;
             setitem R i (Some (Curve.blend alpha elems1 elems2))) RQ.1 ;;
      q <- A5.ref R 0 ;;
      Q <- setitem RQ.2 L q ;;
      q <- A5.ref R (Curve._degree c - j - s) ;;
      Q <- setitem Q (k + r - j - s) q ;;
      Ok (R, Q)) (R, Q) = Ok (R', Q')
    /\ loaded c u s k r R'
    /\ slots c r s k (fun m => S m \/ k - Curve._degree c < m <= k - Curve._degree c + r
                       \/ k - s <= m < k + r - s) Q'.
Proof using All.
  intros HR HQ.
  destruct (for_range_total
              (fun j (RQ : list (option A5.point) * list A5.slot) =>
                 loaded c u s k (j - 1) RQ.1
                 /\ slots c r s k (fun m => S m \/ k - Curve._degree c < m < k - Curve._degree c + j
                                    \/ k + r - j - s < m < k + r - s) RQ.2)
              (fun j (RQ : list (option A5.point) * list A5.slot) =>
                 let L := k - Curve._degree c + j in
                 R <- for_ (range 0 (Curve._degree c - j - s + 1)) (fun i R =>
                        a <- getitem (Curve._knot_vector c) (L + i) ;;
                        b <- getitem (Curve._knot_vector c) (i + k + 1) ;;
                        a' <- getitem (Curve._knot_vector c) (L + i) ;;
                        alpha <- fdiv (u - a) (b - a') ;;
                        Ri <- getitem R i ;;
                        Ri1 <- getitem R (i + 1) ;;
                        elems1 <- A5.the_list Ri ;;
                        elems2 <- A5.the_list Ri1 ;;
                        setitem R i (Some (Curve.blend alpha elems1 elems2))) RQ.1 ;;
                 q <- A5.ref R 0 ;;
                 Q <- setitem RQ.2 L q ;;
                 q <- A5.ref R (Curve._degree c - j - s) ;;
                 Q <- setitem Q (k + r - j - s) q ;;
                 Ok (R, Q))
              1 (r + 1)) with (acc := (R, Q)) as ([R' Q'] & E & HR' & HQ').
  - lia.
  - intros j [R1 Q1] Hj (HR1 & HlenQ1 & HQ1). cbn [fst snd] in *. cbv zeta.
    destruct (blend_round j R1 ltac:(lia) HR1) as (R2 & -> & HR2). cbn [bind].
    pose proof HR2 as (HlenR2 & HR2v).
    rewrite (ref_Ok R2 0 _ ltac:(lia) (HR2v 0 ltac:(lia))). cbn [bind].
    rewrite setitem_Ok by lia. cbn [bind].
    rewrite (ref_Ok R2 (Curve._degree c - j - s) _ ltac:(lia)
               (HR2v (Curve._degree c - j - s) ltac:(lia))). cbn [bind].
    rewrite setitem_Ok by (unfold len in *; rewrite length_insert; lia).
    eexists. split; [reflexivity|]. cbn [fst snd].
    split; [replace (j + 1 - 1) with j by lia; exact HR2|].
    split; [unfold len in *; rewrite !length_insert; exact HlenQ1|].
    intros m Hm Hcase.
    destruct (Z.eq_dec m (k + r - j - s)) as [->|Hne2].
    { rewrite list_lookup_insert_eq by (unfold len in *; rewrite length_insert; lia).
      f_equal. unfold slot_ref. cbv zeta.
      destruct (Z.leb_spec (k + r - j - s) (k - Curve._degree c)); [lia|].
      destruct (Z.ltb_spec (k + r - j - s) (k - Curve._degree c + r)); [lia|].
      destruct (Z.ltb_spec (k + r - j - s) (k + r - s)); [|lia].
      f_equal. lia. }
    rewrite list_lookup_insert_ne by lia.
    destruct (Z.eq_dec m (k - Curve._degree c + j)) as [->|Hne1].
    { rewrite list_lookup_insert_eq by (unfold len in *; lia).
      f_equal. unfold slot_ref. cbv zeta.
      destruct (Z.leb_spec (k - Curve._degree c + j) (k - Curve._degree c)); [lia|].
      destruct (Z.ltb_spec (k - Curve._degree c + j) (k - Curve._degree c + r));
        [reflexivity|].
      destruct (Z.ltb_spec (k - Curve._degree c + j) (k + r - s)); [|lia].
      f_equal. lia. }
    rewrite list_lookup_insert_ne by lia.
    apply HQ1; [exact Hm|].
    destruct Hcase as [H|[H|H]]; [left; exact H | right; left; lia | right; right; lia].
  - cbn [fst snd]. split; [exact HR|]. destruct HQ as (HlenQ & HQv). split; [exact HlenQ|].
    intros m Hm [H|[H|H]]; [apply HQv; assumption | lia | lia].
  - exists R', Q'. split; [exact E|]. cbn [fst snd] in *.
    replace (r + 1 - 1) with r in HR' by lia. split; [exact HR'|].
    destruct HQ' as (HlenQ' & HQv'). split; [exact HlenQ'|].
    intros m Hm Hcase. apply HQv'; [exact Hm|].
    destruct Hcase as [H|[H|H]]; [left; exact H | right; left; lia | right; right; lia].
Qed.

(** "Load remaining control points" *)
Lemma load_remaining (R : list (option A5.point)) (Q : list A5.slot) (S : Z -> Prop) :
  loaded c u s k r R -> slots c r s k S Q ->
  exists Q',
    for_ (range (k - Curve._degree c + r + 1) (k - s)) (fun i Q =>
      q <- A5.ref R (i - (k - Curve._degree c + r)) ;; setitem Q i q) Q = Ok Q'
    /\ slots c r s k (fun m => S m \/ k - Curve._degree c + r < m < k - s) Q'.
Proof using degree_nonneg window multiplicity count.
  intros (HlenR & HR) (HlenQ & HQ).
  destruct (Z_le_gt_dec (k - Curve._degree c + r + 1) (k - s)) as [Hle|Hgt].
  - destruct (write_loop (slot_ref c r s k)
                (fun i Q => q <- A5.ref R (i - (k - Curve._degree c + r)) ;; setitem Q i q)
                (fun i => i) (len (Curve._control_points c) + r) S
                (k - Curve._degree c + r + 1) (k - s) Hle)
      with (Q := Q) as (Q' & E & Hlen' & H').
    + intros i Q1 Hi HlenQ1. split; [lia|]. cbv beta.
      rewrite (ref_Ok R (i - (k - Curve._degree c + r)) _ ltac:(lia)
                 (HR (i - (k - Curve._degree c + r)) ltac:(lia))). cbn [bind].
      unfold slot_ref. cbv zeta.
      destruct (Z.leb_spec i (k - Curve._degree c)); [lia|].
      destruct (Z.ltb_spec i (k - Curve._degree c + r)); [lia|].
      destruct (Z.ltb_spec i (k + r - s)); [reflexivity | lia].
    + exact HlenQ.
    + exact HQ.
    + exists Q'. split; [exact E|]. split; [exact Hlen'|].
      intros m Hm [H|H]; apply H'; [exact Hm | left; exact H | exact Hm |].
      right. exists m. split; [lia | reflexivity].
  - rewrite range_nil by lia. exists Q. split; [reflexivity|]. split; [exact HlenQ|].
    intros m Hm [H|H]; [apply HQ; assumption | lia].
Qed.

(** What the slots of [Q] refer to, once the auxiliary points hold their
    last values. *)
Lemma deref_slot (R : list (option A5.point)) (m : Z) :
  loaded c u s k r R -> 0 <= m < len (Curve._control_points c) + r ->
  A5.deref R (slot_ref c r s k m) = Ok (inserted_point c u r s k m).
Proof using degree_nonneg window multiplicity count.
  intros (HlenR & HR) Hm. unfold slot_ref, inserted_point. cbv zeta.
  destruct (Z.leb_spec m (k - Curve._degree c)); [reflexivity|].
  destruct (Z.ltb_spec m (k - Curve._degree c + r)).
  { pose proof (HR 0 ltac:(lia)) as HR0. change (Z.to_nat 0) with 0%nat in HR0.
    unfold A5.deref. unfold A5.point in HR0 |- *. rewrite HR0. reflexivity. }
  destruct (Z.ltb_spec m (k + r - s)); [|reflexivity].
  pose proof (HR (m - (k - Curve._degree c + r)) ltac:(lia)) as HR0.
  unfold A5.deref. unfold A5.point in HR0 |- *. rewrite HR0. reflexivity.
Qed.

End A51.

(** A list is the list of its items. *)
Lemma list_of_lookups {A} (f : Z -> A) (l : list A) (n : Z) :
  len l = n -> (forall m, 0 <= m < n -> l !! Z.to_nat m = Some (f m)) ->
  l = map f (range 0 n).
Proof.
  intros Hlen H. apply list_eq. intros i.
  destruct (Nat.lt_ge_cases i (length l)) as [Hlt|Hge].
  - rewrite list_lookup_fmap, lookup_range by (unfold len in *; lia).
    rewrite <- (Nat2Z.id i) at 1. rewrite H by (unfold len in *; lia).
    simpl. reflexivity.
  - rewrite (proj2 (lookup_ge_None l i)) by lia.
    symmetry. apply lookup_ge_None. rewrite length_map.
    pose proof (length_range 0 n). unfold len in *. lia.
Qed.

Lemma comprehension_fmap {X Y B} (f : Y -> result B) (g : X -> Y) (l : list X) :
  comprehension f (map g l) = comprehension (fun x => f (g x)) l.
Proof.
  induction l as [|x l IH]; simpl; [reflexivity|]. rewrite IH. reflexivity.
Qed.

(** Algorithm A5.1, as [insert_knot] runs it: the knot vector with [u]
    inserted [r] times after the span, and the control points of
    [inserted]. *)
Lemma A5_1_value (c : Curve.t) (u : Q) (r s k : Z) :
  0 <= Curve._degree c ->
  Curve._degree c <= k < len (Curve._control_points c) ->
  k + Curve._degree c < len (Curve._knot_vector c) ->
  spec.nondecreasing (Curve._knot_vector c) = true ->
  spec.nontrivial (Curve._knot_vector c) k = true ->
  0 <= s -> 0 <= r <= Curve._degree c - s ->
  Curve.A5_1 c u r s k
  = Ok (inserted_knots (Curve._knot_vector c) k r u, inserted c u r s k).
Proof.
  intros Hd Hwin Hkn Hsorted Hnt Hs Hr. unfold Curve.A5_1. cbv zeta.
  rewrite load_knot_vector_value by lia. cbn [bind].
  destruct (save_unaltered c r s k Hd Hwin Hs Hr) as (Q2 & E2 & HQ2).
  apply bind_Ok_inv in E2 as (Q1 & E1 & E2). rewrite E1. cbn [bind]. rewrite E2. cbn [bind].
  destruct (load_R c u r s k Hd Hwin Hs Hr) as (R0 & -> & HR0). cbn [bind].
  destruct (insert_rounds c u r s k Hd Hwin Hkn Hsorted Hnt Hs Hr R0 Q2 _ HR0 HQ2)
    as (R & Q3 & E3 & HR & HQ3).
  unfold A5.point, Curve.point in *. rewrite E3.
  cbn [bind fst snd].
  destruct (load_remaining c u r s k Hd Hwin Hs Hr R Q3 _ HR HQ3) as (Q4 & E4 & HlenQ4 & HQ4).
  unfold A5.point, Curve.point in *. rewrite E4.
  cbn [bind]. rewrite filled_Some. cbn [bind].
  rewrite (list_of_lookups (slot_ref c r s k) Q4 _ HlenQ4).
  - rewrite comprehension_fmap.
    rewrite (comprehension_range _ (inserted_point c u r s k)); [reflexivity|].
    intros m Hm. apply (deref_slot c u r s k Hd Hwin Hs Hr R m HR Hm).
  - intros m Hm. apply HQ4; [lia|].
    destruct (Z_le_gt_dec m (k - Curve._degree c)); [left; left; left; lia|].
    destruct (Z_le_gt_dec m (k - Curve._degree c + r)); [left; right; left; lia|].
    destruct (Z_lt_le_dec m (k - s)); [right; lia|].
    destruct (Z_lt_le_dec m (k + r - s)); [left; right; right; lia|].
    left; left; right; lia.
Qed.

(** *** What the method leaves *)

(** The curve that an accepted [insert_knot(u, r)] builds before it looks at
    the cache. *)
Lemma curve_insert_knot_eq (U : utilities.t) (c : Curve.t) (u : Q) (r s k : Z) :
  evaluable U c u k ->
  utilities.find_multiplicity U u (Curve._knot_vector c) = Ok s ->
  0 <= s -> 0 <= r <= Curve._degree c - s ->
  Curve.insert_knot U u r c
  = (if nonempty (Curve._curve_points c) then Curve.evaluate U else pass)
      (Curve.with_control_points
         (Curve.with_knot_vector c (inserted_knots (Curve._knot_vector c) k r u))
         (inserted c u r s k)).
Proof.
  intros (Hvars & Huv & _ & Hd & Hspan & Hwin & Hkn & Hsorted & Hnt) Hs Hs0 Hr.
  unfold Curve.insert_knot.
  rewrite seq_get, Hvars, seq_lift_Ok, Huv, seq_lift_Ok, seq_guard.
  destruct (Z.ltb_spec r 0); [lia|].
  rewrite Hs, seq_lift_Ok.
  destruct (r >? Curve._degree c - s) eqn:E.
  { rewrite Z.gtb_ltb in E. apply Z.ltb_lt in E. lia. }
  rewrite Hspan, seq_lift_Ok.
  rewrite (A5_1_value c u r s k) by assumption.
  rewrite seq_lift_Ok. cbn [fst snd]. rewrite seq_put, seq_get. reflexivity.
Qed.

(** It differs from what the method leaves by the cache at most, and is
    what the method leaves when there was no cache. *)
Lemma curve_insert_knot_post (U : utilities.t) (c : Curve.t) (u : Q) (r s k : Z) :
  evaluable U c u k ->
  utilities.find_multiplicity U u (Curve._knot_vector c) = Ok s ->
  0 <= s -> 0 <= r <= Curve._degree c - s ->
  (exists pts,
     post (Curve.insert_knot U u r c)
     = Curve.with_curve_points
         (Curve.with_control_points
            (Curve.with_knot_vector c (inserted_knots (Curve._knot_vector c) k r u))
            (inserted c u r s k)) pts)
  /\ (Curve._curve_points c = [] ->
      res (Curve.insert_knot U u r c) = Ok tt /\ warned (Curve.insert_knot U u r c) = []).
Proof.
  intros Hready Hs Hs0 Hr.
  rewrite (curve_insert_knot_eq U c u r s k) by assumption.
  split.
  - destruct (nonempty (Curve._curve_points c)) eqn:E.
    + apply curve_evaluate_writes_cache.
    + exists (Curve._curve_points c). destruct c; reflexivity.
  - intros ->. split; reflexivity.
Qed.

Lemma inserted_length (c : Curve.t) (u : Q) (r s k : Z) :
  0 <= len (Curve._control_points c) + r ->
  len (inserted c u r s k) = len (Curve._control_points c) + r.
Proof.
  intros H. unfold inserted, len. rewrite length_map.
  pose proof (length_range 0 (len (Curve._control_points c) + r)) as Hr.
  unfold len in *. lia.
Qed.

Lemma inserted_lookup (c : Curve.t) (u : Q) (r s k m : Z) :
  0 <= m < len (Curve._control_points c) + r ->
  inserted c u r s k !! Z.to_nat m = Some (inserted_point c u r s k m).
Proof.
  intros H. unfold inserted. rewrite list_lookup_fmap, lookup_range by lia.
  simpl. do 2 f_equal. lia.
Qed.

Lemma inserted_knots_length (knot_vector : list Q) (k r : Z) (x : Q) :
  0 <= r -> len (inserted_knots knot_vector k r x) = len knot_vector + r.
Proof.
  intros Hr. unfold inserted_knots, len.
  rewrite !length_app, length_replicate.
  pose proof (length_app (take (Z.to_nat (k + 1)) knot_vector)
                (drop (Z.to_nat (k + 1)) knot_vector)) as H.
  rewrite take_drop in H. lia.
Qed.

Lemma lookup_default {A} (l : list A) (d : A) (i : nat) :
  (i < length l)%nat -> l !! i = Some (default d (l !! i)).
Proof.
  intros H. destruct (lookup_lt_is_Some_2 l i H) as (x & ->). reflexivity.
Qed.

(** X19.  An accepted [insert_knot(u, r)] on a curve: with [u] in the span
    [k] that [find_span] returns, [s] the multiplicity of [u] and
    [0 <= r <= degree - s], the call returns without a warning when there
    are no cached points, and whatever the cache was it leaves: the knot
    vector with [u] inserted [r] times after position [k], [r] more knots
    and [r] more control points, the control points [0 .. k - degree] where
    they were, the control points from [k - s] on moved up by [r], and the
    degree as it was. *)
Theorem curve_insert_knot_accepted (U : utilities.t) (c : Curve.t) (u : Q) (r s k : Z) :
  evaluable U c u k ->
  utilities.find_multiplicity U u (Curve._knot_vector c) = Ok s ->
  0 <= s -> 0 <= r <= Curve._degree c - s ->
  let c' := post (Curve.insert_knot U u r c) in
  (Curve._curve_points c = [] -> Curve.insert_knot U u r c = Outcome (Ok tt) c' [])
  /\ Curve._knot_vector c' = inserted_knots (Curve._knot_vector c) k r u
  /\ len (Curve._knot_vector c') = len (Curve._knot_vector c) + r
  /\ len (Curve._control_points c') = len (Curve._control_points c) + r
  /\ (forall m, 0 <= m <= k - Curve._degree c ->
        Curve._control_points c' !! Z.to_nat m = Curve._control_points c !! Z.to_nat m)
  /\ (forall m, k - s <= m < len (Curve._control_points c) ->
        Curve._control_points c' !! Z.to_nat (m + r)
        = Curve._control_points c !! Z.to_nat m)
  /\ Curve._degree c' = Curve._degree c.
Proof.
  intros Hready Hs Hs0 Hr c'.
  destruct (curve_insert_knot_post U c u r s k Hready Hs Hs0 Hr) as ((pts & Hpost) & Hres).
  destruct Hready as (_ & _ & _ & Hd & _ & Hwin & _).
  subst c'. split; [|rewrite Hpost; cbn; split; [|split; [|split; [|split; [|split]]]]].
  - intros Hcache. destruct (Hres Hcache) as [E1 E2].
    rewrite <- E1, <- E2 at 1. symmetry. apply outcome_eta.
  - reflexivity.
  - apply inserted_knots_length. lia.
  - apply inserted_length. lia.
  - intros m Hm. rewrite inserted_lookup by lia. unfold inserted_point. cbv zeta.
    destruct (Z.leb_spec m (k - Curve._degree c)); [|lia].
    symmetry. apply lookup_default. unfold len in *. lia.
  - intros m Hm. rewrite inserted_lookup by lia. unfold inserted_point. cbv zeta.
    replace (m + r - r) with m by lia.
    destruct (Z.leb_spec (m + r) (k - Curve._degree c)).
    { replace (m + r) with m by lia. symmetry. apply lookup_default. unfold len in *. lia. }
    destruct (Z.ltb_spec (m + r) (k - Curve._degree c + r)); [lia|].
    destruct (Z.ltb_spec (m + r) (k + r - s)); [lia|].
    symmetry. apply lookup_default. unfold len in *. lia.
  - reflexivity.
Qed.

Lemma curve_insert_knot_accepted_witness :
  Curve.insert_knot utils (1 # 4) 1 Examples.curve
  = Outcome (Ok tt) (post (Curve.insert_knot utils (1 # 4) 1 Examples.curve)) []
  /\ Curve._knot_vector (post (Curve.insert_knot utils (1 # 4) 1 Examples.curve))
     = inserted_knots (Curve._knot_vector Examples.curve) 2 1 (1 # 4).
Proof.
  destruct (curve_insert_knot_accepted utils Examples.curve (1 # 4) 1 0 2) as (H1 & H2 & _).
  - repeat split; try (vm_compute; (reflexivity || discriminate)).
  - reflexivity.
  - lia.
  - simpl. lia.
  - split; [apply H1; reflexivity | exact H2].
Defined.

(** X20.  One insertion is Boehm's: after an accepted [insert_knot(u, 1)]
    the control points [k - degree + 1 .. k - s] are
    [alpha * P[m] + (1 - alpha) * P[m-1]] of the old control points, with
    [alpha = (u - U[m]) / (U[m + degree] - U[m])] over the old knots. *)
Theorem curve_insert_knot_once (U : utilities.t) (c : Curve.t) (u : Q) (s k m : Z) :
  evaluable U c u k ->
  utilities.find_multiplicity U u (Curve._knot_vector c) = Ok s ->
  0 <= s < Curve._degree c ->
  k - Curve._degree c < m <= k - s ->
  Curve._control_points (post (Curve.insert_knot U u 1 c)) !! Z.to_nat m
  = Some (Curve.blend
            ((u - K (Curve._knot_vector c) m)
             / (K (Curve._knot_vector c) (m + Curve._degree c) - K (Curve._knot_vector c) m))
            (default [] (Curve._control_points c !! Z.to_nat (m - 1)))
            (default [] (Curve._control_points c !! Z.to_nat m))).
Proof.
  intros Hready Hs Hs0 Hm.
  destruct (curve_insert_knot_post U c u 1 s k Hready Hs ltac:(lia) ltac:(lia))
    as ((pts & Hpost) & _).
  destruct Hready as (_ & _ & _ & Hd & _ & Hwin & _).
  rewrite Hpost. cbn [Curve._control_points Curve.with_curve_points Curve.with_control_points].
  rewrite inserted_lookup by lia. f_equal.
  unfold inserted_point. cbv zeta.
  destruct (Z.leb_spec m (k - Curve._degree c)); [lia|].
  destruct (Z.ltb_spec m (k - Curve._degree c + 1)); [lia|].
  destruct (Z.ltb_spec m (k + 1 - s)); [|lia].
  rewrite (Rref_step c u s k 1 (m - (k - Curve._degree c + 1))) by lia.
  destruct (Z.leb_spec (m - (k - Curve._degree c + 1)) (Curve._degree c - 1 - s)); [|lia].
  change (Z.to_nat (1 - 1)) with 0%nat. cbn [Rref]. unfold alpha_ref. cbv zeta.
  replace (k - Curve._degree c + 1 + (m - (k - Curve._degree c + 1))) with m by lia.
  replace (m - (k - Curve._degree c + 1) + k + 1) with (m + Curve._degree c) by lia.
  replace (k - Curve._degree c + (m - (k - Curve._degree c + 1))) with (m - 1) by lia.
  replace (k - Curve._degree c + (m - (k - Curve._degree c + 1) + 1)) with m by lia.
  reflexivity.
Qed.

Lemma curve_insert_knot_once_witness :
  Curve._control_points (post (Curve.insert_knot utils (1 # 4) 1 Examples.curve))
    !! Z.to_nat 1
  = Some (Curve.blend
            (((1 # 4) - K (Curve._knot_vector Examples.curve) 1)
             / (K (Curve._knot_vector Examples.curve) (1 + Curve._degree Examples.curve)
                - K (Curve._knot_vector Examples.curve) 1))
            (default [] (Curve._control_points Examples.curve !! Z.to_nat (1 - 1)))
            (default [] (Curve._control_points Examples.curve !! Z.to_nat 1))).
Proof.
  apply (curve_insert_knot_once utils Examples.curve (1 # 4) 0 2 1).
  - repeat split; try (vm_compute; (reflexivity || discriminate)).
  - reflexivity.
  - simpl. lia.
  - simpl. lia.
Defined.

(** X21.  Several insertions at once share a point: the slots
    [k - degree + 1 .. k - degree + r] of the new control points are all
    bound to the one list [R[0]], which every round updates in place, so
    after an accepted [insert_knot(u, r)] these [r] control points are
    equal. *)
Theorem curve_insert_knot_shares_point (U : utilities.t) (c : Curve.t) (u : Q)
    (r s k m m' : Z) :
  evaluable U c u k ->
  utilities.find_multiplicity U u (Curve._knot_vector c) = Ok s ->
  0 <= s -> 0 <= r <= Curve._degree c - s ->
  k - Curve._degree c < m <= k - Curve._degree c + r ->
  k - Curve._degree c < m' <= k - Curve._degree c + r ->
  Curve._control_points (post (Curve.insert_knot U u r c)) !! Z.to_nat m
  = Curve._control_points (post (Curve.insert_knot U u r c)) !! Z.to_nat m'.
Proof.
  intros Hready Hs Hs0 Hr Hm Hm'.
  destruct (curve_insert_knot_post U c u r s k Hready Hs Hs0 Hr) as ((pts & Hpost) & _).
  destruct Hready as (_ & _ & _ & Hd & _ & Hwin & _).
  rewrite Hpost. cbn [Curve._control_points Curve.with_curve_points Curve.with_control_points].
  assert (H : forall i, k - Curve._degree c < i <= k - Curve._degree c + r ->
            inserted c u r s k !! Z.to_nat i = Some (Rref c u s k (Z.to_nat r) 0)).
  { intros i Hi. rewrite inserted_lookup by lia. f_equal.
    unfold inserted_point. cbv zeta.
    destruct (Z.leb_spec i (k - Curve._degree c)); [lia|].
    destruct (Z.ltb_spec i (k - Curve._degree c + r)); [reflexivity|].
    destruct (Z.ltb_spec i (k + r - s)); [|lia].
    f_equal. lia. }
  transitivity (Some (Rref c u s k (Z.to_nat r) 0)); [apply H, Hm | symmetry; apply H, Hm'].
Qed.

Lemma curve_insert_knot_shares_point_witness :
  Curve._control_points (post (Curve.insert_knot utils (1 # 4) 2 Examples.curve))
    !! Z.to_nat 1
  = Curve._control_points (post (Curve.insert_knot utils (1 # 4) 2 Examples.curve))
    !! Z.to_nat 2.
Proof.
  apply (curve_insert_knot_shares_point utils Examples.curve (1 # 4) 2 0 2 1 2).
  - repeat split; try (vm_compute; (reflexivity || discriminate)).
  - reflexivity.
  - lia.
  - simpl. lia.
  - simpl. lia.
  - simpl. lia.
Defined.

(** X22.  [insert_knot(u, 0)] inserts nothing: when the multiplicity of [u]
    is at most the degree, the call leaves the knot vector and the control
    points as they were, and a curve without cached points as it was. *)
Theorem curve_insert_knot_zero (U : utilities.t) (c : Curve.t) (u : Q) (s k : Z) :
  evaluable U c u k ->
  utilities.find_multiplicity U u (Curve._knot_vector c) = Ok s ->
  0 <= s <= Curve._degree c ->
  Curve._knot_vector (post (Curve.insert_knot U u 0 c)) = Curve._knot_vector c
  /\ Curve._control_points (post (Curve.insert_knot U u 0 c)) = Curve._control_points c
  /\ (Curve._curve_points c = [] -> Curve.insert_knot U u 0 c = Outcome (Ok tt) c []).
Proof.
  intros Hready Hs Hs0.
  assert (Hkv : inserted_knots (Curve._knot_vector c) k 0 u = Curve._knot_vector c).
  { unfold inserted_knots. cbn [Z.to_nat replicate app]. apply take_drop. }
  assert (Hcps : inserted c u 0 s k = Curve._control_points c).
  { destruct Hready as (_ & _ & _ & Hd & _ & Hwin & _).
    symmetry. unfold inserted.
    apply (list_of_lookups (inserted_point c u 0 s k)); [symmetry; apply Z.add_0_r|].
    intros m Hm.
    assert (Hlt : (Z.to_nat m < length (Curve._control_points c))%nat)
      by (unfold len in *; lia).
    etransitivity; [exact (lookup_default (Curve._control_points c) [] (Z.to_nat m) Hlt)|].
    f_equal.
    unfold inserted_point. cbv zeta.
    destruct (Z.leb_spec m (k - Curve._degree c)); [reflexivity|].
    destruct (Z.ltb_spec m (k - Curve._degree c + 0)); [lia|].
    destruct (Z.ltb_spec m (k + 0 - s)).
    - change (Z.to_nat 0) with 0%nat. cbn [Rref]. do 3 f_equal. lia.
    - do 3 f_equal. lia. }
  rewrite (curve_insert_knot_eq U c u 0 s k) by (assumption || lia).
  rewrite Hkv, Hcps.
  assert (Hc : Curve.with_control_points (Curve.with_knot_vector c (Curve._knot_vector c))
                 (Curve._control_points c) = c) by (destruct c; reflexivity).
  rewrite Hc. split; [|split].
  - destruct (nonempty (Curve._curve_points c)); [|reflexivity].
    destruct (curve_evaluate_writes_cache U c) as (pts & ->). reflexivity.
  - destruct (nonempty (Curve._curve_points c)); [|reflexivity].
    destruct (curve_evaluate_writes_cache U c) as (pts & ->). reflexivity.
  - intros ->. reflexivity.
Qed.

Lemma curve_insert_knot_zero_witness :
  Curve.insert_knot utils (1 # 4) 0 Examples.curve = Outcome (Ok tt) Examples.curve [].
Proof.
  destruct (curve_insert_knot_zero utils Examples.curve (1 # 4) 0 2) as (_ & _ & H).
  - repeat split; try (vm_compute; (reflexivity || discriminate)).
  - reflexivity.
  - simpl. lia.
  - apply H. reflexivity.
Defined.

(** *** The order of the new knot vector *)

Lemma inserted_knots_lookup (knot_vector : list Q) (k r : Z) (x : Q) (i : nat) :
  0 <= k < len knot_vector -> 0 <= r ->
  inserted_knots knot_vector k r x !! i
  = if (Z.of_nat i <? k + 1) then knot_vector !! i
    else if (Z.of_nat i <? k + 1 + r) then Some x
    else knot_vector !! (i - Z.to_nat r)%nat.
Proof.
  intros Hk Hr. unfold inserted_knots.
  assert (Hlen : length (take (Z.to_nat (k + 1)) knot_vector) = Z.to_nat (k + 1)).
  { rewrite length_take. unfold len in Hk. lia. }
  destruct (Z.ltb_spec (Z.of_nat i) (k + 1)).
  - rewrite lookup_app_l by lia. apply lookup_take_lt. lia.
  - rewrite lookup_app_r by lia. rewrite Hlen.
    destruct (Z.ltb_spec (Z.of_nat i) (k + 1 + r)).
    + rewrite lookup_app_l by (rewrite length_replicate; lia).
      apply lookup_replicate. split; [reflexivity | lia].
    + rewrite lookup_app_r by (rewrite length_replicate; lia).
      rewrite length_replicate, lookup_drop. f_equal. lia.
Qed.

Lemma inserted_knots_ordered (knot_vector : list Q) (k r : Z) (x : Q) :
  0 <= k -> k + 1 < len knot_vector -> 0 <= r ->
  spec.nondecreasing knot_vector = true ->
  (K knot_vector k <= x <= K knot_vector (k + 1))%Q ->
  ordered (inserted_knots knot_vector k r x).
Proof.
  intros Hk Hk1 Hr Hsorted [Hlo Hhi] i j a b Hij.
  pose proof (nondecreasing_lookup knot_vector Hsorted) as Hkv.
  destruct (lookup_lt_is_Some_2 knot_vector (Z.to_nat k)) as (lo & Elo);
    [unfold len in *; lia|].
  destruct (lookup_lt_is_Some_2 knot_vector (Z.to_nat (k + 1))) as (hi & Ehi);
    [unfold len in *; lia|].
  rewrite (K_lookup knot_vector k lo) in Hlo by (lia || exact Elo).
  rewrite (K_lookup knot_vector (k + 1) hi) in Hhi by (lia || exact Ehi).
  rewrite !inserted_knots_lookup by lia.
  destruct (Z.ltb_spec (Z.of_nat i) (k + 1)); destruct (Z.ltb_spec (Z.of_nat j) (k + 1));
    try lia.
  - intros Ha Hb. apply (Hkv i j a b Hij Ha Hb).
  - destruct (Z.ltb_spec (Z.of_nat j) (k + 1 + r)).
    + intros Ha [= <-]. apply Qle_trans with lo; [|exact Hlo].
      apply (Hkv i (Z.to_nat k) a lo); [lia | exact Ha | exact Elo].
    + intros Ha Hb. apply (Hkv i (j - Z.to_nat r)%nat a b); [lia | exact Ha | exact Hb].
  - destruct (Z.ltb_spec (Z.of_nat i) (k + 1 + r));
      destruct (Z.ltb_spec (Z.of_nat j) (k + 1 + r)); try lia.
    + intros [= <-] [= <-]. apply Qle_refl.
    + intros [= <-] Hb. apply Qle_trans with hi; [exact Hhi|].
      apply (Hkv (Z.to_nat (k + 1)) (j - Z.to_nat r)%nat hi b); [lia | exact Ehi | exact Hb].
    + intros Ha Hb.
      apply (Hkv (i - Z.to_nat r)%nat (j - Z.to_nat r)%nat a b); [lia | exact Ha | exact Hb].
Qed.

(** X25.  An accepted [insert_knot(u, r)] keeps the knot vector usable:
    when the span [k] that [find_span] returned holds [u]
    ([U[k] <= u <= U[k+1]]), the new knot vector is in non-decreasing
    order, and if there were [n + degree + 1] knots for [n] control points
    before the call, there are after it. *)
Theorem curve_insert_knot_keeps_order (U : utilities.t) (c : Curve.t) (u : Q) (r s k : Z) :
  evaluable U c u k ->
  utilities.find_multiplicity U u (Curve._knot_vector c) = Ok s ->
  0 <= s -> 0 <= r <= Curve._degree c - s ->
  (K (Curve._knot_vector c) k <= u <= K (Curve._knot_vector c) (k + 1))%Q ->
  let c' := post (Curve.insert_knot U u r c) in
  ordered (Curve._knot_vector c')
  /\ (len (Curve._knot_vector c) = len (Curve._control_points c) + Curve._degree c + 1 ->
      len (Curve._knot_vector c') = len (Curve._control_points c') + Curve._degree c' + 1).
Proof.
  intros Hready Hs Hs0 Hr Hu c'.
  destruct (curve_insert_knot_post U c u r s k Hready Hs Hs0 Hr) as ((pts & Hpost) & _).
  destruct Hready as (Hvars & _ & _ & Hd & _ & Hwin & Hkn & Hsorted & _).
  assert (Hd0 : Curve._degree c <> 0).
  { unfold Curve._check_variables in Hvars.
    destruct (Z.eqb_spec (Curve._degree c) 0); [|assumption].
    destruct (negb (nonempty (Curve._control_points c)));
      destruct (negb (nonempty (Curve._knot_vector c))); discriminate. }
  subst c'. rewrite Hpost. cbn. split.
  - apply inserted_knots_ordered; (lia || assumption).
  - intros Hlen. rewrite inserted_knots_length by lia.
    rewrite inserted_length by lia. lia.
Qed.

Lemma curve_insert_knot_keeps_order_witness :
  ordered (Curve._knot_vector (post (Curve.insert_knot utils (1 # 4) 2 Examples.curve))).
Proof.
  destruct (curve_insert_knot_keeps_order utils Examples.curve (1 # 4) 2 0 2) as (H & _).
  - repeat split; try (vm_compute; (reflexivity || discriminate)).
  - reflexivity.
  - lia.
  - simpl. lia.
  - split; vm_compute; discriminate.
  - exact H.
Defined.

(** ** The cache of evaluated points is never stale *)

(** *** On a curve *)

Lemma nonempty_false {A} (l : list A) : nonempty l = false -> l = [].
Proof. destruct l; [reflexivity | discriminate]. Qed.

(** [evaluate()] returns when [curvept] does at every parameter, and then
    the cache holds these points. *)
Lemma curve_evaluate_Ok (U : utilities.t) (c : Curve.t) :
  res (Curve.evaluate U c) = Ok tt ->
  exists pts,
    comprehension (fun u => Curve.curvept U c u false)
      (utilities.frange U 0 1 (Curve._delta c)) = Ok pts
    /\ post (Curve.evaluate U c) = Curve.with_curve_points c pts.
Proof.
  intros Hres.
  assert (Hvars : Curve._check_variables c = Ok tt).
  { unfold Curve.evaluate in Hres. rewrite seq_get in Hres.
    destruct (Curve._check_variables c) as [[]|e]; [reflexivity|].
    rewrite seq_lift_Raise in Hres. discriminate. }
  rewrite curve_evaluate_eq in * by exact Hvars.
  destruct (curve_evaluate_loop U c (utilities.frange U 0 1 (Curve._delta c)) [])
    as (_ & H).
  destruct (comprehension _ _) as [pts|e].
  - destruct H as [_ Hpost]. exists pts. split; [reflexivity | exact Hpost].
  - rewrite H in Hres. discriminate.
Qed.

Lemma fresh_evaluated (U : utilities.t) (c : Curve.t) (pts : list Curve.point) :
  comprehension (fun u => Curve.curvept U c u false)
    (utilities.frange U 0 1 (Curve._delta c)) = Ok pts ->
  fresh U (Curve.with_curve_points c pts).
Proof. intros H. right. exact H. Qed.

Lemma fresh_after_evaluate (U : utilities.t) (c : Curve.t) :
  res (Curve.evaluate U c) = Ok tt -> fresh U (post (Curve.evaluate U c)).
Proof.
  intros Hres. destruct (curve_evaluate_Ok U c Hres) as (pts & Hpts & ->).
  apply fresh_evaluated, Hpts.
Qed.

(** The setter of [ctrlpts] changes nothing or leaves no cache. *)
Lemma ctrlpts_setter_cache (value : list (list Q)) (c : Curve.t) :
  post (Curve.ctrlpts_setter value c) = c
  \/ Curve._curve_points (post (Curve.ctrlpts_setter value c)) = [].
Proof.
  unfold Curve.ctrlpts_setter. rewrite seq_get, seq_guard.
  destruct (len value <? Curve._degree c + 1); [left; reflexivity|]. right.
  rewrite seq_Ok with (a := tt) (s' := Curve.with_curve_points c []) (w := [])
    by apply reset_curve_eq.
  rewrite seq_Ok with (a := tt)
    (s' := Curve.with_control_points (Curve.with_curve_points c []) []) (w := [])
    by apply reset_ctrlpts_eq.
  cbn [post].
  apply (for_each_invariant (fun c' => Curve._curve_points c' = [])); [|reflexivity].
  intros coord c1 H1. rewrite seq_get, seq_guard.
  destruct ((len coord <? 0) || (len coord >? Curve._dimension c1)); [exact H1|].
  exact H1.
Qed.

Lemma fresh_after_insert_knot (U : utilities.t) (c : Curve.t) (u : Q) (r : Z) :
  fresh U c -> res (Curve.insert_knot U u r c) = Ok tt ->
  fresh U (post (Curve.insert_knot U u r c)).
Proof.
  intros Hf Hres. unfold Curve.insert_knot in *. rewrite seq_get in *.
  destruct (Curve._check_variables c) as [[]|e];
    [rewrite seq_lift_Ok in * | rewrite seq_lift_Raise in Hres; discriminate].
  destruct (utilities.check_uv U (Some u) None) as [[]|e];
    [rewrite seq_lift_Ok in * | rewrite seq_lift_Raise in Hres; discriminate].
  rewrite seq_guard in *. destruct (r <? 0); [discriminate|].
  destruct (utilities.find_multiplicity U u (Curve._knot_vector c)) as [s|e];
    [rewrite seq_lift_Ok in * | rewrite seq_lift_Raise in Hres; discriminate].
  destruct (r >? Curve._degree c - s); [exact Hf|].
  destruct (utilities.find_span U _ _ _ u) as [k|e];
    [rewrite seq_lift_Ok in * | rewrite seq_lift_Raise in Hres; discriminate].
  destruct (Curve.A5_1 c u r s k) as [new|e];
    [rewrite seq_lift_Ok in * | rewrite seq_lift_Raise in Hres; discriminate].
  rewrite seq_put, seq_get in *.
  cbn [Curve._curve_points Curve.with_control_points Curve.with_knot_vector] in *.
  destruct (nonempty (Curve._curve_points c)) eqn:E.
  - apply fresh_after_evaluate, Hres.
  - left. apply nonempty_false, E.
Qed.

(** X23.  The cache of a curve is never stale.  If the cached points are
    none or the points [curvept(u)] of the curve as it is, at the
    parameters of [evaluate], then the same holds after every setter,
    [evaluate()] and [insert_knot(u, r)] that returns, and what the getter
    of [curvepts] returns are the points of the curve as it is. *)
Theorem curve_cache_never_stale (U : utilities.t) (K : utilities.knots) (c : Curve.t) :
  fresh U c ->
  (forall m, curve_method U K m -> res (m c) = Ok tt -> fresh U (post (m c)))
  /\ (forall pts, res (Curve.curvepts U c) = Ok pts ->
        fresh U (post (Curve.curvepts U c))
        /\ comprehension (fun u => Curve.curvept U c u false)
             (utilities.frange U 0 1 (Curve._delta c)) = Ok pts).
Proof.
  intros Hf. split.
  - intros m Hm Hres. destruct Hm as [value|value|value|value|value| |u r].
    + left. rewrite degree_setter_eq in *.
      destruct (value <? 0); [discriminate | reflexivity].
    + left. unfold Curve.order_setter in *. rewrite degree_setter_eq in *.
      destruct (value - 1 <? 0); [discriminate | reflexivity].
    + destruct (ctrlpts_setter_cache value c) as [-> | H]; [exact Hf | left; exact H].
    + left. rewrite knotvector_setter_eq in *.
      destruct ((Curve._degree c =? 0) || (len (Curve._control_points c) =? 0));
        [discriminate|].
      destruct (utilities.normalize_knot_vector K value) as [kv|e]; [|discriminate].
      destruct (utilities.check_knot_vector K _ kv _); [reflexivity | discriminate].
    + left. rewrite delta_setter_eq in *.
      destruct (Qle_bool value 0 || Qle_bool 1 value); [discriminate | reflexivity].
    + apply fresh_after_evaluate, Hres.
    + apply fresh_after_insert_knot; assumption.
  - intros pts Hres. unfold Curve.curvepts in *. rewrite seq_get in *.
    destruct (Curve._curve_points c) as [|p l] eqn:E.
    + cbn [nonempty negb] in *.
      destruct (Curve.evaluate U c) as [[[]|e] c' w] eqn:Hev.
      * rewrite seq_Ok with (a := tt) (s' := c') (w := w) in Hres |- * by exact Hev.
        rewrite seq_get in Hres |- *. cbn in Hres. inversion Hres as [Hpts].
        destruct (curve_evaluate_Ok U c) as (pts' & Hpts' & Hpost);
          [rewrite Hev; reflexivity|].
        rewrite Hev in Hpost. cbn in Hpost. subst c'. cbn. split.
        -- apply fresh_evaluated, Hpts'.
        -- exact Hpts'.
      * rewrite seq_Raise with (e := e) (s' := c') (w := w) in Hres by exact Hev.
        discriminate.
    + cbn [nonempty negb] in *. rewrite seq_pass, seq_get in *. cbn in *.
      rewrite E in Hres. inversion Hres as [Hpts]. split; [exact Hf|].
      destruct Hf as [Hnil | Hpts']; [congruence|].
      rewrite E in Hpts'. subst pts. exact Hpts'.
Qed.

Lemma curve_cache_never_stale_witness :
  fresh utils (post (Curve.insert_knot utils (1 # 4) 1
                       (post (Curve.evaluate utils Examples.curve)))).
Proof.
  pose (K := {| utilities.normalize_knot_vector := fun v => Ok v;
                utilities.check_knot_vector := spec.check_knot_vector |}).
  destruct (curve_cache_never_stale utils K (post (Curve.evaluate utils Examples.curve)))
    as (H & _).
  - right. vm_compute. reflexivity.
  - apply (H _ (call_insert_knot utils K (1 # 4) 1)). vm_compute. reflexivity.
Defined.

(** *** On a surface *)

(** What a method that returns leaves, from what its steps leave. *)
Lemma seq_returns {S A B} (R : S -> Prop) (m : method S A) (f : A -> method S B)
    (s : S) (b : B) :
  res (seq_ m f s) = Ok b ->
  (forall a, res (m s) = Ok a -> res (f a (post (m s))) = Ok b ->
     R (post (f a (post (m s))))) ->
  R (post (seq_ m f s)).
Proof.
  unfold seq_. intros Hres H. destruct (res (m s)) as [a|e]; [|discriminate].
  cbn in *. apply H; [reflexivity | exact Hres].
Qed.

(** [evaluate()] returns when [surfpt] does at every pair of parameters, and
    then the cache holds these points, row by row. *)
Lemma surface_evaluate_Ok (U : utilities.t) (s : Surface.t) :
  res (Surface.evaluate U s) = Ok tt ->
  exists rows,
    comprehension (fun u =>
      comprehension (fun v => Surface.surfpt U s u v false)
        (utilities.frange U 0 1 (Surface._delta s)))
      (utilities.frange U 0 1 (Surface._delta s)) = Ok rows
    /\ post (Surface.evaluate U s) = Surface.with_surface_points s (concat rows).
Proof.
  intros Hres.
  assert (Hvars : Surface._check_variables s = Ok tt).
  { unfold Surface.evaluate in Hres. rewrite seq_get in Hres.
    destruct (Surface._check_variables s) as [[]|e]; [reflexivity|].
    rewrite seq_lift_Raise in Hres. discriminate. }
  rewrite surface_evaluate_eq in * by exact Hvars.
  destruct (surface_evaluate_loop U s (utilities.frange U 0 1 (Surface._delta s))
              (utilities.frange U 0 1 (Surface._delta s)) []) as (_ & H).
  destruct (comprehension _ _) as [rows|e].
  - destruct H as [_ Hpost]. exists rows. split; [reflexivity | exact Hpost].
  - rewrite H in Hres. discriminate.
Qed.

Lemma fresh2_evaluated (U : utilities.t) (s : Surface.t) (rows : list (list Surface.point)) :
  comprehension (fun u =>
    comprehension (fun v => Surface.surfpt U s u v false)
      (utilities.frange U 0 1 (Surface._delta s)))
    (utilities.frange U 0 1 (Surface._delta s)) = Ok rows ->
  fresh2 U (Surface.with_surface_points s (concat rows)).
Proof. intros H. right. exists rows. split; [exact H | reflexivity]. Qed.

Lemma fresh2_after_evaluate (U : utilities.t) (s : Surface.t) :
  res (Surface.evaluate U s) = Ok tt -> fresh2 U (post (Surface.evaluate U s)).
Proof.
  intros Hres. destruct (surface_evaluate_Ok U s Hres) as (rows & Hrows & ->).
  apply fresh2_evaluated, Hrows.
Qed.

(** [set_ctrlpts] leaves no cache, whatever it is given. *)
Lemma set_ctrlpts_cache (ctrlpts : list (list Q)) (size_u size_v : Z) (s : Surface.t) :
  Surface._surface_points (post (Surface.set_ctrlpts ctrlpts size_u size_v s)) = [].
Proof.
  unfold Surface.set_ctrlpts.
  rewrite seq_Ok with (a := tt) (s' := Surface.with_surface_points s []) (w := [])
    by apply reset_surface_eq.
  cbn [post].
  apply (seq_keeps (fun s' => Surface._surface_points s' = [])).
  { unfold Surface._reset_ctrlpts. destruct (nonempty _); reflexivity. }
  intros _ s1 H1. rewrite seq_get, seq_guard.
  destruct ((Surface._degree_u s1 =? 0) || (Surface._degree_v s1 =? 0)); [exact H1|].
  rewrite seq_guard. destruct (size_u <? Surface._degree_u s1 + 1); [exact H1|].
  rewrite seq_guard. destruct (size_v <? Surface._degree_v s1 + 1); [exact H1|].
  apply (seq_keeps (fun s' => Surface._surface_points s' = [])).
  { apply for_each_invariant; [|exact H1].
    intros cpt s2 H2. destruct (negb (len cpt =? Surface._dimension s1)); exact H2. }
  intros _ s2 H2. rewrite seq_put.
  apply for_each_invariant; [|exact H1].
  intros i s3 H3.
  destruct (for_ (range 0 size_v) _ []) as [row|e];
    [rewrite seq_lift_Ok | rewrite seq_lift_Raise; exact H3].
  rewrite seq_get. exact H3.
Qed.

(** [transpose()] changes nothing or leaves no cache. *)
Lemma transpose_cache (s : Surface.t) :
  res (Surface.transpose s) = Ok tt ->
  Surface._surface_points (post (Surface.transpose s)) = [].
Proof.
  unfold Surface.transpose. rewrite seq_get. cbv zeta.
  destruct (for_ (range 0 (Surface._control_points_size_v s)) _ []) as [G|e];
    [rewrite seq_lift_Ok | rewrite seq_lift_Raise; discriminate].
  destruct (for_ (range 0 (Surface._control_points_size_u s)) _ []) as [flat|e];
    [rewrite seq_lift_Ok | rewrite seq_lift_Raise; discriminate].
  rewrite seq_Ok with (a := tt) (s' := Surface.with_surface_points s []) (w := [])
    by apply reset_surface_eq.
  intros _. reflexivity.
Qed.

(** The two blocks of [insert_knot] do not touch the cache. *)
Lemma insert_u_cache (U : utilities.t) (x : Q) (r : Z) (env : Surface.locals)
    (s : Surface.t) :
  Surface._surface_points (post (Surface.insert_u U x r env s)) = Surface._surface_points s.
Proof.
  unfold Surface.insert_u. rewrite seq_get.
  destruct (utilities.find_multiplicity U x (Surface._knot_vector_u s)) as [s_u|e];
    [rewrite seq_lift_Ok | rewrite seq_lift_Raise; reflexivity].
  destruct (r >? Surface._degree_u s - s_u).
  { cbn. reflexivity. }
  rewrite seq_ret.
  destruct (Surface.can_insert_knot env); [|reflexivity].
  destruct (utilities.find_span U _ _ _ x) as [k|e];
    [rewrite seq_lift_Ok | rewrite seq_lift_Raise; reflexivity].
  destruct (Surface.A5_3_u s x r s_u k _) as [[[UQ G] L]|e];
    [rewrite seq_lift_Ok | rewrite seq_lift_Raise; reflexivity].
  cbv beta iota. rewrite seq_put. reflexivity.
Qed.

Lemma insert_v_cache (U : utilities.t) (x : Q) (r : Z) (env : Surface.locals)
    (s : Surface.t) :
  Surface._surface_points (post (Surface.insert_v U x r env s)) = Surface._surface_points s.
Proof.
  unfold Surface.insert_v. rewrite seq_get.
  destruct (utilities.find_multiplicity U x (Surface._knot_vector_v s)) as [s_v|e];
    [rewrite seq_lift_Ok | rewrite seq_lift_Raise; reflexivity].
  destruct (r >? Surface._degree_v s - s_v).
  { cbn. reflexivity. }
  rewrite seq_ret.
  destruct (Surface.can_insert_knot env); [|reflexivity].
  destruct (utilities.find_span U _ _ _ x) as [k|e];
    [rewrite seq_lift_Ok | rewrite seq_lift_Raise; reflexivity].
  destruct (Surface.A5_3_v s x r s_v k _ _) as [[[VQ G] L]|e];
    [rewrite seq_lift_Ok | rewrite seq_lift_Raise; reflexivity].
  cbv beta iota. rewrite seq_put. reflexivity.
Qed.

Lemma fresh2_after_insert_knot (U : utilities.t) (s : Surface.t) (u v : option Q) (r : Z) :
  res (Surface.insert_knot U u v r s) = Ok tt ->
  fresh2 U (post (Surface.insert_knot U u v r s)).
Proof.
  intros Hres. unfold Surface.insert_knot in *. cbv zeta in *. rewrite seq_get in *.
  destruct (Surface._check_variables s) as [[]|e];
    [rewrite seq_lift_Ok in * | rewrite seq_lift_Raise in Hres; discriminate].
  apply (seq_returns _ _ _ _ _ Hres). intros [] _. clear Hres.
  assert (E : post ((if truthy u || truthy v then lift (utilities.check_uv U u v) else pass) s)
              = s) by (destruct (truthy u || truthy v); reflexivity).
  rewrite E. clear E. rewrite seq_guard. destruct (r <? 0); [discriminate|].
  intros Hres. apply (seq_returns _ _ _ _ _ Hres). intros env1 _. clear Hres.
  match goal with |- context [post (?m s)] =>
    assert (E : Surface._surface_points (post (m s)) = Surface._surface_points s);
    [|revert E; generalize (post (m s))]
  end.
  { destruct u as [x|]; [destruct (truthy (Some x))|]; try reflexivity.
    apply insert_u_cache. }
  intros s1 H1 Hres. apply (seq_returns _ _ _ _ _ Hres). intros env2 _. clear Hres.
  match goal with |- context [post (?m s1)] =>
    assert (E : Surface._surface_points (post (m s1)) = Surface._surface_points s1);
    [|revert E; generalize (post (m s1))]
  end.
  { destruct v as [x|]; [destruct (truthy (Some x))|]; try reflexivity.
    apply insert_v_cache. }
  intros s2 H2. rewrite !seq_get.
  destruct (nonempty (Surface._surface_points s2)) eqn:E.
  - apply fresh2_after_evaluate.
  - intros _. left. apply nonempty_false, E.
Qed.

(** X24.  The cache of a surface is never stale.  After every setter,
    [set_ctrlpts], [transpose()], [evaluate()] and [insert_knot] called
    with [r >= 1] or with at most one of [u] and [v] given, when the call
    returns, the cached points are none or the points [surfpt(u, v)] of
    the surface as it is, at the parameters of [evaluate], row by row; and
    when this holds, what the getter of [surfpts] returns are the points of
    the surface as it is. *)
Theorem surface_cache_never_stale (U : utilities.t) (K : utilities.knots) (s : Surface.t) :
  (forall m, surface_method U K m -> res (m s) = Ok tt -> fresh2 U (post (m s)))
  /\ (fresh2 U s ->
      forall pts, res (Surface.surfpts U s) = Ok pts ->
        fresh2 U (post (Surface.surfpts U s))
        /\ exists rows,
             comprehension (fun u =>
               comprehension (fun v => Surface.surfpt U s u v false)
                 (utilities.frange U 0 1 (Surface._delta s)))
               (utilities.frange U 0 1 (Surface._delta s)) = Ok rows
             /\ pts = concat rows).
Proof.
  split.
  - intros m Hm Hres. destruct Hm as [m Hm|ctrlpts size_u size_v| | |u v r _].
    + left. destruct Hm as [value|value|value|value|value|value|value].
      * rewrite degree_u_setter_eq in *.
        destruct (value <? 0); [discriminate | reflexivity].
      * rewrite degree_v_setter_eq in *.
        destruct (value <? 0); [discriminate | reflexivity].
      * unfold Surface.order_u_setter in *. rewrite degree_u_setter_eq in *.
        destruct (value - 1 <? 0); [discriminate | reflexivity].
      * unfold Surface.order_v_setter in *. rewrite degree_v_setter_eq in *.
        destruct (value - 1 <? 0); [discriminate | reflexivity].
      * rewrite surface_delta_setter_eq in *.
        destruct (Qle_bool value 0 || Qle_bool 1 value); [discriminate | reflexivity].
      * rewrite knotvector_u_setter_eq in *.
        destruct ((Surface._degree_u s =? 0) || (Surface._control_points_size_u s =? 0));
          [discriminate|].
        destruct (utilities.normalize_knot_vector K value) as [kv|e]; [|discriminate].
        destruct (utilities.check_knot_vector K _ kv _); [reflexivity | discriminate].
      * rewrite knotvector_v_setter_eq in *.
        destruct ((Surface._degree_v s =? 0) || (Surface._control_points_size_v s =? 0));
          [discriminate|].
        destruct (utilities.normalize_knot_vector K value) as [kv|e]; [|discriminate].
        destruct (utilities.check_knot_vector K _ kv _); [reflexivity | discriminate].
    + left. apply set_ctrlpts_cache.
    + left. apply transpose_cache, Hres.
    + apply fresh2_after_evaluate, Hres.
    + apply fresh2_after_insert_knot, Hres.
  - intros Hf pts Hres. unfold Surface.surfpts in *. rewrite seq_get in *.
    destruct (Surface._surface_points s) as [|p l] eqn:E.
    + cbn [nonempty negb] in *.
      destruct (Surface.evaluate U s) as [[[]|e] s' w] eqn:Hev.
      * rewrite seq_Ok with (a := tt) (s' := s') (w := w) in Hres |- * by exact Hev.
        rewrite seq_get in Hres |- *. cbn in Hres. inversion Hres as [Hpts].
        destruct (surface_evaluate_Ok U s) as (rows & Hrows & Hpost);
          [rewrite Hev; reflexivity|].
        rewrite Hev in Hpost. cbn in Hpost. subst s'. cbn. split.
        -- apply fresh2_evaluated, Hrows.
        -- exists rows. split; [exact Hrows | reflexivity].
      * rewrite seq_Raise with (e := e) (s' := s') (w := w) in Hres by exact Hev.
        discriminate.
    + cbn [nonempty negb] in *. rewrite seq_pass, seq_get in *. cbn in *.
      rewrite E in Hres. inversion Hres as [Hpts]. split; [exact Hf|].
      destruct Hf as [Hnil | (rows & Hrows & Hpts')]; [congruence|].
      exists rows. split; [exact Hrows | congruence].
Qed.

Lemma surface_cache_never_stale_witness :
  fresh2 utils (post (Surface.insert_knot utils (Some (1 # 4)) None 1
                        Examples.grid32_evaluated))
  /\ fresh2 utils (post (Surface.transpose Examples.grid32_evaluated)).
Proof.
  pose (K := {| utilities.normalize_knot_vector := fun v => Ok v;
                utilities.check_knot_vector := spec.check_knot_vector |}).
  destruct (surface_cache_never_stale utils K Examples.grid32_evaluated) as (H & _).
  split.
  - apply (H _ (call_surface_insert_knot utils K (Some (1 # 4)) None 1
                  ltac:(left; lia))).
    vm_compute. reflexivity.
  - apply (H _ (call_transpose utils K)). vm_compute. reflexivity.
Defined.

(** ** insert_knot: what a call that raises leaves *)

(** The [if u:] and [if v:] blocks store their result in one step, after
    everything that can raise. *)
Lemma insert_u_atomic (U : utilities.t) (x : Q) (r : Z) (env : Surface.locals)
    (s : Surface.t) (e : exn) :
  res (Surface.insert_u U x r env s) = Raise e -> post (Surface.insert_u U x r env s) = s.
Proof.
  unfold Surface.insert_u. rewrite seq_get.
  destruct (utilities.find_multiplicity U x (Surface._knot_vector_u s)) as [s_u|e'];
    [rewrite seq_lift_Ok | rewrite seq_lift_Raise; reflexivity].
  destruct (r >? Surface._degree_u s - s_u).
  { cbn. discriminate. }
  rewrite seq_ret.
  destruct (Surface.can_insert_knot env); [|discriminate].
  destruct (utilities.find_span U _ _ _ x) as [k|e'];
    [rewrite seq_lift_Ok | rewrite seq_lift_Raise; reflexivity].
  destruct (Surface.A5_3_u s x r s_u k _) as [[[UQ G] L]|e'];
    [rewrite seq_lift_Ok | rewrite seq_lift_Raise; reflexivity].
  cbv beta iota. rewrite seq_put. discriminate.
Qed.

Lemma insert_v_atomic (U : utilities.t) (x : Q) (r : Z) (env : Surface.locals)
    (s : Surface.t) (e : exn) :
  res (Surface.insert_v U x r env s) = Raise e -> post (Surface.insert_v U x r env s) = s.
Proof.
  unfold Surface.insert_v. rewrite seq_get.
  destruct (utilities.find_multiplicity U x (Surface._knot_vector_v s)) as [s_v|e'];
    [rewrite seq_lift_Ok | rewrite seq_lift_Raise; reflexivity].
  destruct (r >? Surface._degree_v s - s_v).
  { cbn. discriminate. }
  rewrite seq_ret.
  destruct (Surface.can_insert_knot env); [|discriminate].
  destruct (utilities.find_span U _ _ _ x) as [k|e'];
    [rewrite seq_lift_Ok | rewrite seq_lift_Raise; reflexivity].
  destruct (Surface.A5_3_v s x r s_v k _ _) as [[[VQ G] L]|e'];
    [rewrite seq_lift_Ok | rewrite seq_lift_Raise; reflexivity].
  cbv beta iota. rewrite seq_put. discriminate.
Qed.

(** X26.  An [insert_knot] that raises on a curve or surface without cached
    points has inserted nothing: the curve is as it was, and so is the
    surface when at most one of [u] and [v] is given.  (With cached points
    the new knots and control points are stored before [evaluate()] runs
    and may raise.) *)
Theorem insert_knot_raises_atomically (U : utilities.t) (r : Z) (e : exn) :
  (forall (c : Curve.t) (u : Q),
     Curve._curve_points c = [] ->
     res (Curve.insert_knot U u r c) = Raise e ->
     post (Curve.insert_knot U u r c) = c)
  /\ (forall (s : Surface.t) (u v : option Q),
     Surface._surface_points s = [] ->
     truthy u = false \/ truthy v = false ->
     res (Surface.insert_knot U u v r s) = Raise e ->
     post (Surface.insert_knot U u v r s) = s).
Proof.
  split.
  - intros c u Hcache. unfold Curve.insert_knot. rewrite seq_get.
    destruct (Curve._check_variables c) as [[]|e'];
      [rewrite seq_lift_Ok | rewrite seq_lift_Raise; reflexivity].
    destruct (utilities.check_uv U (Some u) None) as [[]|e'];
      [rewrite seq_lift_Ok | rewrite seq_lift_Raise; reflexivity].
    rewrite seq_guard. destruct (r <? 0); [reflexivity|].
    destruct (utilities.find_multiplicity U u (Curve._knot_vector c)) as [s|e'];
      [rewrite seq_lift_Ok | rewrite seq_lift_Raise; reflexivity].
    destruct (r >? Curve._degree c - s); [reflexivity|].
    destruct (utilities.find_span U _ _ _ u) as [k|e'];
      [rewrite seq_lift_Ok | rewrite seq_lift_Raise; reflexivity].
    destruct (Curve.A5_1 c u r s k) as [new|e'];
      [rewrite seq_lift_Ok | rewrite seq_lift_Raise; reflexivity].
    rewrite seq_put, seq_get.
    cbn [Curve._curve_points Curve.with_control_points Curve.with_knot_vector].
    rewrite Hcache. cbn. discriminate.
  - intros s u v Hcache Hone. unfold Surface.insert_knot. cbv zeta. rewrite seq_get.
    destruct (Surface._check_variables s) as [[]|e'];
      [rewrite seq_lift_Ok | rewrite seq_lift_Raise; reflexivity].
    destruct ((if truthy u || truthy v then lift (utilities.check_uv U u v) else pass) s)
      as [[[]|e'] s1 w1] eqn:E1.
    2:{ rewrite seq_Raise with (e := e') (s' := s1) (w := w1) by exact E1.
        destruct (truthy u || truthy v); inversion E1; reflexivity. }
    assert (s1 = s) by (destruct (truthy u || truthy v); inversion E1; reflexivity).
    subst s1. rewrite seq_Ok with (a := tt) (s' := s) (w := w1) by exact E1.
    cbn [res post warned]. rewrite seq_guard. destruct (r <? 0); [reflexivity|].
    destruct Hone as [Hu | Hv].
    + assert (Eu : match u with
                   | Some x => if truthy u then Surface.insert_u U x r
                        {| Surface.can_insert_knot := true; Surface.k_u := None;
                           Surface.L := None |}
                               else ret {| Surface.can_insert_knot := true;
                                           Surface.k_u := None; Surface.L := None |}
                   | None => ret {| Surface.can_insert_knot := true;
                                    Surface.k_u := None; Surface.L := None |}
                   end = ret {| Surface.can_insert_knot := true;
                                Surface.k_u := None; Surface.L := None |})
        by (rewrite Hu; destruct u; reflexivity).
      rewrite Eu, seq_ret.
      match goal with |- context [seq_ ?m ?f s] =>
        destruct (m s) as [[env|e'] s2 w2] eqn:E2
      end.
      * rewrite seq_Ok with (a := env) (s' := s2) (w := w2) by exact E2.
        cbn [res post warned]. rewrite seq_get.
        assert (H2 : Surface._surface_points s2 = []).
        { replace s2 with (post (match v with
                                 | Some x => if truthy v then Surface.insert_v U x r
                                      {| Surface.can_insert_knot := true; Surface.k_u := None;
                                         Surface.L := None |}
                                             else ret {| Surface.can_insert_knot := true;
                                                         Surface.k_u := None; Surface.L := None |}
                                 | None => ret {| Surface.can_insert_knot := true;
                                                  Surface.k_u := None; Surface.L := None |}
                                 end s)) by (rewrite E2; reflexivity).
          rewrite <- Hcache.
          destruct v as [x|]; [destruct (truthy (Some x))|]; try reflexivity.
          apply insert_v_cache. }
        rewrite H2. cbn. discriminate.
      * rewrite seq_Raise with (e := e') (s' := s2) (w := w2) by exact E2.
        cbn [res post]. intros _.
        destruct v as [x|]; [destruct (truthy (Some x))|]; try (inversion E2; fail).
        match type of E2 with Surface.insert_v U x r ?env s = _ =>
          pose proof (insert_v_atomic U x r env s e') as H
        end.
        rewrite E2 in H.
        apply H. reflexivity.
    + match goal with |- context [seq_ ?m ?f s] =>
        destruct (m s) as [[env|e'] s2 w2] eqn:E2
      end.
      * rewrite seq_Ok with (a := env) (s' := s2) (w := w2) by exact E2.
        cbn [res post warned].
        assert (Ev : match v with
                     | Some x => if truthy v then Surface.insert_v U x r env
                                 else ret env
                     | None => ret env
                     end = ret env)
          by (rewrite Hv; destruct v; reflexivity).
        rewrite Ev, seq_ret, seq_get.
        assert (H2 : Surface._surface_points s2 = []).
        { replace s2 with (post (match u with
                                 | Some x => if truthy u then Surface.insert_u U x r
                                      {| Surface.can_insert_knot := true; Surface.k_u := None;
                                         Surface.L := None |}
                                             else ret {| Surface.can_insert_knot := true;
                                                         Surface.k_u := None; Surface.L := None |}
                                 | None => ret {| Surface.can_insert_knot := true;
                                                  Surface.k_u := None; Surface.L := None |}
                                 end s)) by (rewrite E2; reflexivity).
          rewrite <- Hcache.
          destruct u as [x|]; [destruct (truthy (Some x))|]; try reflexivity.
          apply insert_u_cache. }
        rewrite H2. cbn. discriminate.
      * rewrite seq_Raise with (e := e') (s' := s2) (w := w2) by exact E2.
        cbn [res post]. intros _.
        destruct u as [x|]; [destruct (truthy (Some x))|]; try (inversion E2; fail).
        match type of E2 with Surface.insert_u U x r ?env s = _ =>
          pose proof (insert_u_atomic U x r env s e') as H
        end.
        rewrite E2 in H.
        apply H. reflexivity.
Qed.

Lemma insert_knot_raises_atomically_witness :
  post (Curve.insert_knot utils 2 1 Examples.curve) = Examples.curve
  /\ post (Surface.insert_knot utils None (Some (3 # 4)) 1 Examples.grid23) = Examples.grid23.
Proof.
  destruct (insert_knot_raises_atomically utils 1 ValueError) as [H1 _].
  destruct (insert_knot_raises_atomically utils 1 UnboundLocalError) as [_ H2].
  split.
  - apply (H1 Examples.curve 2%Q); reflexivity.
  - apply (H2 Examples.grid23 None (Some (3 # 4))).
    + reflexivity.
    + left. reflexivity.
    + vm_compute. reflexivity.
Defined.

(** ** Surface.insert_knot: the sizes it leaves *)

Lemma seq_Ok_inv {S A B} (m : method S A) (f : A -> method S B) (s s' : S) (b : B)
    (w : list warning) :
  seq_ m f s = Outcome (Ok b) s' w ->
  exists a s1 w1 w2,
    m s = Outcome (Ok a) s1 w1 /\ f a s1 = Outcome (Ok b) s' w2 /\ w = w1 ++ w2.
Proof.
  unfold seq_. destruct (m s) as [[a|e] s1 w1]; cbn; [|discriminate].
  intros H. exists a, s1, w1, (warned (f a s1)).
  split; [reflexivity|]. inversion H as [[H1 H2 H3]].
  rewrite H1, H2. split; [|reflexivity].
  rewrite <- H1, <- H2. symmetry. apply outcome_eta.
Qed.

Lemma load_knot_vector_length (knot_vector : list Q) (k r : Z) (x : Q)
    (UQ : list (option Q)) :
  A5.load_knot_vector knot_vector k r x = Ok UQ ->
  length UQ = Z.to_nat (len knot_vector + r).
Proof.
  unfold A5.load_knot_vector. cbv zeta. intros H.
  apply bind_Ok_inv in H as (UQ1 & E1 & H).
  apply bind_Ok_inv in H as (UQ2 & E2 & E3).
  assert (H0 : length (replicateZ (len knot_vector + r) (@None Q))
               = Z.to_nat (len knot_vector + r)) by apply length_replicate.
  assert (H1 : length UQ1 = Z.to_nat (len knot_vector + r)).
  { refine (for_partial (fun l => length l = Z.to_nat (len knot_vector + r)) _ _ _ _ _ H0 E1).
    intros i l l' Hl Hb. apply bind_Ok_inv in Hb as (y & _ & Hb).
    rewrite (setitem_length _ _ _ _ Hb). exact Hl. }
  assert (H2 : length UQ2 = Z.to_nat (len knot_vector + r)).
  { refine (for_partial (fun l => length l = Z.to_nat (len knot_vector + r)) _ _ _ _ _ H1 E2).
    intros i l l' Hl Hb. rewrite (setitem_length _ _ _ _ Hb). exact Hl. }
  refine (for_partial (fun l => length l = Z.to_nat (len knot_vector + r)) _ _ _ _ _ H2 E3).
  intros i l l' Hl Hb. apply bind_Ok_inv in Hb as (y & _ & Hb).
  rewrite (setitem_length _ _ _ _ Hb). exact Hl.
Qed.

Lemma filled_length {A} (l : list (option A)) (l' : list A) :
  A5.filled l = Ok l' -> length l' = length l.
Proof. apply comprehension_length. Qed.

Lemma A5_3_u_knots (s : Surface.t) (u : Q) (r s_u k_u : Z) (L : option Z)
    (UQ : list Q) (G : list (list Surface.point)) (L' : option Z) :
  0 <= r ->
  Surface.A5_3_u s u r s_u k_u L = Ok (UQ, G, L') ->
  len UQ = len (Surface._knot_vector_u s) + r.
Proof.
  unfold Surface.A5_3_u. intros Hr H.
  apply bind_Ok_inv in H as (UQ0 & E0 & H).
  apply bind_Ok_inv in H as (aL & _ & H).
  apply bind_Ok_inv in H as ([[Q1 R1] L1] & _ & H).
  apply bind_Ok_inv in H as (UQ1 & E1 & H).
  apply bind_Ok_inv in H as (G1 & _ & H).
  injection H as HU HG HL. subst UQ.
  unfold len at 1. rewrite (filled_length _ _ E1), (load_knot_vector_length _ _ _ _ _ E0).
  unfold len. lia.
Qed.

Lemma A5_3_v_knots (s : Surface.t) (v : Q) (r s_v k_v : Z) (k_u L : option Z)
    (VQ : list Q) (G : list (list Surface.point)) (L' : option Z) :
  0 <= r ->
  Surface.A5_3_v s v r s_v k_v k_u L = Ok (VQ, G, L') ->
  len VQ = len (Surface._knot_vector_v s) + r.
Proof.
  unfold Surface.A5_3_v. intros Hr H.
  apply bind_Ok_inv in H as (VQ0 & E0 & H).
  apply bind_Ok_inv in H as (aL & _ & H).
  apply bind_Ok_inv in H as ([[Q1 R1] L1] & _ & H).
  apply bind_Ok_inv in H as (VQ1 & E1 & H).
  apply bind_Ok_inv in H as (G1 & _ & H).
  injection H as HU HG HL. subst VQ.
  unfold len at 1. rewrite (filled_length _ _ E1), (load_knot_vector_length _ _ _ _ _ E0).
  unfold len. lia.
Qed.

Lemma extended_refl (s : Surface.t) : extended 0 0 s s.
Proof. unfold extended. repeat split; lia. Qed.

Lemma extended_trans (a b c d : Z) (s s1 s2 : Surface.t) :
  extended a b s s1 -> extended c d s1 s2 -> extended (a + c) (b + d) s s2.
Proof. unfold extended. intros H1 H2. repeat split; lia. Qed.

(** The [if u:] block, when it returns without a warning. *)
Lemma insert_u_extended (U : utilities.t) (x : Q) (r : Z) (env env' : Surface.locals)
    (s s' : Surface.t) :
  0 <= r -> Surface.can_insert_knot env = true ->
  Surface.insert_u U x r env s = Outcome (Ok env') s' [] ->
  Surface.can_insert_knot env' = true
  /\ extended r 0 s s'
  /\ Surface._knot_vector_v s' = Surface._knot_vector_v s.
Proof.
  intros Hr Hcan. unfold Surface.insert_u. rewrite seq_get.
  destruct (utilities.find_multiplicity U x (Surface._knot_vector_u s)) as [s_u|e];
    [rewrite seq_lift_Ok | rewrite seq_lift_Raise; discriminate].
  destruct (r >? Surface._degree_u s - s_u).
  { cbn. destruct (Surface.can_insert_knot env); discriminate. }
  rewrite seq_ret, Hcan.
  destruct (utilities.find_span U _ _ _ x) as [k|e];
    [rewrite seq_lift_Ok | rewrite seq_lift_Raise; discriminate].
  destruct (Surface.A5_3_u s x r s_u k _) as [[[UQ G] L]|e] eqn:E;
    [rewrite seq_lift_Ok | rewrite seq_lift_Raise; discriminate].
  cbv beta iota. rewrite seq_put. cbn. intros H. inversion H. subst.
  split; [reflexivity|]. split; [|reflexivity].
  unfold extended. cbn. pose proof (A5_3_u_knots _ _ _ _ _ _ _ _ _ Hr E).
  repeat split; lia.
Qed.

(** The [if v:] block, when it returns without a warning. *)
Lemma insert_v_extended (U : utilities.t) (x : Q) (r : Z) (env env' : Surface.locals)
    (s s' : Surface.t) :
  0 <= r -> Surface.can_insert_knot env = true ->
  Surface.insert_v U x r env s = Outcome (Ok env') s' [] ->
  extended 0 r s s'
  /\ Surface._knot_vector_u s' = Surface._knot_vector_u s.
Proof.
  intros Hr Hcan. unfold Surface.insert_v. rewrite seq_get.
  destruct (utilities.find_multiplicity U x (Surface._knot_vector_v s)) as [s_v|e];
    [rewrite seq_lift_Ok | rewrite seq_lift_Raise; discriminate].
  destruct (r >? Surface._degree_v s - s_v).
  { cbn. destruct (Surface.can_insert_knot env); discriminate. }
  rewrite seq_ret, Hcan.
  destruct (utilities.find_span U _ _ _ x) as [k|e];
    [rewrite seq_lift_Ok | rewrite seq_lift_Raise; discriminate].
  destruct (Surface.A5_3_v s x r s_v k _ _) as [[[VQ G] L]|e] eqn:E;
    [rewrite seq_lift_Ok | rewrite seq_lift_Raise; discriminate].
  cbv beta iota. rewrite seq_put. cbn. intros H. inversion H. subst.
  split; [|reflexivity].
  unfold extended. cbn. pose proof (A5_3_v_knots _ _ _ _ _ _ _ _ _ _ Hr E).
  repeat split; lia.
Qed.

(** X27.  What a [Surface.insert_knot] called with [r >= 1], or with at
    most one of [u] and [v] given, leaves of the sizes when it returns
    without a warning: [r >= 0]; in each direction whose parameter is given
    (is true) there are [r] more knots and [r] more rows, respectively
    columns, of control points, and in a direction that is not given the
    knot vector and the size are as they were; the degrees are as they
    were. *)
Theorem surface_insert_knot_sizes (U : utilities.t) (u v : option Q) (r : Z)
    (s : Surface.t) :
  own_L u v r ->
  res (Surface.insert_knot U u v r s) = Ok tt ->
  warned (Surface.insert_knot U u v r s) = [] ->
  0 <= r
  /\ extended (if truthy u then r else 0) (if truthy v then r else 0)
       s (post (Surface.insert_knot U u v r s))
  /\ (truthy u = false ->
      Surface._knot_vector_u (post (Surface.insert_knot U u v r s))
      = Surface._knot_vector_u s)
  /\ (truthy v = false ->
      Surface._knot_vector_v (post (Surface.insert_knot U u v r s))
      = Surface._knot_vector_v s).
Proof.
  intros _ Hres Hw.
  destruct (Surface.insert_knot U u v r s) as [ret s' w] eqn:E.
  cbn in Hres, Hw |- *. subst ret w.
  unfold Surface.insert_knot in E. cbv zeta in E. rewrite seq_get in E.
  apply seq_Ok_inv in E as ([] & s1 & w1 & w1' & E1 & E & Hw1).
  symmetry in Hw1. apply app_eq_nil in Hw1 as [-> ->].
  assert (s1 = s) by (destruct (Surface._check_variables s); inversion E1; reflexivity).
  subst s1. clear E1.
  apply seq_Ok_inv in E as ([] & s1 & w1 & w1' & E1 & E & Hw1).
  symmetry in Hw1. apply app_eq_nil in Hw1 as [-> ->].
  assert (s1 = s).
  { destruct (truthy u || truthy v); [destruct (utilities.check_uv U u v)|];
      inversion E1; reflexivity. }
  subst s1. clear E1.
  rewrite seq_guard in E. destruct (Z.ltb_spec r 0) as [Hr|Hr]; [discriminate|].
  apply seq_Ok_inv in E as (env1 & s1 & w1 & w1' & E1 & E & Hw1).
  symmetry in Hw1. apply app_eq_nil in Hw1 as [-> ->].
  apply seq_Ok_inv in E as (env2 & s2 & w2 & w2' & E2 & E & Hw2).
  symmetry in Hw2. apply app_eq_nil in Hw2 as [-> ->].
  rewrite seq_get in E.
  assert (Hu : Surface.can_insert_knot env1 = true
               /\ extended (if truthy u then r else 0) 0 s s1
               /\ Surface._knot_vector_v s1 = Surface._knot_vector_v s
               /\ (truthy u = false ->
                   Surface._knot_vector_u s1 = Surface._knot_vector_u s)).
  { destruct u as [x|]; [destruct (truthy (Some x)) eqn:Et|].
    - destruct (insert_u_extended U x r
                  {| Surface.can_insert_knot := true; Surface.k_u := None;
                     Surface.L := None |} env1 s s1 Hr eq_refl E1) as (H1 & H2 & H3).
      split; [exact H1|]. split; [exact H2|]. split; [exact H3 | discriminate].
    - inversion E1. subst. split; [reflexivity|]. split; [apply extended_refl|].
      split; reflexivity.
    - inversion E1. subst. split; [reflexivity|]. split; [apply extended_refl|].
      split; reflexivity. }
  destruct Hu as (Hcan & Hu1 & Hu2 & Hu3).
  assert (Hv : extended 0 (if truthy v then r else 0) s1 s2
               /\ Surface._knot_vector_u s2 = Surface._knot_vector_u s1
               /\ (truthy v = false ->
                   Surface._knot_vector_v s2 = Surface._knot_vector_v s1)).
  { destruct v as [x|]; [destruct (truthy (Some x)) eqn:Et|].
    - destruct (insert_v_extended U x r env1 env2 s1 s2 Hr Hcan E2) as (H1 & H2).
      split; [exact H1|]. split; [exact H2 | discriminate].
    - inversion E2. subst. split; [apply extended_refl|]. split; reflexivity.
    - inversion E2. subst. split; [apply extended_refl|]. split; reflexivity. }
  destruct Hv as (Hv1 & Hv2 & Hv3).
  assert (Hs' : exists pts, s' = Surface.with_surface_points s2 pts).
  { destruct (nonempty (Surface._surface_points s2)).
    - destruct (evaluate_writes_cache U s2) as (pts & Hpts). rewrite E in Hpts.
      exists pts. exact Hpts.
    - inversion E. subst s'. exists (Surface._surface_points s2).
      destruct s2; reflexivity. }
  destruct Hs' as (pts & ->).
  pose proof (extended_trans _ _ _ _ _ _ _ Hu1 Hv1) as H.
  rewrite Z.add_0_r, Z.add_0_l in H.
  split; [exact Hr|]. split; [exact H|]. cbn. split.
  - intros Hu. rewrite Hv2. apply Hu3, Hu.
  - intros Hv. rewrite (Hv3 Hv). exact Hu2.
Qed.

Lemma surface_insert_knot_sizes_witness :
  extended 1 0 Examples.grid23
    (post (Surface.insert_knot utils (Some (1 # 2)) None 1 Examples.grid23)).
Proof.
  destruct (surface_insert_knot_sizes utils (Some (1 # 2)) None 1 Examples.grid23)
    as (_ & H & _).
  - left. lia.
  - vm_compute. reflexivity.
  - vm_compute. reflexivity.
  - exact H.
Defined.

(** ** Derivatives of a negative order *)

Lemma getitem_raises {A} (l : list A) (i : Z) :
  (exists x, getitem l i = Ok x) \/ getitem l i = Raise IndexError.
Proof.
  unfold getitem, index.
  destruct ((0 <=? i) && (i <? Z.of_nat (length l))).
  { destruct (l !! Z.to_nat i); eauto. }
  destruct ((- Z.of_nat (length l) <=? i) && (i <? 0)); [|auto].
  destruct (l !! Z.to_nat (Z.of_nat (length l) + i)); eauto.
Qed.

Lemma replicateZ_nil {A} (n : Z) (x : A) : n <= 0 -> replicateZ n x = [].
Proof. intros H. unfold replicateZ. replace (Z.to_nat n) with 0%nat by lia. reflexivity. Qed.

Lemma CK_init_negative (c : Curve.t) (order : Z) :
  0 <= Curve._degree c -> order < 0 -> Curve.CK_init c order = Ok [].
Proof.
  intros Hd Ho. unfold Curve.CK_init.
  rewrite range_nil by lia. rewrite replicateZ_nil by lia. reflexivity.
Qed.

Lemma derivatives_ctrlpts_negative (c : Curve.t) (order r1 r2 : Z) :
  order < 0 -> 0 <= r2 - r1 ->
  Curve.derivatives_ctrlpts c order r1 r2 = Raise IndexError.
Proof.
  intros Ho Hr. unfold Curve.derivatives_ctrlpts. cbv zeta.
  rewrite (replicateZ_nil (order + 1)) by lia.
  rewrite (range_cons 0) by lia. cbn [for_].
  destruct (getitem_raises (Curve._control_points c) (r1 + 0)) as [(cp & ->) | ->];
    reflexivity.
Qed.

(** X28.  [Curve.derivatives(u, order)] with a negative [order] never
    returns, on a curve of non-negative degree: when the checks pass and
    [find_span] and [basis_functions_all] return, it raises [IndexError],
    from [derivatives_ctrlpts], which writes into [PK[0]] of an empty
    [PK]. *)
Theorem derivatives_negative_order (U : utilities.t) (c : Curve.t) (u : Q) (order : Z) :
  0 <= Curve._degree c -> order < 0 ->
  (forall CK, Curve.derivatives U c u order <> Ok CK)
  /\ (forall span b,
        Curve._check_variables c = Ok tt ->
        utilities.check_uv U (Some u) None = Ok tt ->
        utilities.find_span U (Curve._degree c) (Curve._knot_vector c)
          (len (Curve._control_points c)) u = Ok span ->
        utilities.basis_functions_all U (Curve._degree c) (Curve._knot_vector c) span u
          = Ok b ->
        Curve.derivatives U c u order = Raise IndexError).
Proof.
  intros Hd Ho.
  assert (E : forall span,
            Curve.derivatives_ctrlpts c (Z.min (Curve._degree c) order)
              (span - Curve._degree c) span = Raise IndexError)
    by (intros span; apply derivatives_ctrlpts_negative; lia).
  split.
  - intros CK. unfold Curve.derivatives.
    destruct (Curve._check_variables c) as [[]|e]; [cbn [bind] | discriminate].
    destruct (utilities.check_uv U (Some u) None) as [[]|e]; [cbn [bind] | discriminate].
    cbv zeta. rewrite CK_init_negative by assumption. cbn [bind].
    destruct (utilities.find_span U _ _ _ u) as [span|e]; [cbn [bind] | discriminate].
    destruct (utilities.basis_functions_all U _ _ span u) as [b|e];
      [cbn [bind] | discriminate].
    rewrite E. discriminate.
  - intros span b Hvars Huv Hspan Hb. unfold Curve.derivatives.
    rewrite Hvars. cbn [bind]. rewrite Huv. cbn [bind]. cbv zeta.
    rewrite CK_init_negative by assumption. cbn [bind].
    rewrite Hspan. cbn [bind]. rewrite Hb. cbn [bind]. rewrite E. reflexivity.
Qed.

Lemma derivatives_negative_order_witness :
  Curve.derivatives utils Examples.curve (1 # 4) (-1) = Raise IndexError.
Proof.
  destruct (derivatives_negative_order utils Examples.curve (1 # 4) (-1)) as [_ H].
  - simpl. lia.
  - lia.
  - eapply (H 2); [reflexivity | reflexivity | reflexivity | vm_compute; reflexivity].
Defined.
